(* ===== verification/_CoqProject ===== *)
-Q . S2P
Prelude.v
Text.v
Json.v
Sse.v
Exec.v
Child.v
Paging.v
Message.v
Graph.v
Request.v
Usage.v
Gateway.v
Models.v
Agents.v
Tools.v
Bash.v
PeerTool.v
Clock.v
Board.v
Http.v
Projection.v
Provider.v
OpenAI.v
Ollama.v
Settings.v
Session.v
Executor.v
Turn.v
Mcp.v
Stdio.v
Builtin.v
Runtime.v
Router.v
Input.v
Workspace.v
PeerRead.v
Registry.v
RegistryLock.v
Runner.v
Socket.v
Routes.v
Approval.v
Probe.v
Console.v
SseClient.v
Check.v
CommandLine.v
Cli.v
Serve.v
Program.v
Logging.v
