(* ===== verification/Prelude.v ===== *)
(** * A verification of pu-cli

    [pu] is an agent for the command line: it keeps a conversation with a model,
    lets the model run tools within a budget, and can serve the conversation to a
    page and to other servers.  This library models the program's C++ ([src/src]
    and [src/include/pu] of the repository; paths below are under them) as
    executable Gallina definitions and proves what makes each part correct.

    ** How the program is put together

    A line of input goes to the runtime.  A slash command is run by the command
    router; anything else is a turn of the executor, which appends it to the
    session's message graph, asks a provider, runs the tools the model calls, and
    repeats until the model answers.  The provider streams a reply over the HTTP
    client through a parser of server-sent events.  Tool output is cut into pages
    the model reads on demand.  The session is one JSON file.  A server puts
    sockets, REST routes, a worker thread and a board of jobs shared with other
    servers around one runtime.

    ** Files, bottom up

    - [Prelude]: this header, the outcome type [res] of C++ functions that may
      throw or be undefined, byte strings, paths, words, hint databases, tactics.
    - Data: [Text] (UTF-8, core/text.hpp), [Json] (values and readers,
      core/json.hpp), [Clock] (stamps of serve/board.cpp), [Message]
      (session/message.hpp), [Usage] (session/usage.cpp).
    - Streams: [Sse] (core/sse.cpp), [Http] (core/beast_http_client.cpp),
      [Exec] (exec/run.cpp: what a run reports of what it was answered), [Child] (the
      same run as the calls it makes on a pipe and a child), [Paging]
      (paging/paging.cpp).
    - The conversation: [Graph] (session/graph.cpp), [Request]
      (session/request.cpp), [Settings] (session/settings.cpp), [Session]
      (session/session.cpp).
    - Models and configuration: [Gateway] (config/gateway.cpp, backend.cpp),
      [Models] (llm/model_listing.cpp), [Agents] (config/agents.cpp, peer.cpp).
    - Providers: [Projection] (llm/projection.cpp), [Provider]
      (llm/streaming_provider.cpp), [OpenAI], [Ollama].
    - Tools: [Tools] (toolbox, policy, write_file), [Bash], [PeerTool], [Mcp]
      (mcp/), [Stdio] (mcp/stdio_transport.cpp: the child process as system calls),
      [Builtin] (the tools as the runtime registers them).
    - A workspace: [Executor] (runtime/executor.cpp), [Turn] (the executor over a
      provider over the client), [Runtime] (runtime/runtime.cpp), [Router]
      (runtime/command_router.cpp and Runtime::ProcessInput), [Input] (what a line
      does), [Workspace] (all of it over the network).
    - A server: [Board] (serve/board.cpp), [PeerRead] (serve/peer_read.cpp),
      [Registry] (config/serve_registry.cpp), [RegistryLock] (its lock, with the
      servers of a machine interleaved), [Runner] (app/serve_runner.cpp,
      serve_websocket.cpp), [Socket] (one connection: serve_websocket.cpp, the
      handlers of app/serve.cpp), [Routes] (app/serve_http_routes.cpp), [Approval]
      (the gate of a command that must be asked about, runtime/executor.cpp),
      [Serve] (app/serve.cpp: the whole server, from its start to its end).
    - The command line: [Probe] (llm/probe.cpp, model_check.cpp), [Console] (the
      exit codes of app/cli.hpp), [SseClient] (app/cli_sse.cpp), [Check]
      (app/cli_check.cpp), [CommandLine] (the options and pages of app/cli.cpp and
      the flag check of main.cpp), [Cli] (the commands: app/cli.cpp, cli_agents.cpp,
      main.cpp), [Program] (all of it as one program), [Logging]
      (core/logging.cpp).

    ** Conventions

    A class is a record with one definition per method, taking the object and
    returning the next one.  Definitions keep the source's names; a name that
    would clash carries its class or an underscore.  [int] and [int64_t] are [Z]
    with their range or wrap-around written out where the code can leave it,
    [std::size_t] and byte counts are [Z] or [nat], bytes are [ascii], objects of
    Boost.JSON are insertion-ordered lists, [std::map] is [gmap] read in key
    order.  A function that may throw answers in [res]: [Ok], [Throw] with one of
    the exceptions the program tells apart, or [Undef] for undefined behaviour;
    a method that changes the object before it throws returns the changed object
    beside it ([Runtime.step]).  Threads are steps, one per critical section
    ([Runner]); [Serve] composes those of a server over one runtime, with a turn
    taken as the step in which it returns.

    Code that is not the repository's is a parameter: the JSON codec
    ([Json.JsonCodec], with [JsonCodecOk] its documented round trip and
    [bit_codec] an instance), [std::regex], the operating system ([Exec],
    [Builtin.Outside], [Runtime.World], [Registry.Machine], [Routes.Site],
    [Stdio.Kernel], [Serve.Listening]), the
    network ([Http.Network]), MCP servers ([Mcp.Transport]), clocks and random
    ids.  Interfaces between parts are records or classes with their laws:
    [Provider.Protocol] and [ProtocolOk] (discharged by [OpenAI] and [Ollama]),
    [Executor]'s outside world (discharged by [Turn] and [Workspace]),
    [Mcp.Transport] ([Stdio.Stdio_refines] relates the system calls to it),
    [Serve.Turns], what a server asks of a turn (discharged by
    [Serve.serve_turns]).

    ** Fuel

    Structural recursion is used wherever the code's loop is over data.  Where it
    is not, the fuel is shown to be enough: the walks of [Graph] take the number
    of nodes ([Graph.Chain_path]), the rounds of [Executor] the budget of tool
    calls plus two ([Executor.Execute_ends], [Turn.Turn_ends],
    [Workspace.Line_answers]), text scanners the length of the text, the worker of a
    server that stops what it has left to say ([Serve.drain_ends]).
    [Agents.ExpandEnvVars] can run for ever, and the fuel running out stands for
    that.

    ** What the theorems show

    - The conversation is kept well formed by every operation and by every line,
      whatever the network, the model and the tools do and whenever it is stopped
      ([Executor.Execute_settles], [Input.Input_settles], [Graph.Seal_spec],
      [Executor.Round_receipts]); its operations refine those on a list
      ([Graph.AppendAfterLeaf_spec]); it survives being written and read back
      ([Graph.Graph_roundtrip], [Session.Session_roundtrip],
      [Runtime.Restart_resumes]).
    - Every line is answered ([Turn.Turn_ends], [Workspace.Line_answers]); a
      command never asks the model ([Input.Command_effects]); every invocation of
      the program, the server included, ends with a documented status
      ([Program.Program_answers]), a wrong one
      before anything starts ([Cli.Refused_before_start]), and what is printed
      where is what its reader expects ([Cli.Ask_answers],
      [SseClient.RunSse_prints], [Probe.Probe_reports]); what is said to be ignored
      in a configuration is ([Check.Ignored_fields_ignored]); a line of the JSON
      log reads back as what was logged ([Logging.Log_line_reads]).
    - What reaches a model and comes back is right however the network cuts it
      ([Request.BuildRequestPath_spec], [Sse.Feed_all_frames],
      [Provider.Chat_spec], [OpenAI.Calls_assembled], [OpenAI.Stream_end],
      [Http.StreamRequest_spec], [Mcp.Readers_rejoin]).
    - Tools stay within the policy ([Bash.Bash_runs_only_allowed],
      [PeerTool.Peer_posts_before_sending], [Tools.WriteFile_confined],
      [Mcp.McpTool_reports]); a command that is run is waited for and all it wrote is
      captured, or its group is killed ([Child.Run_implements], [Child.Stop_ends]);
      and output is paged without loss ([Paging.Store_spec],
      [Paging.Read_tiles]); a tool server that runs as a child is started, written
      to and stopped as the client assumes, in bounded time, and nothing of it is
      left open ([Stdio.Stdio_refines], [Stdio.Stop_bounded], [Stdio.Stdio_books]).
    - Settings and agents take effect as stated ([Settings.Settings_in_force],
      [Runtime.SetSetting_spec], [Runtime.Switch_spec], [Session.RewindBefore_spec]).
    - A command that must be asked about runs only on an answer to its own
      question ([Approval.Verdict_answers]).
    - A server: the board follows the life of its jobs ([Board.Board_step],
      [Board.Update_taken], [PeerRead.Describe_board]); pages miss no frame and one
      page holds the session ([Runner.Nothing_missed], [Runner.One_page]); turns
      end ([Runner.Turn_settles]); only the token moves the board or queues a turn
      ([Routes.Token_guards], [Routes.Queued_by_peer], [Routes.Board_stays]), and
      every answer is one envelope ([Routes.Envelope]); a connection sends its
      frames in order ([Socket.Frames_in_order]); the file of servers implements a
      list ([Registry.Registry_refines]), which servers that hold its lock change one
      after another ([RegistryLock.Locked_serial]); and all of it together stays well formed
      ([Serve.Serving_stays_ok]), changes the conversation only by a rewind, a
      command or a turn ([Serve.Conversation_moves]), and ends when it is told to
      ([Serve.Serve_ends]).

    Examples beside the theorems evaluate the definitions on concrete inputs where
    the code departs from its comments.

    ** Not modelled

    Signal handlers and consoles (the flag they set is a parameter), the Windows
    branches, the page's JavaScript and the tests.  Boost.Asio and Beast are the
    network and the order in which handlers run, spdlog is what takes the records
    of the log, and the parser of Boost.Program_options, its look-up of an option
    and the layout of its pages are parameters of [Cli].  That a request and a turn
    touch one session at once is a data race of the program, which the model does
    not follow: [Serve] takes the turn as one step. *)
From Stdlib Require Export ZArith Lia SpecFloat.
From Stdlib Require Import Ascii.
From stdpp Require Export base gmap strings list sorting pretty numbers.
From stdpp Require Export list.

#[global] Open Scope Z_scope.
#[global] Set Default Proof Using "Type".

#[global] Arguments String.append !_ _ / : simpl nomatch.

(** ** Automation of the development *)

Create HintDb pu discriminated.
#[export] Hint Constants Opaque : pu.

(** Case analysis on the scrutinee of the outermost match of the goal or of a
    hypothesis, keeping the equation. *)
Ltac case_scrut :=
  match goal with
  | |- context [match ?x with _ => _ end] => destruct x eqn:?
  end.
Ltac case_scrut_in H :=
  match type of H with
  | context [match ?x with _ => _ end] => destruct x eqn:?
  end.
(** Splits every match of a hypothesis that equates a computation with a
    value, discarding the impossible branches. *)
Ltac inv_run H :=
  repeat (case_scrut_in H; try discriminate H; simplify_eq);
  simplify_eq.

(** ** Computations that may throw *)

(** The exceptions the program distinguishes ([include/pu/core/base.hpp]):
    a refusal, a missing thing, a fault of the configuration or the provider
    ([HttpError] is one), and any other [std::exception]. *)
Inductive exn :=
  | RequestRefused (msg : string)
  | NotFound (msg : string)
  | GenericError (msg : string)
  | StdException (msg : string).

Definition what (e : exn) : string :=
  match e with
  | RequestRefused m | NotFound m | GenericError m | StdException m => m
  end.

#[export] Instance exn_eq_dec : EqDecision exn.
Proof. solve_decision. Defined.

(** A computation returns, throws, or has undefined behaviour (an empty
    [std::optional] dereferenced, an out-of-range index). *)
Inductive res (A : Type) :=
  | Ok (a : A)
  | Throw (e : exn)
  | Undef.
Arguments Ok {A} a.
Arguments Throw {A} e.
Arguments Undef {A}.

Definition res_bind {A B} (m : res A) (k : A -> res B) : res B :=
  match m with
  | Ok a => k a
  | Throw e => Throw e
  | Undef => Undef
  end.

Definition res_map {A B} (f : A -> B) (m : res A) : res B :=
  res_bind m (fun a => Ok (f a)).

Lemma if_same {A} (b : bool) (x : A) : (if b then x else x) = x.
Proof. by destruct b. Qed.

Declare Scope pu_scope.
Delimit Scope pu_scope with pu.
Notation "'let?' x ':=' m 'in' k" := (res_bind m (fun x => k))
  (at level 10, x pattern, m at level 100, k at level 200) : pu_scope.
#[global] Open Scope pu_scope.

Definition is_ok {A} (m : res A) : bool :=
  match m with Ok _ => true | _ => false end.

Lemma Ok_inj {A} (a b : A) : Ok a = Ok b -> a = b.
Proof. by intros [= ->]. Qed.

Lemma res_bind_Ok {A B} (m : res A) (k : A -> res B) b :
  res_bind m k = Ok b <-> exists a, m = Ok a /\ k a = Ok b.
Proof.
  destruct m as [a|e|]; simpl; [|by split; [|intros (? & [=] & _)]..].
  split; [by exists a | by intros (? & [= ->] & ?)].
Qed.

Fixpoint res_mapM {A B} (f : A -> res B) (l : list A) : res (list B) :=
  match l with
  | [] => Ok []
  | x :: l' => let? y := f x in let? ys := res_mapM f l' in Ok (y :: ys)
  end.

Lemma res_mapM_Ok {A B} (f : A -> res B) l ys :
  res_mapM f l = Ok ys <-> Forall2 (fun x y => f x = Ok y) l ys.
Proof.
  revert ys. induction l as [|x l IH]; intros ys; simpl.
  - split; [by intros [= <-]; constructor | by inversion 1].
  - rewrite res_bind_Ok. setoid_rewrite res_bind_Ok. split.
    + intros (y & Hy & ys' & Hys & [= <-]). constructor; [done|]. by apply IH.
    + intros Hf. inversion Hf as [|? y ? ys' Hy Hys]; subst. exists y. split; [done|].
      exists ys'. split; [by apply IH | done].
Qed.

(** ** Strings as byte sequences *)

(** [std::string] is a sequence of bytes; [String.string] is a sequence of
    8-bit [ascii]. *)
Definition byte_z (c : ascii) : Z := Z.of_N (N_of_ascii c).

Definition nl : ascii := "010"%char.
Definition cr : ascii := "013"%char.
Definition tab : ascii := "009"%char.
Definition space : ascii := " "%char.
Definition NL : string := String nl "".
Definition dquote : ascii := "034"%char.
Definition quoted (s : string) : string := String dquote (s +:+ String dquote "").

Fixpoint stake (n : nat) (s : string) : string :=
  match n, s with
  | S n', String c s' => String c (stake n' s')
  | _, _ => ""
  end.

Fixpoint sdrop (n : nat) (s : string) : string :=
  match n, s with
  | S n', String _ s' => sdrop n' s'
  | _, _ => s
  end.

(** [s.find(c)] *)
Fixpoint sfind (c : ascii) (s : string) : option nat :=
  match s with
  | "" => None
  | String d s' => if decide (d = c) then Some 0%nat else S <$> sfind c s'
  end.

(** [s.rfind(c)] *)
Fixpoint srfind (c : ascii) (s : string) : option nat :=
  match s with
  | "" => None
  | String d s' =>
      match srfind c s' with
      | Some i => Some (S i)
      | None => if decide (d = c) then Some 0%nat else None
      end
  end.

(** [s.back()] on a string that may be empty, and [s.pop_back()]. *)
Fixpoint sback (s : string) : option ascii :=
  match s with
  | "" => None
  | String c "" => Some c
  | String _ s' => sback s'
  end.

Fixpoint spop (s : string) : string :=
  match s with
  | "" => ""
  | String c "" => ""
  | String c s' => String c (spop s')
  end.

Fixpoint all_chars (p : ascii -> bool) (s : string) : bool :=
  match s with
  | "" => true
  | String c s' => p c && all_chars p s'
  end.

Definition sempty (s : string) : bool :=
  match s with "" => true | _ => false end.

Fixpoint count_char (c : ascii) (s : string) : nat :=
  match s with
  | "" => 0
  | String d s' => (if decide (d = c) then 1 else 0) + count_char c s'
  end%nat.

Abbreviation slen := String.length.

(** [s.rfind(p, 0) == 0] *)
Definition starts_with (p s : string) : bool := String.prefix p s.

(** [names] joined with [", "], an element of a loop that writes the separator
    only once something has been written. *)
Definition join_with (sep : string) (parts : list string) : string :=
  foldl (fun joined part => (if sempty joined then joined else joined +:+ sep) +:+ part)
        "" parts.

Lemma sempty_true s : sempty s = true <-> s = "".
Proof. destruct s; simpl; split; congruence. Qed.
Lemma sempty_false s : sempty s = false <-> s <> "".
Proof. destruct s; simpl; split; congruence. Qed.

Lemma sapp_nil_r s : s +:+ "" = s.
Proof. induction s as [|c s IH]; [done|]. cbn. by f_equal. Qed.
Lemma sapp_assoc s1 s2 s3 : s1 +:+ (s2 +:+ s3) = (s1 +:+ s2) +:+ s3.
Proof. induction s1 as [|c s IH]; [done|]. cbn. by f_equal. Qed.
Lemma slen_app s1 s2 : slen (s1 +:+ s2) = (slen s1 + slen s2)%nat.
Proof. induction s1 as [|c s IH]; [done|]. cbn. by f_equal. Qed.
Lemma slen_cons c s : slen (String c s) = S (slen s).
Proof. done. Qed.
Lemma slen_0 s : slen s = 0%nat <-> s = "".
Proof. by destruct s. Qed.
Lemma sapp_eq_nil s1 s2 : s1 +:+ s2 = "" <-> s1 = "" /\ s2 = "".
Proof. destruct s1; cbn; split; [by intros ->|by intros [_ ->]|done|by intros [? _]]. Qed.
Lemma sapp_inj_r s t1 t2 : s +:+ t1 = s +:+ t2 -> t1 = t2.
Proof. induction s as [|c s IH]; cbn; [done|]. intros [= H]. by apply IH. Qed.
Lemma sapp_inj_len s1 s2 t1 t2 :
  slen s1 = slen s2 -> s1 +:+ t1 = s2 +:+ t2 -> s1 = s2 /\ t1 = t2.
Proof.
  revert s2. induction s1 as [|c s1 IH]; intros [|d s2]; cbn; try done.
  intros [= Hl] [= -> H]. destruct (IH s2 Hl H) as [-> ->]. done.
Qed.

Lemma stake_sdrop n s : stake n s +:+ sdrop n s = s.
Proof. revert s. induction n as [|n IH]; intros [|c s]; cbn; try done. by rewrite IH. Qed.
Lemma slen_stake n s : slen (stake n s) = (n `min` slen s)%nat.
Proof.
  revert s. induction n as [|n IH]; intros [|c s]; cbn; try done.
  rewrite IH. lia.
Qed.
Lemma slen_sdrop n s : slen (sdrop n s) = (slen s - n)%nat.
Proof.
  revert s. induction n as [|n IH]; intros [|c s]; cbn; try done.
Qed.
Lemma stake_app_exact s t : stake (slen s) (s +:+ t) = s.
Proof. induction s as [|c s IH]; cbn; [by destruct t|]. f_equal. apply IH. Qed.
Lemma sdrop_app_exact s t : sdrop (slen s) (s +:+ t) = t.
Proof. induction s as [|c s IH]; cbn; [by destruct t|]. apply IH. Qed.
Lemma stake_ge n s : (slen s <= n)%nat -> stake n s = s.
Proof.
  revert s. induction n as [|n IH]; intros [|c s]; cbn; try done; try lia.
  intros H. f_equal. apply IH. lia.
Qed.
Lemma sdrop_ge n s : (slen s <= n)%nat -> sdrop n s = "".
Proof.
  revert s. induction n as [|n IH]; intros [|c s]; cbn; try done; try lia.
  intros H. apply IH. lia.
Qed.
Lemma stake_0 s : stake 0 s = "".
Proof. by destruct s. Qed.
Lemma sdrop_0 s : sdrop 0 s = s.
Proof. by destruct s. Qed.

Lemma all_chars_app p s t : all_chars p (s +:+ t) = all_chars p s && all_chars p t.
Proof. induction s as [|c s IH]; cbn; [done|]. by rewrite IH, andb_assoc. Qed.

Lemma sfind_None c s : sfind c s = None <-> count_char c s = 0%nat.
Proof.
  induction s as [|d s IH]; cbn; [done|]. case_decide; [done|].
  rewrite fmap_None. done.
Qed.
Lemma sfind_Some c s i :
  sfind c s = Some i ->
  s = stake i s +:+ String c (sdrop (S i) s) /\ sfind c (stake i s) = None
  /\ slen (stake i s) = i.
Proof.
  revert i. induction s as [|d s IH]; intros i; cbn; [done|]. case_decide as Hd.
  - intros [= <-]. subst. by destruct s.
  - intros (j & (H1 & H2 & H3)%IH & ->)%fmap_Some. cbn. rewrite decide_False by done.
    rewrite H2, H3. repeat split; try done. f_equal. done.
Qed.
Lemma sfind_app_None c s t :
  sfind c s = None -> sfind c (s +:+ String c t) = Some (slen s).
Proof.
  induction s as [|d s IH]; cbn; [by rewrite decide_True|]. case_decide; [done|].
  intros Hs%fmap_None. by rewrite IH.
Qed.
Lemma sfind_app_Some c s t i : sfind c s = Some i -> sfind c (s +:+ t) = Some i.
Proof.
  revert i. induction s as [|d s IH]; intros i; cbn; [done|]. case_decide; [done|].
  intros (j & Hj & ->)%fmap_Some. by rewrite (IH _ Hj).
Qed.
Lemma count_char_app c s t : count_char c (s +:+ t) = (count_char c s + count_char c t)%nat.
Proof. induction s as [|d s IH]; cbn; [done|]. rewrite IH. lia. Qed.

Lemma sback_snoc s c : sback (s +:+ String c "") = Some c.
Proof. induction s as [|d s IH]; [done|]. cbn in *. destruct (s +:+ _) eqn:E; [by destruct s|done]. Qed.
Lemma spop_snoc s c : spop (s +:+ String c "") = s.
Proof.
  induction s as [|d s IH]; [done|]. cbn in *. destruct (s +:+ _) eqn:E; [by destruct s|].
  by rewrite IH.
Qed.
Lemma sback_spop s c : sback s = Some c -> s = spop s +:+ String c "".
Proof.
  induction s as [|d s IH]; [done|]. cbn. destruct s as [|e s].
  - by intros [= ->].
  - intros H. cbn. f_equal. by apply IH.
Qed.
Lemma sback_None s : sback s = None <-> s = "".
Proof.
  induction s as [|d s IH]; [done|]. destruct s as [|e s]; [done|].
  change (sback (String e s) = None <-> String d (String e s) = ""). rewrite IH. done.
Qed.
Lemma slen_spop s : slen (spop s) = Nat.pred (slen s).
Proof.
  induction s as [|d s IH]; [done|]. destruct s as [|e s]; [done|].
  change (S (slen (spop (String e s))) = slen (String e s)). rewrite IH. done.
Qed.
Lemma snoc_ind (P : string -> Prop) :
  P "" -> (forall s c, P s -> P (s +:+ String c "")) -> forall s, P s.
Proof.
  intros H0 H1 s. remember (slen s) as n eqn:Hn. revert s Hn.
  induction n as [|n IH]; intros s Hn.
  - symmetry in Hn. apply slen_0 in Hn. by subst.
  - destruct (sback s) as [c|] eqn:Hb.
    + rewrite (sback_spop _ _ Hb). apply H1, IH. by rewrite slen_spop, <- Hn.
    + apply sback_None in Hb. by subst.
Qed.

Lemma byte_z_range c : 0 <= byte_z c < 256.
Proof. unfold byte_z. pose proof (N_ascii_bounded c). lia. Qed.

Create Rewrite HintDb pu_str.
#[export] Hint Rewrite sapp_nil_r slen_app slen_cons slen_stake slen_sdrop : pu_str.

(** ** [std::map] keyed by strings *)

(** A [std::map] iterates in the order of its keys. *)
Definition key_le {V} (a b : string * V) : Prop := Is_true (String.leb a.1 b.1).

#[export] Instance key_le_dec {V} (a b : string * V) : Decision (key_le a b).
Proof. unfold key_le. apply _. Defined.

Definition map_entries {V} (m : gmap string V) : list (string * V) :=
  merge_sort key_le (map_to_list m).

Lemma map_entries_Permutation {V} (m : gmap string V) : map_entries m ≡ₚ map_to_list m.
Proof. apply merge_sort_Permutation. Qed.

Lemma elem_of_map_entries {V} (m : gmap string V) k v :
  (k, v) ∈ map_entries m <-> m !! k = Some v.
Proof. rewrite map_entries_Permutation. apply elem_of_map_to_list. Qed.

Lemma NoDup_map_entries {V} (m : gmap string V) : NoDup (map_entries m).*1.
Proof. rewrite map_entries_Permutation. apply NoDup_fst_map_to_list. Qed.

Lemma list_to_map_entries {V} (m : gmap string V) : list_to_map (map_entries m) = m.
Proof.
  rewrite (list_to_map_proper (map_entries m) (map_to_list m)).
  - apply list_to_map_to_list.
  - apply NoDup_map_entries.
  - apply map_entries_Permutation.
Qed.

(** ** Numbers read from text *)

Definition is_digit (c : ascii) : bool := (48 <=? byte_z c) && (byte_z c <=? 57).
Definition digit_z (c : ascii) : Z := byte_z c - 48.

(** [std::isspace] in the C locale. *)
Definition is_space (c : ascii) : bool :=
  (byte_z c =? 32) || ((9 <=? byte_z c) && (byte_z c <=? 13)).

Fixpoint skip_space (s : string) : string :=
  match s with
  | "" => ""
  | String c s' => if is_space c then skip_space s' else s
  end.

(** The leading digits of [s] as a number, [None] when there are none. *)
Fixpoint read_digits (s : string) (acc : option Z) : option Z :=
  match s with
  | String c s' =>
      if is_digit c then read_digits s' (Some (default 0 acc * 10 + digit_z c)) else acc
  | "" => acc
  end.

(** What [strtol] reads: white space, a sign, digits; what follows is ignored. *)
Definition read_signed (s : string) : option Z :=
  match skip_space s with
  | String c s' =>
      if decide (c = "-"%char) then Z.opp <$> read_digits s' None
      else if decide (c = "+"%char) then read_digits s' None
      else read_digits (String c s') None
  | "" => None
  end.

(** [std::stoi]; [None] where it throws. *)
Definition stoi (s : string) : option Z :=
  match read_signed s with
  | Some z => if (- 2 ^ 31 <=? z) && (z <=? 2 ^ 31 - 1) then Some z else None
  | None => None
  end.

(** [std::stoul] on a 64-bit [unsigned long]: a negative number wraps around,
    and what does not fit throws. *)
Definition stoul (s : string) : option Z :=
  match read_signed s with
  | Some z => if Z.abs z <=? 2 ^ 64 - 1 then Some (z mod 2 ^ 64) else None
  | None => None
  end.

Lemma sfind_ge c s i : sfind c s = Some i -> (i < slen s)%nat.
Proof.
  intros (Hs & _ & Hi)%sfind_Some. rewrite Hs, slen_app. cbn. lia.
Qed.

Lemma sdrop_app n s t : (n <= slen s)%nat -> sdrop n (s +:+ t) = sdrop n s +:+ t.
Proof.
  revert s. induction n as [|n IH]; intros [|c s] Hn; cbn in *; rewrite ?sdrop_0; try done; try lia.
  apply IH. lia.
Qed.

Lemma stake_app_le n s t : (n <= slen s)%nat -> stake n (s +:+ t) = stake n s.
Proof.
  revert s. induction n as [|n IH]; intros [|c s] Hn; cbn in *; rewrite ?stake_0; try done; try lia.
  rewrite IH; [done|lia].
Qed.

(** ** Paths *)

(** [operator/] of two paths. *)
Definition path_join (root p : string) : string :=
  if starts_with "/" p then p
  else match sback root with
       | None => p
       | Some c => if bool_decide (c = "/"%char) then root +:+ p else root +:+ "/" +:+ p
       end.

(** [parent_path] of a path without doubled slashes. *)
Definition parent_path (path : string) : string :=
  match srfind "/" path with
  | Some 0%nat => "/"
  | Some at_ => stake at_ path
  | None => ""
  end.

(** ** Words *)

(** [stream >> word] until it fails. *)
Fixpoint words_from (s current : string) : list string :=
  match s with
  | "" => if sempty current then [] else [current]
  | String c s =>
      if is_space c then (if sempty current then words_from s "" else current :: words_from s "")
      else words_from s (current +:+ String c "")
  end.

Definition words (s : string) : list string := words_from s "".

(** ** Decimal numbers *)

(** [std::to_string] of a nonnegative number. *)
Definition decimal (z : Z) : string := pretty (Z.to_N z).

(** The value a run of digits reads as, after [acc]; [None] on anything else. *)
Fixpoint digits_value (digits : string) (acc : Z) : option Z :=
  match digits with
  | "" => Some acc
  | String c rest => if is_digit c then digits_value rest (acc * 10 + digit_z c) else None
  end.

Lemma pretty_N_char_digit x :
  (x < 10)%N ->
  is_digit (pretty_N_char x) = true /\ digit_z (pretty_N_char x) = Z.of_N x.
Proof.
  intros Hx.
  assert (x = 0 \/ x = 1 \/ x = 2 \/ x = 3 \/ x = 4 \/ x = 5 \/ x = 6 \/ x = 7 \/ x = 8 \/ x = 9)%N as H
    by lia.
  by repeat destruct H as [->|H]; subst.
Qed.

Lemma pretty_N_go_value x s : digits_value (pretty_N_go x s) 0 = digits_value s (Z.of_N x).
Proof.
  revert s. induction (N.lt_wf_0 x) as [x _ IH]. intros s.
  destruct (decide (x = 0)%N) as [->|Hx]; [by rewrite pretty_N_go_0|].
  rewrite pretty_N_go_step by lia. rewrite IH by (apply N.div_lt; lia). cbn [digits_value].
  destruct (pretty_N_char_digit (x `mod` 10)) as [-> ->]; [by apply N.mod_lt|].
  f_equal. rewrite N2Z.inj_div, N2Z.inj_mod. pose proof (Z.div_mod (Z.of_N x) 10). lia.
Qed.

Lemma pretty_N_go_digits x s : all_chars is_digit (pretty_N_go x s) = all_chars is_digit s.
Proof.
  revert s. induction (N.lt_wf_0 x) as [x _ IH]. intros s.
  destruct (decide (x = 0)%N) as [->|Hx]; [by rewrite pretty_N_go_0|].
  rewrite pretty_N_go_step by lia. rewrite IH by (apply N.div_lt; lia). cbn [all_chars].
  by destruct (pretty_N_char_digit (x `mod` 10)) as [-> _]; [apply N.mod_lt|].
Qed.

Lemma pretty_N_go_len k x s :
  (x < 10 ^ N.of_nat k)%N -> (slen (pretty_N_go x s) <= k + slen s)%nat.
Proof.
  revert x s. induction k as [|k IH]; intros x s Hx.
  { assert (x = 0)%N as -> by (cbn in Hx; lia). by rewrite pretty_N_go_0. }
  destruct (decide (x = 0)%N) as [->|Hx0]; [rewrite pretty_N_go_0; lia|].
  rewrite pretty_N_go_step by lia.
  etransitivity; [apply IH|cbn; lia]. apply N.Div0.div_lt_upper_bound.
  by rewrite <- N.pow_succ_r', <- Nat2N.inj_succ.
Qed.

Lemma pretty_N_go_len_ge x s : (slen s <= slen (pretty_N_go x s))%nat.
Proof.
  revert s. induction (N.lt_wf_0 x) as [x _ IH]. intros s.
  destruct (decide (x = 0)%N) as [->|Hx]; [by rewrite pretty_N_go_0|].
  rewrite pretty_N_go_step by lia.
  etransitivity; [|apply IH; apply N.div_lt; lia]. cbn. lia.
Qed.

Lemma decimal_value z : 0 <= z -> digits_value (decimal z) 0 = Some z.
Proof.
  intros Hz. unfold decimal, pretty, pretty_N. case_decide; [by replace z with 0 by lia|].
  rewrite pretty_N_go_value. cbn [digits_value]. f_equal. lia.
Qed.

Lemma decimal_digits z : all_chars is_digit (decimal z) = true.
Proof.
  unfold decimal, pretty, pretty_N. case_decide; [done|]. by rewrite pretty_N_go_digits.
Qed.

Lemma decimal_len k z : (0 < k)%nat -> 0 <= z < 10 ^ Z.of_nat k -> (slen (decimal z) <= k)%nat.
Proof.
  intros Hk Hz. unfold decimal, pretty, pretty_N. case_decide; [done|].
  etransitivity; [apply (pretty_N_go_len k)|cbn; lia]. apply N2Z.inj_lt.
  rewrite N2Z.inj_pow. change (Z.of_N 10) with 10. lia.
Qed.

Lemma decimal_nonempty z : decimal z <> "".
Proof.
  unfold decimal, pretty, pretty_N. case_decide as H; [done|].
  rewrite pretty_N_go_step by lia. intros E.
  pose proof (pretty_N_go_len_ge (Z.to_N z `div` 10) (String (pretty_N_char (Z.to_N z `mod` 10)) "")) as Hl.
  rewrite E in Hl. cbn in Hl. lia.
Qed.

Lemma decimal_inj y z : 0 <= y -> 0 <= z -> decimal y = decimal z -> y = z.
Proof. intros Hy Hz E. apply pretty_N_inj in E. lia. Qed.

Lemma srfind_absent c s : count_char c s = 0%nat -> srfind c s = None.
Proof.
  induction s as [|d s IH]; [done|]. cbn. case_decide; [done|]. intros Hc. by rewrite IH.
Qed.

Lemma srfind_app_sep c s t :
  count_char c t = 0%nat -> srfind c (s +:+ String c t) = Some (slen s).
Proof.
  intros Ht. induction s as [|d s IH]; cbn.
  - rewrite srfind_absent by done. by rewrite decide_True.
  - by rewrite IH.
Qed.

Lemma digits_no_char c s :
  is_digit c = false -> all_chars is_digit s = true -> count_char c s = 0%nat.
Proof.
  intros Hc. induction s as [|d s IH]; [done|]. cbn. intros [Hd Hs]%andb_prop.
  rewrite decide_False by (intros ->; congruence). by apply IH.
Qed.

(** ** Lists *)

Lemma map_reverse {A B} (f : A -> B) l : map f (reverse l) = reverse (map f l).
Proof.
  induction l as [|x l IH]; [done|]. cbn [map]. by rewrite !reverse_cons, map_app, IH.
Qed.
