(* ===== verification/Text.v ===== *)
(** * Byte strings and UTF-8 ([include/pu/core/text.hpp])

    [Module detail] is the header's [pu::text::detail]: the classification of a
    lead byte, the decoding of a sequence and the test that it is well formed.
    Above it: [IsValidUtf8], [SanitizeUtf8], [Trim], [CollapseWhitespace],
    [EndsWithPartialSequence] and [ReadableError].  The theorems compare the
    bit-level validator with the Unicode definition of UTF-8 (the concatenation
    of the encodings of scalar values), and show what sanitizing guarantees. *)
From Stdlib Require Import Ascii.
From S2P Require Import Prelude.

(** [text\[index\]] read as an [unsigned char]. *)
Definition byte_at (text : string) (index : nat) : Z :=
  match String.get index text with
  | Some c => byte_z c
  | None => 0
  end.

Definition kUtf8ReplacementCharacter : string :=
  String "239" (String "191" (String "189" "")).

Module detail.

Definition kMaxCodePoint : Z := 0x10FFFF.
Definition kSurrogateFirst : Z := 0xD800.
Definition kSurrogateLast : Z := 0xDFFF.

Definition IsContinuationByte (byte : Z) : bool := Z.land byte 0xC0 =? 0x80.

Definition kPatterns : list (Z * Z * nat) :=
  [(0x80, 0x00, 1%nat); (0xE0, 0xC0, 2%nat); (0xF0, 0xE0, 3%nat); (0xF8, 0xF0, 4%nat)].

Definition SequenceLength (lead : Z) : nat :=
  match List.find (fun '(mask, value, _) => Z.land lead mask =? value) kPatterns with
  | Some (_, _, length) => length
  | None => 0
  end.

Definition kLeadPayloadMask (length : nat) : Z :=
  List.nth (length - 1) [0x7F; 0x1F; 0x0F; 0x07] 0.

Fixpoint fold_continuations (text : string) (index : nat) (offset count : nat)
    (code_point : Z) : Z :=
  match count with
  | 0%nat => code_point
  | S count' =>
      fold_continuations text index (S offset) count'
        (Z.lor (Z.shiftl code_point 6) (Z.land (byte_at text (index + offset)) 0x3F))
  end.

Definition DecodeCodePoint (text : string) (index length : nat) : Z :=
  fold_continuations text index 1 (length - 1)
    (Z.land (byte_at text index) (kLeadPayloadMask length)).

Definition IsOverlong (length : nat) (code_point : Z) : bool :=
  (Nat.eqb length 2 && (code_point <? 0x80)) ||
  (Nat.eqb length 3 && (code_point <? 0x800)) ||
  (Nat.eqb length 4 && (code_point <? 0x10000)).

Definition IsSurrogate (code_point : Z) : bool :=
  (kSurrogateFirst <=? code_point) && (code_point <=? kSurrogateLast).

Definition ValidSequenceLength (text : string) (index : nat) : option nat :=
  let length := SequenceLength (byte_at text index) in
  if Nat.eqb length 0 || (slen text <? index + length)%nat then None
  else if forallb (fun offset => IsContinuationByte (byte_at text (index + offset)))
            (seq 1 (length - 1)) then
    let code_point := DecodeCodePoint text index length in
    if IsOverlong length code_point || IsSurrogate code_point
       || (kMaxCodePoint <? code_point) then None
    else Some length
  else None.

End detail.
Import detail.

(** The loops over [index] take as fuel the number of bytes left, which bounds
    their iterations since every round advances by at least one byte. *)
Fixpoint IsValidUtf8_from (fuel : nat) (text : string) (index : nat) : bool :=
  if (slen text <=? index)%nat then true
  else
    match fuel with
    | 0%nat => false
    | S fuel' =>
        match ValidSequenceLength text index with
        | None => false
        | Some length => IsValidUtf8_from fuel' text (index + length)
        end
    end.

Definition IsValidUtf8 (text : string) : bool := IsValidUtf8_from (slen text) text 0.

Fixpoint SanitizeUtf8_from (fuel : nat) (text : string) (index : nat) (result : string)
    : string :=
  if (slen text <=? index)%nat then result
  else
    match fuel with
    | 0%nat => result
    | S fuel' =>
        match ValidSequenceLength text index with
        | None =>
            SanitizeUtf8_from fuel' text (S index) (result +:+ kUtf8ReplacementCharacter)
        | Some length =>
            SanitizeUtf8_from fuel' text (index + length)
              (result +:+ stake length (sdrop index text))
        end
    end.

Definition SanitizeUtf8 (text : string) : string := SanitizeUtf8_from (slen text) text 0 "".

Definition is_white (c : ascii) : bool :=
  bool_decide (c = space) || bool_decide (c = tab) || bool_decide (c = cr)
  || bool_decide (c = nl).

(** [text.find_first_not_of(kWhitespace)] drops what precedes it, and
    [find_last_not_of] what follows. *)
Fixpoint drop_white (text : string) : string :=
  match text with
  | "" => ""
  | String c rest => if is_white c then drop_white rest else text
  end.

Fixpoint drop_white_end (text : string) : string :=
  match text with
  | "" => ""
  | String c rest =>
      match drop_white_end rest with
      | "" => if is_white c then "" else String c ""
      | kept => String c kept
      end
  end.

Definition Trim (text : string) : string := drop_white_end (drop_white text).

Fixpoint CollapseWhitespace_from (text out : string) (pending_space : bool) : string :=
  match text with
  | "" => out
  | String c rest =>
      if is_white c then CollapseWhitespace_from rest out (negb (sempty out))
      else
        let out := if pending_space then out +:+ " " else out in
        CollapseWhitespace_from rest (out +:+ String c "") false
  end.

Definition CollapseWhitespace (text : string) : string := CollapseWhitespace_from text "" false.

(** The index the backwards walk stops at: one past the last byte that does
    not continue a sequence. *)
Fixpoint last_lead (text : string) (index : nat) : nat :=
  match index with
  | 0%nat => 0
  | S index' =>
      if IsContinuationByte (byte_at text index') then last_lead text index' else index
  end.

Definition EndsWithPartialSequence (text : string) : bool :=
  if sempty text then false
  else
    let index := last_lead text (slen text) in
    if Nat.eqb index 0 then true
    else
      let length := SequenceLength (byte_at text (index - 1)) in
      if (length <=? 1)%nat then false
      else (slen text - (index - 1) <? length)%nat.

Fixpoint strip_end (p : ascii -> bool) (fuel : nat) (kept : string) : string :=
  match fuel, sback kept with
  | S fuel', Some c => if p c then strip_end p fuel' (spop kept) else kept
  | _, _ => kept
  end.

Fixpoint drop_spaces (text : string) : string :=
  match text with
  | "" => ""
  | String c rest => if decide (c = space) then drop_spaces rest else text
  end.

(** [what.find(']', opened)] is searched in the text from ['\['] on, which is
    where the index [closed] is counted from here. *)
Definition ReadableError (what : string) : string :=
  match sfind "[" what with
  | None => what
  | Some opened =>
      match sfind "]" (sdrop opened what) with
      | None => what
      | Some closed =>
          let kept := strip_end (fun c => bool_decide (c = space) || bool_decide (c = ":"%char))
                        opened (stake opened what) in
          let rest := drop_spaces (sdrop (S (opened + closed)) what) in
          if sempty rest then kept
          else (if sempty kept then kept else kept +:+ " ") +:+ rest
      end
  end.

(** ** The Unicode definition of UTF-8 *)

Definition chr (z : Z) : ascii := ascii_of_N (Z.to_N z).

(** A Unicode scalar value: a code point that is no surrogate. *)
Definition scalar (cp : Z) : bool :=
  (0 <=? cp) && (cp <=? kMaxCodePoint) && negb (IsSurrogate cp).

(** The UTF-8 encoding of a scalar value, written with divisions rather than
    masks (Unicode 15, table 3-6). *)
Definition utf8_encode (cp : Z) : string :=
  if cp <? 0x80 then String (chr cp) ""
  else if cp <? 0x800 then
    String (chr (0xC0 + cp / 64)) (String (chr (0x80 + cp mod 64)) "")
  else if cp <? 0x10000 then
    String (chr (0xE0 + cp / 4096))
      (String (chr (0x80 + (cp / 64) mod 64)) (String (chr (0x80 + cp mod 64)) ""))
  else
    String (chr (0xF0 + cp / 262144))
      (String (chr (0x80 + (cp / 4096) mod 64))
        (String (chr (0x80 + (cp / 64) mod 64)) (String (chr (0x80 + cp mod 64)) ""))).

Definition utf8_text (cps : list Z) : string :=
  foldr (fun cp s => utf8_encode cp +:+ s) "" cps.

Lemma byte_z_chr z : 0 <= z < 256 -> byte_z (chr z) = z.
Proof. intros Hz. unfold byte_z, chr. rewrite N_ascii_embedding; lia. Qed.

Lemma chr_byte_z c : chr (byte_z c) = c.
Proof. unfold chr, byte_z. rewrite N2Z.id. apply ascii_N_embedding. Qed.

(** *** Bit operations on bytes as arithmetic *)

Lemma byte_exhaust (P : Z -> bool) b :
  forallb P (map Z.of_nat (seq 0 256)) = true -> 0 <= b < 256 -> P b = true.
Proof.
  rewrite forallb_forall. intros HP Hb. apply HP.
  rewrite <- (Z2Nat.id b) by lia. apply in_map, in_seq. lia.
Qed.

Definition cont (b : Z) : bool := (128 <=? b) && (b <? 192).

Lemma IsContinuationByte_range b : 0 <= b < 256 -> IsContinuationByte b = cont b.
Proof.
  intros Hb. apply eqb_prop.
  by apply (byte_exhaust
    (fun b => Bool.eqb (IsContinuationByte b) (cont b))); [vm_compute|].
Qed.

Lemma SequenceLength_range b :
  0 <= b < 256 ->
  SequenceLength b =
    if b <? 128 then 1%nat else if b <? 192 then 0%nat else if b <? 224 then 2%nat
    else if b <? 240 then 3%nat else if b <? 248 then 4%nat else 0%nat.
Proof.
  intros Hb. apply Nat.eqb_eq.
  by apply (byte_exhaust (fun b => Nat.eqb (SequenceLength b)
    (if b <? 128 then 1%nat else if b <? 192 then 0%nat else if b <? 224 then 2%nat
     else if b <? 240 then 3%nat else if b <? 248 then 4%nat else 0%nat))); [vm_compute|].
Qed.

Lemma lor_shift6 a x : 0 <= a -> 0 <= x < 64 -> Z.lor (Z.shiftl a 6) x = a * 64 + x.
Proof.
  intros Ha Hx. rewrite Z.shiftl_mul_pow2 by lia. change (2 ^ 6) with 64.
  symmetry. rewrite <- Z.lxor_lor, <- Z.add_nocarry_lxor; [done| |].
  all: apply Z.bits_inj'; intros n Hn; rewrite Z.land_spec, Z.bits_0.
  all: destruct (Z.lt_ge_cases n 6).
  all: try (change 64 with (2 ^ 6); rewrite Z.mul_pow2_bits_low by lia; done).
  all: rewrite andb_false_iff; right.
  all: destruct (decide (x = 0)) as [->|]; [apply Z.bits_0|].
  all: apply Z.bits_above_log2; [lia|]; apply Z.log2_lt_pow2; [lia|].
  all: apply Z.lt_le_trans with (2 ^ 6); [lia|apply Z.pow_le_mono_r; lia].
Qed.

Lemma land_low b : Z.land b 0x3F = b mod 64 /\ Z.land b 0x1F = b mod 32
  /\ Z.land b 0x0F = b mod 16 /\ Z.land b 0x07 = b mod 8 /\ Z.land b 0x7F = b mod 128.
Proof.
  repeat split; [apply (Z.land_ones b 6)|apply (Z.land_ones b 5)|apply (Z.land_ones b 4)
    |apply (Z.land_ones b 3)|apply (Z.land_ones b 7)]; lia.
Qed.

Lemma byte_at_range text i : 0 <= byte_at text i < 256.
Proof. unfold byte_at. destruct (String.get i text); [apply byte_z_range|lia]. Qed.

Lemma byte_at_app p t i : byte_at (p +:+ t) (slen p + i) = byte_at t i.
Proof. unfold byte_at. induction p as [|c p IH]; [done|]. apply IH. Qed.

(** *** The validator with its masks and shifts replaced by arithmetic *)

Definition code_point (b0 b1 b2 b3 : Z) (length : nat) : Z :=
  match length with
  | 1%nat => b0
  | 2%nat => (b0 - 192) * 64 + (b1 - 128)
  | 3%nat => ((b0 - 224) * 64 + (b1 - 128)) * 64 + (b2 - 128)
  | _ => (((b0 - 240) * 64 + (b1 - 128)) * 64 + (b2 - 128)) * 64 + (b3 - 128)
  end.

Lemma land_cont_payload b : 0 <= b < 256 -> cont b = true -> Z.land b 0x3F = b - 128.
Proof.
  unfold cont. intros Hb Hc. rewrite (proj1 (land_low b)).
  rewrite <- (Z.mod_small (b - 128) 64) by lia.
  replace b with (b - 128 + 2 * 64) at 1 by lia. apply Z_mod_plus_full.
Qed.

Definition lead_base (length : nat) : Z :=
  match length with 1%nat => 0 | 2%nat => 192 | 3%nat => 224 | _ => 240 end.

Lemma lead_payload b length :
  0 <= b < 256 -> SequenceLength b = length -> length <> 0%nat ->
  Z.land b (kLeadPayloadMask length) =
    b - lead_base length.
Proof.
  intros Hb <-. rewrite SequenceLength_range by done. destruct (land_low b) as (_ & H5 & H4 & H3 & H7).
  unfold kLeadPayloadMask, lead_base.
  repeat case_match; try done; try lia; intros _; cbn [Nat.sub List.nth].
  - rewrite H7, Z.mod_small; lia.
  - rewrite H5. rewrite <- (Z.mod_small (b - 192) 32) by lia.
    replace b with (b - 192 + 6 * 32) at 1 by lia. apply Z_mod_plus_full.
  - rewrite H4. rewrite <- (Z.mod_small (b - 224) 16) by lia.
    replace b with (b - 224 + 14 * 16) at 1 by lia. apply Z_mod_plus_full.
  - rewrite H3. rewrite <- (Z.mod_small (b - 240) 8) by lia.
    replace b with (b - 240 + 30 * 8) at 1 by lia. apply Z_mod_plus_full.
Qed.

(** What acceptance of a sequence means, byte by byte. *)
Definition well_formed (text : string) (index length : nat) : Prop :=
  let b i := byte_at text (index + i) in
  SequenceLength (b 0%nat) = length /\ length <> 0%nat /\ (index + length <= slen text)%nat /\
  (forall o, (1 <= o < length)%nat -> cont (b o) = true) /\
  scalar (code_point (b 0%nat) (b 1%nat) (b 2%nat) (b 3%nat) length) = true /\
  IsOverlong length (code_point (b 0%nat) (b 1%nat) (b 2%nat) (b 3%nat) length) = false.

Lemma SequenceLength_le b : 0 <= b < 256 -> (SequenceLength b <= 4)%nat.
Proof. intros Hb. rewrite SequenceLength_range by done. repeat case_match; lia. Qed.

Lemma DecodeCodePoint_arith text index length :
  SequenceLength (byte_at text (index + 0)) = length -> length <> 0%nat ->
  (forall o, (1 <= o < length)%nat -> cont (byte_at text (index + o)) = true) ->
  DecodeCodePoint text index length =
    code_point (byte_at text (index + 0)) (byte_at text (index + 1))
      (byte_at text (index + 2)) (byte_at text (index + 3)) length.
Proof.
  intros Hl Hn Hc. unfold DecodeCodePoint. rewrite <- (Nat.add_0_r index) at 2.
  pose proof (byte_at_range text) as Hr.
  rewrite (lead_payload _ length) by auto.
  assert (Hp : forall o, (1 <= o < length)%nat ->
    Z.land (byte_at text (index + o)) 0x3F = byte_at text (index + o) - 128
    /\ 0 <= byte_at text (index + o) - 128 < 64).
  { intros o Ho. split; [by apply land_cont_payload; auto|].
    specialize (Hc o Ho). unfold cont in Hc. lia. }
  assert (Hlead : 0 <= byte_at text (index + 0)
                       - lead_base length).
  { specialize (Hr (index + 0)%nat). clear Hp Hc. subst length.
    rewrite SequenceLength_range in * by auto. unfold lead_base.
    repeat case_match; try done; lia. }
  pose proof (SequenceLength_le _ (Hr (index + 0)%nat)) as H4. rewrite Hl in H4.
  destruct length as [|[|[|[|[|?]]]]]; try lia; cbn [Nat.sub detail.fold_continuations code_point].
  all: repeat match goal with
         | H : forall o, _ -> Z.land _ 63 = _ /\ _ |- context [Z.land (byte_at _ (_ + ?o)) 63] =>
             destruct (H o ltac:(lia)) as [-> ?]
         end; unfold lead_base in *.
  all: repeat match goal with
         | |- context [Z.lor (Z.shiftl (?x - ?y) 6) ?z] => rewrite (lor_shift6 (x - y) z) by lia
         | |- context [Z.lor (Z.shiftl (?x * 64 + ?y) 6) ?z] =>
             rewrite (lor_shift6 (x * 64 + y) z) by lia
         end; lia.
Qed.

Lemma DecodeCodePoint_nonneg text index length : 0 <= DecodeCodePoint text index length.
Proof.
  assert (Hnn : forall c o a, 0 <= a -> 0 <= fold_continuations text index o c a).
  { induction c as [|c IH]; intros o a Ha; cbn; [done|]. apply IH.
    apply Z.lor_nonneg. split; [by apply Z.shiftl_nonneg|]. apply Z.land_nonneg. right. lia. }
  apply Hnn, Z.land_nonneg. left. apply byte_at_range.
Qed.

Lemma ValidSequenceLength_Some text index length :
  ValidSequenceLength text index = Some length <-> well_formed text index length.
Proof.
  unfold ValidSequenceLength, well_formed, scalar.
  rewrite !Nat.add_0_r.
  set (l := SequenceLength (byte_at text index)).
  assert (Hfor : forallb (fun offset => IsContinuationByte (byte_at text (index + offset)))
             (seq 1 (l - 1)) = true <->
          forall o, (1 <= o < l)%nat -> cont (byte_at text (index + o)) = true).
  { rewrite forallb_forall. split; intros H o Ho.
    - rewrite <- (IsContinuationByte_range _ (byte_at_range _ _)).
      apply H, in_seq. lia.
    - apply in_seq in Ho. rewrite (IsContinuationByte_range _ (byte_at_range _ _)).
      apply H. lia. }
  assert (Hno : forall P : Prop, (l = length -> P -> False) -> None = Some length <-> l = length /\ P).
  { intros P HP. split; [discriminate|]. intros [Hl HPl]. by destruct HP. }
  destruct (Nat.eqb_spec l 0) as [H0|H0]; simpl; [apply Hno; lia|].
  destruct (Nat.ltb_spec (slen text) (index + l)) as [Hs|Hs]; simpl; [apply Hno; lia|].
  destruct (forallb _ _) eqn:Hf.
  2:{ apply Hno. intros <- (_ & _ & Hc & _). by apply Hfor in Hc. }
  pose proof (proj1 Hfor eq_refl) as Hc.
  pose proof (DecodeCodePoint_arith text index l) as HD. rewrite !Nat.add_0_r in HD.
  rewrite HD by done. pose proof (DecodeCodePoint_nonneg text index l) as Hp.
  rewrite HD in Hp by done.
  set (cp := code_point _ _ _ _ l) in *.
  destruct (IsOverlong l cp) eqn:Ho; simpl.
  { apply Hno. intros <- (_ & _ & _ & _ & Hx). fold cp in Hx. congruence. }
  destruct (IsSurrogate cp) eqn:Hsu; simpl.
  { apply Hno. intros <- (_ & _ & _ & Hx & _). fold cp in Hx. rewrite Hsu in Hx. lia. }
  destruct (Z.ltb_spec kMaxCodePoint cp) as [Hm|Hm].
  { apply Hno. intros <- (_ & _ & _ & Hx & _). fold cp in Hx. lia. }
  split; [|by intros [-> _]].
  intros [= <-]. fold cp. rewrite Hsu, Ho. repeat split; try done. lia.
Qed.

(** *** Encoded scalar values are exactly the accepted sequences *)

Ltac div_lia := Z.to_euclidean_division_equations; lia.

Lemma byte_at_String_0 c s : byte_at (String c s) 0 = byte_z c.
Proof. done. Qed.
Lemma byte_at_String_S c s i : byte_at (String c s) (S i) = byte_at s i.
Proof. done. Qed.

Lemma encode_well_formed cp t :
  scalar cp = true -> well_formed (utf8_encode cp +:+ t) 0 (slen (utf8_encode cp)).
Proof.
  unfold scalar, IsSurrogate, kSurrogateFirst, kSurrogateLast, kMaxCodePoint. intros Hcp.
  unfold well_formed, utf8_encode.
  assert (Hcont : forall x, cont (0x80 + x mod 64) = true)
    by (intros x; unfold cont; div_lia).
  destruct (Z.ltb_spec cp 0x80) as [H1|H1];
    [|destruct (Z.ltb_spec cp 0x800) as [H2|H2];
      [|destruct (Z.ltb_spec cp 0x10000) as [H3|H3]]];
    cbn [String.append String.length Nat.add]; rewrite ?byte_at_String_S, ?byte_at_String_0;
    rewrite !byte_z_chr by div_lia.
  all: rewrite SequenceLength_range by div_lia.
  all: (split; [repeat case_match; try done; div_lia|]).
  all: (split; [done|]); (split; [lia|]).
  all: (split; [intros [|[|[|[|o]]]] Ho; try lia;
    rewrite ?byte_at_String_S, ?byte_at_String_0, ?byte_z_chr by div_lia; done|]).
  all: unfold code_point, scalar, IsSurrogate, IsOverlong, kSurrogateFirst, kSurrogateLast,
         kMaxCodePoint; cbn [Nat.eqb andb orb].
  all: split; div_lia.
Qed.

Lemma byte_z_inj c z : byte_z c = z -> c = chr z.
Proof. intros <-. by rewrite chr_byte_z. Qed.

Lemma well_formed_encode s n :
  well_formed s 0 n ->
  exists cp, scalar cp = true /\ stake n s = utf8_encode cp /\ slen (utf8_encode cp) = n.
Proof.
  unfold well_formed. cbn [Nat.add]. intros (Hlen & Hn & Hroom & Hc & Hs & Ho).
  eexists. split; [exact Hs|]. revert Hs Ho.
  pose proof (byte_at_range s) as Hr.
  rewrite SequenceLength_range in Hlen by auto.
  unfold scalar, IsSurrogate, IsOverlong, kSurrogateFirst, kSurrogateLast, kMaxCodePoint.
  assert (n = 1 \/ n = 2 \/ n = 3 \/ n = 4)%nat as Hn4 by (repeat case_match; lia).
  destruct Hn4 as [->|[->|[->| ->]]]; cbn [Nat.eqb andb orb code_point]; intros Hs Ho.
  all: repeat match goal with
    | H : forall o, _ -> cont _ = true |- _ =>
        pose proof (H 1%nat); pose proof (H 2%nat); pose proof (H 3%nat); clear H
    end; unfold cont in *; pose proof (Hr 1%nat); pose proof (Hr 2%nat); pose proof (Hr 3%nat).
  all: assert (0 <= byte_at s 0 < 256) by auto.
  all: destruct s as [|c0 s]; [cbn in Hroom; lia|].
  all: try (destruct s as [|c1 s]; [cbn in Hroom; lia|]).
  all: try (destruct s as [|c2 s]; [cbn in Hroom; lia|]).
  all: try (destruct s as [|c3 s]; [cbn in Hroom; lia|]).
  all: rewrite ?byte_at_String_S, ?byte_at_String_0 in *.
  all: cbn [stake]; rewrite ?stake_0.
  all: unfold utf8_encode; repeat case_match; try (exfalso; lia).
  all: split; [|done].
  all: repeat f_equal; try done; apply byte_z_inj; div_lia.
Qed.

Lemma ValidSequenceLength_encode cp t :
  scalar cp = true ->
  ValidSequenceLength (utf8_encode cp +:+ t) 0 = Some (slen (utf8_encode cp)).
Proof. intros H. by apply ValidSequenceLength_Some, encode_well_formed. Qed.

(** *** The loops, read on the text that is left *)

Lemma well_formed_shift p t i n : well_formed (p +:+ t) (slen p + i) n <-> well_formed t i n.
Proof.
  unfold well_formed. rewrite <- !Nat.add_assoc, slen_app.
  assert (Hb : forall j, byte_at (p +:+ t) (slen p + (i + j)) = byte_at t (i + j))
    by (intros j; apply byte_at_app).
  rewrite !Hb. setoid_rewrite <- Nat.add_assoc. setoid_rewrite Hb.
  rewrite <- Nat.add_le_mono_l. done.
Qed.

Lemma ValidSequenceLength_shift p t :
  ValidSequenceLength (p +:+ t) (slen p) = ValidSequenceLength t 0.
Proof.
  apply option_eq. intros n. rewrite !ValidSequenceLength_Some.
  rewrite <- (Nat.add_0_r (slen p)). apply well_formed_shift.
Qed.

Lemma ValidSequenceLength_inv p t n :
  ValidSequenceLength (p +:+ t) (slen p) = Some n ->
  exists cp t', scalar cp = true /\ t = utf8_encode cp +:+ t' /\ slen (utf8_encode cp) = n.
Proof.
  rewrite ValidSequenceLength_shift, ValidSequenceLength_Some.
  intros (cp & Hs & Ht & Hn)%well_formed_encode.
  exists cp, (sdrop n t). split; [done|]. split; [by rewrite <- Ht, stake_sdrop|done].
Qed.

Lemma utf8_encode_pos cp : (0 < slen (utf8_encode cp))%nat.
Proof. unfold utf8_encode. repeat case_match; cbn; lia. Qed.

Lemma utf8_text_cons cp cps : utf8_text (cp :: cps) = utf8_encode cp +:+ utf8_text cps.
Proof. done. Qed.

Lemma utf8_text_app cps1 cps2 : utf8_text (cps1 ++ cps2) = utf8_text cps1 +:+ utf8_text cps2.
Proof.
  induction cps1 as [|cp cps IH]; [done|]. cbn [app].
  by rewrite !utf8_text_cons, IH, sapp_assoc.
Qed.

Lemma utf8_text_encode_inv cp t cps :
  scalar cp = true -> forallb scalar cps = true -> utf8_encode cp +:+ t = utf8_text cps ->
  exists cps', forallb scalar cps' = true /\ t = utf8_text cps'.
Proof.
  intros Hs Hcps Heq. destruct cps as [|cp' cps].
  { apply sapp_eq_nil in Heq as [E _]. pose proof (utf8_encode_pos cp) as Hp.
    rewrite E in Hp. cbn in Hp. lia. }
  cbn in Hcps. apply andb_true_iff in Hcps as [Hs' Hcps].
  rewrite utf8_text_cons in Heq.
  pose proof (ValidSequenceLength_encode cp t Hs) as E1.
  rewrite Heq, (ValidSequenceLength_encode cp' _ Hs') in E1. injection E1 as E1.
  destruct (sapp_inj_len _ _ _ _ (eq_sym E1) Heq) as [_ ->]. by exists cps.
Qed.

Lemma loop_done p t : (slen (p +:+ t) <=? slen p)%nat = true <-> t = "".
Proof. rewrite slen_app, Nat.leb_le. destruct t; cbn; split; (done || lia). Qed.

Lemma IsValidUtf8_from_spec f p t :
  (slen t <= f)%nat ->
  IsValidUtf8_from f (p +:+ t) (slen p) = true <->
  exists cps, forallb scalar cps = true /\ t = utf8_text cps.
Proof.
  revert p t. induction f as [|f IH]; intros p t Hf; cbn [IsValidUtf8_from].
  - assert (t = "") as -> by (apply slen_0; lia).
    rewrite (proj2 (loop_done p "")) by done. split; [by exists []|done].
  - destruct (slen (p +:+ t) <=? slen p)%nat eqn:Hd.
    { apply loop_done in Hd as ->. split; [by exists []|done]. }
    assert (t <> "") as Hne by (intros ->; by rewrite (proj2 (loop_done p "")) in Hd).
    destruct (ValidSequenceLength (p +:+ t) (slen p)) as [n|] eqn:Hv.
    + destruct (ValidSequenceLength_inv _ _ _ Hv) as (cp & t' & Hs & -> & Hn).
      pose proof (utf8_encode_pos cp) as Hpos.
      rewrite slen_app in Hf. rewrite <- Hn, <- slen_app, sapp_assoc, IH by lia. split.
      * intros (cps & Hcps & ->). exists (cp :: cps). split; [cbn; by rewrite Hs, Hcps | done].
      * intros (cps & Hcps & Heq). by apply (utf8_text_encode_inv cp t' cps).
    + split; [discriminate|]. intros ([|cp cps] & Hcps & ->); [done|].
      cbn in Hcps. apply andb_true_iff in Hcps as [Hs Hcps].
      rewrite ValidSequenceLength_shift, utf8_text_cons in Hv.
      by rewrite (ValidSequenceLength_encode cp _ Hs) in Hv.
Qed.

Lemma IsValidUtf8_iff s :
  IsValidUtf8 s = true <-> exists cps, forallb scalar cps = true /\ s = utf8_text cps.
Proof. apply (IsValidUtf8_from_spec (slen s) "" s). done. Qed.

Lemma IsValidUtf8_app s t :
  IsValidUtf8 s = true -> IsValidUtf8 t = true -> IsValidUtf8 (s +:+ t) = true.
Proof.
  rewrite !IsValidUtf8_iff. intros (c1 & H1 & ->) (c2 & H2 & ->). exists (c1 ++ c2).
  by rewrite forallb_app, H1, H2, utf8_text_app.
Qed.

Lemma SanitizeUtf8_from_spec f p t r :
  (slen t <= f)%nat ->
  exists cps, forallb scalar cps = true /\
    SanitizeUtf8_from f (p +:+ t) (slen p) r = r +:+ utf8_text cps /\
    (IsValidUtf8 t = true -> utf8_text cps = t).
Proof.
  revert p t r. induction f as [|f IH]; intros p t r Hf; cbn [SanitizeUtf8_from].
  - assert (t = "") as -> by (apply slen_0; lia).
    rewrite (proj2 (loop_done p "")) by done. exists []. cbn. by rewrite sapp_nil_r.
  - destruct (slen (p +:+ t) <=? slen p)%nat eqn:Hd.
    { apply loop_done in Hd as ->. exists []. cbn. by rewrite sapp_nil_r. }
    destruct (ValidSequenceLength (p +:+ t) (slen p)) as [n|] eqn:Hv.
    + destruct (ValidSequenceLength_inv _ _ _ Hv) as (cp & t' & Hs & -> & Hn).
      pose proof (utf8_encode_pos cp) as Hpos. rewrite slen_app in Hf.
      rewrite sdrop_app_exact, <- Hn, stake_app_exact.
      rewrite <- slen_app, sapp_assoc.
      destruct (IH (p +:+ utf8_encode cp) t' (r +:+ utf8_encode cp)) as (cps & Hc & Heq & Hid); [lia|].
      exists (cp :: cps). rewrite Heq, utf8_text_cons. cbn. rewrite Hs, Hc, sapp_assoc. repeat split; try done.
      intros Hval. rewrite Hid; [done|].
      apply IsValidUtf8_iff in Hval as (cps' & Hc' & E).
      apply IsValidUtf8_iff. by apply (utf8_text_encode_inv cp t' cps').
    + destruct t as [|c t]; [by rewrite (proj2 (loop_done p "")) in Hd|].
      replace (S (slen p)) with (slen (p +:+ String c "")) by (rewrite slen_app; cbn; lia).
      replace (p +:+ String c t) with ((p +:+ String c "") +:+ t) in *
        by (by rewrite <- sapp_assoc).
      cbn in Hf.
      destruct (IH (p +:+ String c "") t (r +:+ kUtf8ReplacementCharacter)) as (cps & Hc & Heq & _);
        [lia|].
      exists (0xFFFD :: cps). split; [cbn [forallb]; by rewrite Hc|].
      rewrite Heq, utf8_text_cons, <- sapp_assoc. split; [done|].
      intros ([|cp' cps'] & Hc' & E)%IsValidUtf8_iff; [done|].
      cbn in Hc'. rewrite utf8_text_cons in E. apply andb_true_iff in Hc' as [Hs' Hc'].
      rewrite <- sapp_assoc in Hv. cbn [String.append] in Hv. rewrite ValidSequenceLength_shift, E in Hv.
      by rewrite (ValidSequenceLength_encode cp' _ Hs') in Hv.
Qed.

Lemma SanitizeUtf8_is_valid s : IsValidUtf8 (SanitizeUtf8 s) = true.
Proof.
  destruct (SanitizeUtf8_from_spec (slen s) "" s "") as (cps & Hc & Heq & _); [done|].
  apply IsValidUtf8_iff. exists cps. split; [done|]. exact Heq.
Qed.

Lemma SanitizeUtf8_valid_id s : IsValidUtf8 s = true -> SanitizeUtf8 s = s.
Proof.
  destruct (SanitizeUtf8_from_spec (slen s) "" s "") as (cps & Hc & Heq & Hid); [done|].
  intros Hv. unfold SanitizeUtf8. rewrite <- (Hid Hv) at 3. exact Heq.
Qed.

(** *** Where a cut of valid text falls *)

Lemma byte_at_stake s k o : (o < k)%nat -> byte_at (stake k s) o = byte_at s o.
Proof.
  unfold byte_at. revert s o. induction k as [|k IH]; intros [|c s] [|o] Ho; cbn; try done; try lia.
  apply IH. lia.
Qed.

Lemma stake_app k s t : stake k (s +:+ t) = stake k s +:+ stake (k - slen s) t.
Proof.
  revert s. induction k as [|k IH]; intros [|c s]; cbn; rewrite ?stake_0; try done.
  by rewrite IH.
Qed.

Lemma last_lead_run text i j :
  (forall o, (i <= o < i + j)%nat -> cont (byte_at text o) = true) ->
  last_lead text (i + j) = last_lead text i.
Proof.
  induction j as [|j IH]; intros Hc; [by rewrite Nat.add_0_r|].
  rewrite Nat.add_succ_r. cbn [last_lead].
  rewrite (IsContinuationByte_range _ (byte_at_range _ _)).
  rewrite Hc by lia. apply IH. intros o Ho. apply Hc. lia.
Qed.

Lemma EndsWithPartialSequence_cut p cp k :
  scalar cp = true -> (0 < k <= slen (utf8_encode cp))%nat ->
  EndsWithPartialSequence (p +:+ stake k (utf8_encode cp))
  = (k <? slen (utf8_encode cp))%nat.
Proof.
  intros Hs Hk. pose proof (encode_well_formed cp "" Hs) as Hw. rewrite sapp_nil_r in Hw.
  destruct Hw as (Hlen & Hn & _ & Hc & _). cbn [Nat.add] in Hlen, Hc.
  set (n := slen (utf8_encode cp)) in *. set (text := p +:+ stake k (utf8_encode cp)).
  assert (Hb : forall o, (o < k)%nat -> byte_at text (slen p + o) = byte_at (utf8_encode cp) o).
  { intros o Ho. unfold text. rewrite byte_at_app. by apply byte_at_stake. }
  assert (Hl : slen text = (slen p + 1 + (k - 1))%nat).
  { unfold text. rewrite slen_app, slen_stake. fold n. lia. }
  assert (Hlead : last_lead text (slen text) = S (slen p)).
  { rewrite Hl, last_lead_run.
    - rewrite Nat.add_1_r. cbn [last_lead].
      rewrite <- (Nat.add_0_r (slen p)) at 1. rewrite Hb by lia.
      rewrite (IsContinuationByte_range _ (byte_at_range _ _)).
      rewrite SequenceLength_range in Hlen by apply byte_at_range.
      unfold cont. revert Hlen. repeat case_match; lia.
    - intros o Ho. replace o with (slen p + (o - slen p))%nat by lia.
      rewrite Hb by lia. apply Hc. lia. }
  unfold EndsWithPartialSequence. destruct (sempty text) eqn:He.
  { apply sempty_true in He. rewrite He in Hl. cbn in Hl. lia. }
  rewrite Hlead. cbn [Nat.eqb]. replace (S (slen p) - 1)%nat with (slen p + 0)%nat by lia.
  rewrite Hb, Hlen by lia. destruct (Nat.leb_spec n 1).
  - symmetry. apply Nat.ltb_ge. lia.
  - rewrite Hl. apply eq_true_iff_eq. rewrite !Nat.ltb_lt. lia.
Qed.

Lemma EndsWithPartialSequence_text cps :
  forallb scalar cps = true -> EndsWithPartialSequence (utf8_text cps) = false.
Proof.
  induction cps as [|cp cps _] using rev_ind; [done|].
  rewrite forallb_app, andb_true_iff. intros [_ Hs]. cbn in Hs. rewrite andb_true_r in Hs.
  rewrite utf8_text_app, utf8_text_cons. change (utf8_text []) with "". rewrite sapp_nil_r.
  pose proof (utf8_encode_pos cp).
  rewrite <- (stake_ge (slen (utf8_encode cp)) (utf8_encode cp)) at 1 by done.
  rewrite EndsWithPartialSequence_cut by (done || lia). apply Nat.ltb_irrefl.
Qed.

Lemma EndsWithPartialSequence_valid s :
  IsValidUtf8 s = true -> EndsWithPartialSequence s = false.
Proof. intros (cps & Hc & ->)%IsValidUtf8_iff. by apply EndsWithPartialSequence_text. Qed.

Lemma utf8_text_cut cps k :
  forallb scalar cps = true -> (k <= slen (utf8_text cps))%nat ->
  (exists cps1, forallb scalar cps1 = true /\ stake k (utf8_text cps) = utf8_text cps1) \/
  (exists cps1 cp j, scalar cp = true /\ (0 < j < slen (utf8_encode cp))%nat /\
     stake k (utf8_text cps) = utf8_text cps1 +:+ stake j (utf8_encode cp)).
Proof.
  revert k. induction cps as [|cp cps IH]; intros k Hc Hk.
  { left. exists []. split; [done|]. destruct k; done. }
  cbn in Hc. apply andb_true_iff in Hc as [Hs Hc].
  rewrite utf8_text_cons in *. rewrite slen_app in Hk. rewrite stake_app.
  destruct (decide (k < slen (utf8_encode cp))%nat) as [Hlt|Hge].
  - replace (k - slen (utf8_encode cp))%nat with 0%nat by lia. rewrite stake_0, sapp_nil_r.
    destruct k as [|k]; [left; by exists []|].
    right. exists [], cp, (S k). repeat split; (done || lia).
  - rewrite (stake_ge k (utf8_encode cp)) by lia.
    destruct (IH (k - slen (utf8_encode cp))%nat Hc) as [(c1 & H1 & ->)|(c1 & cp1 & j & H1 & Hj & ->)];
      [lia| |].
    + left. exists (cp :: c1). cbn. by rewrite Hs, H1.
    + right. exists (cp :: c1), cp1, j. by rewrite utf8_text_cons, sapp_assoc.
Qed.

(** C37: the header's bit-level validator ([IsValidUtf8], which masks, shifts and
    compares bytes) accepts a byte string if and only if it is UTF-8 in the sense
    of the Unicode standard: the concatenation of the encodings of scalar values
    (no overlong form, no surrogate, nothing above U+10FFFF). *)
Theorem IsValidUtf8_correct s :
  IsValidUtf8 s = true <->
  exists cps, forallb scalar cps = true /\ s = utf8_text cps.
Proof. apply IsValidUtf8_iff. Qed.

(** Sanitizing is total and lands in valid UTF-8, changes nothing that was
    already valid, and is therefore idempotent. *)
Theorem SanitizeUtf8_correct s :
  IsValidUtf8 (SanitizeUtf8 s) = true
  /\ (SanitizeUtf8 s = s <-> IsValidUtf8 s = true)
  /\ SanitizeUtf8 (SanitizeUtf8 s) = SanitizeUtf8 s.
Proof.
  pose proof (SanitizeUtf8_is_valid s) as Hv. split; [done|]. split.
  - split; [by intros <- | apply SanitizeUtf8_valid_id].
  - by apply SanitizeUtf8_valid_id.
Qed.

(** Cutting valid UTF-8 after any number of bytes, [EndsWithPartialSequence]
    reports exactly the cuts that fall inside a character. *)
Theorem EndsWithPartialSequence_correct s k :
  IsValidUtf8 s = true -> (k <= slen s)%nat ->
  EndsWithPartialSequence (stake k s) = negb (IsValidUtf8 (stake k s)).
Proof.
  intros (cps & Hc & ->)%IsValidUtf8_iff Hk.
  destruct (utf8_text_cut cps k Hc Hk) as [(c1 & H1 & ->)|(c1 & cp & j & H1 & Hj & Heq)].
  - rewrite EndsWithPartialSequence_text by done. symmetry. apply negb_false_iff, IsValidUtf8_iff.
    by exists c1.
  - assert (Hp : EndsWithPartialSequence (stake k (utf8_text cps)) = true).
    { rewrite Heq, EndsWithPartialSequence_cut by (done || lia). apply Nat.ltb_lt. lia. }
    rewrite Hp. symmetry. apply negb_true_iff, not_true_is_false.
    intros Hv%EndsWithPartialSequence_valid. congruence.
Qed.

Example EndsWithPartialSequence_correct_witness :
  IsValidUtf8 ("a" +:+ utf8_encode 0x20AC) = true
  /\ EndsWithPartialSequence (stake 3 ("a" +:+ utf8_encode 0x20AC)) = true.
Proof.
  split; [vm_compute; reflexivity|].
  rewrite (EndsWithPartialSequence_correct ("a" +:+ utf8_encode 0x20AC) 3);
    [vm_compute; reflexivity | vm_compute; reflexivity | apply leb_complete; vm_compute; reflexivity].
Defined.
