(* ===== verification/Json.v ===== *)
(** * JSON values and their readers ([include/pu/core/json.hpp])

    [value] is [boost::json::value] by its kinds, with objects as the insertion
    ordered lists Boost keeps.  [ValueOrDefault], [HasKey], [OptionalOrDefault]
    and the error readers are the header's functions; [to_string], [to_int] and
    the like are Boost's [value_to<T>] at the types the program uses, returning
    [None] where it throws.

    [boost::json::parse] and [boost::json::serialize] are library code: a
    [JsonCodec] is a pair of functions, and [JsonCodecOk] the documented round
    trip the program relies on, restricted to the values ([wire]) for which Boost
    documents it.  [bit_codec] is a concrete instance. *)
From Stdlib Require Import Ascii.
From S2P Require Export Prelude Text.

(** ** Doubles: IEEE-754 binary64 as in the standard library's specification *)

Definition double := spec_float.

Definition dadd (x y : double) : double := SFadd 53 1024 x y.
Definition double_of_Z (z : Z) : double := binary_normalize 53 1024 z 0 false.
(** [static_cast<float>] of a double: binary32 rounding of its exact value. *)
Definition to_float (x : double) : spec_float :=
  match x with
  | S754_finite s m e =>
      binary_normalize 24 128 (if s then Zneg m else Zpos m) e s
  | _ => x
  end.

(** The integer a double is exactly, if it is one. *)
Definition Z_of_double (x : double) : option Z :=
  match x with
  | S754_zero _ => Some 0
  | S754_finite s m e =>
      let z := if s then Zneg m else Zpos m in
      if 0 <=? e then Some (z * 2 ^ e)
      else if z mod 2 ^ (- e) =? 0 then Some (z / 2 ^ (- e)) else None
  | _ => None
  end.

(** ** Values *)

Inductive value :=
  | JNull
  | JBool (b : bool)
  | JInt64 (z : Z)
  | JUint64 (z : Z)
  | JDouble (d : double)
  | JString (s : string)
  | JArray (items : list value)
  | JObject (fields : list (string * value)).

Abbreviation object := (list (string * value)).

(** The induction principle that reaches the items of arrays and objects. *)
Section value_ind.
Context (P : value -> Prop).
Context (Hnull : P JNull) (Hbool : forall b, P (JBool b)) (Hint : forall z, P (JInt64 z))
  (Huint : forall z, P (JUint64 z)) (Hdouble : forall d, P (JDouble d))
  (Hstring : forall s, P (JString s))
  (Harray : forall items, Forall P items -> P (JArray items))
  (Hobject : forall fields : object, Forall (fun kv => P kv.2) fields -> P (JObject fields)).

Fixpoint value_ind' (v : value) : P v :=
  match v with
  | JNull => Hnull
  | JBool b => Hbool b
  | JInt64 z => Hint z
  | JUint64 z => Huint z
  | JDouble d => Hdouble d
  | JString s => Hstring s
  | JArray items =>
      Harray items
        ((fix go (l : list value) : Forall P l :=
            match l with
            | [] => Forall_nil_2 _
            | x :: l' => Forall_cons_2 _ _ _ (value_ind' x) (go l')
            end) items)
  | JObject fields =>
      Hobject fields
        ((fix go (l : object) : Forall (fun kv => P kv.2) l :=
            match l with
            | [] => Forall_nil_2 _
            | x :: l' => Forall_cons_2 (fun kv => P kv.2) _ _ (value_ind' x.2) (go l')
            end) fields)
  end.
End value_ind.

#[export] Instance spec_float_eq_dec : EqDecision spec_float.
Proof. solve_decision. Defined.

(** ** Objects *)

(** [obj.find(key)] *)
Fixpoint obj_find (key : string) (o : object) : option value :=
  match o with
  | [] => None
  | (k, v) :: o' => if decide (k = key) then Some v else obj_find key o'
  end.

(** [obj\[key\] = v]: in place, or a new last member. *)
Fixpoint obj_set (key : string) (v : value) (o : object) : object :=
  match o with
  | [] => [(key, v)]
  | (k, w) :: o' => if decide (k = key) then (k, v) :: o' else (k, w) :: obj_set key v o'
  end.

(** [obj.erase(key)]: Boost moves the last member into the hole. *)
Definition obj_erase (key : string) (o : object) : object :=
  match list_find (fun kv => kv.1 = key) o with
  | None => o
  | Some (i, _) =>
      match o !! Nat.pred (length o) with
      | None => o
      | Some moved =>
          if decide (S i = length o) then take i o
          else take i o ++ moved :: take (length o - S (S i)) (drop (S i) o)
      end
  end.

Definition if_object (j : value) : option object :=
  match j with JObject o => Some o | _ => None end.

Definition HasKey (j : value) (key : string) : bool :=
  match if_object j with
  | Some o => match obj_find key o with Some _ => true | None => false end
  | None => false
  end.

(** [j.at(key)], used where [HasKey] has just answered, throws otherwise. *)
Definition at_key (j : value) (key : string) : option value := if_object j ≫= obj_find key.

Definition is_null (v : value) : bool := match v with JNull => true | _ => false end.
Definition is_object (v : value) : bool := match v with JObject _ => true | _ => false end.
Definition is_array (v : value) : bool := match v with JArray _ => true | _ => false end.
Definition is_string (v : value) : bool := match v with JString _ => true | _ => false end.
Definition is_int64 (v : value) : bool := match v with JInt64 _ => true | _ => false end.

(** ** [value_to<T>] *)

Definition int_min : Z := -2 ^ 31.
Definition int_max : Z := 2 ^ 31 - 1.
Definition int64_min : Z := -2 ^ 63.
Definition int64_max : Z := 2 ^ 63 - 1.
Definition uint64_max : Z := 2 ^ 64 - 1.

Definition in_range (lo hi z : Z) : option Z :=
  if (lo <=? z) && (z <=? hi) then Some z else None.

(** Boost's [to_number<T>] for an integral [T]: the number, if [T] holds it
    exactly. *)
Definition to_integer (lo hi : Z) (v : value) : option Z :=
  match v with
  | JInt64 z | JUint64 z => in_range lo hi z
  | JDouble d => Z_of_double d ≫= in_range lo hi
  | _ => None
  end.

Definition to_int : value -> option Z := to_integer int_min int_max.
Definition to_int64 : value -> option Z := to_integer int64_min int64_max.
Definition to_string (v : value) : option string :=
  match v with JString s => Some s | _ => None end.
Definition to_bool (v : value) : option bool :=
  match v with JBool b => Some b | _ => None end.
Definition to_double (v : value) : option double :=
  match v with
  | JInt64 z | JUint64 z => Some (double_of_Z z)
  | JDouble d => Some d
  | _ => None
  end.

(** [ValueOrDefault<T>(j, key, def)]; [to] is [value_to<T>]. *)
Definition ValueOrDefault {T} (to : value -> option T) (j : value) (key : string) (def : T) : T :=
  match if_object j with
  | None => def
  | Some obj =>
      match obj_find key obj with
      | None => def
      | Some v => default def (to v)
      end
  end.

Definition OptionalOrDefault {T} (to : value -> option T) (j : value) (key : string) : option T :=
  if HasKey j key then at_key j key ≫= to else None.

Abbreviation string_or j key def := (ValueOrDefault to_string j key def).

(** ** Error readers *)

Definition ErrorMessage (j : value) : string :=
  match if_object j with
  | None => ""
  | Some obj =>
      let message := string_or j "message" "" in
      let fallback := if sempty message then string_or j "msg" "" else message in
      match obj_find "error" obj with
      | Some (JString s) => s
      | Some error =>
          let inner := string_or error "message" "" in
          if sempty inner then fallback else inner
      | None => fallback
      end
  end.

Definition DisplayMessage (j : value) : string :=
  match if_object j with
  | None => ""
  | Some obj =>
      match obj_find "displayMsg" obj with
      | None => ""
      | Some (JString s) => s
      | Some display => string_or display "en" ""
      end
  end.

Definition UserFacingError (j : value) : string :=
  let display := DisplayMessage j in
  if sempty display then ErrorMessage j else display.

(** ** The codec: Boost's [parse] and [serialize] *)

Class JsonCodec := {
  (** [boost::json::parse]; [None] where it throws [system_error]. *)
  parse : string -> option value;
  (** [boost::json::serialize] *)
  serialize : value -> string;
}.

(** Nesting of arrays and objects, which [parse] bounds by 32. *)
Fixpoint depth (v : value) : nat :=
  match v with
  | JArray items => S (fold_right (fun x d => Nat.max (depth x) d) 0%nat items)
  | JObject fields => S (fold_right (fun kv d => Nat.max (depth kv.2) d) 0%nat fields)
  | _ => 0%nat
  end.

Definition distinct_keys (o : object) : bool := bool_decide (NoDup o.*1).

(** The value the parser makes of what the serializer wrote: an unsigned number
    that fits the signed kind comes back in it. *)
Fixpoint normalize (v : value) : value :=
  match v with
  | JUint64 z => if z <=? int64_max then JInt64 z else JUint64 z
  | JArray items => JArray (map normalize items)
  | JObject fields => JObject (map (fun kv => (kv.1, normalize kv.2)) fields)
  | _ => v
  end.

(** Values Boost writes and reads back: integers within their kind, no doubles
    (its default number parsing is imprecise), valid UTF-8, no key twice. *)
Fixpoint plain (v : value) : bool :=
  match v with
  | JNull | JBool _ => true
  | JInt64 z => (int64_min <=? z) && (z <=? int64_max)
  | JUint64 z => (0 <=? z) && (z <=? uint64_max)
  | JDouble _ => false
  | JString s => IsValidUtf8 s
  | JArray items => forallb plain items
  | JObject fields =>
      distinct_keys fields && forallb (fun kv => IsValidUtf8 kv.1 && plain kv.2) fields
  end.

Definition wire (v : value) : bool := plain v && (depth v <=? 32)%nat.

(** What the program relies on: text it wrote reads back as the value it wrote,
    up to the kind of small unsigned numbers, and an object's text begins with a
    brace. *)
Class JsonCodecOk `(codec : JsonCodec) : Prop := {
  parse_serialize v : wire v = true -> parse (serialize v) = Some (normalize v);
  serialize_object fields : exists rest, serialize (JObject fields) = String "{" rest;
}.

(** ** Pretty printing *)

Section PrettyPrint.
(** [std::to_chars] of a [double]: its shortest decimal form. *)
Context `{codec : JsonCodec} (to_chars : double -> string).

(** Parts with a separator before every part but the first. *)
Definition concat_sep (sep : string) (parts : list string) : string :=
  match parts with
  | [] => ""
  | part :: parts => foldl (fun out part => out +:+ sep +:+ part) part parts
  end.

Definition spaces (n : nat) : string := Nat.iter n (String space) "".

Fixpoint AppendPretty (jv : value) (depth indent : nat) : string :=
  let pad := spaces (depth * indent) in
  let member_pad := spaces (S depth * indent) in
  match jv with
  | JObject [] => "{}"
  | JObject fields =>
      "{" +:+ NL
      +:+ concat_sep ("," +:+ NL)
            (map (fun kv => member_pad +:+ serialize (JString kv.1) +:+ ": "
                            +:+ AppendPretty kv.2 (S depth) indent) fields)
      +:+ NL +:+ pad +:+ "}"
  | JArray [] => "[]"
  | JArray items =>
      "[" +:+ NL
      +:+ concat_sep ("," +:+ NL) (map (fun v => member_pad +:+ AppendPretty v (S depth) indent) items)
      +:+ NL +:+ pad +:+ "]"
  | JDouble d => to_chars d
  | _ => serialize jv
  end.

Definition PrettyPrint (jv : value) : string := AppendPretty jv 0 2.

End PrettyPrint.

(** ** Lemmas on objects *)

Lemma obj_find_set_eq key v o : obj_find key (obj_set key v o) = Some v.
Proof.
  induction o as [|[k w] o IH]; cbn; [by rewrite decide_True|].
  case_decide as Hk; cbn; [by rewrite decide_True|]. by rewrite decide_False.
Qed.

Lemma obj_find_set_ne key key' v o :
  key <> key' -> obj_find key' (obj_set key v o) = obj_find key' o.
Proof.
  intros Hne. induction o as [|[k w] o IH]; cbn; [by rewrite decide_False|].
  case_decide as Hk; cbn; [subst; by rewrite !decide_False|]. by rewrite IH.
Qed.

Lemma obj_set_keys key v o :
  (obj_set key v o).*1 = if decide (key ∈ o.*1) then o.*1 else o.*1 ++ [key].
Proof.
  induction o as [|[k w] o IH]; cbn; [by rewrite decide_False by inversion 1|].
  destruct (decide (k = key)) as [->|Hk]; cbn.
  - rewrite decide_True; [done|left].
  - rewrite IH. destruct (decide (key ∈ o.*1)) as [Hi|Hi].
    + by rewrite decide_True by (right; done).
    + rewrite decide_False; [done|]. rewrite elem_of_cons. intros [->|?]; done.
Qed.

Lemma obj_find_None key (o : object) : obj_find key o = None <-> key ∉ o.*1.
Proof.
  induction o as [|[k w] o IH]; cbn; [split; [inversion 2|done]|].
  rewrite not_elem_of_cons. case_decide; [naive_solver|]. rewrite IH. naive_solver.
Qed.

Lemma obj_find_elem key (o : object) v : obj_find key o = Some v -> (key, v) ∈ o.
Proof.
  induction o as [|[k w] o IH]; cbn; [done|]. case_decide as Hk.
  - intros [= ->]. rewrite Hk. left.
  - intros H. right. by apply IH.
Qed.

Lemma obj_find_app key (o1 o2 : object) :
  obj_find key (o1 ++ o2) = match obj_find key o1 with Some v => Some v | None => obj_find key o2 end.
Proof. induction o1 as [|[k w] o IH]; cbn; [done|]. by case_decide. Qed.

Lemma obj_find_normalize key (o : object) :
  obj_find key (map (fun kv => (kv.1, normalize kv.2)) o) = normalize <$> obj_find key o.
Proof. induction o as [|[k v] o IH]; cbn; [done|]. by case_decide. Qed.

Lemma at_key_HasKey j key : HasKey j key = true <-> exists v, at_key j key = Some v.
Proof.
  unfold HasKey, at_key. destruct (if_object j) as [o|]; cbn; [|naive_solver].
  destruct (obj_find key o); naive_solver.
Qed.

Lemma string_or_JString (o : object) key s d :
  obj_find key o = Some (JString s) -> string_or (JObject o) key d = s.
Proof. intros H. unfold ValueOrDefault. cbn. by rewrite H. Qed.

Lemma ValueOrDefault_absent {T} (to : value -> option T) (o : object) key d :
  obj_find key o = None -> ValueOrDefault to (JObject o) key d = d.
Proof. intros H. unfold ValueOrDefault. cbn. by rewrite H. Qed.

Lemma string_or_normalize v key d : string_or (normalize v) key d = string_or v key d.
Proof.
  unfold ValueOrDefault. destruct v as [| |z|z| | | |fields]; try done; cbn.
  - by destruct (z <=? int64_max).
  - rewrite obj_find_normalize. destruct (obj_find key fields) as [w|]; [|done].
    destruct w as [| |z|z| | | |]; try done. cbn. by destruct (z <=? int64_max).
Qed.

(** Converters that do not tell the two integer kinds apart. *)
Definition kind_blind {T} (to : value -> option T) : Prop := forall v, to (normalize v) = to v.

Lemma ValueOrDefault_normalize {T} (to : value -> option T) v key d :
  kind_blind to -> ValueOrDefault to (normalize v) key d = ValueOrDefault to v key d.
Proof.
  intros Hto. unfold ValueOrDefault. destruct v as [| |z|z| | | |fields]; try done; cbn.
  - by destruct (z <=? int64_max).
  - rewrite obj_find_normalize. destruct (obj_find key fields) as [w|]; [|done]. cbn. by rewrite Hto.
Qed.

Lemma kind_blind_string : kind_blind to_string.
Proof. intros [| |z|z| | | |]; try done. cbn. by destruct (z <=? int64_max). Qed.
Lemma kind_blind_int : kind_blind to_int.
Proof. intros [| |z|z| | | |]; try done. cbn. by destruct (z <=? int64_max). Qed.
Lemma kind_blind_bool : kind_blind to_bool.
Proof. intros [| |z|z| | | |]; try done. cbn. by destruct (z <=? int64_max). Qed.
Lemma kind_blind_double : kind_blind to_double.
Proof. intros [| |z|z| | | |]; try done. cbn. by destruct (z <=? int64_max). Qed.
#[export] Hint Resolve kind_blind_string kind_blind_int kind_blind_bool kind_blind_double : pu.

Lemma obj_set_new key v (o : object) : key ∉ o.*1 -> obj_set key v o = o ++ [(key, v)].
Proof.
  induction o as [|[k w] o IH]; cbn; [done|]. rewrite not_elem_of_cons. intros [Hk Ho].
  rewrite decide_False by congruence. by rewrite IH.
Qed.

(** Setting distinct new keys one by one appends them. *)
Lemma foldl_obj_set {A} (f : string * A -> value) (l : list (string * A)) (o : object) :
  NoDup l.*1 -> (forall k, k ∈ l.*1 -> k ∉ o.*1) ->
  foldl (fun out e => obj_set e.1 (f e) out) o l = o ++ map (fun e => (e.1, f e)) l.
Proof.
  revert o. induction l as [|[k a] l IH]; intros o Hn Ho; cbn; [by rewrite app_nil_r|].
  cbn in *. apply NoDup_cons in Hn as [Hk Hn].
  rewrite obj_set_new by (apply Ho; left). rewrite IH; [by rewrite <- app_assoc|done|].
  intros k' Hk'. rewrite fmap_app, not_elem_of_app. split.
  - apply Ho. by right.
  - cbn. rewrite list_elem_of_singleton. by intros ->.
Qed.

Lemma ValueOrDefault_found {T} (to : value -> option T) (o : object) key v x d :
  obj_find key o = Some v -> to v = Some x -> ValueOrDefault to (JObject o) key d = x.
Proof. intros Hv Hx. unfold ValueOrDefault. cbn. by rewrite Hv, Hx. Qed.

(** Erasing takes the member out and keeps the others, in some order. *)
Lemma obj_erase_perm key (o : object) v :
  obj_find key o = Some v -> NoDup o.*1 -> (key, v) :: obj_erase key o ≡ₚ o.
Proof.
  intros Hf Hnd. unfold obj_erase. destruct (list_find _ o) as [[i kv]|] eqn:E.
  2:{ apply list_find_None in E. rewrite Forall_forall in E.
      apply obj_find_elem in Hf. by destruct (E _ Hf). }
  apply list_find_Some in E as (Hi & Hk & _).
  assert (kv = (key, v)) as ->.
  { apply obj_find_elem, list_elem_of_lookup in Hf as [j Hj].
    assert (i = j) as ->; [|congruence].
    eapply NoDup_lookup; [done|..]; rewrite list_lookup_fmap; [by rewrite Hi|rewrite Hj; cbn; by rewrite Hk]. }
  pose proof (lookup_lt_Some _ _ _ Hi) as Hlt. pose proof (take_drop_middle o i _ Hi) as Ho.
  destruct (lookup_lt_is_Some_2 o (Nat.pred (length o))) as [moved Hm]; [lia|]. rewrite Hm.
  case_decide as El.
  - rewrite (drop_ge o (S i)) in Ho by lia. rewrite <- Ho at 2. by rewrite Permutation_cons_append.
  - assert (Hd : drop (S i) o = take (length o - S (S i)) (drop (S i) o) ++ [moved]).
    { rewrite <- (take_drop (length o - S (S i)) (drop (S i) o)) at 1. f_equal. rewrite drop_drop.
      replace (S i + (length o - S (S i)))%nat with (Nat.pred (length o)) by lia.
      rewrite (drop_S _ moved) by done. f_equal. apply drop_ge. lia. }
    rewrite <- Ho at 4. rewrite Hd at 2. by solve_Permutation.
Qed.

Lemma obj_find_perm key (o o' : object) : o ≡ₚ o' -> NoDup o.*1 -> obj_find key o = obj_find key o'.
Proof.
  intros Hp Hnd. assert (Hnd' : NoDup o'.*1) by by rewrite <- Hp.
  assert (Hin : forall (l l' : object) v, l ≡ₚ l' -> NoDup l'.*1 -> obj_find key l = Some v -> obj_find key l' = Some v).
  { intros l l' v Hl Hl' H%obj_find_elem. rewrite Hl in H.
    clear Hl. induction l' as [|[k w] l' IH]; [by apply elem_of_nil in H|]. cbn.
    cbn in Hl'. apply NoDup_cons in Hl' as [Hk Hl']. case_decide as E.
    - subst k. apply elem_of_cons in H as [[= ->]|H]; [done|].
      destruct Hk. apply list_elem_of_fmap. by exists (key, v).
    - apply elem_of_cons in H as [[= -> ->]|H]; [done|]. by apply IH. }
  destruct (obj_find key o) as [v|] eqn:E; [by rewrite (Hin o o' v)|].
  destruct (obj_find key o') as [v|] eqn:E'; [|done].
  rewrite (Hin o' o v) in E; [done|by symmetry|done|done].
Qed.

Lemma obj_find_erase key key' (o : object) :
  NoDup o.*1 -> obj_find key' (obj_erase key o) = if decide (key' = key) then None else obj_find key' o.
Proof.
  intros Hnd. destruct (obj_find key o) as [v|] eqn:E.
  - pose proof (obj_erase_perm key o v E Hnd) as Hp.
    rewrite <- (obj_find_perm key' _ _ Hp) by by rewrite Hp. cbn.
    assert (Hnd' : NoDup ((key, v) :: obj_erase key o).*1) by by rewrite Hp.
    cbn in Hnd'. apply NoDup_cons in Hnd' as [Hk _].
    repeat case_decide; try congruence. subst. by apply obj_find_None.
  - unfold obj_erase. destruct (list_find _ o) as [[i kv]|] eqn:El.
    + apply list_find_Some in El as (Hi & Hk & _). apply obj_find_None in E. destruct E.
      apply list_elem_of_fmap. exists kv. split; [done|]. by eapply list_elem_of_lookup_2.
    + case_decide; [by subst|done].
Qed.

Lemma in_range_Some lo hi z : lo <= z <= hi -> in_range lo hi z = Some z.
Proof.
  intros [H1 H2]. unfold in_range. by rewrite (proj2 (Z.leb_le _ _) H1), (proj2 (Z.leb_le _ _) H2).
Qed.

(** ** Lemmas on wire values *)

Lemma plain_JObject (fields : object) :
  plain (JObject fields) = true
  <-> NoDup fields.*1 /\ Forall (fun kv => IsValidUtf8 kv.1 = true /\ plain kv.2 = true) fields.
Proof.
  cbn. rewrite andb_true_iff, forallb_forall, Forall_forall. unfold distinct_keys.
  rewrite bool_decide_eq_true. apply and_iff_compat_l.
  setoid_rewrite andb_true_iff. split; intros H kv Hi; apply H; by apply list_elem_of_In.
Qed.

Lemma plain_JArray (items : list value) :
  plain (JArray items) = true <-> Forall (fun v => plain v = true) items.
Proof.
  cbn. rewrite forallb_forall, Forall_forall.
  split; intros H v Hi; apply H; by apply list_elem_of_In.
Qed.

Lemma depth_JObject (fields : object) n :
  (depth (JObject fields) <= n)%nat
  <-> (0 < n)%nat /\ Forall (fun kv => (depth kv.2 < n)%nat) fields.
Proof.
  cbn. induction fields as [|[k v] fields IH]; cbn.
  - split; [intros; split; [lia|constructor]|lia].
  - rewrite Forall_cons. cbn. split.
    + intros H. destruct IH as [IH _]. destruct IH as [? ?]; [lia|]. repeat split; [lia|lia|done].
    + intros (H1 & H2 & H3). destruct IH as [_ IH]. specialize (IH (conj H1 H3)). lia.
Qed.

Lemma depth_JArray (items : list value) n :
  (depth (JArray items) <= n)%nat <-> (0 < n)%nat /\ Forall (fun v => (depth v < n)%nat) items.
Proof.
  cbn. induction items as [|v items IH]; cbn.
  - split; [intros; split; [lia|constructor]|lia].
  - rewrite Forall_cons. cbn. split.
    + intros H. destruct IH as [IH _]. destruct IH as [? ?]; [lia|]. repeat split; [lia|lia|done].
    + intros (H1 & H2 & H3). destruct IH as [_ IH]. specialize (IH (conj H1 H3)). lia.
Qed.

Lemma wire_spec v : wire v = true <-> plain v = true /\ (depth v <= 32)%nat.
Proof. unfold wire. by rewrite andb_true_iff, Nat.leb_le. Qed.

Lemma normalize_keys (fields : object) :
  (map (fun kv => (kv.1, normalize kv.2)) fields).*1 = fields.*1.
Proof. induction fields as [|[k v] fields IH]; cbn; [done|]. by f_equal. Qed.

Lemma depth_normalize v : depth (normalize v) = depth v.
Proof.
  induction v as [| | |z| | |items IH|fields IH] using value_ind'; cbn; try done.
  - by destruct (z <=? int64_max).
  - f_equal. induction IH as [|v items Hv _ IH]; cbn; [done|]. by rewrite Hv, IH.
  - f_equal. induction IH as [|[k v] fields Hv _ IH]; cbn in *; [done|]. by rewrite Hv, IH.
Qed.

Lemma plain_normalize v : plain v = true -> plain (normalize v) = true.
Proof.
  induction v as [| | |z| | |items IH|fields IH] using value_ind'; try done.
  - cbn. intros [Hlo Hhi]%andb_prop. destruct (z <=? int64_max) eqn:E; cbn; [|by rewrite Hlo].
    rewrite E, andb_true_r. apply Z.leb_le in Hlo. apply Z.leb_le. unfold int64_min. lia.
  - rewrite plain_JArray. intros Hp. apply (proj2 (plain_JArray _)). apply Forall_map.
    rewrite Forall_forall in *. intros v Hv. apply IH; auto.
  - rewrite plain_JObject. intros [Hn Hp]. apply (proj2 (plain_JObject _)).
    rewrite normalize_keys. split; [done|]. apply Forall_map.
    rewrite Forall_forall in *. intros kv Hi. destruct (Hp _ Hi). cbn. auto.
Qed.

Lemma wire_normalize v : wire v = true -> wire (normalize v) = true.
Proof. rewrite !wire_spec, depth_normalize. intros [? ?]. auto using plain_normalize. Qed.

Lemma normalize_idemp v : normalize (normalize v) = normalize v.
Proof.
  induction v as [| | |z| | |items IH|fields IH] using value_ind'; cbn; try done.
  - destruct (z <=? int64_max) eqn:E; cbn; [done|]. by rewrite E.
  - f_equal. rewrite map_map. apply map_ext_Forall. exact IH.
  - f_equal. rewrite map_map. apply map_ext_Forall. eapply Forall_impl; [exact IH|].
    intros [k v]; cbn. by intros ->.
Qed.

Lemma wire_obj_set key v (o : object) :
  wire (JObject o) = true -> IsValidUtf8 key = true -> plain v = true -> (depth v < 32)%nat ->
  wire (JObject (obj_set key v o)) = true.
Proof.
  rewrite !wire_spec, !plain_JObject, !depth_JObject. intros [[Hn Hp] [_ Hd]] Hk Hv Hdv.
  assert (Hall : forall (P : string * value -> Prop),
    Forall P o -> P (key, v) -> Forall P (obj_set key v o)).
  { intros P HP HQ. clear -HP HQ. induction HP as [|[k w] o Hw Ho IH]; cbn; [by constructor|].
    case_decide; subst; by constructor. }
  split; [|split; [lia|by apply Hall]]. split; [|by apply Hall].
  rewrite obj_set_keys. case_decide as Hin; [done|].
  apply NoDup_app. split_and!; [done| |apply NoDup_singleton].
  intros x Hx ->%list_elem_of_singleton. done.
Qed.

Lemma obj_set_normalize key v (o : object) :
  map (fun kv => (kv.1, normalize kv.2)) (obj_set key v o)
  = obj_set key (normalize v) (map (fun kv => (kv.1, normalize kv.2)) o).
Proof. induction o as [|[k w] o IH]; cbn; [done|]. case_decide; cbn; [done|]. by rewrite IH. Qed.

(** ** A concrete codec *)

#[export] Instance spec_float_countable : Countable spec_float.
Proof.
  refine (inj_countable'
    (fun f : spec_float => match f with
      | S754_zero s => inl s | S754_infinity s => inr (inl s) | S754_nan => inr (inr (inl tt))
      | S754_finite s m e => inr (inr (inr (s, m, e))) end)
    (fun x : bool + (bool + (() + (bool * positive * Z))) => match x with
      | inl s => S754_zero s | inr (inl s) => S754_infinity s | inr (inr (inl _)) => S754_nan
      | inr (inr (inr (s, m, e))) => S754_finite s m e end) _).
  by intros [].
Defined.

Abbreviation leaf := (bool + (Z + (Z + (spec_float + string))))%type.

Fixpoint to_tree (v : value) : gen_tree leaf :=
  match v with
  | JNull => GenNode 0 []
  | JBool b => GenLeaf (inl b)
  | JInt64 z => GenLeaf (inr (inl z))
  | JUint64 z => GenLeaf (inr (inr (inl z)))
  | JDouble d => GenLeaf (inr (inr (inr (inl d))))
  | JString s => GenLeaf (inr (inr (inr (inr s))))
  | JArray items => GenNode 1 (map to_tree items)
  | JObject fields =>
      GenNode 2 (map (fun kv => GenNode 3 [GenLeaf (inr (inr (inr (inr kv.1)))); to_tree kv.2]) fields)
  end.

Fixpoint of_tree (t : gen_tree leaf) : value :=
  match t with
  | GenLeaf (inl b) => JBool b
  | GenLeaf (inr (inl z)) => JInt64 z
  | GenLeaf (inr (inr (inl z))) => JUint64 z
  | GenLeaf (inr (inr (inr (inl d)))) => JDouble d
  | GenLeaf (inr (inr (inr (inr s)))) => JString s
  | GenNode 1 items => JArray (map of_tree items)
  | GenNode 2 fields =>
      JObject (map (fun f => match f with
        | GenNode 3 [GenLeaf (inr (inr (inr (inr k)))); t'] => (k, of_tree t')
        | _ => ("", JNull) end) fields)
  | _ => JNull
  end.

Lemma of_to_tree v : of_tree (to_tree v) = v.
Proof.
  induction v as [| | | | | |items IH|fields IH] using value_ind'; cbn; try done; f_equal.
  - induction IH as [|v items Hv _ IH]; cbn; [done|]. by rewrite Hv, IH.
  - induction IH as [|[k v] fields Hv _ IH]; cbn; [done|]. cbn in Hv. by rewrite Hv, IH.
Qed.

#[export] Instance value_eq_dec : EqDecision value.
Proof. refine (inj_eq_dec to_tree). intros v w E. by rewrite <- (of_to_tree v), E, of_to_tree. Defined.

#[export] Instance value_countable : Countable value := inj_countable' to_tree of_tree of_to_tree.

Fixpoint bits (p : positive) : string :=
  match p with
  | xH => ""
  | xO p' => String "0" (bits p')
  | xI p' => String "1" (bits p')
  end.

Fixpoint unbits (s : string) : positive :=
  match s with
  | "" => xH
  | String c s' => if decide (c = "0"%char) then xO (unbits s') else xI (unbits s')
  end.

Lemma unbits_bits p : unbits (bits p) = p.
Proof. induction p as [p IH|p IH|]; cbn; by rewrite ?IH. Qed.

Definition unbrace (s : string) : string :=
  match s with String "{" s' => s' | _ => s end.

Lemma unbrace_bits (b : bool) p : unbrace ((if b then "{" else "") +:+ bits p) = bits p.
Proof. destruct b; [done|]. by destruct p. Qed.

(** A codec that satisfies the laws on every value, used to show that they can
    hold.  An object's text begins with a brace; the rest encodes the value. *)
Definition bit_codec : JsonCodec := {|
  parse s := decode (unbits (unbrace s));
  serialize v := (if is_object v then "{" else "") +:+ bits (encode (normalize v))
|}.

#[export] Instance bit_codec_ok : JsonCodecOk bit_codec.
Proof.
  split.
  - intros v _. unfold bit_codec, parse, serialize.
    rewrite unbrace_bits, unbits_bits. apply decode_encode.
  - intros fields. by eexists.
Qed.
