(* ===== verification/Sse.v ===== *)
(** * Server-sent events ([include/pu/core/sse.hpp], [src/core/sse.cpp])

    [SseParser] is the class's state; [Feed], [HandleLine], [Dispatch] and
    [Finish] are its methods, returning the next state and the callbacks they
    make ([out]) in order.  [encode_event] writes an event as a server does, and
    the theorems relate the parser to it: the framing survives any split of the
    stream into reads.  [ParsesAsOneValue] asks Boost's parser, which is the
    [JsonCodec] of the section. *)
From Stdlib Require Import Ascii.
From S2P Require Export Prelude Text Json.

Record SseEvent := mkEvent { event : string; ev_id : string; data : string }.

Definition no_event : SseEvent := mkEvent "" "" "".

Inductive out :=
  | OnEvent (e : SseEvent)
  | OnRetry (milliseconds : Z).

Record SseParser := mkParser {
  buffer_ : string;
  bare_lines_are_events_ : bool;
  pending_ : SseEvent;
  has_data_ : bool;
  (** Whether [OnRetry] was given a callback. *)
  on_retry_ : bool;
}.

Definition new_parser (bare retry : bool) : SseParser := mkParser "" bare no_event false retry.

Definition set_buffer (b : string) (p : SseParser) : SseParser :=
  mkParser b (bare_lines_are_events_ p) (pending_ p) (has_data_ p) (on_retry_ p).
Definition set_pending (e : SseEvent) (has : bool) (p : SseParser) : SseParser :=
  mkParser (buffer_ p) (bare_lines_are_events_ p) e has (on_retry_ p).

Definition SplitField (line : string) : string * string :=
  match sfind ":" line with
  | None => (line, "")
  | Some colon =>
      let value := sdrop (S colon) line in
      (stake colon line,
       match value with
       | String c rest => if decide (c = space) then rest else value
       | "" => value
       end)
  end.

Definition StartsAField (line : string) : bool :=
  existsb (fun field =>
      negb (slen line <=? slen field)%nat
      && bool_decide (stake (slen field) line = field)
      && bool_decide (String.get (slen field) line = Some ":"%char))
    ["data"; "event"; "id"; "retry"].

(** The line without the carriage return that ended it. *)
Definition strip_cr (line : string) : string :=
  match sback line with
  | Some c => if decide (c = cr) then spop line else line
  | None => line
  end.

Section Parser.
Context `{codec : JsonCodec}.

Definition ParsesAsOneValue (d : string) : bool :=
  if sempty d then false
  else if bool_decide (d = "[DONE]") then true
  else match parse d with Some _ => true | None => false end.

Definition PendingIsComplete (p : SseParser) : bool := ParsesAsOneValue (data (pending_ p)).

Definition Dispatch (p : SseParser) : SseParser * list out :=
  let carried := has_data_ p in
  (set_pending no_event false p, if carried then [OnEvent (pending_ p)] else []).

(** What [HandleLine] does with a line split into its field and value. *)
Definition handle_field (p : SseParser) (field value : string) : SseParser * list out :=
  if bool_decide (field = "data") then
    let '(p, outs) :=
      if has_data_ p && PendingIsComplete p then Dispatch p else (p, []) in
    let joined := if has_data_ p then data (pending_ p) +:+ NL else data (pending_ p) in
    (set_pending (mkEvent (event (pending_ p)) (ev_id (pending_ p)) (joined +:+ value)) true p,
     outs)
  else if bool_decide (field = "event") then
    (set_pending (mkEvent value (ev_id (pending_ p)) (data (pending_ p))) (has_data_ p) p, [])
  else if bool_decide (field = "id") then
    (set_pending (mkEvent (event (pending_ p)) value (data (pending_ p))) (has_data_ p) p, [])
  else if bool_decide (field = "retry") then
    (p, if on_retry_ p then
          match stoi value with
          | Some ms => if 0 <=? ms then [OnRetry ms] else []
          | None => []
          end
        else [])
  else (p, []).

Definition HandleLine (p : SseParser) (line : string) : SseParser * list out :=
  if sempty line then Dispatch p
  else if bool_decide (String.get 0 line = Some ":"%char) then (p, [])
  else if bare_lines_are_events_ p && negb (StartsAField line) then
    (p, [OnEvent (mkEvent "" "" line)])
  else
    let '(field, value) := SplitField line in
    handle_field p field value.

(** The loop of [Feed]; every round but the last removes at least the newline
    it found, so the buffer's length is fuel enough. *)
Fixpoint feed_loop (fuel : nat) (p : SseParser) : SseParser * list out :=
  match fuel with
  | 0%nat => (p, [])
  | S fuel' =>
      match sfind nl (buffer_ p) with
      | None => (p, [])
      | Some newline =>
          let line := strip_cr (stake newline (buffer_ p)) in
          if EndsWithPartialSequence line then (p, [])
          else
            let p1 := set_buffer (sdrop (S newline) (buffer_ p)) p in
            let '(p2, outs) := HandleLine p1 line in
            let '(p3, outs') := feed_loop fuel' p2 in
            (p3, outs ++ outs')
      end
  end.

Definition Feed (p : SseParser) (text : string) : SseParser * list out :=
  let p := set_buffer (buffer_ p +:+ text) p in
  feed_loop (S (slen (buffer_ p))) p.

Definition Finish (p : SseParser) : SseParser * list out :=
  let '(p, outs) :=
    if sempty (buffer_ p) then (p, [])
    else
      let line := strip_cr (buffer_ p) in
      let p := set_buffer "" p in
      if EndsWithPartialSequence line then (p, []) else HandleLine p line in
  let '(p, outs') := Dispatch p in
  (p, outs ++ outs').

(** A stream read in pieces. *)
Fixpoint Feed_all (p : SseParser) (chunks : list string) : SseParser * list out :=
  match chunks with
  | [] => (p, [])
  | c :: chunks' =>
      let '(p, outs) := Feed p c in
      let '(p, outs') := Feed_all p chunks' in
      (p, outs ++ outs')
  end.

(** ** The buffer and the lines are independent *)

Lemma set_buffer_set b b' p : set_buffer b (set_buffer b' p) = set_buffer b p.
Proof. done. Qed.
Lemma set_buffer_id p : set_buffer (buffer_ p) p = p.
Proof. by destruct p. Qed.

Lemma HandleLine_buffer b p line :
  HandleLine (set_buffer b p) line =
  (set_buffer b (HandleLine p line).1, (HandleLine p line).2).
Proof.
  unfold HandleLine, handle_field, Dispatch, PendingIsComplete. cbn.
  repeat (case_match; simplify_eq/=); done.
Qed.

Lemma HandleLine_keeps_buffer p line : buffer_ (HandleLine p line).1 = buffer_ p.
Proof. rewrite <- (set_buffer_id p) at 1. by rewrite HandleLine_buffer. Qed.

Lemma feed_loop_fuel f f' p :
  (slen (buffer_ p) < f)%nat -> (slen (buffer_ p) < f')%nat -> feed_loop f p = feed_loop f' p.
Proof.
  revert f' p. induction f as [|f IH]; intros [|f'] p Hf Hf'; try lia.
  cbn [feed_loop]. destruct (sfind nl (buffer_ p)) as [i|] eqn:Hi; [|done].
  case_match; [done|].
  pose proof (sfind_ge _ _ _ Hi).
  destruct (HandleLine _ _) as [p2 o] eqn:Hh.
  assert (Hb : slen (buffer_ p2) = (slen (buffer_ p) - S i)%nat).
  { replace p2 with (HandleLine (set_buffer (sdrop (S i) (buffer_ p)) p)
      (strip_cr (stake i (buffer_ p)))).1 by (by rewrite Hh).
    rewrite HandleLine_keeps_buffer. apply slen_sdrop. }
  rewrite (IH f') by lia. done.
Qed.

Definition grow (p : SseParser) (t : string) : SseParser := set_buffer (buffer_ p +:+ t) p.

(** Reading on from where the loop stopped is reading it all at once. *)
Lemma feed_loop_grow f f' p t p' o :
  (slen (buffer_ p) < f)%nat -> (slen (buffer_ p +:+ t) < f')%nat ->
  feed_loop f p = (p', o) ->
  feed_loop f' (grow p t) =
    (let '(p'', o') := feed_loop f' (grow p' t) in (p'', o ++ o'))
  /\ (slen (buffer_ p') <= slen (buffer_ p))%nat.
Proof.
  revert f' p p' o. induction f as [|f IH]; intros f' p p' o Hf Hf' Hrun; [lia|].
  cbn [feed_loop] in Hrun. destruct (sfind nl (buffer_ p)) as [i|] eqn:Hi.
  2:{ injection Hrun as <- <-. split; [|lia]. by destruct (feed_loop f' (grow p t)). }
  destruct (EndsWithPartialSequence _) eqn:He.
  { injection Hrun as <- <-. split; [|lia]. by destruct (feed_loop f' (grow p t)). }
  destruct (HandleLine _ _) as [p2 o1] eqn:Hh.
  destruct (feed_loop f p2) as [p3 o2] eqn:Hl. injection Hrun as <- <-.
  pose proof (sfind_ge _ _ _ Hi) as Hlt.
  assert (Hb : buffer_ p2 = sdrop (S i) (buffer_ p)).
  { change p2 with (p2, o1).1. rewrite <- Hh. apply HandleLine_keeps_buffer. }
  assert (Hs : slen (buffer_ p2) = (slen (buffer_ p) - S i)%nat)
    by (rewrite Hb; apply slen_sdrop).
  rewrite slen_app in Hf'. destruct f' as [|f']; [lia|].
  destruct (IH f' p2 p3 o2) as [IH1 IH2]; [lia| |done|].
  { rewrite slen_app. lia. }
  split; [|lia].
  assert (Hgrow : HandleLine (set_buffer (sdrop (S i) (buffer_ p +:+ t)) (grow p t))
                    (strip_cr (stake i (buffer_ p +:+ t))) = (grow p2 t, o1)).
  { rewrite stake_app_le, sdrop_app by lia. unfold grow at 1. rewrite set_buffer_set.
    rewrite HandleLine_buffer in Hh |- *. injection Hh as <- <-. done. }
  assert (Hstep : feed_loop (S f') (grow p t) =
            let '(q, o') := feed_loop f' (grow p2 t) in (q, o1 ++ o')).
  { cbn [feed_loop]. unfold grow at 1. cbn [buffer_ set_buffer].
    rewrite (sfind_app_Some _ _ t _ Hi).
    change (buffer_ (grow p t)) with (buffer_ p +:+ t).
    rewrite stake_app_le by lia. rewrite He. rewrite <- (stake_app_le i _ t) by lia.
    by rewrite Hgrow. }
  rewrite Hstep, IH1.
  rewrite (feed_loop_fuel (S f') f' (grow p3 t)) by (unfold grow; cbn; rewrite slen_app; lia).
  destruct (feed_loop f' (grow p3 t)) as [q o3]. by rewrite app_assoc.
Qed.

Lemma Feed_app p a b :
  Feed p (a +:+ b) =
    (let '(p1, o1) := Feed p a in let '(p2, o2) := Feed p1 b in (p2, o1 ++ o2)).
Proof.
  unfold Feed at 1 2. destruct (feed_loop _ (set_buffer (buffer_ p +:+ a) p)) as [p1 o1] eqn:Ha.
  cbn [buffer_ set_buffer] in *.
  eapply (feed_loop_grow _ (S (slen (buffer_ p +:+ (a +:+ b)))) _ b) in Ha as [Hg Hle];
    [|cbn; lia|cbn; rewrite !slen_app; lia].
  replace (set_buffer (buffer_ p +:+ (a +:+ b)) p)
    with (grow (set_buffer (buffer_ p +:+ a) p) b)
    by (unfold grow; cbn; by rewrite sapp_assoc).
  rewrite Hg. unfold Feed. fold (grow p1 b).
  rewrite (feed_loop_fuel (S (slen (buffer_ (grow p1 b)))) (S (slen (buffer_ p +:+ (a +:+ b)))));
    [done|lia|].
  cbn in *. rewrite !slen_app in *. lia.
Qed.

Lemma Feed_all_concat p c chunks :
  Feed_all p (c :: chunks) = Feed p (c +:+ foldr String.append "" chunks).
Proof.
  revert p c. induction chunks as [|c' chunks IH]; intros p c.
  - cbn [foldr Feed_all]. rewrite sapp_nil_r. destruct (Feed p c). by rewrite app_nil_r.
  - cbn [foldr]. rewrite Feed_app. cbn [Feed_all]. destruct (Feed p c) as [p1 o1].
    by rewrite <- IH.
Qed.

(** ** Whole lines *)

(** Text a field can carry on one line. *)
Definition line_text (s : string) : bool :=
  bool_decide (sfind nl s = None) && bool_decide (sback s <> Some cr) && IsValidUtf8 s.

Lemma line_text_strip s : line_text s = true -> strip_cr s = s.
Proof.
  unfold line_text, strip_cr. intros H. destruct (sback s) as [c|] eqn:Hc; [|done].
  destruct (decide (c = cr)) as [E|]; [|done]. rewrite E in *.
  rewrite (bool_decide_false (Some cr <> Some cr)), andb_false_r in H; [done|]. naive_solver.
Qed.

Lemma Feed_line p line :
  buffer_ p = "" -> line_text line = true -> Feed p (line +:+ NL) = HandleLine p line.
Proof.
  intros Hp Hl. pose proof (line_text_strip _ Hl) as Hs. unfold line_text in Hl.
  assert (Hv : IsValidUtf8 line = true) by (destruct (IsValidUtf8 line); [done|lia]).
  assert (Hn : sfind nl line = None).
  { destruct (bool_decide_reflect (sfind nl line = None)); [done|discriminate Hl]. }
  unfold Feed. rewrite Hp. cbn [buffer_ set_buffer String.append].
  rewrite slen_app. cbn [feed_loop buffer_ set_buffer].
  rewrite (sfind_app_None nl line "" Hn : sfind nl (line +:+ NL) = _).
  rewrite stake_app_exact, Hs, (EndsWithPartialSequence_valid _ Hv).
  replace (sdrop (S (slen line)) (line +:+ NL)) with ("" : string).
  2:{ symmetry. apply sdrop_ge. rewrite slen_app. cbn. lia. }
  rewrite <- Hp, set_buffer_set, set_buffer_id.
  pose proof (HandleLine_keeps_buffer p line) as Hk.
  destruct (HandleLine p line) as [p2 o]. cbn in Hk.
  rewrite Nat.add_comm. cbn [Nat.add String.length NL feed_loop]. rewrite Hk, Hp. cbn.
  by rewrite app_nil_r.
Qed.

Lemma HandleLine_blank p : HandleLine p "" = Dispatch p.
Proof. done. Qed.

Lemma HandleLine_field p field v :
  field = "event" \/ field = "id" \/ field = "data" ->
  HandleLine p (field +:+ ": " +:+ v) = handle_field p field v.
Proof.
  intros Hf.
  assert (Hs : sempty (field +:+ ": " +:+ v) = false
    /\ bool_decide (String.get 0 (field +:+ ": " +:+ v) = Some ":"%char) = false
    /\ StartsAField (field +:+ ": " +:+ v) = true
    /\ SplitField (field +:+ ": " +:+ v) = (field, v))
    by (destruct Hf as [->|[->| ->]]; split_and!; try reflexivity;
        destruct v as [|? [|? v]]; reflexivity).
  destruct Hs as (H1 & H2 & H3 & H4). unfold HandleLine. by rewrite H1, H2, H3, H4, andb_false_r.
Qed.

Lemma HandleLine_event p v :
  HandleLine p ("event: " +:+ v) =
  (set_pending (mkEvent v (ev_id (pending_ p)) (data (pending_ p))) (has_data_ p) p, []).
Proof. apply (HandleLine_field p "event" v). tauto. Qed.

Lemma HandleLine_id p v :
  HandleLine p ("id: " +:+ v) =
  (set_pending (mkEvent (event (pending_ p)) v (data (pending_ p))) (has_data_ p) p, []).
Proof. apply (HandleLine_field p "id" v). tauto. Qed.

Lemma HandleLine_data p v :
  (has_data_ p = true -> PendingIsComplete p = false) ->
  HandleLine p ("data: " +:+ v) =
  (set_pending (mkEvent (event (pending_ p)) (ev_id (pending_ p))
     ((if has_data_ p then data (pending_ p) +:+ NL else data (pending_ p)) +:+ v)) true p, []).
Proof.
  intros Hc. trans (handle_field p "data" v); [apply (HandleLine_field p "data" v); tauto|]. unfold handle_field.
  rewrite bool_decide_true by done.
  assert (Hd : has_data_ p && PendingIsComplete p = false)
    by (destruct (has_data_ p); [by rewrite Hc | done]).
  by rewrite Hd.
Qed.
End Parser.

(** ** What a server writes *)

(** The payload's lines joined by the newlines they were split at. *)
Definition join_lines (l : string) (ls : list string) : string :=
  foldl (fun acc x => acc +:+ NL +:+ x) l ls.

Definition field_line (name v : string) : string := name +:+ ": " +:+ v +:+ NL.

(** One frame: the event's name and id when it has them, a [data:] line per line
    of the payload [l :: ls], and the blank line. *)
Definition encode_event (e i l : string) (ls : list string) : string :=
  (if sempty e then "" else field_line "event" e)
  +:+ (if sempty i then "" else field_line "id" i)
  +:+ foldr (fun x s => field_line "data" x +:+ s) NL (l :: ls).

Record frame := mkFrame { f_event : string; f_id : string; f_line : string; f_lines : list string }.

Definition frame_text (f : frame) : string :=
  encode_event (f_event f) (f_id f) (f_line f) (f_lines f).

Definition frame_event (f : frame) : SseEvent :=
  mkEvent (f_event f) (f_id f) (join_lines (f_line f) (f_lines f)).

(** Every field fits on one line, and a payload split over several lines is not
    a whole value before its last one. *)
Definition frame_ok `{JsonCodec} (f : frame) : Prop :=
  line_text (f_event f) = true /\ line_text (f_id f) = true
  /\ forallb line_text (f_line f :: f_lines f) = true
  /\ forall k, (k < length (f_lines f))%nat ->
       ParsesAsOneValue (join_lines (f_line f) (take k (f_lines f))) = false.

Section Stream.
Context `{codec : JsonCodec}.

Lemma line_text_parts s :
  line_text s = true <->
  sfind nl s = None /\ sback s <> Some cr /\ IsValidUtf8 s = true.
Proof. unfold line_text. rewrite !andb_true_iff, !bool_decide_eq_true. tauto. Qed.

Lemma line_text_field name v :
  name = "event" \/ name = "id" \/ name = "data" ->
  line_text v = true -> line_text (name +:+ ": " +:+ v) = true.
Proof.
  rewrite !line_text_parts. intros Hname (Hn & Hb & Hv).
  assert (Hp : exists p, name +:+ ": " +:+ v = p +:+ " " +:+ v /\ sfind nl (p +:+ " ") = None
               /\ IsValidUtf8 (p +:+ " ") = true).
  { exists (name +:+ ":"). by destruct Hname as [->|[->| ->]]. }
  destruct Hp as (p & -> & Hpn & Hpv). rewrite sapp_assoc. repeat split.
  - apply sfind_None. rewrite count_char_app.
    rewrite (proj1 (sfind_None nl _) Hpn), (proj1 (sfind_None nl _) Hn). done.
  - destruct (sback v) as [c|] eqn:Hc.
    + rewrite (sback_spop _ _ Hc), sapp_assoc, sback_snoc. done.
    + apply sback_None in Hc as ->. by rewrite sapp_nil_r, sback_snoc.
  - by apply IsValidUtf8_app.
Qed.

Lemma Feed_field_line p name v :
  name = "event" \/ name = "id" \/ name = "data" ->
  buffer_ p = "" -> line_text v = true ->
  Feed p (field_line name v) = HandleLine p (name +:+ ": " +:+ v).
Proof.
  intros Hn Hb Hv. unfold field_line. rewrite !sapp_assoc, <- (sapp_assoc name).
  apply Feed_line; [done|]. by apply line_text_field.
Qed.

Lemma Feed_blank p : buffer_ p = "" -> Feed p NL = Dispatch p.
Proof. intros Hb. by apply (Feed_line p ""). Qed.

(** Once a payload has begun, its further lines and the blank line that ends
    the frame deliver it. *)
Lemma Feed_data_lines p ls :
  buffer_ p = "" -> has_data_ p = true -> forallb line_text ls = true ->
  (forall k, (k < length ls)%nat ->
     ParsesAsOneValue (join_lines (data (pending_ p)) (take k ls)) = false) ->
  Feed p (foldr (fun x s => field_line "data" x +:+ s) NL ls) =
    (set_pending no_event false p,
     [OnEvent (mkEvent (event (pending_ p)) (ev_id (pending_ p))
                 (join_lines (data (pending_ p)) ls))]).
Proof.
  revert p. induction ls as [|l ls IH]; intros p Hb Hd Hls Hc.
  - cbn [foldr]. rewrite Feed_blank by done. unfold Dispatch. rewrite Hd.
    by destruct p as [? ? [] ? ?].
  - cbn [foldr]. rewrite Feed_app. cbn in Hls. apply andb_true_iff in Hls as [Hl Hls].
    rewrite Feed_field_line by tauto. rewrite (HandleLine_data p l).
    2:{ intros _. unfold PendingIsComplete. apply (Hc 0%nat). cbn. lia. }
    rewrite Hd, <- sapp_assoc, IH; try done.
    intros k Hk. apply (Hc (S k)). cbn. lia.
Qed.

Definition ready (p : SseParser) : Prop :=
  buffer_ p = "" /\ pending_ p = no_event /\ has_data_ p = false.

Lemma Feed_nothing p : buffer_ p = "" -> Feed p "" = (p, []).
Proof. destruct p as [b ? ? ? ?]. cbn. by intros ->. Qed.

Lemma Feed_frame p f :
  ready p -> frame_ok f -> Feed p (frame_text f) = (p, [OnEvent (frame_event f)]).
Proof.
  intros (Hb & Hp & Hd) (He & Hi & Hls & Hc). destruct f as [e i l ls].
  cbn [f_event f_id f_line f_lines forallb] in *.
  apply andb_true_iff in Hls as [Hl Hls]. unfold frame_text, encode_event. cbn [f_event f_id f_line f_lines].
  rewrite Feed_app.
  assert (Feed p (if sempty e then "" else field_line "event" e) =
          (set_pending (mkEvent e "" "") false p, [])) as ->.
  { destruct (sempty e) eqn:Ee.
    - apply sempty_true in Ee as ->. rewrite Feed_nothing by done. destruct p; cbn in *. by subst.
    - rewrite Feed_field_line by tauto. etrans; [apply HandleLine_event|]. by rewrite Hp, Hd. }
  rewrite Feed_app.
  set (p1 := set_pending (mkEvent e "" "") false p).
  assert (Feed p1 (if sempty i then "" else field_line "id" i) =
          (set_pending (mkEvent e i "") false p, [])) as ->.
  { destruct (sempty i) eqn:Ei.
    - apply sempty_true in Ei as ->. by rewrite Feed_nothing.
    - rewrite Feed_field_line by tauto. etrans; [apply HandleLine_id|done]. }
  set (p2 := set_pending (mkEvent e i "") false p).
  cbn [foldr]. rewrite Feed_app, Feed_field_line by tauto.
  rewrite (HandleLine_data p2 l) by done. rewrite Feed_data_lines by done.
  unfold frame_event. cbn. destruct p; cbn in *. by subst.
Qed.

Lemma Feed_frames p fs :
  ready p -> Forall frame_ok fs ->
  Feed p (foldr (fun f s => frame_text f +:+ s) "" fs)
  = (p, map (fun f => OnEvent (frame_event f)) fs).
Proof.
  intros Hp. induction 1 as [|f fs Hf _ IH]; cbn [foldr map].
  - by apply Feed_nothing, Hp.
  - rewrite Feed_app, Feed_frame by done. by rewrite IH.
Qed.

(** The parser is a pure function of the bytes fed to it: splitting a stream
    into reads at any points, in the middle of a line or of a character,
    changes neither the callbacks nor the state it ends in. *)
Theorem Feed_all_split p c c' chunks chunks' :
  foldr String.append "" (c :: chunks) = foldr String.append "" (c' :: chunks') ->
  Feed_all p (c :: chunks) = Feed_all p (c' :: chunks').
Proof. intros Heq. rewrite !Feed_all_concat. by f_equal. Qed.

(** C36: a stream of frames written by a server (names, ids and payloads of one
    or several lines, each frame closed by its blank line), read in any pieces,
    is delivered as exactly those events in that order, and leaves the parser
    ready for the next. *)
Theorem Feed_all_frames p fs c chunks :
  ready p -> Forall frame_ok fs ->
  foldr String.append "" (c :: chunks) = foldr (fun f s => frame_text f +:+ s) "" fs ->
  Feed_all p (c :: chunks) = (p, map (fun f => OnEvent (frame_event f)) fs).
Proof.
  intros Hp Hfs Heq. rewrite Feed_all_concat.
  change (c +:+ foldr String.append "" chunks) with (foldr String.append "" (c :: chunks)).
  rewrite Heq. by apply Feed_frames.
Qed.

(** A buffered line that ends inside a character. *)
Definition jammed (p : SseParser) : Prop :=
  exists line rest, buffer_ p = line +:+ String nl rest /\ sfind nl line = None
    /\ EndsWithPartialSequence (strip_cr line) = true.

(** A line whose last bytes are the beginning of a character is never
    completed, because the newline that follows it is already in the buffer:
    from then on [Feed] delivers nothing and keeps every byte, whatever the
    server sends. *)
Theorem Feed_jammed p text :
  jammed p -> Feed p text = (grow p text, []) /\ jammed (grow p text).
Proof.
  intros (line & rest & Hb & Hn & He).
  assert (Hg : buffer_ (grow p text) = line +:+ String nl (rest +:+ text)).
  { unfold grow. cbn. by rewrite Hb, <- sapp_assoc. }
  split; [|by exists line, (rest +:+ text)].
  unfold Feed. fold (grow p text). cbn [feed_loop].
  by rewrite Hg, (sfind_app_None _ _ _ Hn), stake_app_exact, He.
Qed.
End Stream.

Definition witness_frames : list frame :=
  [mkFrame "delta" "7" "a" []; mkFrame "" "" "x" ["y"]].

Example Feed_all_split_witness :
  Feed_all (codec := bit_codec) (new_parser false false) ["data: hi" +:+ NL; NL]
  = Feed_all (codec := bit_codec) (new_parser false false) ["da"; "ta: hi" +:+ NL +:+ NL].
Proof. apply Feed_all_split. reflexivity. Defined.

Example Feed_all_frames_witness :
  Feed_all (codec := bit_codec) (new_parser false false)
    ["event: del"; "ta" +:+ NL +:+ "id: 7" +:+ NL +:+ "data: a" +:+ NL +:+ NL +:+ "data: x" +:+ NL;
     "data: y" +:+ NL +:+ NL]
  = (new_parser false false, [OnEvent (mkEvent "delta" "7" "a"); OnEvent (mkEvent "" "" ("x" +:+ NL +:+ "y"))]).
Proof.
  apply (Feed_all_frames (codec := bit_codec) (new_parser false false) witness_frames).
  - split; [reflexivity|split; reflexivity].
  - repeat constructor; cbn; try reflexivity.
    + intros k Hk. inversion Hk.
    + intros [|k] Hk; [vm_compute; reflexivity|]. apply Nat.succ_lt_mono in Hk. inversion Hk.
  - reflexivity.
Defined.

Example Feed_jammed_witness :
  let p := (Feed (codec := bit_codec) (new_parser false false) ("data: " +:+ String (chr 0xE4) NL)).1 in
  jammed p /\ Feed (codec := bit_codec) p ("data: lost" +:+ NL +:+ NL)
              = (grow p ("data: lost" +:+ NL +:+ NL), []).
Proof.
  intros p. assert (H : jammed p).
  { exists ("data: " +:+ String (chr 0xE4) ""), "". repeat split; vm_compute; reflexivity. }
  split; [exact H|]. apply (Feed_jammed (codec := bit_codec) p ("data: lost" +:+ NL +:+ NL) H).
Defined.
