(* ===== verification/Exec.v ===== *)
(** * Running a command under a budget ([include/pu/exec/run.hpp], [src/exec/run.cpp])

    [Capture] keeps one end of a stream within a byte budget and counts the
    rest; [Settle] is the verdict; [Run] is the POSIX path, with the operating
    system's answers (the descriptors, the polls, the exit status and the reads
    of the stop token) as its argument.  The theorems say which part of the
    stream survives and how large it can be. *)
From Stdlib Require Import Ascii.
From S2P Require Export Prelude Text.

Inductive Keep := kHead | kEnd.
#[export] Instance Keep_eq_dec : EqDecision Keep.
Proof. solve_decision. Defined.

Record Extent := mkExtent {
  x_lines : Z;
  x_bytes : Z;
  x_retained : Z;
  x_from_end : bool;
}.

Definition truncated (e : Extent) : bool := x_retained e <? x_lines e.
Definition skipped (e : Extent) : Z :=
  if x_from_end e && (x_retained e <? x_lines e) then x_lines e - x_retained e else 0.

Record Verdict := mkVerdict {
  command : string;
  v_ok : bool;
  exit_code : Z;
  v_error : string;
  stopped : bool;
}.

Record Captured := mkCaptured { c_text : string; c_extent : Extent }.
Record Ran := mkRan { verdict : Verdict; captured : Captured }.

Definition CountLines (text : string) : Z :=
  match sback text with
  | None => 0
  | Some c =>
      let lines := Z.of_nat (count_char nl text) in
      if decide (c = nl) then lines else lines + 1
  end.

(** ** The capture *)

Record Capture := mkCapture {
  k_bytes : Z;
  text_ : string;
  max_bytes_ : Z;
  keep_ : Keep;
  newlines_ : Z;
  last_ : ascii;
  truncated_ : bool;
}.

Definition new_capture (max_bytes : Z) (keep : Keep) : Capture :=
  mkCapture 0 "" max_bytes keep 0 nl false.

Definition zlen (s : string) : Z := Z.of_nat (slen s).

(** The loop of [DropToBudget]: every round erases at least one byte. *)
Fixpoint drop_to_budget (fuel : nat) (max : Z) (text : string) (trunc : bool) : string * bool :=
  match fuel with
  | 0%nat => (text, trunc)
  | S fuel' =>
      if zlen text <=? max then (text, trunc)
      else
        let cut := Z.to_nat (zlen text - max) in
        let drop :=
          match sfind nl (sdrop cut text) with
          | None => cut
          | Some newline => S (cut + newline)
          end in
        drop_to_budget fuel' max (sdrop drop text) true
  end.

Definition DropToBudget (c : Capture) : Capture :=
  let '(text, trunc) := drop_to_budget (slen (text_ c)) (max_bytes_ c) (text_ c) (truncated_ c) in
  mkCapture (k_bytes c) text (max_bytes_ c) (keep_ c) (newlines_ c) (last_ c) trunc.

Definition set_text (text : string) (trunc : bool) (c : Capture) : Capture :=
  mkCapture (k_bytes c) text (max_bytes_ c) (keep_ c) (newlines_ c) (last_ c) trunc.

Definition Append (c : Capture) (data : string) : Capture :=
  match sback data with
  | None => c
  | Some last =>
      let c := mkCapture (k_bytes c + zlen data) (text_ c) (max_bytes_ c) (keep_ c)
                 (newlines_ c + Z.of_nat (count_char nl data)) last (truncated_ c) in
      if max_bytes_ c =? 0 then set_text (text_ c +:+ data) (truncated_ c) c
      else
        match keep_ c with
        | kHead =>
            let room := if zlen (text_ c) <? max_bytes_ c then max_bytes_ c - zlen (text_ c) else 0 in
            let kept := Z.min (zlen data) room in
            set_text (if 0 <? kept then text_ c +:+ stake (Z.to_nat kept) data else text_ c)
              (if kept <? zlen data then true else truncated_ c) c
        | kEnd =>
            let c := set_text (text_ c +:+ data) (truncated_ c) c in
            if max_bytes_ c * 5 <? zlen (text_ c) * 4 then DropToBudget c else c
        end
  end.

(** The trailing bytes of a character the budget cut. *)
Fixpoint pop_partial (fuel : nat) (text : string) : string :=
  match fuel with
  | 0%nat => text
  | S fuel' =>
      if negb (sempty text) && EndsWithPartialSequence text
      then pop_partial fuel' (spop text) else text
  end.

Definition Take (c : Capture) : Captured :=
  let lines := newlines_ c
               + (if (0 <? k_bytes c) && negb (bool_decide (last_ c = nl)) then 1 else 0) in
  let from_end := bool_decide (keep_ c = kEnd) in
  let text :=
    match keep_ c with
    | kHead =>
        if truncated_ c then
          let text := pop_partial (slen (text_ c)) (text_ c) in
          match srfind nl text with
          | Some newline => stake (S newline) text
          | None => text
          end
        else text_ c
    | kEnd => if truncated_ c then text_ (DropToBudget c) else text_ c
    end in
  mkCaptured text (mkExtent lines (k_bytes c) (CountLines text) from_end).

Definition Capture_all (c : Capture) (chunks : list string) : Capture := foldl Append c chunks.

(** ** The verdict and the run *)

Definition kCommandStoppedReceipt : string :=
  "The user stopped this command while it was running. The turn is still going, so the rest of "
  +:+ "your plan is unaffected. Do not repeat this command unchanged; either adjust it or continue "
  +:+ "with something else".

Definition Settle (v : Verdict) (stop : bool) (code : Z) : Verdict :=
  mkVerdict (command v) ((code =? 0) && negb stop) code
    (if stop then kCommandStoppedReceipt
     else if negb (code =? 0) && negb (code =? -1)
     then "Command failed (exit " +:+ pretty code +:+ ")"
     else v_error v)
    stop.

Definition with_error (msg : string) (v : Verdict) : Verdict :=
  mkVerdict (command v) (v_ok v) (exit_code v) msg (stopped v).

(** The command line given to the shell. *)
Definition full_cmd (cmd working_dir : string) : string :=
  (if sempty working_dir then cmd
   else "cd " +:+ String "034" "" +:+ working_dir +:+ String "034" "" +:+ " && (" +:+ cmd +:+ ")")
  +:+ " 2>&1".

(** One round of the read loop: what [poll] and [read] answered, and the stop
    token as it was read after. *)
Inductive poll_result := Readable (bytes : string) | TimedOut.

Fixpoint read_loop (stops : bool) (rounds : list (poll_result * bool)) (c : Capture)
    : option Capture :=
  match rounds with
  | [] => None
  | (Readable bytes, token) :: rounds' =>
      if sempty bytes then Some c
      else
        let c := Append c bytes in
        if stops && token then Some c else read_loop stops rounds' c
  | (TimedOut, token) :: rounds' =>
      if stops && token then Some c else read_loop stops rounds' c
  end.

Record os_run := {
  pipe_ok : bool;
  fork_ok : bool;
  fdopen_ok : bool;
  rounds : list (poll_result * bool);
  (** The token when the loop is over, and the exit status of a child that
      exited rather than being killed. *)
  token_at_end : bool;
  exited_with : option Z;
}.

Definition no_capture : Captured := mkCaptured "" (mkExtent 0 0 0 false).

(** [None]: the child is still being read. *)
Definition Run (os : os_run) (cmd : string) (stops : bool) (max_bytes : Z) (keep : Keep)
    : option Ran :=
  let fresh := mkVerdict cmd false 0 "" false in
  if negb (pipe_ok os) then
    Some (mkRan (with_error "could not start the command: pipe failed" (Settle fresh false (-1)))
            no_capture)
  else if negb (fork_ok os) then
    Some (mkRan (with_error "could not start the command: fork failed" (Settle fresh false (-1)))
            no_capture)
  else if negb (fdopen_ok os) then
    Some (mkRan (with_error "could not read the command's output: fdopen failed"
                   (Settle fresh false (-1))) no_capture)
  else
    capture ← read_loop stops (rounds os) (new_capture max_bytes keep);
    let was_stopped := stops && token_at_end os in
    let code := if negb was_stopped then default (-1) (exited_with os) else -1 in
    Some (mkRan (Settle fresh was_stopped code) (Take capture)).

(** ** Counting lines *)

Lemma CountLines_snoc s c :
  CountLines (s +:+ String c "") =
  Z.of_nat (count_char nl s) + 1.
Proof.
  unfold CountLines. rewrite sback_snoc, count_char_app. cbn.
  destruct (decide (c = nl)); lia.
Qed.

Lemma CountLines_bounds s :
  Z.of_nat (count_char nl s) <= CountLines s <= Z.of_nat (count_char nl s) + 1.
Proof. unfold CountLines. case_match eqn:E; [|apply sback_None in E as ->; cbn; lia]. case_decide; lia. Qed.

(** Neither end of a text has more lines than the whole. *)
Lemma CountLines_app_l s t : CountLines s <= CountLines (s +:+ t).
Proof.
  destruct (sback t) as [c|] eqn:Ht.
  - rewrite (sback_spop _ _ Ht), sapp_assoc, CountLines_snoc, count_char_app.
    pose proof (CountLines_bounds s). lia.
  - apply sback_None in Ht as ->. by rewrite sapp_nil_r.
Qed.

Lemma CountLines_app_r s t : CountLines t <= CountLines (s +:+ t).
Proof.
  destruct (sback t) as [c|] eqn:Ht.
  - rewrite (sback_spop _ _ Ht), sapp_assoc, !CountLines_snoc, count_char_app. lia.
  - apply sback_None in Ht as ->. cbn. rewrite sapp_nil_r. pose proof (CountLines_bounds s). lia.
Qed.

Lemma zlen_app s t : zlen (s +:+ t) = zlen s + zlen t.
Proof. unfold zlen. rewrite slen_app. lia. Qed.
Lemma zlen_nonneg s : 0 <= zlen s.
Proof. unfold zlen. lia. Qed.

(** ** What [Append] maintains *)

(** The counters describe the whole stream read so far. *)
Definition counts (c : Capture) (stream : string) : Prop :=
  k_bytes c = zlen stream /\ newlines_ c = Z.of_nat (count_char nl stream)
  /\ last_ c = default nl (sback stream).

Definition keeps_head (c : Capture) (stream : string) : Prop :=
  if max_bytes_ c =? 0 then text_ c = stream /\ truncated_ c = false
  else text_ c = stake (Z.to_nat (max_bytes_ c)) stream
       /\ truncated_ c = (max_bytes_ c <? zlen stream).

Definition keeps_end (c : Capture) (stream : string) : Prop :=
  exists dropped, stream = dropped +:+ text_ c
    /\ (max_bytes_ c = 0 -> dropped = "")
    /\ (max_bytes_ c <> 0 -> 4 * zlen (text_ c) <= 5 * max_bytes_ c)
    /\ (truncated_ c = true <-> dropped <> "").

Definition capture_ok (c : Capture) (stream : string) : Prop :=
  0 <= max_bytes_ c /\ counts c stream
  /\ match keep_ c with kHead => keeps_head c stream | kEnd => keeps_end c stream end.

Lemma drop_to_budget_spec fuel max text trunc :
  0 <= max -> (slen text <= fuel)%nat ->
  exists dropped,
    text = dropped +:+ (drop_to_budget fuel max text trunc).1
    /\ zlen (drop_to_budget fuel max text trunc).1 <= max
    /\ ((drop_to_budget fuel max text trunc).2 = true <-> trunc = true \/ dropped <> "").
Proof.
  intros Hmax. revert text trunc. induction fuel as [|fuel IH]; intros text trunc Hf.
  { exists "". assert (text = "") as -> by (apply slen_0; lia). cbn. repeat split; naive_solver. }
  cbn [drop_to_budget]. destruct (Z.leb_spec (zlen text) max) as [Hle|Hgt].
  { exists "". cbn. repeat split; naive_solver. }
  set (d := match sfind nl _ with Some _ => _ | None => _ end).
  assert (Hd : (1 <= d <= slen text)%nat).
  { unfold d, zlen in *. destruct (sfind nl _) as [n|] eqn:Hn; [|lia].
    apply sfind_ge in Hn. rewrite slen_sdrop in Hn. lia. }
  destruct (IH (sdrop d text) true) as (dropped & Heq & Hle & Ht); [rewrite slen_sdrop; lia|].
  exists (stake d text +:+ dropped). rewrite <- sapp_assoc, <- Heq, stake_sdrop.
  repeat split; [done| |intros _; by apply Ht; left].
  intros _. right. rewrite sapp_eq_nil. intros [Hz _].
  assert (slen (stake d text) = 0%nat) as Hz' by (by rewrite Hz). rewrite slen_stake in Hz'. lia.
Qed.

Lemma DropToBudget_spec c :
  0 <= max_bytes_ c ->
  exists dropped, text_ c = dropped +:+ text_ (DropToBudget c)
    /\ zlen (text_ (DropToBudget c)) <= max_bytes_ c
    /\ (truncated_ (DropToBudget c) = true <-> truncated_ c = true \/ dropped <> "")
    /\ DropToBudget c = set_text (text_ (DropToBudget c)) (truncated_ (DropToBudget c)) c.
Proof.
  intros Hm. unfold DropToBudget.
  destruct (drop_to_budget_spec (slen (text_ c)) (max_bytes_ c) (text_ c) (truncated_ c) Hm)
    as (d & H1 & H2 & H3); [done|].
  destruct (drop_to_budget _ _ _ _) as [text trunc]. cbn in *. by exists d.
Qed.

Lemma sback_app_ne s t c : sback t = Some c -> sback (s +:+ t) = Some c.
Proof. intros Ht. by rewrite (sback_spop _ _ Ht), sapp_assoc, sback_snoc. Qed.

Lemma counts_append c stream data last :
  counts c stream -> sback data = Some last ->
  k_bytes c + zlen data = zlen (stream +:+ data)
  /\ newlines_ c + Z.of_nat (count_char nl data) = Z.of_nat (count_char nl (stream +:+ data))
  /\ last = default nl (sback (stream +:+ data)).
Proof.
  intros (H1 & H2 & _) Hb. rewrite zlen_app, count_char_app, (sback_app_ne _ _ _ Hb). cbn.
  repeat split; lia.
Qed.

Lemma keeps_head_append max text stream data trunc :
  0 < max -> text = stake (Z.to_nat max) stream -> trunc = (max <? zlen stream) ->
  let room := if zlen text <? max then max - zlen text else 0 in
  let kept := Z.min (zlen data) room in
  (if 0 <? kept then text +:+ stake (Z.to_nat kept) data else text)
    = stake (Z.to_nat max) (stream +:+ data)
  /\ (if kept <? zlen data then true else trunc) = (max <? zlen (stream +:+ data)).
Proof.
  intros Hm Ht Htr. cbn zeta. subst trunc. rewrite zlen_app, stake_app. subst text.
  pose proof (zlen_nonneg data). pose proof (zlen_nonneg stream).
  assert (Hl : zlen (stake (Z.to_nat max) stream) = Z.min max (zlen stream))
    by (unfold zlen; rewrite slen_stake; lia).
  rewrite Hl. unfold zlen in *. split.
  - destruct (Z.ltb_spec (Z.min max (Z.of_nat (slen stream))) max).
    + destruct (Z.ltb_spec 0 (Z.min (Z.of_nat (slen data)) (max - Z.min max (Z.of_nat (slen stream))))).
      * destruct (decide (slen data <= Z.to_nat max - slen stream)%nat).
        -- rewrite !(stake_ge _ data) by lia. done.
        -- do 2 f_equal. lia.
      * assert (slen data = 0%nat) as ->%slen_0 by lia.
        replace (stake (Z.to_nat max - slen stream) "") with ("" : string) by (by destruct (_ - _)%nat).
        by rewrite sapp_nil_r.
    + rewrite Z.min_r by lia. cbn.
      replace (Z.to_nat max - slen stream)%nat with 0%nat by lia. by rewrite stake_0, sapp_nil_r.
  - apply eq_true_iff_eq. repeat case_match; rewrite ?Z.ltb_lt in *; lia.
Qed.

Lemma Append_ok c stream data :
  capture_ok c stream -> capture_ok (Append c data) (stream +:+ data)
  /\ keep_ (Append c data) = keep_ c /\ max_bytes_ (Append c data) = max_bytes_ c.
Proof.
  intros (Hm & Hc & Hk). unfold Append. destruct (sback data) as [last|] eqn:Hb.
  2:{ apply sback_None in Hb as ->. by rewrite sapp_nil_r. }
  pose proof (counts_append c stream data last Hc Hb) as Hcounts.
  cbn. destruct (Z.eqb_spec (max_bytes_ c) 0) as [H0|H0].
  - split; [|done]. split; [done|]. split; [done|]. cbn. unfold keeps_head, keeps_end in *. cbn.
    rewrite (proj2 (Z.eqb_eq _ 0)) in * by done. destruct (keep_ c).
    + destruct Hk as [-> ->]. done.
    + destruct Hk as (d & -> & Hd & _ & Ht). exists "". rewrite (Hd H0) in *. cbn.
      repeat split; try done. intros Htr%Ht. done.
  - destruct (keep_ c) eqn:Hkeep.
    + split; [|done]. split; [done|]. split; [done|]. cbn. unfold keeps_head in *. cbn.
      rewrite (proj2 (Z.eqb_neq _ 0)) in * by done. destruct Hk as [Ht Htr].
      apply keeps_head_append; (done || lia).
    + destruct Hk as (d & Hs & _ & Hsize & Htr).
      set (c1 := set_text _ _ _).
      assert (Hend : stream +:+ data = d +:+ text_ c1) by (cbn; by rewrite Hs, sapp_assoc).
      assert (Hc1 : counts c1 (stream +:+ data)) by done.
      destruct (Z.ltb_spec (max_bytes_ c * 5) (zlen (text_ c +:+ data) * 4)) as [Hbig|Hsmall].
      * destruct (DropToBudget_spec c1 Hm) as (d2 & H1 & H2 & H3 & H4).
        rewrite H4. split; [|done]. split; [done|]. split; [done|]. cbn.
        exists (d +:+ d2). cbn. rewrite Hend, H1 at 1. rewrite sapp_assoc.
        repeat split; try done; [cbn in H2; lia| |].
        -- intros Htrue%H3. rewrite sapp_eq_nil. cbn in Htrue. naive_solver.
        -- intros Hne. apply H3. cbn. rewrite sapp_eq_nil in Hne.
           destruct d; [|left; by apply Htr]. right. naive_solver.
      * split; [|done]. split; [done|]. split; [done|]. cbn.
        exists d. cbn. repeat split; try done; try (by apply Htr); lia.
Qed.

Abbreviation concat_chunks := (foldr String.append "").

Lemma Capture_all_ok c stream chunks :
  capture_ok c stream ->
  capture_ok (Capture_all c chunks) (stream +:+ concat_chunks chunks)
  /\ keep_ (Capture_all c chunks) = keep_ c /\ max_bytes_ (Capture_all c chunks) = max_bytes_ c.
Proof.
  revert c stream. induction chunks as [|d chunks IH]; intros c stream Hok.
  - cbn. by rewrite sapp_nil_r.
  - destruct (Append_ok c stream d Hok) as (Hok' & Hk & Hm).
    destruct (IH _ _ Hok') as (H1 & H2 & H3). cbn. rewrite sapp_assoc, <- Hk, <- Hm. done.
Qed.

Lemma new_capture_ok max keep : 0 <= max -> capture_ok (new_capture max keep) "".
Proof.
  intros Hm. split; [done|]. split; [done|]. destruct keep; cbn.
  - unfold keeps_head. cbn. case_match; [done|]. split; [by destruct (Z.to_nat max)|].
    symmetry. apply Z.ltb_ge. done.
  - exists "". cbn. repeat split; try done. intros _. unfold zlen. cbn. lia.
Qed.

Lemma Take_counts c stream :
  counts c stream ->
  x_lines (c_extent (Take c)) = CountLines stream /\ x_bytes (c_extent (Take c)) = zlen stream
  /\ x_retained (c_extent (Take c)) = CountLines (c_text (Take c)).
Proof.
  intros (H1 & H2 & H3). cbn. rewrite H1, H2, H3. repeat split. unfold CountLines, zlen.
  destruct (sback stream) as [l|] eqn:Hb.
  - assert (0 < slen stream)%nat by (rewrite (sback_spop _ _ Hb), slen_app; cbn; lia).
    rewrite (proj2 (Z.ltb_lt _ _)) by lia. cbn [default andb].
    destruct (decide (l = nl)).
    + rewrite bool_decide_true by done. cbn. lia.
    + rewrite bool_decide_false by done. cbn. lia.
  - by apply sback_None in Hb as ->.
Qed.

Lemma pop_partial_stake fuel text : exists n, pop_partial fuel text = stake n text.
Proof.
  revert text. induction fuel as [|fuel IH]; intros text; cbn.
  { exists (slen text). by rewrite stake_ge. }
  destruct (negb _ && _); [|exists (slen text); by rewrite stake_ge].
  destruct (IH (spop text)) as [n Hn]. destruct (sback text) as [c|] eqn:Hb.
  - exists (n `min` slen (spop text))%nat. rewrite Hn, (sback_spop _ _ Hb), spop_snoc.
    rewrite stake_app_le by lia. destruct (decide (n <= slen (spop text))%nat).
    + by rewrite Nat.min_l.
    + rewrite Nat.min_r, !stake_ge by lia. done.
  - apply sback_None in Hb as ->. exists n. rewrite Hn. by destruct n.
Qed.

Lemma srfind_Some c s i :
  srfind c s = Some i -> sback (stake (S i) s) = Some c /\ (i < slen s)%nat.
Proof.
  revert i. induction s as [|d s IH]; intros i; cbn; [done|].
  destruct (srfind c s) as [j|] eqn:Hj.
  - intros [= <-]. destruct (IH j eq_refl) as [Hb Hl]. split; [|lia].
    destruct s as [|e s]; [cbn in Hl; lia|]. exact Hb.
  - case_decide as E; [|done]. intros [= <-]. rewrite stake_0. split; [by rewrite E|lia].
Qed.

Lemma srfind_None c s : srfind c s = None -> sfind c s = None.
Proof.
  induction s as [|d s IH]; cbn; [done|]. destruct (srfind c s); [done|].
  case_decide; [done|]. intros _. by rewrite IH.
Qed.

(** Everything that reads a stream in pieces reads the same stream. *)
Lemma stake_stake m n s : stake m (stake n s) = stake (m `min` n) s.
Proof.
  revert n s. induction m as [|m IH]; intros [|n] [|c s]; cbn; try done. by rewrite IH.
Qed.

(** Capturing the head of a stream, whatever the sizes of its reads: the text
    kept is a prefix of the stream within the budget (the whole stream when there
    is no budget, or when it fits); a cut text ends at a line boundary when it has
    one; the extent counts the stream's lines and bytes, and says how many lines
    survived. *)
Theorem Take_head max chunks :
  0 <= max ->
  let stream := concat_chunks chunks in
  let r := Take (Capture_all (new_capture max kHead) chunks) in
  (exists n, c_text r = stake n stream)
  /\ (max = 0 \/ zlen stream <= max -> c_text r = stream)
  /\ (max <> 0 -> zlen (c_text r) <= max)
  /\ (c_text r <> stream -> sback (c_text r) = Some nl \/ sfind nl (c_text r) = None)
  /\ x_lines (c_extent r) = CountLines stream /\ x_bytes (c_extent r) = zlen stream
  /\ x_retained (c_extent r) = CountLines (c_text r)
  /\ x_retained (c_extent r) <= x_lines (c_extent r) /\ skipped (c_extent r) = 0.
Proof.
  intros Hm. cbn zeta. set (stream := concat_chunks chunks).
  destruct (Capture_all_ok _ _ chunks (new_capture_ok max kHead Hm)) as ((_ & Hc & Hk) & Hkeep & Hmax).
  cbn [String.append] in Hc, Hk. fold stream in Hc, Hk.
  set (c := Capture_all _ _) in *. destruct (Take_counts c stream Hc) as (Hl & Hby & Hr).
  cbn in Hkeep, Hmax. rewrite Hkeep in Hk. unfold keeps_head in Hk. rewrite Hmax in Hk.
  assert (Htext : exists n, c_text (Take c) = stake n stream
    /\ (max = 0 \/ zlen stream <= max -> c_text (Take c) = stream)
    /\ (max <> 0 -> zlen (c_text (Take c)) <= max)
    /\ (c_text (Take c) <> stream ->
        sback (c_text (Take c)) = Some nl \/ sfind nl (c_text (Take c)) = None)).
  { unfold Take. cbn [c_text]. rewrite Hkeep. destruct (Z.eqb_spec max 0) as [H0|H0].
    - destruct Hk as [-> ->]. exists (slen stream). by rewrite stake_ge.
    - destruct Hk as [-> ->]. destruct (Z.ltb_spec max (zlen stream)) as [Hlt|Hge].
      + destruct (pop_partial_stake (slen (stake (Z.to_nat max) stream)) (stake (Z.to_nat max) stream))
          as [n ->]. rewrite stake_stake. set (k := (n `min` Z.to_nat max)%nat).
        destruct (srfind nl (stake k stream)) as [i|] eqn:Hi.
        * destruct (srfind_Some _ _ _ Hi) as [Hb Hil]. rewrite stake_stake in Hb |- *.
          exists (S i `min` k)%nat. split; [done|]. split; [lia|]. split; [|by left].
          intros _. unfold zlen. rewrite slen_stake. lia.
        * exists k. split; [done|]. split; [lia|]. split; [|right; by apply srfind_None].
          intros _. unfold zlen. rewrite slen_stake. lia.
      + exists (slen stream). rewrite !stake_ge by (unfold zlen in *; lia). done. }
  destruct Htext as (n & Hn & H1 & H2 & H3).
  split; [by exists n|]. do 3 (split; [done|]). do 3 (split; [done|]). split.
  - rewrite Hl, Hr, Hn. rewrite <- (stake_sdrop n stream) at 2. apply CountLines_app_l.
  - unfold skipped. cbn. by rewrite Hkeep.
Qed.

Lemma Take_head_witness :
  let r := Take (Capture_all (new_capture 4 kHead) ["a" +:+ NL +:+ "b"; "cd"]) in
  zlen (c_text r) <= 4 /\ x_lines (c_extent r) = 2.
Proof.
  intros r.
  destruct (Take_head 4 ["a" +:+ NL +:+ "b"; "cd"] ltac:(discriminate)) as (_ & _ & Hsize & _ & Hlines & _).
  split; [apply Hsize; discriminate|]. unfold r. rewrite Hlines. vm_compute. reflexivity.
Defined.

(** Capturing the end of a stream, whatever the sizes of its reads: the text
    kept is a suffix of the stream, never more than a quarter over the budget, and
    within it as soon as anything was dropped while reading; the lines it lost are
    exactly the ones [skipped] numbers a page against. *)
Theorem Take_end max chunks :
  0 <= max ->
  let stream := concat_chunks chunks in
  let r := Take (Capture_all (new_capture max kEnd) chunks) in
  (exists dropped, stream = dropped +:+ c_text r
     /\ (max = 0 -> dropped = "")
     /\ (max <> 0 -> 4 * zlen (c_text r) <= 5 * max)
     /\ (max <> 0 -> dropped <> "" -> zlen (c_text r) <= max))
  /\ x_lines (c_extent r) = CountLines stream /\ x_bytes (c_extent r) = zlen stream
  /\ x_retained (c_extent r) = CountLines (c_text r)
  /\ skipped (c_extent r) + x_retained (c_extent r) = x_lines (c_extent r).
Proof.
  intros Hm. cbn zeta. set (stream := concat_chunks chunks).
  destruct (Capture_all_ok _ _ chunks (new_capture_ok max kEnd Hm)) as ((_ & Hc & Hk) & Hkeep & Hmax).
  cbn [String.append] in Hc, Hk. fold stream in Hc, Hk.
  set (c := Capture_all _ _) in *. destruct (Take_counts c stream Hc) as (Hl & Hby & Hr).
  cbn in Hkeep, Hmax. rewrite Hkeep in Hk. destruct Hk as (d & Hs & Hd0 & Hsz & Htr).
  rewrite Hmax in *.
  assert (Htext : exists dropped, stream = dropped +:+ c_text (Take c)
     /\ (max = 0 -> dropped = "") /\ (max <> 0 -> 4 * zlen (c_text (Take c)) <= 5 * max)
     /\ (max <> 0 -> dropped <> "" -> zlen (c_text (Take c)) <= max)).
  { unfold Take. cbn [c_text]. rewrite Hkeep. destruct (truncated_ c) eqn:Ht.
    - destruct (DropToBudget_spec c) as (d2 & H1 & H2 & _); [by rewrite Hmax|].
      rewrite Hmax in H2. exists (d +:+ d2). rewrite <- sapp_assoc, <- H1.
      pose proof (proj1 Htr eq_refl) as Hne.
      repeat split; [done| |lia|done]. intros H0. by apply Hd0 in H0.
    - exists d. repeat split; try done. intros _ Hne. by apply Htr in Hne. }
  split; [done|]. do 3 (split; [done|]).
  destruct Htext as (d' & Hs' & _).
  assert (x_retained (c_extent (Take c)) <= x_lines (c_extent (Take c))).
  { rewrite Hl, Hr, Hs'. apply CountLines_app_r. }
  unfold skipped. replace (x_from_end (c_extent (Take c))) with true
    by (cbn; by rewrite Hkeep). cbn [andb].
  destruct (Z.ltb_spec (x_retained (c_extent (Take c))) (x_lines (c_extent (Take c)))); lia.
Qed.

Lemma Take_end_witness :
  let r := Take (Capture_all (new_capture 4 kEnd) ["ab" +:+ NL; "cd" +:+ NL; "e"]) in
  skipped (c_extent r) + x_retained (c_extent r) = 3.
Proof.
  intros r.
  destruct (Take_end 4 ["ab" +:+ NL; "cd" +:+ NL; "e"] ltac:(discriminate)) as (_ & Hl & _ & _ & Hsum).
  unfold r. rewrite Hsum, Hl. vm_compute. reflexivity.
Defined.

(** The bound of the previous theorem cannot be lowered to the budget: a
    stream that overshoots the budget by less than a quarter was never compacted,
    and [Take] compacts only what was, so it hands over more bytes than the budget
    although the comment on [Append] says it does not. *)
Theorem Take_end_over_budget :
  exists max chunks,
    0 < max /\ max < zlen (c_text (Take (Capture_all (new_capture max kEnd) chunks))).
Proof. exists 4, ["abcde"]. split; reflexivity. Qed.

(** ** The verdict *)

Lemma Settle_ok v stop code : v_ok (Settle v stop code) = true <-> code = 0 /\ stop = false.
Proof. cbn. rewrite andb_true_iff, Z.eqb_eq, negb_true_iff. done. Qed.

(** The reads of a run that ends, in the order they were made. *)
Fixpoint reads_of (stops : bool) (rounds : list (poll_result * bool)) : list string :=
  match rounds with
  | [] => []
  | (Readable bytes, token) :: rounds' =>
      if sempty bytes then []
      else bytes :: (if stops && token then [] else reads_of stops rounds')
  | (TimedOut, token) :: rounds' => if stops && token then [] else reads_of stops rounds'
  end.

Lemma read_loop_reads stops rounds c c' :
  read_loop stops rounds c = Some c' -> c' = Capture_all c (reads_of stops rounds).
Proof.
  revert c. induction rounds as [|[[bytes|] token] rounds IH]; intros c; cbn; [done| |].
  - destruct (sempty bytes); [by intros [= <-]|].
    destruct (stops && token); [by intros [= <-]|]. apply IH.
  - destruct (stops && token); [by intros [= <-]|]. apply IH.
Qed.

(** What a finished run reports.  It succeeded exactly when the child exited
    with 0 and nobody stopped it; a stopped run carries the receipt that says so
    and the exit code -1, whatever the child's own status; and the output is the
    capture of every byte read up to the end of the stream or the stop. *)
Theorem Run_verdict os cmd stops max keep r :
  pipe_ok os = true -> fork_ok os = true -> fdopen_ok os = true ->
  Run os cmd stops max keep = Some r ->
  let was_stopped := stops && token_at_end os in
  command (verdict r) = cmd
  /\ (v_ok (verdict r) = true <-> was_stopped = false /\ exited_with os = Some 0)
  /\ stopped (verdict r) = was_stopped
  /\ (was_stopped = true -> v_error (verdict r) = kCommandStoppedReceipt /\ exit_code (verdict r) = -1)
  /\ captured r = Take (Capture_all (new_capture max keep) (reads_of stops (rounds os))).
Proof.
  intros Hp Hf Hd. unfold Run. rewrite Hp, Hf, Hd. cbn [negb].
  destruct (read_loop _ _ _) as [c|] eqn:Hl; [|done]. cbn. intros [= <-].
  apply read_loop_reads in Hl as ->. cbn.
  destruct (stops && token_at_end os); cbn; split_and!; try done.
  - split; [done|by intros []].
  - rewrite andb_true_r, Z.eqb_eq. destruct (exited_with os) as [z|]; cbn; [|naive_solver].
    split; [by intros ->|by intros [_ [= ->]]].
Qed.

Lemma Run_verdict_witness :
  let os := {| pipe_ok := true; fork_ok := true; fdopen_ok := true;
               rounds := [(TimedOut, false); (Readable "hi", false); (Readable "", false)];
               token_at_end := false; exited_with := Some 0 |} in
  exists r, Run os "echo hi" true 100 kHead = Some r /\ v_ok (verdict r) = true.
Proof.
  intros os. eexists. split; [reflexivity|].
  eapply (Run_verdict os "echo hi" true 100 kHead); reflexivity || (split; reflexivity).
Defined.
