(* ===== verification/Child.v ===== *)
(** * The process of a command ([src/exec/run.cpp])

    [Exec.Run] says what a run reports of what it was answered.  Here the run is
    what makes the calls: the pipe, the child and its group, and the stop token
    are a state that the run, the command and whoever stops it change in any
    order.  [Run_implements] is that the report is that of [Exec.Run] and that
    nothing of the run is left behind; [Stop_ends] that a stop ends it. *)
From Stdlib Require Import Ascii.
From S2P Require Export Exec.

(** Not started, running, ended ([None]: by a signal) and not waited for, waited for. *)
Inductive child := CNone | CRuns | CDead (exited : option Z) | CReaped (exited : option Z).

(** Where [Run] is: before [pipe], [fork] and [fdopen]; at [poll]; with what the
    poll gave, about to look at the token; after the loop; closing the stream and
    waiting, with whether it was stopped; returned. *)
Inductive at_call :=
  | APipe | AFork | AStream
  | APoll | AToken (p : poll_result)
  | AVerdict | AClose (was_stopped : bool) | AWait (was_stopped : bool)
  | ADone (r : Ran).

Record sys := mkSys {
  y_at : at_call; y_capture : Capture; y_stop : bool;
  (** The ends of the pipe that this process has open. *)
  y_read : bool; y_write : bool;
  (** What is in the pipe, and whether a process of the command has it open. *)
  y_pipe : string; y_writers : bool;
  y_child : child; y_killed : bool;
  (** What the command wrote and what the loop was given; nothing reads them. *)
  y_wrote : string; y_rounds : list (poll_result * bool)
}.

(** [sizeof buffer]. *)
Definition kReadBytes : Z := 4096.
Definition read_chunk (pipe : string) : string := stake (Z.to_nat kReadBytes) pipe.

Lemma read_chunk_nonempty s : sempty s = false -> sempty (read_chunk s) = false.
Proof.
  assert (0 < kReadBytes) by done. unfold read_chunk. destruct s; [done|]. by destruct (Z.to_nat kReadBytes) eqn:E; [lia|].
Qed.

Lemma read_chunk_sdrop s : read_chunk s +:+ sdrop (slen (read_chunk s)) s = s.
Proof.
  pose proof (stake_sdrop (Z.to_nat kReadBytes) s) as H. fold (read_chunk s) in H.
  set (bytes := read_chunk s) in *. clearbody bytes. by rewrite <- H, sdrop_app_exact.
Qed.

#[local] Opaque read_chunk.

Section Child.
Context (cmd : string) (stops : bool) (max_bytes : Z) (keep : Keep).

Definition new_sys : sys :=
  mkSys APipe (new_capture max_bytes keep) false false false "" false CNone false "" [].

Definition go (a : at_call) (y : sys) : sys :=
  mkSys a (y_capture y) (y_stop y) (y_read y) (y_write y) (y_pipe y) (y_writers y) (y_child y) (y_killed y)
    (y_wrote y) (y_rounds y).

Definition set_ends (r w : bool) (y : sys) : sys :=
  mkSys (y_at y) (y_capture y) (y_stop y) r w (y_pipe y) (y_writers y) (y_child y) (y_killed y) (y_wrote y) (y_rounds y).

Definition set_child (c : child) (y : sys) : sys :=
  mkSys (y_at y) (y_capture y) (y_stop y) (y_read y) (y_write y) (y_pipe y) (y_writers y) c (y_killed y)
    (y_wrote y) (y_rounds y).

Definition set_writers (w : bool) (y : sys) : sys :=
  mkSys (y_at y) (y_capture y) (y_stop y) (y_read y) (y_write y) (y_pipe y) w (y_child y) (y_killed y)
    (y_wrote y) (y_rounds y).

(** What was read is in the capture, and no longer in the pipe. *)
Definition taken (bytes : string) (y : sys) : sys :=
  mkSys (y_at y) (Append (y_capture y) bytes) (y_stop y) (y_read y) (y_write y) (sdrop (slen bytes) (y_pipe y))
    (y_writers y) (y_child y) (y_killed y) (y_wrote y) (y_rounds y).

Definition note_round (p : poll_result) (token : bool) (y : sys) : sys :=
  mkSys (y_at y) (y_capture y) (y_stop y) (y_read y) (y_write y) (y_pipe y) (y_writers y) (y_child y) (y_killed y)
    (y_wrote y) (y_rounds y ++ [(p, token)]).

(** [kill(-pid, SIGKILL)]: the group ends, its first process with it. *)
Definition kill_group (y : sys) : sys :=
  mkSys (y_at y) (y_capture y) (y_stop y) (y_read y) (y_write y) (y_pipe y) (y_writers y)
    (match y_child y with CRuns => CDead None | c => c end) true (y_wrote y) (y_rounds y).

Definition not_started (message : string) : Ran :=
  mkRan (with_error message (Settle (mkVerdict cmd false 0 "" false) false (-1))) no_capture.

(** The next call of [Run]: whether it works, or for [poll] whether no signal
    came in; [None] while the call blocks. *)
Definition call (works : bool) (y : sys) : option sys :=
  match y_at y with
  | APipe =>
      Some (if works then go AFork (set_ends true true y)
            else go (ADone (not_started "could not start the command: pipe failed")) y)
  | AFork =>
      Some (if works then go AStream (set_ends true false (set_writers true (set_child CRuns y)))
            else go (ADone (not_started "could not start the command: fork failed")) (set_ends false false y))
  | AStream =>
      Some (if works then go APoll y
            else go (ADone (not_started "could not read the command's output: fdopen failed")) (set_ends false false y))
  | APoll =>
      if negb works then Some (go (AToken TimedOut) y)
      else if negb (sempty (y_pipe y)) then
        let bytes := read_chunk (y_pipe y) in Some (go (AToken (Readable bytes)) (taken bytes y))
      else if negb (y_writers y) then Some (go AVerdict (note_round (Readable "") (y_stop y) y))
      else if stops then Some (go (AToken TimedOut) y) else None
  | AToken p => Some (go (if stops && y_stop y then AVerdict else APoll) (note_round p (y_stop y) y))
  | AVerdict =>
      let was_stopped := stops && y_stop y in
      Some (go (AClose was_stopped) (if was_stopped then kill_group y else y))
  | AClose was_stopped => Some (go (AWait was_stopped) (set_ends false (y_write y) y))
  | AWait was_stopped =>
      match y_child y with
      | CDead exited =>
          let code := if negb was_stopped then default (-1) exited else -1 in
          Some (go (ADone (mkRan (Settle (mkVerdict cmd false 0 "" false) was_stopped code) (Take (y_capture y))))
                  (set_child (CReaped exited) y))
      | _ => None
      end
  | ADone _ => None
  end.

Inductive happens :=
  | HCall (works : bool)
  (** The command writes, lets go of its output, ends; somebody asks for a stop. *)
  | HWrites (bytes : string)
  | HCloses
  | HExits (exited : option Z)
  | HStop.

Definition step (h : happens) (y : sys) : option sys :=
  match h with
  | HCall works => call works y
  | HWrites bytes =>
      if y_writers y && y_read y then
        Some (mkSys (y_at y) (y_capture y) (y_stop y) (y_read y) (y_write y) (y_pipe y +:+ bytes) true (y_child y)
                (y_killed y) (y_wrote y +:+ bytes) (y_rounds y))
      else None
  | HCloses => if y_writers y then Some (set_writers false y) else None
  | HExits exited => match y_child y with CRuns => Some (set_child (CDead exited) y) | _ => None end
  | HStop =>
      Some (mkSys (y_at y) (y_capture y) true (y_read y) (y_write y) (y_pipe y) (y_writers y) (y_child y) (y_killed y)
              (y_wrote y) (y_rounds y))
  end.

Fixpoint run (l : list happens) (y : sys) : option sys :=
  match l with [] => Some y | h :: l => y ← step h y; run l y end.

(** ** What holds at every point *)

Abbreviation fresh := (new_capture max_bytes keep).

(** The loop has gone through these rounds and holds this. *)
Definition continues (rounds : list (poll_result * bool)) (c : Capture) : Prop :=
  forall rest, read_loop stops (rounds ++ rest) fresh = read_loop stops rest c.

(** The capture has what left the pipe. *)
Definition captures (y : sys) : Prop :=
  exists chunks, y_capture y = Capture_all fresh chunks /\ concat_chunks chunks +:+ y_pipe y = y_wrote y.

Definition started (y : sys) : Prop := y_child y <> CNone /\ forall exited, y_child y <> CReaped exited.
Definition at_end (y : sys) : Prop := y_pipe y = "" /\ y_writers y = false.
Definition ends (r w : bool) (y : sys) : Prop := y_read y = r /\ y_write y = w.

(** The loop is over: by a stop, or at the end of the output. *)
Definition looped (y : sys) : Prop :=
  started y /\ captures y /\ read_loop stops (y_rounds y) fresh = Some (y_capture y).

Definition verdict_ok (was_stopped : bool) (y : sys) : Prop :=
  looped y
  /\ if was_stopped then stops = true /\ y_stop y = true /\ y_killed y = true /\ y_child y <> CRuns
     else at_end y.

(** What a run that returned leaves: the report is [Exec.Run]'s of what it was
    answered, its ends of the pipe are closed, its child is waited for, and what it
    captured is all the command wrote, or the group was killed. *)
Definition reports (r : Ran) (y : sys) : Prop :=
  exists os, Run os cmd stops max_bytes keep = Some r /\ ends false false y
    /\ (pipe_ok os && fork_ok os = false -> y_child y = CNone)
    /\ (pipe_ok os && fork_ok os && fdopen_ok os = true ->
          rounds os = y_rounds y /\ y_child y = CReaped (exited_with os)
          /\ (stopped (verdict r) = true -> y_stop y = true /\ y_killed y = true)
          /\ (stopped (verdict r) = false -> exists chunks,
                 captured r = Take (Capture_all fresh chunks) /\ concat_chunks chunks = y_wrote y)).

Definition sys_ok (y : sys) : Prop :=
  match y_at y with
  | APipe => ends false false y /\ y_child y = CNone /\ y_rounds y = [] /\ y_capture y = fresh /\ captures y
  | AFork => ends true true y /\ y_child y = CNone /\ y_rounds y = [] /\ y_capture y = fresh /\ captures y
  | AStream => ends true false y /\ started y /\ y_rounds y = [] /\ y_capture y = fresh /\ captures y
  | APoll => ends true false y /\ started y /\ captures y /\ continues (y_rounds y) (y_capture y)
  | AToken p => ends true false y /\ started y /\ captures y
      /\ match p with
         | TimedOut => continues (y_rounds y) (y_capture y)
         | Readable bytes => sempty bytes = false /\ exists c, y_capture y = Append c bytes /\ continues (y_rounds y) c
         end
  | AVerdict => ends true false y /\ looped y /\ (stops && y_stop y = true \/ at_end y)
  | AClose was_stopped => ends true false y /\ verdict_ok was_stopped y
  | AWait was_stopped => ends false false y /\ verdict_ok was_stopped y
  | ADone r => reports r y
  end.

Lemma new_sys_ok : sys_ok new_sys.
Proof. split_and!; try done. by exists []. Qed.

Lemma concat_snoc (l : list string) (s : string) : concat_chunks (l ++ [s]) = concat_chunks l +:+ s.
Proof. induction l as [|d l IH]; cbn; [by rewrite sapp_nil_r|by rewrite IH, sapp_assoc]. Qed.

(** What a change that only concerns the pipe, the child or the stop keeps. *)
Lemma writes_captures bytes y y' :
  captures y -> y_capture y' = y_capture y -> y_pipe y' = y_pipe y +:+ bytes -> y_wrote y' = y_wrote y +:+ bytes -> captures y'.
Proof. intros (chunks & Hc & Hw) E1 E2 E3. exists chunks. by rewrite E1, E2, E3, <- Hw, sapp_assoc. Qed.

Lemma taken_captures y : captures y -> captures (taken (read_chunk (y_pipe y)) y).
Proof.
  intros (chunks & Hc & Hw). exists (chunks ++ [read_chunk (y_pipe y)]). cbn [taken y_capture y_pipe y_wrote]. split.
  - unfold Capture_all. by rewrite Hc, foldl_snoc.
  - by rewrite concat_snoc, <- sapp_assoc, <- Hw, read_chunk_sdrop.
Qed.

(** What the command and whoever stops it can do to a run. *)
Record outside (y y' : sys) : Prop := {
  os_at : y_at y' = y_at y; os_capture : y_capture y' = y_capture y; os_rounds : y_rounds y' = y_rounds y;
  os_read : y_read y' = y_read y; os_write : y_write y' = y_write y; os_killed : y_killed y' = y_killed y;
  os_child : y_child y' = y_child y \/ y_child y = CRuns /\ exists exited, y_child y' = CDead exited;
  os_stop : y_stop y = true -> y_stop y' = true;
  os_captures : captures y -> captures y';
  os_end : at_end y -> at_end y';
  os_wrote : y_read y = false -> y_wrote y' = y_wrote y
}.

Lemma step_outside h y y' : (forall works, h <> HCall works) -> step h y = Some y' -> outside y y'.
Proof.
  intros Hh. destruct h as [works|bytes| |exited|]; cbn [step]; [by destruct (Hh works)|..].
  - destruct (y_writers y) eqn:Ew, (y_read y) eqn:Er; try done. intros [= <-]. split; cbn; try done; [by left| | |by rewrite Er].
    + intros Hc. by eapply (writes_captures bytes y).
    + by intros [_ H]; rewrite Ew in H.
  - destruct (y_writers y); [|done]. intros [= <-]. split; cbn; try done; [by left|by intros [? _]].
  - destruct (y_child y) eqn:Ec; try done. intros [= <-]. split; cbn; try done. right. by eauto.
  - intros [= <-]. split; cbn; try done. by left.
Qed.

Lemma outside_started y y' : outside y y' -> started y -> started y'.
Proof. intros H [A B]. destruct (os_child _ _ H) as [E|(_ & e & E)]; unfold started; rewrite E; by split. Qed.

Lemma outside_looped y y' : outside y y' -> looped y -> looped y'.
Proof.
  intros H (A & B & C). split_and!; [by eapply outside_started|by apply (os_captures _ _ H)|].
  by rewrite (os_rounds _ _ H), (os_capture _ _ H).
Qed.

Lemma outside_verdict w y y' : outside y y' -> verdict_ok w y -> verdict_ok w y'.
Proof.
  intros H [A B]. split; [by eapply outside_looped|]. destruct w; [|by apply (os_end _ _ H)].
  destruct B as (B1 & B2 & B3 & B4). split_and!; [done|by apply (os_stop _ _ H)|by rewrite (os_killed _ _ H)|].
  by destruct (os_child _ _ H) as [->|(E & _)].
Qed.

Lemma outside_ends r w y y' : outside y y' -> ends r w y -> ends r w y'.
Proof. intros H [A B]. split; [by rewrite (os_read _ _ H)|by rewrite (os_write _ _ H)]. Qed.

Lemma outside_child c y y' : outside y y' -> c <> CRuns -> y_child y = c -> y_child y' = c.
Proof. intros H Hc E. destruct (os_child _ _ H) as [->|(E' & _)]; congruence. Qed.

Lemma outside_reports r y y' : outside y y' -> reports r y -> reports r y'.
Proof.
  intros H (os & A & B & C & D). exists os. split_and!; [done|by eapply outside_ends| |].
  - intros E. eapply outside_child; [done|done|by auto].
  - intros E. destruct (D E) as (D1 & D2 & D3 & D4). rewrite (os_rounds _ _ H), (os_killed _ _ H), (os_wrote _ _ H) by apply B.
    split_and!; [done|by eapply outside_child|intros Hs; destruct (D3 Hs); split; [by apply (os_stop _ _ H)|done]|done].
Qed.

Lemma outside_ok y y' : outside y y' -> sys_ok y -> sys_ok y'.
Proof.
  intros H. unfold sys_ok. rewrite (os_at _ _ H), (os_rounds _ _ H), (os_capture _ _ H).
  pose proof (os_captures _ _ H). pose proof (outside_started _ _ H). pose proof (outside_looped _ _ H).
  pose proof (fun r w => outside_ends r w _ _ H). pose proof (fun w => outside_verdict w _ _ H).
  pose proof (os_end _ _ H). pose proof (outside_child CNone _ _ H).
  destruct (y_at y) as [| | | |p| |w|w|r]; [naive_solver..| | | |by eapply outside_reports].
  - intros (A & B & C). split_and!; [by auto|by auto|]. destruct C as [C|C]; [left|right; by auto].
    apply andb_true_iff in C as [-> C]. by rewrite (os_stop _ _ H C).
  - intros [A B]. by auto.
  - intros [A B]. by auto.
Qed.

(** ** The calls *)

Lemma continues_timeout rounds c token : stops && token = false -> continues rounds c -> continues (rounds ++ [(TimedOut, token)]) c.
Proof. intros E H rest. rewrite <- app_assoc, H. cbn. by rewrite E. Qed.

Lemma continues_bytes rounds c bytes token : sempty bytes = false -> stops && token = false ->
  continues rounds c -> continues (rounds ++ [(Readable bytes, token)]) (Append c bytes).
Proof. intros Eb E H rest. rewrite <- app_assoc, H. cbn. by rewrite Eb, E. Qed.

(** The round after which the loop is over. *)
Lemma continues_over rounds c p token :
  continues rounds c ->
  read_loop stops (rounds ++ [(p, token)]) fresh
  = match p with
    | Readable bytes => if sempty bytes then Some c else if stops && token then Some (Append c bytes) else None
    | TimedOut => if stops && token then Some c else None
    end.
Proof. intros H. rewrite H. by destruct p. Qed.

Lemma poll_ok works y y' : y_at y = APoll -> call works y = Some y' -> sys_ok y -> sys_ok y'.
Proof.
  intros E. unfold call, sys_ok. rewrite E. intros Hc (A & B & C & D). revert Hc.
  destruct works; cbn [negb]; [|by intros [= <-]].
  destruct (sempty (y_pipe y)) eqn:Ep; cbn [negb].
  - apply sempty_true in Ep. destruct (y_writers y) eqn:Ew; cbn [negb].
    + destruct stops; [by intros [= <-]|done].
    + intros [= <-]. cbn. split_and!; [done|split_and!; [done|done|by apply (continues_over _ _ (Readable ""))]|by right].
  - intros [= <-]. cbn. split_and!; [done|done|by apply taken_captures|by apply read_chunk_nonempty|by eauto].
Qed.

Lemma token_ok p works y y' : y_at y = AToken p -> call works y = Some y' -> sys_ok y -> sys_ok y'.
Proof.
  intros E. unfold call, sys_ok. rewrite E. intros [= <-] (A & B & C & D).
  destruct (stops && y_stop y) eqn:Es; cbn; rewrite ?Es.
  - split_and!; [done|split_and!; [done|done|]|by left]. cbn.
    destruct p as [bytes|]; [destruct D as (Eb & c & -> & D)|]; rewrite (continues_over _ _ _ _ D), Es; [by rewrite Eb|done].
  - split_and!; [done..|]. destruct p as [bytes|]; [destruct D as (Eb & c & -> & D); by apply continues_bytes|by apply continues_timeout].
Qed.

Lemma verdict_call_ok works y y' : y_at y = AVerdict -> call works y = Some y' -> sys_ok y -> sys_ok y'.
Proof.
  intros E. unfold call, sys_ok. rewrite E. intros [= <-] (A & B & C). cbn.
  destruct (stops && y_stop y) eqn:Es.
  - apply andb_true_iff in Es as [Hs Ht]. destruct B as ([B1 B2] & B3 & B4).
    split; [done|]. split; [|split_and!; [done|done|done|by destruct y as [? ? ? ? ? ? ? []]]].
    split_and!; [|done|done]. split; [by destruct y as [? ? ? ? ? ? ? []]|].
    by destruct y as [? ? ? ? ? ? ? []].
  - split; [done|]. split; [done|]. by destruct C.
Qed.

(** What a run that started nothing, or lost its stream, reports. *)
Lemma wait_ok w works y y' : y_at y = AWait w -> call works y = Some y' -> sys_ok y -> sys_ok y'.
Proof.
  intros E. unfold call, sys_ok. rewrite E. destruct (y_child y) as [| |exited|] eqn:Ec; try done.
  intros [= <-] (A & (B & C & D) & F). cbn.
  exists {| pipe_ok := true; fork_ok := true; fdopen_ok := true; rounds := y_rounds y; token_at_end := w; exited_with := exited |}.
  unfold Run. cbn [pipe_ok fork_ok fdopen_ok rounds token_at_end exited_with negb]. rewrite D. cbn [mbind option_bind].
  assert (Hw : stops && w = w) by (destruct w; [by destruct F as [-> _]|by rewrite andb_false_r]). rewrite Hw.
  split; [reflexivity|]. split; [by destruct A|]. split; [done|]. intros _. cbn.
  split; [done|]. split; [done|]. split; [by intros ->; destruct F as (_ & ? & ? & _)|].
  intros ->. destruct F as [F _], C as (chunks & C1 & C2). exists chunks. rewrite C1. split; [done|].
  by rewrite F, sapp_nil_r in C2.
Qed.

Lemma call_ok works y y' : call works y = Some y' -> sys_ok y -> sys_ok y'.
Proof.
  destruct (y_at y) as [| | | |p| |w|w|r] eqn:E.
  4: by apply poll_ok. 4: by eapply token_ok. 4: by apply verdict_call_ok. 5: by eapply wait_ok.
  all: unfold call, sys_ok; rewrite E; destruct works; try done; intros [= <-]; cbn.
  - intros (A & B & C & D & F). done.
  - intros (A & B & C & D & F). exists {| pipe_ok := false; fork_ok := false; fdopen_ok := false; rounds := [];
      token_at_end := false; exited_with := None |}. by destruct A.
  - intros (A & B & C & D & F). done.
  - intros (A & B & C & D & F). exists {| pipe_ok := true; fork_ok := false; fdopen_ok := false; rounds := [];
      token_at_end := false; exited_with := None |}. done.
  - intros (A & B & C & D & F). split_and!; [done..|]. intros rest. by rewrite C, D.
  - intros (A & B & C & D & F). exists {| pipe_ok := true; fork_ok := true; fdopen_ok := false; rounds := [];
      token_at_end := false; exited_with := None |}. done.
  - intros ([A A'] & B). by rewrite A'.
  - intros ([A A'] & B). by rewrite A'.
Qed.

Lemma run_ok l : forall y y', run l y = Some y' -> sys_ok y -> sys_ok y'.
Proof.
  induction l as [|h l IH]; intros y y'; cbn [run]; [by intros [= <-]|].
  destruct (step h y) as [y1|] eqn:E; [|done]. cbn [mbind option_bind]. intros Hr Hy. apply (IH _ _ Hr).
  destruct h as [works|bytes| |exited|]; [by eapply call_ok|by eapply outside_ok; [eapply step_outside; [|done]|]..].
Qed.


(** ** A stop *)

(** A loop that can be stopped goes on by itself. *)
Definition listens (y : sys) : Prop :=
  match y_at y with APoll | AToken _ | AVerdict => True | _ => False end.

Fixpoint calls (n : nat) (y : sys) : option sys :=
  match n with O => Some y | S n => y ← call true y; calls n y end.

Definition done_stopped (y : sys) : Prop :=
  exists r, y_at y = ADone r /\ stopped (verdict r) = true /\ exit_code (verdict r) = -1
    /\ v_error (verdict r) = kCommandStoppedReceipt /\ y_killed y = true /\ exists exited, y_child y = CReaped exited.

Lemma calls_add n m : forall y y1, calls n y = Some y1 -> calls (n + m) y = calls m y1.
Proof.
  induction n as [|n IH]; intros y y1; cbn [calls Nat.add]; [by intros [= ->]|].
  destruct (call true y); [|done]. cbn [mbind option_bind]. apply IH.
Qed.

Lemma verdict_stops y : stops = true -> y_stop y = true -> y_at y = AVerdict -> started y ->
  exists y', calls 3 y = Some y' /\ done_stopped y'.
Proof.
  intros Hs Ht E [A B]. destruct y as [a c st rd w pp ws ch k wr rs]. cbn in *. subst a st. cbn. rewrite Hs. cbn.
  destruct ch as [| |e|e]; [done| | |by destruct (B e)]; (eexists; split; [reflexivity|]; eexists; split; [reflexivity|]; by eauto 7).
Qed.

(** A stop that comes while the output is read ends the run in five calls at most,
    each of which returns, a [poll] after its fifty milliseconds at the latest:
    whether the command writes, is silent or has ended, the group is killed, the
    child waited for, and the report is that of a stop. *)
Theorem Stop_ends l y :
  stops = true -> run l new_sys = Some y -> listens y -> y_stop y = true ->
  exists n y', (n <= 5)%nat /\ calls n y = Some y' /\ done_stopped y'.
Proof.
  intros Hs H Hl Ht. pose proof (run_ok l _ _ H new_sys_ok) as Hy. unfold sys_ok, listens in *.
  assert (Hv : forall k y1, calls k y = Some y1 -> (k <= 2)%nat -> y_stop y1 = true -> y_at y1 = AVerdict -> started y1 ->
    exists n y', (n <= 5)%nat /\ calls n y = Some y' /\ done_stopped y').
  { intros k y1 Hk Hk2 H1 H2 H3. destruct (verdict_stops y1 Hs H1 H2 H3) as (y' & Hc & Hd). exists (k + 3)%nat, y'.
    split_and!; [lia| |done]. by rewrite (calls_add _ _ _ _ Hk). }
  destruct (y_at y) as [| | | |p| |w|w|r] eqn:E; try done.
  - destruct Hy as (A & B & C & D). destruct (sempty (y_pipe y)) eqn:Ep; [destruct (y_writers y) eqn:Ew|].
    + eapply (Hv 2%nat); [cbn [calls]; unfold call; rewrite E, Ep, Ew, Hs; cbn; by rewrite Ht|lia|done..].
    + eapply (Hv 1%nat); [cbn [calls]; unfold call; by rewrite E, Ep, Ew|lia|done..].
    + eapply (Hv 2%nat); [cbn [calls]; unfold call; rewrite E, Ep; cbn; by rewrite Hs, Ht|lia|done|cbn; by rewrite Hs|exact B].
  - destruct Hy as (A & B & C & D). eapply (Hv 1%nat); [cbn [calls]; unfold call; rewrite E; cbn; by rewrite Hs, Ht|lia|done|cbn; by rewrite Hs|exact B].
  - destruct Hy as (A & (B & C) & D). eapply (Hv 0%nat y); [done|lia|done..].
Qed.

(** A command that lets go of its output and runs on is waited for, and nothing
    hears a stop: the wait goes on for as long as the child does. *)
Lemma Waits_deaf y : y_at y = AWait false -> y_child y = CRuns -> forall works, call works y = None.
Proof. intros E C works. unfold call. by rewrite E, C. Qed.

End Child.

#[local] Transparent read_chunk.

(** ** A command on a machine *)

(** It says two lines while the run polls, and is told to end between them. *)
Definition told_to_end : list happens :=
  [HCall true; HCall true; HCall true; HWrites ("one" +:+ NL); HCall true; HCall true; HCall false; HStop; HWrites "two"].

(** It starts, says its line, lets go of its output and exits. *)
Definition says_a_line (exited : option Z) : list happens :=
  [HCall true; HCall true; HCall true; HCall true; HCall true; HWrites ("one" +:+ NL); HCall true; HCall true; HCloses;
   HCall true; HCall true; HCall true; HExits exited; HCall true].

Definition report_of (y : option sys) : option Ran :=
  y ← y; match y_at y with ADone r => Some r | _ => None end.


Lemma Stop_ends_witness :
  exists y n y', run "yes" true told_to_end (new_sys 100 kHead) = Some y /\ y_stop y = true
    /\ calls "yes" true n y = Some y' /\ done_stopped y'.
Proof.
  destruct (run "yes" true told_to_end (new_sys 100 kHead)) as [y|] eqn:E; [|vm_compute in E; discriminate E].
  assert (Hy : listens y /\ y_stop y = true) by (vm_compute in E; injection E as <-; split; [exact I|reflexivity]).
  destruct Hy as [Hl Hs].
  destruct (Stop_ends "yes" true 100 kHead told_to_end y eq_refl E Hl Hs) as (n & y' & _ & Hc & Hd).
  exists y, n, y'. split; [reflexivity|]. split; [exact Hs|]. split; [exact Hc|exact Hd].
Defined.

(** A stream that cannot be opened leaves a child that runs, and is waited for by nobody. *)
Example Child_left_behind :
  match run "sleep 9" true [HCall true; HCall true; HCall false] (new_sys 100 kHead) with
  | Some y => y_child y = CRuns /\ y_killed y = false
      /\ (v_error ∘ verdict <$> report_of (Some y)) = Some "could not read the command's output: fdopen failed"
  | None => False
  end.
Proof. vm_compute. done. Qed.

(** [exec >&-; sleep 9]: the output is over, and a stop is not heard any more. *)
Example Stop_not_heard :
  match run "exec >&-; sleep 9" true
          [HCall true; HCall true; HCall true; HCloses; HCall true; HCall true; HCall true; HStop] (new_sys 100 kHead) with
  | Some y => y_at y = AWait false /\ call "" true true y = None /\ y_killed y = false
  | None => False
  end.
Proof. vm_compute. done. Qed.
