(* ===== verification/Paging.v ===== *)
(** * Paged output ([include/pu/paging], [src/paging/paging.cpp])

    A [Buffer] is one run's output indexed by line, a [Page] a run of its lines,
    a [Cursor] where a page starts, an [Anchor] where a read starts, and a
    [Pager] the store with its [Budget].  The random mark of a pager is an
    argument of [new_pager].  [Read], [Envelope], [OriginOf] and
    [SupersededReceipt] are the wire side.  Sizes ([std::size_t]) are
    nonnegative [Z]. *)
From Stdlib Require Import Ascii.
From S2P Require Export Prelude Text Json Exec.

Record Budget := mkBudget {
  page_lines : Z;
  max_lines : Z;
  capture_bytes : Z;
  retain_bytes : Z;
  retain_buffers : Z;
}.

Definition default_budget : Budget := mkBudget 120 400 262144 (Z.shiftl 4 20) 8.

Record Cursor := mkCursor { cur_buffer : string; cur_line : Z }.

Inductive Anchor := Head | Tail | At (c : Cursor).

Definition from_end (a : Anchor) : bool := match a with Tail => true | _ => false end.
Definition is_cursor (a : Anchor) : bool := match a with At _ => true | _ => false end.

Record Origin := mkOrigin { o_source : string; o_buffer : string; o_rank : Z }.

#[export] Instance Origin_eq_dec : EqDecision Origin.
Proof. solve_decision. Defined.

(** ** Lines of a buffer *)

(** The loop of [IndexLines] from index [i], where the text left is [text]. *)
Fixpoint newline_starts (i : nat) (text : string) : list nat :=
  match text with
  | String c rest =>
      match rest with
      | "" => []
      | String _ _ =>
          if decide (c = nl) then S i :: newline_starts (S i) rest
          else newline_starts (S i) rest
      end
  | "" => []
  end.

Definition IndexLines (text : string) : list nat :=
  if sempty text then [] else 0%nat :: newline_starts 0 text.

Record Buffer := mkBuffer {
  b_id : string;
  b_source : string;
  b_verdict : Verdict;
  b_text : string;
  b_extent : Extent;
  b_rank : Z;
  line_starts_ : list nat;
}.

Definition make_buffer (id source : string) (v : Verdict) (text : string) (e : Extent) (rank : Z)
    : Buffer :=
  mkBuffer id source v text e rank (IndexLines text).

Definition buffer_lines (b : Buffer) : Z := Z.of_nat (length (line_starts_ b)).
Definition buffer_bytes (b : Buffer) : Z := zlen (b_text b).

(** [line(index)]; an index past the last line is undefined in the source and
    empty here, and [Read] never asks for one. *)
Definition buffer_line (b : Buffer) (index : nat) : string :=
  match line_starts_ b !! index with
  | None => ""
  | Some start =>
      let stop := default (slen (b_text b)) (line_starts_ b !! S index) in
      let line := stake (stop - start) (sdrop start (b_text b)) in
      match sback line with
      | Some c => if decide (c = nl) then spop line else line
      | None => line
      end
  end.

(** ** Cursors and anchors *)

Definition cursor_string (c : Cursor) : string := cur_buffer c +:+ ":" +:+ decimal (cur_line c).

Definition cursor_parse (text : string) : option Cursor :=
  match srfind ":" text with
  | None => None
  | Some colon =>
      if Nat.eqb colon 0 || (slen text <=? colon + 1)%nat then None
      else
        let digits := sdrop (S colon) text in
        if (12 <? slen digits)%nat then None
        else
          line ← digits_value digits 0;
          Some (mkCursor (stake colon text) line)
  end.

Definition anchor_parse (text : string) : option Anchor :=
  if bool_decide (text = "head") then Some Head
  else if bool_decide (text = "tail") then Some Tail
  else At <$> cursor_parse text.

(** ** Reading a page *)

Record Page := mkPage {
  p_text : string;
  p_first : Z;
  p_last : Z;
  p_earlier : option Cursor;
  p_later : option Cursor;
}.

Definition no_page : Page := mkPage "" 0 0 None None.

Definition Read (buffer : Buffer) (anchor : Anchor) (lines : Z) : Page :=
  let retained := buffer_lines buffer in
  if (retained =? 0) || (lines =? 0) then no_page
  else
    let start :=
      match anchor with
      | At c => cur_line c
      | Tail => if lines <? retained then retained - lines else 0
      | Head => 0
      end in
    if retained <=? start then no_page
    else
      let stop := Z.min retained (start + lines) in
      let skip := skipped (b_extent buffer) in
      mkPage
        (foldr (fun i text => buffer_line buffer i +:+ NL +:+ text) ""
           (seq (Z.to_nat start) (Z.to_nat (stop - start))))
        (start + 1 + skip) (stop + skip)
        (if 0 <? start then
           Some (mkCursor (b_id buffer) (if lines <? start then start - lines else 0))
         else None)
        (if stop <? retained then Some (mkCursor (b_id buffer) stop) else None).

(** ** The wire form *)

Definition CursorOrNull (c : option Cursor) : value :=
  match c with Some c => JString (cursor_string c) | None => JNull end.

Definition Envelope (buffer : Buffer) (page : Page) : object :=
  let extent := b_extent buffer in
  [("page", JObject [("first", JUint64 (p_first page)); ("last", JUint64 (p_last page));
                     ("earlier", CursorOrNull (p_earlier page));
                     ("later", CursorOrNull (p_later page))]);
   ("buffer", JObject [("id", JString (b_id buffer)); ("source", JString (b_source buffer));
                       ("rank", JUint64 (b_rank buffer))]);
   ("extent", JObject [("lines", JUint64 (x_lines extent));
                       ("retained", JUint64 (x_retained extent));
                       ("truncated", JBool (truncated extent))])].

Definition RankIn (v : value) : Z :=
  match if_object v with
  | None => 0
  | Some fields =>
      match obj_find "rank" fields with
      | Some (JUint64 z) => z
      | Some (JInt64 z) => if 0 <? z then z else 0
      | _ => 0
      end
  end.

Definition OriginToJson (origin : Origin) : value :=
  JObject [("source", JString (o_source origin)); ("buffer", JString (o_buffer origin));
           ("rank", JUint64 (o_rank origin))].

Definition OriginFromJson (v : value) : option Origin :=
  if is_object v then
    let source := string_or v "source" "" in
    let buffer := string_or v "buffer" "" in
    if sempty source || sempty buffer then None else Some (mkOrigin source buffer (RankIn v))
  else None.

(** What [OriginOf] reads once the receipt has parsed. *)
Definition origin_in (parsed : value) : option Origin :=
  match parsed with
  | JObject result =>
      match obj_find "buffer" result with
      | Some (JObject fields as held) =>
          match obj_find "source" fields, obj_find "id" fields with
          | Some (JString source), Some (JString buffer) =>
              if sempty source || sempty buffer then None
              else Some (mkOrigin source buffer (RankIn held))
          | _, _ => None
          end
      | _ => None
      end
  | _ => None
  end.

Section Receipts.
Context `{codec : JsonCodec}.

Definition OriginOf (receipt : string) : option Origin :=
  match receipt with
  | String "{" _ => parse receipt ≫= origin_in
  | _ => None
  end.

Definition SupersededReceipt (receipt superseded_by : string) : res string :=
  match parse receipt with
  | None => Throw (StdException "parse")
  | Some (JObject result) =>
      Ok (serialize (JObject (obj_set "superseded_by" (JString superseded_by)
                                (obj_set "output" (JString "") result))))
  | Some _ => Throw (StdException "not an object")
  end.

End Receipts.

(** ** Source ids *)

(** FNV-1a on 64 bits. *)
Definition fnv_step (hash : Z) (c : ascii) : Z :=
  (Z.lxor hash (byte_z c) * 1099511628211) mod 2 ^ 64.

Fixpoint fnv (hash : Z) (key : string) : Z :=
  match key with
  | "" => hash
  | String c key' => fnv (fnv_step hash c) key'
  end.

Definition kHex (z : Z) : ascii := default "0"%char (String.get (Z.to_nat z) "0123456789abcdef").

Definition SourceIdFor (key : string) : string :=
  let hash := fnv 1469598103934665603 key in
  foldl (fun id shift => id +:+ String (kHex (Z.land (Z.shiftr hash shift) 0xf)) "") "s"
    [28; 24; 20; 16; 12; 8; 4; 0].

(** ** The store *)

Record Pager := mkPager {
  buffers_ : list Buffer;
  retained_bytes_ : Z;
  budget_ : Budget;
  generation_ : string;
  next_ordinal_ : Z;
  next_rank_ : Z;
}.

Definition new_pager (budget : Budget) (generation : string) : Pager :=
  mkPager [] 0 budget generation 1 1.

Definition SetBudget (budget : Budget) (p : Pager) : Pager :=
  mkPager (buffers_ p) (retained_bytes_ p) budget (generation_ p) (next_ordinal_ p) (next_rank_ p).

Definition ContinueRankingFrom (last_rank : Z) (p : Pager) : Pager :=
  mkPager (buffers_ p) (retained_bytes_ p) (budget_ p) (generation_ p) (next_ordinal_ p)
    (Z.max (next_rank_ p) (last_rank + 1)).

(** The eviction loop; every round removes the oldest buffer. *)
Fixpoint evict (budget : Budget) (buffers : list Buffer) (retained : Z) : list Buffer * Z :=
  match buffers with
  | [] => ([], retained)
  | oldest :: rest =>
      if (Z.max 1 (retain_buffers budget) <? Z.of_nat (length buffers))
         || ((retain_bytes budget <? retained) && (1 <? Z.of_nat (length buffers)))
      then evict budget rest (retained - buffer_bytes oldest)
      else (buffers, retained)
  end.

Definition buffer_id (generation : string) (ordinal : Z) : string :=
  "o" +:+ generation +:+ "-" +:+ decimal ordinal.

Definition Store (c : Captured) (v : Verdict) (source_key : string) (p : Pager) : Pager * Buffer :=
  let id := buffer_id (generation_ p) (next_ordinal_ p) in
  let source := if sempty source_key then "" else SourceIdFor source_key in
  let buffer := make_buffer id source v (c_text c) (c_extent c) (next_rank_ p) in
  let '(buffers, retained) :=
    evict (budget_ p) (buffers_ p ++ [buffer]) (retained_bytes_ p + zlen (c_text c)) in
  (mkPager buffers retained (budget_ p) (generation_ p) (next_ordinal_ p + 1) (next_rank_ p + 1),
   buffer).

Definition Find (id : string) (p : Pager) : option Buffer :=
  List.find (fun b => bool_decide (b_id b = id)) (buffers_ p).

(** ** Lines *)

(** A text cut after each newline. *)
Fixpoint raw_lines (text : string) : list string :=
  match text with
  | "" => []
  | String c rest =>
      if decide (c = nl) then String c "" :: raw_lines rest
      else match raw_lines rest with
           | [] => [String c ""]
           | l :: ls => String c l :: ls
           end
  end.

Abbreviation concat_strings := (foldr String.append "").

(** The positions at which the pieces of a text begin. *)
Fixpoint starts_from (i : nat) (pieces : list string) : list nat :=
  match pieces with
  | [] => []
  | l :: ls => i :: starts_from (i + slen l) ls
  end.

Lemma concat_raw_lines text : concat_strings (raw_lines text) = text.
Proof.
  induction text as [|c text IH]; [done|]. cbn. destruct (decide (c = nl)); cbn; [by rewrite IH|].
  destruct (raw_lines text); cbn in *; by rewrite <- IH.
Qed.

Lemma raw_lines_nil text : raw_lines text = [] <-> text = "".
Proof.
  destruct text as [|c text]; [done|]. cbn. split; [|done].
  destruct (decide (c = nl)); [done|]. by destruct (raw_lines text).
Qed.

Lemma newline_starts_cons i c text :
  text <> "" ->
  newline_starts i (String c text)
  = if decide (c = nl) then S i :: newline_starts (S i) text else newline_starts (S i) text.
Proof. by destruct text. Qed.

Lemma newline_starts_raw i text :
  text <> "" -> i :: newline_starts i text = starts_from i (raw_lines text).
Proof.
  revert i. induction text as [|c text IH]; [done|]. intros i _.
  destruct (decide (text = "")) as [->|Ht].
  { cbn. by destruct (decide (c = nl)). }
  specialize (IH (S i) Ht). rewrite newline_starts_cons by done. cbn [raw_lines].
  destruct (decide (c = nl)).
  - cbn [starts_from String.length]. rewrite Nat.add_1_r. by rewrite IH.
  - destruct (raw_lines text) as [|l ls] eqn:E; [by apply raw_lines_nil in E|].
    cbn [starts_from String.length] in *. injection IH as ->. by rewrite Nat.add_succ_r.
Qed.

Lemma IndexLines_raw text : IndexLines text = starts_from 0 (raw_lines text).
Proof.
  unfold IndexLines. destruct (sempty text) eqn:E; [by apply sempty_true in E as ->|].
  apply newline_starts_raw. by apply sempty_false.
Qed.

Lemma starts_from_length i ls : length (starts_from i ls) = length ls.
Proof. revert i. induction ls; intros i; cbn; [done|]. by rewrite IHls. Qed.

Lemma starts_from_piece i ls k l :
  ls !! k = Some l ->
  exists start, starts_from i ls !! k = Some start /\ (i <= start)%nat
    /\ default (i + slen (concat_strings ls))%nat (starts_from i ls !! S k) = (start + slen l)%nat
    /\ stake (slen l) (sdrop (start - i) (concat_strings ls)) = l.
Proof.
  revert i k. induction ls as [|x ls IH]; intros i [|k] Hk; cbn in Hk; try done.
  - injection Hk as ->. exists i. cbn. rewrite Nat.sub_diag, sdrop_0, stake_app_exact.
    repeat split; try done. destruct ls; cbn; [|done]. rewrite sapp_nil_r. done.
  - destruct (IH (i + slen x)%nat k Hk) as (start & H1 & H2 & H3 & H4).
    exists start. split; [exact H1|]. split; [lia|]. split.
    + cbn [foldr]. rewrite slen_app, Nat.add_assoc. exact H3.
    + replace (start - i)%nat with (slen x + (start - (i + slen x)))%nat by lia.
      rewrite <- H4 at 2. f_equal. clear. generalize (start - (i + slen x))%nat as n.
      intros n. cbn [foldr].
      induction x as [|c x IHx]; [done|]. cbn. apply IHx.
Qed.

Lemma raw_line_shape text l k :
  raw_lines text !! k = Some l ->
  l <> "" /\ (sback l <> Some nl -> S k = length (raw_lines text))
  /\ sfind nl (spop l) = None.
Proof.
  revert k l. induction text as [|c text IH]; [done|]. intros k l. cbn.
  destruct (decide (c = nl)) as [E|Hc].
  - destruct k as [|k]; cbn.
    + intros [= <-]. rewrite E. done.
    + intros Hk. destruct (IH k l Hk) as (H1 & H2 & H3). repeat split; [done| |done].
      intros Hb. by rewrite H2.
  - destruct (raw_lines text) as [|l0 ls] eqn:Hr; cbn.
    + destruct k; cbn; [|done]. intros [= <-]. done.
    + destruct k as [|k]; cbn.
      * intros [= <-]. destruct (IH 0%nat l0 eq_refl) as (H1 & H2 & H3).
        repeat split; [done| |].
        -- intros Hb. destruct l0; [done|]. by apply H2.
        -- destruct l0 as [|d l0]; [done|]. cbn in *. by rewrite decide_False, H3.
      * intros Hk. destruct (IH (S k) l Hk) as (H1 & H2 & H3). done.
Qed.

(** The line without the newline that ended it. *)
Definition chomp (l : string) : string :=
  match sback l with
  | Some c => if decide (c = nl) then spop l else l
  | None => l
  end.

Lemma buffer_line_raw id source v text e rank k l :
  raw_lines text !! k = Some l ->
  buffer_line (make_buffer id source v text e rank) k = chomp l.
Proof.
  intros Hk. unfold buffer_line, make_buffer. cbn.
  rewrite IndexLines_raw.
  destruct (starts_from_piece 0 _ _ _ Hk) as (start & H1 & _ & H3 & H4).
  rewrite concat_raw_lines in *. cbn [Nat.add] in H3. rewrite Nat.sub_0_r in H4.
  rewrite H1, H3. replace (start + slen l - start)%nat with (slen l) by lia. by rewrite H4.
Qed.

Definition made (b : Buffer) : Prop :=
  b = make_buffer (b_id b) (b_source b) (b_verdict b) (b_text b) (b_extent b) (b_rank b).

Lemma buffer_line_made b k l :
  made b -> raw_lines (b_text b) !! k = Some l -> buffer_line b k = chomp l.
Proof. intros -> Hk. by apply buffer_line_raw. Qed.

Lemma buffer_lines_raw b : made b -> buffer_lines b = Z.of_nat (length (raw_lines (b_text b))).
Proof.
  intros ->. unfold buffer_lines, make_buffer. cbn. by rewrite IndexLines_raw, starts_from_length.
Qed.

(** The text of a buffer as a page shows it: every line ended by a newline. *)
Definition closed_text (text : string) : string :=
  match sback text with
  | None => ""
  | Some c => if decide (c = nl) then text else text +:+ NL
  end.

Definition shown (l : string) : string := chomp l +:+ NL.

Lemma closed_text_cons c text : text <> "" -> closed_text (String c text) = String c (closed_text text).
Proof.
  intros Ht. unfold closed_text. destruct text as [|d text]; [done|].
  change (sback (String c (String d text))) with (sback (String d text)).
  destruct (sback (String d text)) as [e|] eqn:Hb; [|by apply sback_None in Hb].
  by destruct (decide (e = nl)).
Qed.

Lemma shown_cons c l : l <> "" -> shown (String c l) = String c (shown l).
Proof.
  intros Hl. unfold shown, chomp. destruct l as [|d l]; [done|].
  change (sback (String c (String d l))) with (sback (String d l)).
  destruct (sback (String d l)) as [e|] eqn:Hb; [|by apply sback_None in Hb].
  by destruct (decide (e = nl)).
Qed.

Lemma shown_lines text : concat_strings (map shown (raw_lines text)) = closed_text text.
Proof.
  induction text as [|c text IH]; [done|]. cbn [raw_lines].
  destruct (decide (c = nl)) as [E|Hc].
  - subst c. cbn [map foldr]. rewrite IH. destruct (decide (text = "")) as [->|Ht]; [reflexivity|].
    by rewrite (closed_text_cons _ _ Ht).
  - destruct (raw_lines text) as [|l ls] eqn:E.
    + apply raw_lines_nil in E as ->. unfold shown, chomp, closed_text. cbn.
      by destruct (decide (c = nl)).
    + assert (text <> "") by (intros ->; discriminate E).
      destruct (raw_line_shape text l 0) as (Hl & _); [by rewrite E|].
      rewrite closed_text_cons by done. rewrite <- IH. cbn [map foldr]. by rewrite shown_cons.
Qed.

(** ** Following [later] from the head *)

(** The pages a reader gets who starts at [anchor] and follows every [later]. *)
Fixpoint follow (fuel : nat) (b : Buffer) (lines : Z) (anchor : Anchor) : list Page :=
  match fuel with
  | O => []
  | S fuel =>
      let page := Read b anchor lines in
      page :: match p_later page with Some c => follow fuel b lines (At c) | None => [] end
  end.

(** Pages of at most [lines] lines that number [from + 1 .. to] without a gap
    or an overlap, the last one alone naming nothing later. *)
Fixpoint tiles (lines from to : Z) (pages : list Page) : Prop :=
  match pages with
  | [] => from = to
  | p :: pages' =>
      p_first p = from + 1 /\ from < p_last p <= from + lines
      /\ (p_later p = None <-> pages' = []) /\ tiles lines (p_last p) to pages'
  end.

Lemma concat_strings_app l1 l2 :
  concat_strings (l1 ++ l2) = concat_strings l1 +:+ concat_strings l2.
Proof. induction l1 as [|x l1 IH]; [done|]. cbn [app foldr]. by rewrite IH, sapp_assoc. Qed.

Lemma page_text b start n :
  made b -> (start + n <= length (raw_lines (b_text b)))%nat ->
  foldr (fun i text => buffer_line b i +:+ NL +:+ text) "" (seq start n)
  = concat_strings (map shown (take n (drop start (raw_lines (b_text b))))).
Proof.
  intros Hb. revert start. induction n as [|n IH]; intros start Hn; [done|].
  destruct (lookup_lt_is_Some_2 (raw_lines (b_text b)) start) as [l Hl]; [lia|].
  rewrite (drop_S _ _ _ Hl). cbn [seq foldr take map]. rewrite IH by lia.
  rewrite (buffer_line_made _ _ _ Hb Hl). unfold shown at 2. by rewrite sapp_assoc.
Qed.

Lemma Read_at b lines start :
  made b -> 0 < lines -> 0 <= start < buffer_lines b ->
  let stop := Z.min (buffer_lines b) (start + lines) in
  let page := Read b (At (mkCursor (b_id b) start)) lines in
  p_text page
  = concat_strings (map shown
      (take (Z.to_nat (stop - start)) (drop (Z.to_nat start) (raw_lines (b_text b)))))
  /\ p_first page = start + 1 + skipped (b_extent b) /\ p_last page = stop + skipped (b_extent b)
  /\ p_later page
     = if stop <? buffer_lines b then Some (mkCursor (b_id b) stop) else None.
Proof.
  intros Hb Hl Hs stop page. subst page. unfold Read. cbn [cur_line].
  rewrite (proj2 (Z.eqb_neq (buffer_lines b) 0)), (proj2 (Z.eqb_neq lines 0)) by lia. cbn [orb].
  rewrite (proj2 (Z.leb_gt (buffer_lines b) start)) by lia. cbn [p_text p_first p_last p_later].
  rewrite page_text; [done..|]. pose proof (buffer_lines_raw b Hb). lia.
Qed.

Lemma Read_Head b lines :
  0 < buffer_lines b -> Read b Head lines = Read b (At (mkCursor (b_id b) 0)) lines.
Proof. done. Qed.

Lemma follow_from b lines fuel start :
  made b -> 0 < lines -> 0 <= start < buffer_lines b -> buffer_lines b - start <= Z.of_nat fuel ->
  let pages := follow fuel b lines (At (mkCursor (b_id b) start)) in
  concat_strings (map p_text pages)
  = concat_strings (map shown (drop (Z.to_nat start) (raw_lines (b_text b))))
  /\ pages <> []
  /\ tiles lines (start + skipped (b_extent b)) (buffer_lines b + skipped (b_extent b)) pages.
Proof.
  intros Hb Hl. pose proof (buffer_lines_raw b Hb) as Hlen.
  revert start. induction fuel as [|fuel IH]; intros start Hs Hf; [lia|].
  destruct (Read_at b lines start Hb Hl Hs) as (Ht & Hp1 & Hp2 & Hp3).
  cbn [follow]. rewrite Hp3. case_match eqn:E.
  - destruct (IH (Z.min (buffer_lines b) (start + lines))) as (IH1 & IH2 & IH3); [lia..|].
    cbn [map foldr tiles]. rewrite IH1, Ht, Hp1, Hp2, Hp3, <- concat_strings_app, <- map_app.
    split_and!; [|done|lia|lia|lia|by split|].
    + do 2 f_equal. rewrite <- (take_drop (Z.to_nat (Z.min (buffer_lines b) (start + lines) - start))
        (drop (Z.to_nat start) (raw_lines (b_text b)))) at 2.
      f_equal. rewrite drop_drop. f_equal. lia.
    + exact IH3.
  - cbn [map foldr tiles]. rewrite Ht, Hp1, Hp2, Hp3, sapp_nil_r.
    split_and!; [|done|lia|lia|lia|done|lia].
    do 2 f_equal. apply take_ge. rewrite length_drop. lia.
Qed.

(** C34: reading a buffer from its head and following every [later] cursor
    terminates within as many pages as the buffer has lines, and the pages
    tile it: their texts concatenated are the whole retained text with its
    last line closed, each page holds between one and the asked number of
    lines, their numbers run on without gap or overlap (offset by the lines
    the capture skipped), and only the last page names nothing later. *)
Theorem Read_tiles b lines :
  made b -> 0 < lines -> b_text b <> "" ->
  let pages := follow (length (line_starts_ b)) b lines Head in
  concat_strings (map p_text pages) = closed_text (b_text b)
  /\ tiles lines (skipped (b_extent b)) (skipped (b_extent b) + buffer_lines b) pages.
Proof.
  intros Hb Hl Ht. pose proof (buffer_lines_raw b Hb) as Hlen.
  assert (Hpos : 0 < buffer_lines b).
  { destruct (raw_lines (b_text b)) eqn:E; [by apply raw_lines_nil in E|]. cbn in Hlen. lia. }
  destruct (follow_from b lines (length (line_starts_ b)) 0) as (H1 & _ & H3); try done; try lia.
  { unfold buffer_lines. lia. }
  rewrite drop_0, shown_lines in H1. rewrite Z.add_0_l in H3.
  rewrite (Z.add_comm (skipped _)).
  assert (length (line_starts_ b) <> 0%nat) by (unfold buffer_lines in Hpos; lia).
  destruct (length (line_starts_ b)) as [|n]; [done|]. cbn [follow] in *.
  rewrite Read_Head by done. by split.
Qed.

(** ** Cursors *)

(** A cursor read back from its text is the cursor that was written, for
    every nonempty buffer id (colons included) and every line below 10^12,
    twelve digits being all [Parse] reads; and the text reads as the same
    anchor. *)
Theorem cursor_roundtrip c :
  cur_buffer c <> "" -> 0 <= cur_line c < 10 ^ 12 ->
  cursor_parse (cursor_string c) = Some c /\ anchor_parse (cursor_string c) = Some (At c).
Proof.
  destruct c as [id line]. cbn [cur_buffer cur_line]. intros Hid Hline.
  set (s := cursor_string (mkCursor id line)).
  assert (Hs : s = id +:+ String ":" (decimal line)) by done.
  assert (Hp : cursor_parse s = Some (mkCursor id line)).
  { unfold cursor_parse. rewrite Hs, srfind_app_sep
      by (eapply digits_no_char; [done|apply decimal_digits]).
    rewrite <- slen_0 in Hid. pose proof (decimal_nonempty line) as Hne. rewrite <- slen_0 in Hne.
    rewrite (proj2 (Nat.eqb_neq _ _)) by done. cbn [orb].
    rewrite slen_app, slen_cons, (proj2 (Nat.leb_gt _ _)) by lia.
    rewrite stake_app_exact.
    replace (sdrop (S (slen id)) (id +:+ String ":" (decimal line))) with (decimal line)
      by (clear; induction id; [done|apply IHid]).
    pose proof (decimal_len 12 line ltac:(lia) Hline).
    rewrite (proj2 (Nat.ltb_ge _ _)) by lia. by rewrite decimal_value by lia. }
  split; [done|]. unfold anchor_parse. rewrite !bool_decide_eq_false_2, Hp; [done| |];
    intros E; by rewrite E in Hp.
Qed.

(** ** The store *)

Definition total_bytes (bs : list Buffer) : Z := foldr (fun b n => buffer_bytes b + n) 0 bs.

Definition over_budget (budget : Budget) (bs : list Buffer) : bool :=
  (Z.max 1 (retain_buffers budget) <? Z.of_nat (length bs))
  || ((retain_bytes budget <? total_bytes bs) && (1 <? Z.of_nat (length bs))).

Record pager_ok (p : Pager) : Prop := {
  ok_bytes : retained_bytes_ p = total_bytes (buffers_ p);
  ok_made : Forall made (buffers_ p);
  ok_ids : NoDup (map b_id (buffers_ p));
  ok_named : Forall (fun b => exists n, b_id b = buffer_id (generation_ p) n /\ 1 <= n < next_ordinal_ p)
               (buffers_ p);
  ok_ranks : StronglySorted Z.lt (map b_rank (buffers_ p));
  ok_ranked : Forall (fun b => 1 <= b_rank b < next_rank_ p) (buffers_ p);
  ok_next : 1 <= next_ordinal_ p /\ 1 <= next_rank_ p;
}.

Lemma total_bytes_app l1 l2 : total_bytes (l1 ++ l2) = total_bytes l1 + total_bytes l2.
Proof. induction l1 as [|b l1 IH]; cbn; [done|]. unfold total_bytes in *. lia. Qed.

(** What the eviction loop keeps: the shortest cut from the front that brings
    the rest within the budget. *)
Lemma evict_spec budget bs retained :
  retained = total_bytes bs ->
  exists gone, bs = gone ++ (evict budget bs retained).1
    /\ (evict budget bs retained).2 = total_bytes (evict budget bs retained).1
    /\ over_budget budget (evict budget bs retained).1 = false
    /\ (forall g1 g2, gone = g1 ++ g2 -> g2 <> [] ->
         over_budget budget (g2 ++ (evict budget bs retained).1) = true).
Proof.
  revert retained. induction bs as [|b bs IH]; intros retained Hr.
  - exists []. subst. split_and!; try done.
    + unfold over_budget. cbn. rewrite andb_false_r, orb_false_r. apply Z.ltb_ge. lia.
    + intros g1 g2 E Hg. by destruct g1, g2.
  - cbn [evict]. destruct (_ || _) eqn:E.
    + destruct (IH (retained - buffer_bytes b)) as (gone & H1 & H2 & H3 & H4).
      { subst. unfold total_bytes. cbn. lia. }
      exists (b :: gone). split_and!; [cbn; by f_equal|done|done|].
      intros [|x g1] g2 Eg Hg; cbn in Eg.
      * subst g2. rewrite <- app_comm_cons, <- H1. unfold over_budget. by rewrite <- Hr.
      * injection Eg as -> Eg. by apply (H4 g1).
    + exists []. split_and!; try done; [by cbn [fst]; unfold over_budget; rewrite <- Hr|].
      intros g1 g2 Eg Hg. by destruct g1, g2.
Qed.

Lemma buffer_id_inj g n m : 0 <= n -> 0 <= m -> buffer_id g n = buffer_id g m -> n = m.
Proof.
  intros Hn Hm E. unfold buffer_id in E. do 3 apply sapp_inj_r in E. by apply decimal_inj.
Qed.

Lemma new_pager_ok budget g : pager_ok (new_pager budget g).
Proof. split; cbn; solve [constructor|lia]. Qed.

Lemma SetBudget_ok budget p : pager_ok p -> pager_ok (SetBudget budget p).
Proof. by intros []; split. Qed.

Lemma ContinueRankingFrom_ok r p : pager_ok p -> pager_ok (ContinueRankingFrom r p).
Proof.
  intros [A B C D E F G]; split; try done; cbn; [|lia].
  eapply Forall_impl; [exact F|]. cbn. lia.
Qed.

Lemma sorted_app_r {A} (R : A -> A -> Prop) l1 l2 :
  StronglySorted R (l1 ++ l2) -> StronglySorted R l2.
Proof. induction l1; [done|]. cbn. inversion 1; auto. Qed.

Lemma sorted_snoc {A} (R : A -> A -> Prop) l x :
  StronglySorted R l -> Forall (fun y => R y x) l -> StronglySorted R (l ++ [x]).
Proof.
  induction 1 as [|y l Hs IH Hy]; cbn; [by repeat constructor|].
  inversion 1; subst. constructor; [by apply IH|]. by apply Forall_app; split; [|constructor].
Qed.

Lemma Find_spec id p b :
  NoDup (map b_id (buffers_ p)) -> b ∈ buffers_ p -> b_id b = id -> Find id p = Some b.
Proof.
  unfold Find. induction (buffers_ p) as [|x bs IH]; cbn; [by intros _ ?%elem_of_nil|].
  inversion 1 as [|? ? Hx Hn]; subst. intros [->|Hb]%elem_of_cons Hid.
  - by rewrite bool_decide_eq_true_2.
  - rewrite bool_decide_eq_false_2; [by apply IH|]. intros E. apply Hx.
    rewrite E, <- Hid. by apply list_elem_of_fmap_2.
Qed.

Lemma Find_None id p : (forall b, b ∈ buffers_ p -> b_id b <> id) -> Find id p = None.
Proof.
  unfold Find. induction (buffers_ p) as [|x bs IH]; cbn; [done|]. intros H.
  rewrite bool_decide_eq_false_2 by (apply H; left). apply IH. intros b Hb. apply H. by right.
Qed.

(** Appending the next buffer, before anything is dropped. *)
Lemma push_ok p source v text e :
  pager_ok p ->
  let b := make_buffer (buffer_id (generation_ p) (next_ordinal_ p)) source v text e (next_rank_ p) in
  (forall old, old ∈ buffers_ p -> b_id old <> b_id b)
  /\ pager_ok (mkPager (buffers_ p ++ [b]) (total_bytes (buffers_ p ++ [b])) (budget_ p)
                (generation_ p) (next_ordinal_ p + 1) (next_rank_ p + 1)).
Proof.
  intros [A B C D E F G] b.
  assert (Hnew : forall old, old ∈ buffers_ p -> b_id old <> b_id b).
  { intros old Hold Heq. rewrite Forall_forall in D. destruct (D _ Hold) as (n & Hn & Hlt).
    rewrite Hn in Heq. apply buffer_id_inj in Heq; lia. }
  split; [done|]. split; cbn; rewrite ?map_app; try done; try lia.
  - apply Forall_app. by split; [|constructor].
  - apply NoDup_app. split_and!; [done| |apply NoDup_singleton].
    intros x (y & -> & Hy)%list_elem_of_fmap Hx. apply list_elem_of_singleton in Hx.
    by apply (Hnew y).
  - apply Forall_app. split.
    + eapply Forall_impl; [exact D|]. intros x (n & Hn & Hlt). exists n. split; [done|lia].
    + constructor; [|done]. exists (next_ordinal_ p). split; [done|lia].
  - apply sorted_snoc; [done|]. apply Forall_map. eapply Forall_impl; [exact F|]. cbn. lia.
  - apply Forall_app. split; [eapply Forall_impl; [exact F|]; cbn; lia|].
    constructor; [cbn; lia|done].
Qed.

Lemma pager_ok_suffix gone kept n budget g o r :
  pager_ok (mkPager (gone ++ kept) n budget g o r) ->
  pager_ok (mkPager kept (total_bytes kept) budget g o r).
Proof.
  intros [? A B C D E F]; cbn in *; rewrite ?map_app in *.
  apply Forall_app in A as [_ A]. apply NoDup_app in B as (_ & _ & B).
  apply Forall_app in C as [_ C]. apply sorted_app_r in D. apply Forall_app in E as [_ E].
  by split.
Qed.

Lemma evict_keeps_last budget bs b retained : b ∈ (evict budget (bs ++ [b]) retained).1.
Proof.
  revert retained. induction bs as [|x bs IH]; intros retained.
  - cbn [app evict]. rewrite andb_false_r, orb_false_r.
    rewrite (proj2 (Z.ltb_ge _ _)) by (cbn; lia). left.
  - cbn [app evict]. case_match; [apply IH|]. cbn. right. apply elem_of_app. right. left.
Qed.

(** [Store] on a well-formed pager: the pager stays well formed (its byte
    count is the sum of what it holds, ids are its own mark's and distinct,
    ranks increase), the new buffer ranks after every buffer it held and can be
    found under an id no held buffer had; what is dropped is a prefix, the
    oldest runs, whose ids then find nothing, while every buffer kept is still
    found; what stays is within the budget, or the new buffer alone; and
    nothing is dropped that the budget did not demand. *)
Theorem Store_spec c v key p :
  pager_ok p ->
  let p' := (Store c v key p).1 in
  let b := (Store c v key p).2 in
  pager_ok p'
  /\ b_text b = c_text c /\ b_verdict b = v /\ b_extent b = c_extent c
  /\ Find (b_id b) p = None /\ Find (b_id b) p' = Some b
  /\ Forall (fun old => b_rank old < b_rank b) (buffers_ p)
  /\ exists gone, buffers_ p ++ [b] = gone ++ buffers_ p'
      /\ (forall old, old ∈ gone -> Find (b_id old) p' = None)
      /\ (forall kept, kept ∈ buffers_ p' -> Find (b_id kept) p' = Some kept)
      /\ over_budget (budget_ p) (buffers_ p') = false
      /\ (forall g1 g2, gone = g1 ++ g2 -> g2 <> [] ->
           over_budget (budget_ p) (g2 ++ buffers_ p') = true).
Proof.
  intros Hp p' b. subst p' b. unfold Store.
  set (b := make_buffer _ _ _ _ _ _).
  destruct (evict_spec (budget_ p) (buffers_ p ++ [b]) (retained_bytes_ p + zlen (c_text c)))
    as (gone & H1 & H2 & H3 & H4).
  { rewrite total_bytes_app, (ok_bytes _ Hp). cbn. unfold buffer_bytes. cbn. lia. }
  pose proof (evict_keeps_last (budget_ p) (buffers_ p) b (retained_bytes_ p + zlen (c_text c)))
    as Hlast.
  destruct (push_ok p (if sempty key then "" else SourceIdFor key) v (c_text c) (c_extent c) Hp)
    as [Hnew Hall]. fold b in Hnew, Hall.
  destruct (evict _ _ _) as [kept bytes]. cbn [fst snd] in *. subst bytes. rewrite H1 in Hall.
  pose proof (ok_ids _ Hall) as Hids. cbn in Hids. rewrite map_app in Hids.
  apply pager_ok_suffix in Hall as Hok.
  split_and!; try done.
  - apply Find_None. by intros old ?%Hnew.
  - by apply Find_spec; [apply (ok_ids _ Hok)| |].
  - eapply Forall_impl; [apply (ok_ranked _ Hp)|]. cbn. lia.
  - exists gone. split_and!; try done.
    + intros old Hold. apply Find_None. intros x Hx Hid.
      apply NoDup_app in Hids as (_ & Hd & _). apply (Hd (b_id old)).
      * by apply list_elem_of_fmap_2.
      * rewrite <- Hid. by apply list_elem_of_fmap_2.
    + intros x Hx. by apply Find_spec; [apply (ok_ids _ Hok)| |].
Qed.

(** ** Receipts and origins *)

(** The origin a page of this buffer has; a run without a source has none. *)
Definition origin_of_buffer (b : Buffer) : option Origin :=
  if sempty (b_source b) || sempty (b_id b) then None
  else Some (mkOrigin (b_source b) (b_id b) (b_rank b)).

Lemma RankIn_normalize fields z :
  0 <= z -> obj_find "rank" fields = Some (JUint64 z) -> RankIn (normalize (JObject fields)) = z.
Proof.
  intros Hz Hf. unfold RankIn. cbn [normalize if_object]. rewrite obj_find_normalize, Hf. cbn.
  destruct (z <=? int64_max); [|done]. destruct (0 <? z) eqn:E; [done|]. apply Z.ltb_ge in E. lia.
Qed.

Lemma origin_in_result b page result :
  0 <= b_rank b ->
  obj_find "buffer" result = obj_find "buffer" (Envelope b page) ->
  origin_in (normalize (JObject result)) = origin_of_buffer b.
Proof.
  intros Hr Hf. unfold origin_in. cbn [normalize]. rewrite obj_find_normalize, Hf.
  cbn [Envelope obj_find fmap option_fmap option_map].
  rewrite decide_False by done. rewrite decide_True by done. cbn [fmap option_fmap option_map].
  set (fields := [("id", _); _; _]).
  rewrite (RankIn_normalize fields (b_rank b)) by done. done.
Qed.

Section Origins.
#[local] Set Default Proof Using "Type*".
Context `{codec : JsonCodec} {ok : JsonCodecOk codec}.

Lemma OriginOf_serialize (result : object) :
  wire (JObject result) = true ->
  OriginOf (serialize (JObject result)) = origin_in (normalize (JObject result)).
Proof.
  intros Hw. unfold OriginOf. destruct (serialize_object result) as [rest E].
  rewrite E, <- E, parse_serialize by done. done.
Qed.

(** A receipt that carries [Envelope]'s [buffer] member, whatever its other
    members, reads back as the origin of that buffer: its source, its id and
    its rank, or no origin when the run answered no question (no source); and
    superseding the receipt keeps the origin, while its output becomes empty
    and names what superseded it. *)
Theorem OriginOf_receipt b page result by_ :
  0 <= b_rank b ->
  obj_find "buffer" result = obj_find "buffer" (Envelope b page) ->
  wire (JObject result) = true -> IsValidUtf8 by_ = true ->
  OriginOf (serialize (JObject result)) = origin_of_buffer b
  /\ exists marked,
       SupersededReceipt (serialize (JObject result)) by_ = Ok marked
       /\ OriginOf marked = origin_of_buffer b
       /\ exists fields, parse marked = Some (JObject fields)
          /\ obj_find "output" fields = Some (JString "")
          /\ obj_find "superseded_by" fields = Some (JString by_).
Proof.
  intros Hr Hf Hw Hby.
  split; [by rewrite OriginOf_serialize, (origin_in_result b page)|].
  unfold SupersededReceipt. rewrite parse_serialize by done.
  set (marked := obj_set "superseded_by" (JString by_) (obj_set "output" (JString "") result)).
  assert (Hm : wire (JObject marked) = true)
    by (apply wire_obj_set; [apply wire_obj_set; [done..|cbn; lia]|done|done|cbn; lia]).
  cbn [normalize].
  replace (obj_set "superseded_by" _ _)
    with (map (fun kv => (kv.1, normalize kv.2)) marked)
    by (unfold marked; by rewrite !obj_set_normalize).
  change (JObject (map _ marked)) with (normalize (JObject marked)).
  pose proof (wire_normalize _ Hm) as Hm'.
  eexists. split; [done|]. split.
  - cbn [normalize] in *. rewrite OriginOf_serialize by done.
    change (JObject (map _ marked)) with (normalize (JObject marked)).
    rewrite normalize_idemp, (origin_in_result b page); [done..|].
    unfold marked. by rewrite !obj_find_set_ne.
  - eexists. rewrite parse_serialize, normalize_idemp by done. split; [done|].
    rewrite !obj_find_normalize. unfold marked.
    by rewrite obj_find_set_eq, obj_find_set_ne, obj_find_set_eq.
Qed.

End Origins.

(** An origin written to a transcript reads back as itself, directly and
    after a trip through the codec's number kinds, when both its names are
    nonempty. *)
Theorem Origin_roundtrip o :
  o_source o <> "" -> o_buffer o <> "" -> 0 <= o_rank o ->
  OriginFromJson (OriginToJson o) = Some o
  /\ OriginFromJson (normalize (OriginToJson o)) = Some o.
Proof.
  destruct o as [source buffer rank]. cbn [o_source o_buffer o_rank].
  intros Hs%sempty_false Hb%sempty_false Hr.
  unfold OriginFromJson. rewrite !string_or_normalize. unfold OriginToJson. cbn [o_source o_buffer o_rank].
  set (fields := [("source", _); _; _]).
  rewrite (RankIn_normalize fields rank) by done.
  rewrite (string_or_JString fields "source" source), (string_or_JString fields "buffer" buffer) by done.
  rewrite Hs, Hb. done.
Qed.

(** ** Witnesses *)

Definition verdict_ok : Verdict := mkVerdict "ls" true 0 "" false.

Definition sample_buffer : Buffer :=
  make_buffer "oab12-1" "s0000002a" verdict_ok
    ("one" +:+ NL +:+ "two" +:+ NL +:+ "three") (mkExtent 3 13 3 false) 7.

Lemma Read_tiles_witness :
  concat_strings (map p_text (follow 3 sample_buffer 2 Head)) = closed_text (b_text sample_buffer).
Proof. by destruct (Read_tiles sample_buffer 2). Defined.

Lemma cursor_roundtrip_witness :
  cursor_parse (cursor_string (mkCursor "oab12-1" 120)) = Some (mkCursor "oab12-1" 120).
Proof. by destruct (cursor_roundtrip (mkCursor "oab12-1" 120)). Defined.

Definition small_budget : Budget := mkBudget 120 400 1024 8 2.
Definition stored (text : string) : Captured := mkCaptured text (mkExtent 1 4 1 false).

Lemma Store_spec_witness :
  let p := (Store (stored "abcde") verdict_ok "ls" (new_pager small_budget "ab12")).1 in
  let b := (Store (stored "fghij") verdict_ok "ls" p).2 in
  Find (b_id b) p = None.
Proof.
  refine (proj1 (proj2 (proj2 (proj2 (proj2
    (Store_spec (stored "fghij") verdict_ok "ls" _ _)))))).
  exact (proj1 (Store_spec (stored "abcde") verdict_ok "ls" _ (new_pager_ok small_budget "ab12"))).
Defined.

Lemma OriginOf_receipt_witness :
  OriginOf (codec := bit_codec)
    (serialize (JsonCodec := bit_codec)
       (JObject (("output", JString "one") :: Envelope sample_buffer (Read sample_buffer Head 1))))
  = Some (mkOrigin "s0000002a" "oab12-1" 7).
Proof.
  by destruct (OriginOf_receipt (codec := bit_codec) sample_buffer (Read sample_buffer Head 1)
    (("output", JString "one") :: Envelope sample_buffer (Read sample_buffer Head 1)) "oab12-2").
Defined.

Lemma Origin_roundtrip_witness :
  OriginFromJson (OriginToJson (mkOrigin "s0000002a" "oab12-1" 7))
  = Some (mkOrigin "s0000002a" "oab12-1" 7).
Proof. by destruct (Origin_roundtrip (mkOrigin "s0000002a" "oab12-1" 7)). Defined.
