(* ===== verification/Message.v ===== *)
(** * Messages ([include/pu/session/message.hpp], [include/pu/llm/llm_provider.hpp])

    The stored form of a message, [MessageNode] with its payload variant, and
    the form a provider sees, [ChatMessage]; their JSON forms.  A default
    constructed [boost::json::value] is [JNull].  [NewMessageId] draws random
    hex digits, so an id is an argument wherever the code draws one. *)
From Stdlib Require Import Ascii.
From S2P Require Export Prelude Text Json Paging.

Abbreviation MessageId := string.

Definition kUserRole : string := "user".
Definition kAssistantRole : string := "assistant".
Definition kSystemRole : string := "system".
Definition kToolRole : string := "tool".

(** ** Reasoning *)

Record Reasoning := mkReasoning { r_text : string; r_signature : string; r_raw : value }.

Definition ReasoningToJson (r : Reasoning) : value :=
  let out := [("text", JString (r_text r))] in
  let out := if sempty (r_signature r) then out
             else obj_set "signature" (JString (r_signature r)) out in
  let out := if is_null (r_raw r) then out else obj_set "raw" (r_raw r) out in
  JObject out.

Definition ReasoningFromJson (v : value) : Reasoning :=
  match v with
  | JString s => mkReasoning s "" JNull
  | _ =>
      mkReasoning (string_or v "text" "") (string_or v "signature" "")
        (if HasKey v "raw" then default JNull (at_key v "raw") else JNull)
  end.

(** ** Tool calls *)

Inductive ToolCallStatus := kPending | kCompleted | kInterrupted.

#[export] Instance ToolCallStatus_eq_dec : EqDecision ToolCallStatus.
Proof. solve_decision. Defined.

Definition kPendingStatusName : string := "pending".
Definition kCompletedStatusName : string := "completed".
Definition kInterruptedStatusName : string := "interrupted".

Definition ToolCallStatusName (status : ToolCallStatus) : string :=
  match status with
  | kPending => kPendingStatusName
  | kCompleted => kCompletedStatusName
  | kInterrupted => kInterruptedStatusName
  end.

Record ToolCallRecord := mkRecord {
  rec_id : string;
  rec_name : string;
  rec_arguments : value;
  rec_status : ToolCallStatus;
}.

Definition set_status (status : ToolCallStatus) (r : ToolCallRecord) : ToolCallRecord :=
  mkRecord (rec_id r) (rec_name r) (rec_arguments r) status.

Definition is_pending (r : ToolCallRecord) : bool := bool_decide (rec_status r = kPending).

Definition ToolCallToJson (r : ToolCallRecord) : value :=
  JObject [("id", JString (rec_id r)); ("type", JString "function");
           ("function", JObject [("name", JString (rec_name r));
                                 ("arguments", rec_arguments r)])].

(** [ValueOrDefault<boost::json::value>]: any value converts to itself. *)
Definition value_or (j : value) (key : string) (def : value) : value :=
  ValueOrDefault Some j key def.

Definition ToolCallFromJson (call : value) : ToolCallRecord :=
  let id := string_or call "id" "" in
  match at_key call "function" with
  | None => mkRecord id "" JNull kPending
  | Some function =>
      mkRecord id (string_or function "name" "") (value_or function "arguments" (JObject []))
        kPending
  end.

(** ** Payloads and nodes *)

Record UserPayload := mkUser { u_content : string; u_from_peer : string }.
Record AssistantPayload := mkAssistant {
  a_content : string;
  a_reasoning : list Reasoning;
  a_tool_calls : list ToolCallRecord;
}.
Record SystemPayload := mkSystem { s_content : string }.
Record ToolPayload := mkTool {
  t_call_id : string;
  t_name : string;
  t_content : string;
  t_origin : option Origin;
}.

Inductive MessagePayload :=
  | User (p : UserPayload)
  | Assistant (p : AssistantPayload)
  | System (p : SystemPayload)
  | Tool (p : ToolPayload).

Record MessageNode := mkNode {
  n_id : MessageId;
  n_timestamp : string;
  n_payload : MessagePayload;
  n_parent : MessageId;
}.

(** [MakeNode]; the fresh id is the argument. *)
Definition MakeNode (id : MessageId) (payload : MessagePayload) : MessageNode :=
  mkNode id "" payload "".

Definition set_payload (payload : MessagePayload) (n : MessageNode) : MessageNode :=
  mkNode (n_id n) (n_timestamp n) payload (n_parent n).

Definition HasUnfinishedToolCalls (node : MessageNode) : bool :=
  match n_payload node with
  | Assistant a => existsb is_pending (a_tool_calls a)
  | _ => false
  end.

Definition kCancelledReceipt : string :=
  "The user cancelled the turn before this call ran, so it produced no result. Wait for the " +:+
  "user's next message before deciding whether this call is still worth making".

Definition kPeerOriginNote : string :=
  "This turn arrived from another agent. If the message needs an answer, send it straight back " +:+
  "to the agent that asked, then stop. Do not relay the request onward to anyone else, and do " +:+
  "not open with a tool call when you can answer in words".

(** ** What a provider sees *)

Inductive ThinkingLevel := kServerDefault | kNone | kLow | kMedium | kHigh.

#[export] Instance ThinkingLevel_eq_dec : EqDecision ThinkingLevel.
Proof. solve_decision. Defined.

Definition ThinkingLevelName (level : ThinkingLevel) : string :=
  match level with
  | kNone => "none"
  | kLow => "low"
  | kMedium => "medium"
  | kHigh => "high"
  | kServerDefault => "default"
  end.

Definition ParseThinkingLevel (name : string) : ThinkingLevel :=
  if bool_decide (name = "none") then kNone
  else if bool_decide (name = "low") then kLow
  else if bool_decide (name = "medium") then kMedium
  else if bool_decide (name = "high") then kHigh
  else kServerDefault.

Definition ReadThinkingLevel (j : value) : ThinkingLevel :=
  match at_key j "thinking" with
  | Some (JString s) => ParseThinkingLevel s
  | _ => kServerDefault
  end.

(** [ReasoningBlock] has the fields of [Reasoning]. *)
Abbreviation ReasoningBlock := Reasoning.

Record ChatMessage := mkMessage {
  m_id : Z;
  m_timestamp : string;
  m_role : string;
  m_content : string;
  m_tool_name : string;
  m_tool_calls : value;
  m_reasoning : list ReasoningBlock;
  m_tool_call_id : string;
  m_from_peer : string;
}.

Definition no_message : ChatMessage := mkMessage 0 "" "" "" "" JNull [] "" "".

Definition HasToolCalls (m : ChatMessage) : bool :=
  match m_tool_calls m with JArray (_ :: _) => true | _ => false end.

Record ToolDefinition := mkToolDefinition {
  td_name : string;
  td_description : string;
  td_parameters : value;
}.

Definition Parameters (t : ToolDefinition) : value :=
  if is_object (td_parameters t) then td_parameters t else JObject [].

Record ToolCall := mkToolCall { tc_id : string; tc_name : string; tc_arguments : value }.

Record Cost := mkCost { amount : double; unit_ : string }.

Record TokenUsage := mkTokenUsage {
  prompt_tokens : Z;
  completion_tokens : Z;
  total_tokens : Z;
  cached_tokens : Z;
  cost : option Cost;
}.

Definition no_usage : TokenUsage := mkTokenUsage 0 0 0 0 None.

(** ** Round trips *)

Definition norm_reasoning (r : Reasoning) : Reasoning :=
  mkReasoning (r_text r) (r_signature r) (normalize (r_raw r)).

Lemma is_null_true v : is_null v = true -> v = JNull.
Proof. by destruct v. Qed.

Lemma Reasoning_roundtrip r :
  ReasoningFromJson (normalize (ReasoningToJson r)) = norm_reasoning r.
Proof.
  destruct r as [text sig raw]. unfold ReasoningToJson, norm_reasoning.
  cbn [r_text r_signature r_raw].
  destruct (sempty sig) eqn:Es; [apply sempty_true in Es as ->|];
    destruct (is_null raw) eqn:En; try (apply is_null_true in En as ->); reflexivity.
Qed.

Lemma ThinkingLevel_roundtrip level :
  ParseThinkingLevel (ThinkingLevelName level) = level.
Proof. by destruct level. Qed.

Lemma ToolCall_roundtrip r :
  ToolCallFromJson (ToolCallToJson r)
  = mkRecord (rec_id r) (rec_name r) (rec_arguments r) kPending.
Proof. done. Qed.
