(* ===== verification/Graph.v ===== *)
(** * The message graph ([include/pu/session/graph.hpp], [src/session/graph.cpp])

    A conversation as a map from ids to nodes with a leaf; the chain is read by
    following parents from the leaf.  The pointer walks of the source are
    walks with fuel, the number of nodes: [Chain_path] shows that this is
    enough on a well-formed graph, and [LinksResolve_correct] that the check
    made when a graph is read is exactly well-formedness of its links.

    The refinement part views a graph as the list of its chain and shows every
    operation to be the obvious operation on that list. *)
From Stdlib Require Import Ascii.
From S2P Require Export Prelude Text Json Paging Message.

Abbreviation node_map := (gmap string MessageNode).

Module MessageGraph.

Record t := mk { nodes_ : node_map; leaf_ : MessageId }.

Definition empty : t := mk ∅ "".

Definition Find (id : MessageId) (g : t) : option MessageNode := nodes_ g !! id.

Definition Size (g : t) : nat := size (nodes_ g).

(** The nodes from [id] up to the root, nearest first. *)
Fixpoint walk (fuel : nat) (nodes : node_map) (id : MessageId) : list MessageNode :=
  match fuel with
  | O => []
  | S fuel =>
      match nodes !! id with
      | None => []
      | Some node => node :: (if sempty (n_parent node) then [] else walk fuel nodes (n_parent node))
      end
  end.

Definition Chain (g : t) : list MessageNode :=
  reverse (walk (S (size (nodes_ g))) (nodes_ g) (leaf_ g)).

Definition LeafHasUnfinishedToolCalls (g : t) : bool :=
  match Find (leaf_ g) g with
  | None => false
  | Some node => HasUnfinishedToolCalls node
  end.

Definition RewindTo (id : MessageId) (g : t) : option t :=
  if negb (sempty id) && bool_decide (nodes_ g !! id = None) then None
  else Some (mk (nodes_ g) id).

(** The inner loop of [CompleteFor]: the first record with the id, if any. *)
Fixpoint complete_record (call_id : string) (calls : list ToolCallRecord)
    : option (list ToolCallRecord) :=
  match calls with
  | [] => None
  | record :: rest =>
      if bool_decide (rec_id record = call_id)
      then Some ((if is_pending record then set_status kCompleted record else record) :: rest)
      else cons record <$> complete_record call_id rest
  end.

Definition complete_payload (call_id : string) (payload : MessagePayload) : option MessagePayload :=
  match payload with
  | Assistant a =>
      (fun calls => Assistant (mkAssistant (a_content a) (a_reasoning a) calls))
        <$> complete_record call_id (a_tool_calls a)
  | _ => None
  end.

(** The walk of [CompleteFor] from [id]. *)
Fixpoint complete_from (fuel : nat) (call_id : string) (nodes : node_map) (id : MessageId)
    : node_map :=
  match fuel with
  | O => nodes
  | S fuel =>
      if sempty id then nodes
      else match nodes !! id with
           | None => nodes
           | Some node =>
               match complete_payload call_id (n_payload node) with
               | Some payload => <[id := set_payload payload node]> nodes
               | None => complete_from fuel call_id nodes (n_parent node)
               end
           end
  end.

Definition CompleteFor (call_id : string) (g : t) : t :=
  if sempty call_id then g
  else mk (complete_from (S (size (nodes_ g))) call_id (nodes_ g) (leaf_ g)) (leaf_ g).

Definition CompleteAnsweredRecord (payload : MessagePayload) (g : t) : t :=
  match payload with
  | Tool receipt => CompleteFor (t_call_id receipt) g
  | _ => g
  end.

(** [emplace] keeps a node already there, and returns the stored one. *)
Definition Add (node : MessageNode) (g : t) : t :=
  let stored := default node (nodes_ g !! n_id node) in
  CompleteAnsweredRecord (n_payload stored) (mk (<[n_id node := stored]> (nodes_ g)) (leaf_ g)).

Definition DropUnreachable (g : t) : t :=
  let reachable := map n_id (Chain g) in
  mk (filter (fun entry => entry.1 ∈ reachable) (nodes_ g)) (leaf_ g).

(** [id] is the fresh id [MakeNode] draws. *)
Definition AppendAfterLeaf (id : MessageId) (payload : MessagePayload) (timestamp : string) (g : t)
    : t :=
  let made := MakeNode id payload in
  let node := mkNode (n_id made) timestamp (n_payload made)
                (if sempty (leaf_ g) then n_parent made else leaf_ g) in
  let added := Add node g in
  DropUnreachable (mk (nodes_ added) id).

(** The receipts [SealInterruptedToolCalls] appends, one fresh id each. *)
Fixpoint append_receipts (ids : list MessageId) (unrun : list ToolCallRecord) (g : t) : t :=
  match unrun, ids with
  | call :: unrun, id :: ids =>
      append_receipts ids unrun
        (AppendAfterLeaf id (Tool (mkTool (rec_id call) (rec_name call) kCancelledReceipt None)) "" g)
  | _, _ => g
  end.

Definition interrupt (r : ToolCallRecord) : ToolCallRecord :=
  if is_pending r then set_status kInterrupted r else r.

Definition SealInterruptedToolCalls (ids : list MessageId) (g : t) : t :=
  match nodes_ g !! leaf_ g with
  | Some node =>
      match n_payload node with
      | Assistant a =>
          let unrun := map interrupt (filter (fun r => is_pending r = true) (a_tool_calls a)) in
          let sealed := Assistant (mkAssistant (a_content a) (a_reasoning a)
                                     (map interrupt (a_tool_calls a))) in
          append_receipts ids unrun
            (mk (<[leaf_ g := set_payload sealed node]> (nodes_ g)) (leaf_ g))
      | _ => g
      end
  | None => g
  end.

(** ** [LinksResolve] *)

Inductive Mark := kUnvisited | kOnPath | kSound.

#[export] Instance Mark_eq_dec : EqDecision Mark.
Proof. solve_decision. Defined.

Abbreviation marks := (gmap string Mark).

(** The inner loop: follows parents from [current], marking; [None] where the
    function returns false. *)
Fixpoint follow_links (fuel : nat) (nodes : node_map) (current : MessageId) (path : list MessageId)
    (m : marks) : option (list MessageId * marks) :=
  match fuel with
  | O => None
  | S fuel =>
      if sempty current then Some (path, m)
      else match nodes !! current with
           | None => None
           | Some node =>
               match default kUnvisited (m !! current) with
               | kSound => Some (path, m)
               | kOnPath => None
               | kUnvisited =>
                   follow_links fuel nodes (n_parent node) (path ++ [current])
                     (<[current := kOnPath]> m)
               end
           end
  end.

Definition mark_sound (path : list MessageId) (m : marks) : marks :=
  foldl (fun m id => <[id := kSound]> m) m path.

(** The outer loop over the ids in the order of the map. *)
Fixpoint links_from (nodes : node_map) (ids : list MessageId) (m : marks) : bool :=
  match ids with
  | [] => true
  | id :: ids =>
      match follow_links (S (S (size nodes))) nodes id [] m with
      | None => false
      | Some (path, m) => links_from nodes ids (mark_sound path m)
      end
  end.

Definition LinksResolve (g : t) : bool := links_from (nodes_ g) (map_entries (nodes_ g)).*1 ∅.

(** ** The stored form *)

Definition StatusFrom (name : string) : ToolCallStatus :=
  if bool_decide (name = kCompletedStatusName) then kCompleted
  else if bool_decide (name = kInterruptedStatusName) then kInterrupted
  else kPending.

Definition SerializeRecord (r : ToolCallRecord) : value :=
  JObject [("id", JString (rec_id r)); ("name", JString (rec_name r));
           ("arguments", rec_arguments r); ("status", JString (ToolCallStatusName (rec_status r)))].

Definition SerializeNode (node : MessageNode) : value :=
  let out := [("id", JString (n_id node)); ("timestamp", JString (n_timestamp node));
              ("parent", JString (n_parent node))] in
  JObject
    match n_payload node with
    | User user =>
        let out := obj_set "role" (JString kUserRole) out in
        let out := obj_set "content" (JString (u_content user)) out in
        if sempty (u_from_peer user) then out
        else obj_set "from_peer" (JString (u_from_peer user)) out
    | Assistant assistant =>
        let out := obj_set "role" (JString kAssistantRole) out in
        let out := obj_set "content" (JString (a_content assistant)) out in
        let out := match a_reasoning assistant with
                   | [] => out
                   | blocks => obj_set "reasoning" (JArray (map ReasoningToJson blocks)) out
                   end in
        match a_tool_calls assistant with
        | [] => out
        | calls => obj_set "tool_calls" (JArray (map SerializeRecord calls)) out
        end
    | System system =>
        let out := obj_set "role" (JString kSystemRole) out in
        obj_set "content" (JString (s_content system)) out
    | Tool receipt =>
        let out := obj_set "role" (JString kToolRole) out in
        let out := obj_set "content" (JString (t_content receipt)) out in
        let out := obj_set "tool_call_id" (JString (t_call_id receipt)) out in
        let out := obj_set "tool_name" (JString (t_name receipt)) out in
        match t_origin receipt with
        | Some origin => obj_set "origin" (OriginToJson origin) out
        | None => out
        end
    end.

Definition DeserializeRecord (call : value) : ToolCallRecord :=
  mkRecord (string_or call "id" "") (string_or call "name" "")
    (value_or call "arguments" (JObject [])) (StatusFrom (string_or call "status" "")).

(** The items of an array member; an absent member or another kind has none. *)
Definition array_at (v : value) (key : string) : list value :=
  match at_key v key with Some (JArray items) => items | _ => [] end.

(** The payload by role; the head of the function is [DeserializeNode]. *)
Definition DeserializePayload (v : value) : option MessagePayload :=
  let role := string_or v "role" "" in
  let content := string_or v "content" "" in
  if bool_decide (role = kUserRole) then
    Some (User (mkUser content (string_or v "from_peer" "")))
  else if bool_decide (role = kAssistantRole) then
    Some (Assistant (mkAssistant content
      (map ReasoningFromJson (array_at v "reasoning"))
      (map DeserializeRecord (array_at v "tool_calls"))))
  else if bool_decide (role = kSystemRole) then Some (System (mkSystem content))
  else if bool_decide (role = kToolRole) then
    Some (Tool (mkTool (string_or v "tool_call_id" "") (string_or v "tool_name" "") content
      (at_key v "origin" ≫= OriginFromJson)))
  else None.

Definition DeserializeNode (v : value) : option MessageNode :=
  if is_object v then
    let id := string_or v "id" "" in
    if sempty id then None
    else
      parent ← match at_key v "parent" with
               | None => Some ""
               | Some (JString parent) => Some parent
               | Some _ => None
               end;
      payload ← DeserializePayload v;
      Some (mkNode id (string_or v "timestamp" "") payload parent)
  else None.

Definition Serialize (g : t) : value :=
  JObject [("nodes", JArray (map (fun entry => SerializeNode entry.2) (map_entries (nodes_ g))));
           ("leaf", JString (leaf_ g))].

(** The loop over the entries; [None] where it returns false. *)
Fixpoint read_nodes (entries : list value) (nodes : node_map) : option node_map :=
  match entries with
  | [] => Some nodes
  | entry :: rest =>
      node ← DeserializeNode entry;
      match nodes !! n_id node with
      | Some _ => None
      | None => read_nodes rest (<[n_id node := node]> nodes)
      end
  end.

Definition Deserialize (v : value) : option t :=
  match at_key v "nodes", at_key v "leaf" with
  | Some (JArray entries), Some (JString leaf) =>
      nodes ← read_nodes entries ∅;
      if negb (sempty leaf) && bool_decide (nodes !! leaf = None) then None
      else if LinksResolve (mk nodes "") then Some (mk nodes leaf)
      else None
  | _, _ => None
  end.

End MessageGraph.

(** ** Paths *)

Import MessageGraph.

(** The nodes from [id] to the root, nearest first, and nothing missing. *)
Inductive path (nodes : node_map) : MessageId -> list MessageNode -> Prop :=
  | path_root : path nodes "" []
  | path_step id n l :
      id <> "" -> nodes !! id = Some n -> path nodes (n_parent n) l -> path nodes id (n :: l).

Definition has_path (nodes : node_map) (id : MessageId) : Prop := exists l, path nodes id l.

Definition ids_ok (nodes : node_map) : Prop :=
  nodes !! "" = None /\ forall id n, nodes !! id = Some n -> n_id n = id.

(** Every link leads, without a cycle, to a root; the leaf is a node or none. *)
Record graph_ok (g : t) : Prop := {
  ok_node_ids : ids_ok (nodes_ g);
  ok_links : forall id, is_Some (nodes_ g !! id) -> has_path (nodes_ g) id;
  ok_leaf : has_path (nodes_ g) (leaf_ g);
}.

Lemma path_det nodes id l1 l2 : path nodes id l1 -> path nodes id l2 -> l1 = l2.
Proof.
  intros H. revert l2. induction H as [|id n l Hid Hn _ IH]; inversion 1; subst; try done.
  simplify_eq. f_equal. by apply IH.
Qed.

Lemma path_head nodes id n l : path nodes id (n :: l) -> nodes !! id = Some n.
Proof. by inversion 1. Qed.

Lemma path_lookup nodes id l n :
  ids_ok nodes -> path nodes id l -> n ∈ l -> nodes !! n_id n = Some n.
Proof.
  intros [_ Hids]. induction 1 as [|id m l Hid Hm _ IH]; [by intros ?%elem_of_nil|].
  intros [->|Hn]%elem_of_cons; [by rewrite (Hids _ _ Hm)|by apply IH].
Qed.

Lemma path_drop nodes id l1 n l2 :
  ids_ok nodes -> path nodes id (l1 ++ n :: l2) -> path nodes (n_id n) (n :: l2).
Proof.
  intros Hok. revert id. induction l1 as [|m l1 IH]; intros id Hp; cbn in Hp.
  - inversion Hp as [|? ? ? Hid Hn Hp']; subst. destruct Hok as [He Hids].
    rewrite (Hids _ _ Hn). by constructor.
  - inversion Hp; subst. by eapply IH.
Qed.

Lemma path_of_member nodes id l n :
  ids_ok nodes -> path nodes id l -> n ∈ l -> has_path nodes (n_id n).
Proof.
  intros Hok Hp (l1 & l2 & ->)%list_elem_of_split. eexists. by eapply path_drop.
Qed.

Lemma path_NoDup nodes id l : ids_ok nodes -> path nodes id l -> NoDup (map n_id l).
Proof.
  intros Hok. induction 1 as [|id n l Hid Hn Hp IH]; [constructor|].
  cbn. constructor; [|done]. rewrite list_elem_of_fmap. intros (m & Hm & Hin).
  apply list_elem_of_split in Hin as (l1 & l2 & ->).
  pose proof (path_drop _ _ _ _ _ Hok Hp) as H2. rewrite <- Hm in H2.
  destruct Hok as [He Hids]. rewrite (Hids _ _ Hn) in H2.
  assert (H1 : path nodes id (n :: l1 ++ m :: l2)) by by constructor.
  pose proof (path_det _ _ _ _ H1 H2) as E. apply (f_equal length) in E.
  cbn in E. rewrite length_app in E. cbn in E. lia.
Qed.

Lemma path_length nodes id l : ids_ok nodes -> path nodes id l -> (length l <= size nodes)%nat.
Proof.
  intros Hok Hp. rewrite <- (length_map n_id), <- size_dom.
  rewrite <- (size_list_to_set (C := gset string)) by (by eapply path_NoDup).
  apply subseteq_size. intros x. rewrite elem_of_list_to_set, list_elem_of_fmap.
  intros (n & -> & Hn). apply elem_of_dom. eexists. by eapply path_lookup.
Qed.

Lemma path_agree nodes nodes' id l :
  ids_ok nodes -> path nodes id l ->
  (forall n, n ∈ l -> nodes' !! n_id n = Some n) -> path nodes' id l.
Proof.
  intros Hok. induction 1 as [|id n l Hid Hn _ IH]; intros Hag; [constructor|].
  destruct Hok as [He Hids] eqn:E. constructor; [done| |].
  - rewrite <- (Hids _ _ Hn). apply Hag. left.
  - apply IH. intros m Hm. apply Hag. by right.
Qed.

Lemma walk_path nodes id l fuel :
  nodes !! "" = None -> path nodes id l -> (length l < fuel)%nat -> walk fuel nodes id = l.
Proof.
  intros He Hp. revert fuel. induction Hp as [|id n l Hid Hn Hp IH]; intros [|fuel] Hf; cbn in *;
    try lia; [by rewrite He|].
  rewrite Hn. destruct (sempty (n_parent n)) eqn:E.
  - apply sempty_true in E. rewrite E in Hp. by inversion Hp.
  - by rewrite IH by lia.
Qed.

Lemma Chain_of_path g l : ids_ok (nodes_ g) -> path (nodes_ g) (leaf_ g) l -> Chain g = reverse l.
Proof.
  intros Hok Hp. unfold Chain. f_equal. apply walk_path; [apply Hok|done|].
  pose proof (path_length _ _ _ Hok Hp). lia.
Qed.

(** The walk reaches the root on a well-formed graph, with the fuel given to it. *)
Lemma Chain_path g : graph_ok g -> path (nodes_ g) (leaf_ g) (reverse (Chain g)).
Proof.
  intros [Hids _ [l Hl]]. by rewrite (Chain_of_path g l), reverse_involutive.
Qed.

Lemma Chain_elem g n : graph_ok g -> n ∈ Chain g -> nodes_ g !! n_id n = Some n.
Proof.
  intros Hok Hn. eapply path_lookup; [apply Hok|by apply Chain_path|]. by apply elem_of_reverse.
Qed.

(** ** Operations on the list of messages *)

(** What [CompleteFor] does, on the messages nearest first. *)
Fixpoint complete_path (call_id : string) (l : list MessageNode) : list MessageNode :=
  match l with
  | [] => []
  | n :: l =>
      match complete_payload call_id (n_payload n) with
      | Some payload => set_payload payload n :: l
      | None => n :: complete_path call_id l
      end
  end.

(** Appending a payload: a receipt first completes the latest call it answers. *)
Definition answered (payload : MessagePayload) (chain : list MessageNode) : list MessageNode :=
  match payload with
  | Tool receipt =>
      if sempty (t_call_id receipt) then chain
      else reverse (complete_path (t_call_id receipt) (reverse chain))
  | _ => chain
  end.

Definition leaf_of (chain : list MessageNode) : MessageId :=
  match reverse chain with [] => "" | n :: _ => n_id n end.

Definition list_append (id : MessageId) (payload : MessagePayload) (timestamp : string)
    (chain : list MessageNode) : list MessageNode :=
  answered payload chain ++ [mkNode id timestamp payload (leaf_of chain)].

Definition nodes_of (chain : list MessageNode) : node_map :=
  list_to_map (map (fun n => (n_id n, n)) chain).

Lemma complete_path_ids call l : map n_id (complete_path call l) = map n_id l.
Proof. induction l as [|n l IH]; cbn; [done|]. case_match; cbn; by rewrite ?IH. Qed.

Lemma answered_ids payload chain : map n_id (answered payload chain) = map n_id chain.
Proof.
  destruct payload; try done. cbn. case_match; [done|].
  rewrite !map_reverse, complete_path_ids, <- map_reverse. by rewrite reverse_involutive.
Qed.

Lemma complete_payload_parent call n payload :
  complete_payload call (n_payload n) = Some payload -> n_parent (set_payload payload n) = n_parent n.
Proof. done. Qed.

Lemma complete_from_spec nodes call fuel id l :
  ids_ok nodes -> path nodes id l -> (length l < fuel)%nat ->
  path (complete_from fuel call nodes id) id (complete_path call l)
  /\ ids_ok (complete_from fuel call nodes id)
  /\ (forall k, k ∉ map n_id l -> complete_from fuel call nodes id !! k = nodes !! k).
Proof.
  intros Hok Hp. revert fuel. induction Hp as [|id n l Hid Hn Hp IH]; intros [|fuel] Hf;
    cbn [length] in Hf; try lia.
  { cbn. split_and!; [constructor|done|done]. }
  cbn [complete_from complete_path]. rewrite (proj2 (sempty_false id)), Hn by done.
  pose proof (path_NoDup nodes id (n :: l) Hok (path_step _ _ _ _ Hid Hn Hp)) as Hnd.
  cbn in Hnd. apply NoDup_cons in Hnd as [Hnotin _].
  assert (Hnid : n_id n = id) by by apply Hok.
  destruct (complete_payload call (n_payload n)) as [payload|] eqn:E.
  - split_and!.
    + constructor; [done|by rewrite lookup_insert_eq|].
      apply (path_agree nodes); [done|done|]. intros m Hm.
      rewrite lookup_insert_ne; [by eapply path_lookup|].
      intros Heq. apply Hnotin. rewrite Hnid, Heq. by apply list_elem_of_fmap_2.
    + destruct Hok as [He Hids]. split.
      * by rewrite lookup_insert_ne.
      * intros k m. destruct (decide (id = k)) as [->|Hk].
        -- rewrite lookup_insert_eq. intros [= <-]. done.
        -- rewrite lookup_insert_ne by done. apply Hids.
    + intros k Hk. rewrite lookup_insert_ne; [done|]. intros ->. apply Hk. cbn. rewrite Hnid. left.
  - destruct (IH fuel ltac:(lia)) as (H1 & H2 & H3). split_and!; [|done|].
    + constructor; [done| |done]. rewrite H3; [done|]. by rewrite <- Hnid.
    + intros k Hk. apply H3. intros Hin. apply Hk. by right.
Qed.

(** ** Refinement: the graph behaves as the list of its chain *)

Lemma leaf_of_Chain g : graph_ok g -> leaf_of (Chain g) = leaf_ g.
Proof.
  intros Hok. unfold leaf_of. pose proof (Chain_path g Hok) as Hp.
  inversion Hp as [H1 H2|id n l Hid Hn Hp' H1 H2]; [done|].
  by apply Hok in Hn.
Qed.

Lemma ids_ok_filter nodes (P : string * MessageNode -> Prop) `{!forall x, Decision (P x)} :
  ids_ok nodes -> ids_ok (filter P nodes).
Proof.
  intros [He Hids]. split.
  - apply map_lookup_filter_None. by left.
  - intros id n [Hn _]%map_lookup_filter_Some. by apply Hids.
Qed.

(** Cutting a graph to its chain: nothing is left but the chain. *)
Lemma DropUnreachable_spec nodes id l :
  ids_ok nodes -> path nodes id l ->
  let g := DropUnreachable (mk nodes id) in
  graph_ok g /\ Chain g = reverse l /\ leaf_ g = id /\ nodes_ g = nodes_of (reverse l).
Proof.
  intros Hok Hp. unfold DropUnreachable. cbn [nodes_ leaf_].
  rewrite (Chain_of_path (mk nodes id) l) by done.
  set (kept := filter _ nodes).
  assert (Hkept : forall n, n ∈ l -> kept !! n_id n = Some n).
  { intros n Hn. apply map_lookup_filter_Some. split; [by eapply path_lookup|].
    cbn. apply list_elem_of_fmap_2. by apply elem_of_reverse. }
  assert (Hk : ids_ok kept) by by apply ids_ok_filter.
  assert (Hpk : path kept id l) by by apply (path_agree nodes).
  assert (Hin : forall k n, kept !! k = Some n -> n ∈ l /\ n_id n = k).
  { intros k n [Hn Hr]%map_lookup_filter_Some. cbn in Hr.
    apply list_elem_of_fmap in Hr as (m & -> & Hm). rewrite elem_of_reverse in Hm.
    rewrite (path_lookup _ _ _ _ Hok Hp Hm) in Hn. injection Hn as <-. done. }
  split_and!; [split; cbn| | done|].
  - exact Hk.
  - intros k [n Hn]. destruct (Hin _ _ Hn) as [Hl <-]. by eapply path_of_member.
  - by exists l.
  - by apply Chain_of_path.
  - cbn. apply map_eq. intros k. unfold nodes_of. apply option_eq. intros n.
    rewrite <- elem_of_list_to_map.
    + rewrite list_elem_of_fmap. split.
      * intros Hn. destruct (Hin _ _ Hn) as [Hl <-]. exists n. split; [done|]. by apply elem_of_reverse.
      * intros (m & [= -> ->] & Hm). apply Hkept. by apply elem_of_reverse.
    + rewrite <- list_fmap_compose. change (NoDup (map n_id (reverse l))).
      rewrite map_reverse, reverse_Permutation. by eapply path_NoDup.
Qed.

Lemma path_insert_fresh nodes id l k n :
  ids_ok nodes -> path nodes id l -> nodes !! k = None -> path (<[k := n]> nodes) id l.
Proof.
  intros Hok Hp Hk. apply (path_agree nodes); [done|done|]. intros m Hm.
  rewrite lookup_insert_ne; [by eapply path_lookup|].
  intros ->. pose proof (path_lookup _ _ _ _ Hok Hp Hm). congruence.
Qed.

Lemma ids_ok_insert nodes k n :
  ids_ok nodes -> k <> "" -> n_id n = k -> ids_ok (<[k := n]> nodes).
Proof.
  intros [He Hids] Hk Hn. split; [by rewrite lookup_insert_ne|].
  intros id m. destruct (decide (k = id)) as [->|Hne].
  - rewrite lookup_insert_eq. by intros [= <-].
  - rewrite lookup_insert_ne by done. apply Hids.
Qed.

(** Adding a fresh node that nothing links to yet, and completing the call it
    answers, from the old leaf. *)
Lemma Add_spec g node l :
  ids_ok (nodes_ g) -> path (nodes_ g) (leaf_ g) l ->
  n_id node <> "" -> nodes_ g !! n_id node = None ->
  let g' := Add node g in
  ids_ok (nodes_ g') /\ nodes_ g' !! n_id node = Some node
  /\ path (nodes_ g') (leaf_ g)
       (match n_payload node with
        | Tool r => if sempty (t_call_id r) then l else complete_path (t_call_id r) l
        | _ => l end).
Proof.
  intros Hok Hp Hid Hfresh. unfold Add. rewrite Hfresh. cbn [default].
  assert (Hok' := ids_ok_insert _ _ _ Hok Hid (eq_refl (n_id node))).
  assert (Hp' := path_insert_fresh _ _ _ _ node Hok Hp Hfresh).
  assert (Hbase : ids_ok (<[n_id node:=node]> (nodes_ g))
    /\ <[n_id node:=node]> (nodes_ g) !! n_id node = Some node
    /\ path (<[n_id node:=node]> (nodes_ g)) (leaf_ g) l)
    by (split_and!; [done|by rewrite lookup_insert_eq|done]).
  destruct (n_payload node) as [| | |r]; cbn; try done.
  unfold CompleteFor. case_match; [done|]. cbn [nodes_ leaf_].
  edestruct (complete_from_spec (<[n_id node:=node]> (nodes_ g)) (t_call_id r)) as (H1 & H2 & H3);
    [exact Hok'|exact Hp'| |].
  2:{ split_and!; [exact H2| |exact H1]. rewrite H3; [by rewrite lookup_insert_eq|].
      rewrite list_elem_of_fmap. intros (m & Hm & Hin).
      pose proof (path_lookup _ _ _ _ Hok Hp Hin) as Hlk. rewrite <- Hm in Hlk. congruence. }
  pose proof (path_length _ _ _ Hok' Hp'). lia.
Qed.

Lemma AppendAfterLeaf_refines id payload timestamp g :
  graph_ok g -> id <> "" -> nodes_ g !! id = None ->
  let g' := AppendAfterLeaf id payload timestamp g in
  graph_ok g'
  /\ Chain g' = list_append id payload timestamp (Chain g)
  /\ leaf_ g' = id
  /\ nodes_ g' = nodes_of (Chain g').
Proof.
  intros Hg Hid Hfresh. unfold AppendAfterLeaf, MakeNode. cbn [n_id n_payload n_parent].
  set (node := mkNode id timestamp payload (if sempty (leaf_ g) then "" else leaf_ g)).
  pose proof (Chain_path g Hg) as Hp.
  destruct (Add_spec g node _ (ok_node_ids _ Hg) Hp Hid Hfresh) as (H1 & H2 & H3).
  assert (Hparent : n_parent node = leaf_ g).
  { cbn. destruct (sempty (leaf_ g)) eqn:E; [by apply sempty_true in E|done]. }
  rewrite <- Hparent in H3.
  destruct (DropUnreachable_spec _ _ _ H1 (path_step _ _ _ _ Hid H2 H3)) as (G1 & G2 & G3 & G4).
  split_and!; [exact G1| |exact G3|by rewrite G4, <- G2].
  rewrite G2, reverse_cons. unfold list_append. rewrite (leaf_of_Chain g Hg), <- Hparent. f_equal.
  destruct payload as [| | |r]; cbv [answered n_payload node]; try by rewrite reverse_involutive.
  destruct (sempty (t_call_id r)); [by rewrite reverse_involutive|done].
Qed.

(** Appending keeps a graph well formed. *)
Lemma AppendAfterLeaf_keeps id payload timestamp g :
  graph_ok g -> id <> "" -> nodes_ g !! id = None -> graph_ok (AppendAfterLeaf id payload timestamp g).
Proof. intros Hg Hid Hf. by apply AppendAfterLeaf_refines. Qed.

Lemma RewindTo_chain g c1 n c2 :
  graph_ok g -> Chain g = c1 ++ n :: c2 ->
  exists g', RewindTo (n_id n) g = Some g' /\ graph_ok g' /\ Chain g' = c1 ++ [n].
Proof.
  intros Hg Hc. pose proof (Chain_path g Hg) as Hp. pose proof (ok_node_ids _ Hg) as Hok.
  rewrite Hc, reverse_app, reverse_cons, <- app_assoc in Hp. cbn in Hp.
  apply path_drop in Hp; [|done]. pose proof (path_head _ _ _ _ Hp) as Hn.
  unfold RewindTo. rewrite Hn. rewrite bool_decide_eq_false_2, andb_false_r by done.
  eexists. split; [done|]. split.
  - split; cbn; [done|apply Hg|by eexists].
  - rewrite (Chain_of_path _ (n :: reverse c1)) by done.
    by rewrite reverse_cons, reverse_involutive.
Qed.

Lemma RewindTo_refines g :
  graph_ok g ->
  (forall k n, Chain g !! k = Some n ->
     exists g', RewindTo (n_id n) g = Some g' /\ graph_ok g' /\ Chain g' = take (S k) (Chain g))
  /\ (exists g', RewindTo "" g = Some g' /\ graph_ok g' /\ Chain g' = [])
  /\ (forall id, id <> "" -> (RewindTo id g = None <-> nodes_ g !! id = None)).
Proof.
  intros Hg. split_and!.
  - intros k n Hk. destruct (RewindTo_chain g (take k (Chain g)) n (drop (S k) (Chain g)) Hg)
      as (g' & H1 & H2 & H3); [by rewrite take_drop_middle|].
    exists g'. by rewrite (take_S_r _ _ _ Hk).
  - exists (mk (nodes_ g) ""). split; [done|]. split.
    + split; cbn; [apply Hg|apply Hg|by exists []; constructor].
    + rewrite (Chain_of_path _ []); [done|apply Hg|constructor].
  - intros id Hid. unfold RewindTo. rewrite (proj2 (sempty_false id)) by done. cbn.
    destruct (bool_decide _) eqn:E; [apply bool_decide_eq_true in E|apply bool_decide_eq_false in E];
      naive_solver.
Qed.

(** Rewinding a well-formed graph to the [k]-th message of its chain leaves
    exactly the first [k] messages; rewinding to nothing leaves none, and an id
    the graph does not hold is refused.  The graph stays well formed. *)
Theorem RewindTo_spec g :
  graph_ok g ->
  (forall k n, Chain g !! k = Some n ->
     exists g', RewindTo (n_id n) g = Some g' /\ graph_ok g' /\ Chain g' = take (S k) (Chain g))
  /\ (exists g', RewindTo "" g = Some g' /\ graph_ok g' /\ Chain g' = [])
  /\ (forall id, id <> "" -> (RewindTo id g = None <-> nodes_ g !! id = None)).
Proof. apply RewindTo_refines. Qed.

(** ** Sealing *)

(** The receipts of the calls cut off, each after the one before. *)
Fixpoint receipts (leaf : MessageId) (ids : list MessageId) (unrun : list ToolCallRecord)
    : list MessageNode :=
  match unrun, ids with
  | call :: unrun, id :: ids =>
      mkNode id "" (Tool (mkTool (rec_id call) (rec_name call) kCancelledReceipt None)) leaf
      :: receipts id ids unrun
  | _, _ => []
  end.

Definition is_receipt (n : MessageNode) : Prop := exists r, n_payload n = Tool r.

Lemma complete_record_settled call calls :
  existsb is_pending calls = false -> call ∈ map rec_id calls ->
  complete_record call calls = Some calls.
Proof.
  induction calls as [|r calls IH]; cbn; [by intros _ ?%elem_of_nil|].
  intros [Hr Hs]%orb_false_iff. rewrite Hr. intros [->|Hin]%elem_of_cons.
  - by rewrite bool_decide_eq_true_2.
  - case_match; [done|]. by rewrite IH.
Qed.

Lemma complete_path_receipts call rs l :
  Forall is_receipt rs -> complete_path call (rs ++ l) = rs ++ complete_path call l.
Proof. induction 1 as [|n rs [r Hr] _ IH]; cbn; [done|]. by rewrite Hr, IH. Qed.

Lemma set_payload_same n : set_payload (n_payload n) n = n.
Proof. by destruct n. Qed.

(** A receipt for a call already settled changes nothing before it. *)
Lemma answered_settled r c n a rs :
  n_payload n = Assistant a -> existsb is_pending (a_tool_calls a) = false ->
  t_call_id r ∈ map rec_id (a_tool_calls a) -> Forall is_receipt rs ->
  answered (Tool r) (c ++ n :: rs) = c ++ n :: rs.
Proof.
  intros Hn Hs Hin Hrs. cbn. destruct (sempty (t_call_id r)); [done|].
  rewrite reverse_app, reverse_cons, <- app_assoc. cbn [app].
  rewrite complete_path_receipts by (by rewrite reverse_Permutation).
  cbn [complete_path]. rewrite Hn. cbn [complete_payload].
  rewrite complete_record_settled by done. cbn [fmap option_fmap option_map].
  replace (set_payload _ n) with n by (rewrite <- (set_payload_same n) at 1; rewrite Hn; by destruct a).
  by rewrite reverse_app, reverse_cons, reverse_involutive, reverse_involutive, <- app_assoc.
Qed.

Lemma leaf_of_snoc c n : leaf_of (c ++ [n]) = n_id n.
Proof. unfold leaf_of. by rewrite reverse_app. Qed.

Lemma nodes_of_None chain id : id ∉ map n_id chain -> nodes_of chain !! id = None.
Proof.
  intros Hid. apply not_elem_of_list_to_map_1. rewrite list_elem_of_fmap.
  intros ([k n] & -> & (m & [= -> ->] & Hm)%list_elem_of_fmap). apply Hid.
  exact (list_elem_of_fmap_2 n_id _ _ Hm).
Qed.

Lemma list_append_ids id payload ts chain :
  map n_id (list_append id payload ts chain) = map n_id chain ++ [id].
Proof. unfold list_append. by rewrite map_app, answered_ids. Qed.

Lemma append_receipts_spec ids unrun c n a rs g :
  graph_ok g -> Chain g = c ++ n :: rs -> n_payload n = Assistant a ->
  existsb is_pending (a_tool_calls a) = false -> Forall is_receipt rs ->
  Forall (fun call => rec_id call ∈ map rec_id (a_tool_calls a)) unrun ->
  NoDup ids -> Forall (fun id => id <> "" /\ nodes_ g !! id = None) ids ->
  length ids = length unrun ->
  graph_ok (append_receipts ids unrun g)
  /\ Chain (append_receipts ids unrun g) = c ++ n :: rs ++ receipts (leaf_ g) ids unrun.
Proof.
  intros Hg Hc Hn Hs Hrs Hun Hnd Hfresh Hlen.
  revert g rs ids Hg Hc Hrs Hnd Hfresh Hlen.
  induction unrun as [|call unrun IH]; intros g rs [|id ids] Hg Hc Hrs Hnd Hfresh Hlen; try done.
  { cbn. by rewrite app_nil_r. }
  cbn [append_receipts receipts]. apply NoDup_cons in Hnd as [Hid Hnd].
  apply Forall_cons in Hfresh as [[Hne Hf] Hfresh]. apply Forall_cons in Hun as [Hcall Hun].
  set (payload := Tool _).
  destruct (AppendAfterLeaf_refines id payload "" g Hg Hne Hf) as (G1 & G2 & G3 & G4).
  set (g' := AppendAfterLeaf id payload "" g) in *.
  assert (Hc' : Chain g' = c ++ n :: (rs ++ [mkNode id "" payload (leaf_ g)])).
  { rewrite G2. unfold list_append. rewrite (leaf_of_Chain g Hg), Hc.
    unfold payload. rewrite (answered_settled _ c n a rs) by done. by rewrite <- app_assoc. }
  destruct (IH Hun g' (rs ++ [mkNode id "" payload (leaf_ g)]) ids) as [H1 H2]; try done.
  - apply Forall_app. split; [done|]. constructor; [by eexists|done].
  - rewrite Forall_forall in Hfresh |- *. intros k Hk. destruct (Hfresh k Hk) as [Hk1 Hk2].
    split; [done|]. rewrite G4. apply nodes_of_None. rewrite G2, list_append_ids.
    intros [Hin|Heq%list_elem_of_singleton]%elem_of_app; [|by rewrite Heq in Hk].
    apply list_elem_of_fmap in Hin as (m & -> & Hm%Chain_elem); [congruence|done].
  - cbn in Hlen. lia.
  - split; [done|]. rewrite H2, G3, <- app_assoc. done.
Qed.

Lemma interrupt_settled calls : existsb is_pending (map interrupt calls) = false.
Proof.
  induction calls as [|r calls IH]; [done|]. cbn [map existsb]. rewrite IH, orb_false_r.
  unfold interrupt. by destruct (is_pending r) eqn:E.
Qed.

Lemma interrupt_ids calls : map rec_id (map interrupt calls) = map rec_id calls.
Proof.
  induction calls as [|r calls IH]; [done|]. cbn. rewrite IH. f_equal.
  unfold interrupt. by case_match.
Qed.

(** Replacing the payload of the leaf. *)
Lemma set_leaf_payload g c n payload :
  graph_ok g -> Chain g = c ++ [n] ->
  let g' := mk (<[leaf_ g := set_payload payload n]> (nodes_ g)) (leaf_ g) in
  graph_ok g' /\ Chain g' = c ++ [set_payload payload n].
Proof.
  intros Hg Hc. pose proof (Chain_path g Hg) as Hp. pose proof (ok_node_ids _ Hg) as Hok.
  rewrite Hc, reverse_app in Hp. cbn in Hp.
  inversion Hp as [|? ? ? Hid Hn Hpar]; subst.
  set (nodes' := <[leaf_ g := set_payload payload n]> (nodes_ g)).
  assert (Hok' : ids_ok nodes').
  { apply ids_ok_insert; [done|done|]. cbn. by apply Hok. }
  assert (Hall : forall id l, path (nodes_ g) id l -> has_path nodes' id).
  { induction 1 as [|id m l Hm Hl _ [l' IH]]; [by exists []; constructor|].
    destruct (decide (id = leaf_ g)) as [->|Hne].
    - rewrite Hn in Hl. injection Hl as <-. exists (set_payload payload n :: l').
      constructor; [done|by apply lookup_insert_eq|done].
    - exists (m :: l'). constructor; [done|unfold nodes'; by rewrite lookup_insert_ne|done]. }
  assert (Hp' : path nodes' (leaf_ g) (set_payload payload n :: reverse c)).
  { constructor; [done|apply lookup_insert_eq|].
    apply (path_agree (nodes_ g)); [done|done|]. intros m Hm.
    unfold nodes'. rewrite lookup_insert_ne; [by eapply path_lookup|]. intros Heq.
    pose proof (path_NoDup _ _ _ Hok Hp) as Hnd. cbn in Hnd. apply NoDup_cons in Hnd as [Hni _].
    apply Hni. rewrite (proj2 Hok _ _ Hn), Heq. by apply list_elem_of_fmap_2. }
  split.
  - split; cbn; [done| |by eexists]. intros id [m Hm]. fold nodes'.
    destruct (decide (leaf_ g = id)) as [<-|Hne]; [by eexists|].
    unfold nodes' in Hm. rewrite lookup_insert_ne in Hm by done.
    destruct (ok_links _ Hg id) as [l Hl]; [done|]. by eapply Hall.
  - rewrite (Chain_of_path _ (set_payload payload n :: reverse c)) by done.
    by rewrite reverse_cons, reverse_involutive.
Qed.

Lemma leaf_of_chain g c n : graph_ok g -> Chain g = c ++ [n] -> leaf_ g = n_id n /\ nodes_ g !! leaf_ g = Some n.
Proof.
  intros Hg Hc. rewrite <- (leaf_of_Chain g Hg), Hc, leaf_of_snoc. split; [done|].
  apply Chain_elem; [done|]. rewrite Hc. apply elem_of_app. right. by left.
Qed.

(** C3: appending a message to a well-formed graph, with a fresh id, is
    appending to the list of its chain: the chain is the old one (where a
    receipt has completed the pending call it answers, in the latest message
    that made it) followed by the new node, linked to the old leaf; the graph
    stays well formed and holds the chain and nothing else, so turns that were
    rewound away are gone; calls are pending at the leaf exactly when the new
    message makes some. *)
Theorem AppendAfterLeaf_spec id payload timestamp g :
  graph_ok g -> id <> "" -> nodes_ g !! id = None ->
  let g' := AppendAfterLeaf id payload timestamp g in
  graph_ok g'
  /\ Chain g' = list_append id payload timestamp (Chain g)
  /\ nodes_ g' = nodes_of (Chain g')
  /\ LeafHasUnfinishedToolCalls g' = HasUnfinishedToolCalls (MakeNode id payload).
Proof.
  intros Hg Hid Hf. destruct (AppendAfterLeaf_refines id payload timestamp g Hg Hid Hf)
    as (H1 & H2 & H3 & H4). split_and!; [done..|].
  destruct (leaf_of_chain _ _ _ H1 H2) as [_ Hl].
  unfold LeafHasUnfinishedToolCalls, Find. by rewrite Hl.
Qed.

Definition sealed (a : AssistantPayload) : MessagePayload :=
  Assistant (mkAssistant (a_content a) (a_reasoning a) (map interrupt (a_tool_calls a))).

Definition pending_calls (a : AssistantPayload) : list ToolCallRecord :=
  filter (fun r => is_pending r = true) (a_tool_calls a).

Lemma receipts_last_tool leaf ids unrun n :
  n ∈ receipts leaf ids unrun -> is_receipt n.
Proof.
  revert leaf ids. induction unrun as [|call unrun IH]; intros leaf [|id ids]; cbn;
    try by intros ?%elem_of_nil.
  intros [->|Hn]%elem_of_cons; [by eexists|by eapply IH].
Qed.

Lemma Seal_refines ids g c n a :
  graph_ok g -> Chain g = c ++ [n] -> n_payload n = Assistant a ->
  NoDup ids -> Forall (fun id => id <> "" /\ nodes_ g !! id = None) ids ->
  length ids = length (pending_calls a) ->
  let g' := SealInterruptedToolCalls ids g in
  graph_ok g'
  /\ Chain g' = c ++ set_payload (sealed a) n
                 :: receipts (n_id n) ids (map interrupt (pending_calls a))
  /\ LeafHasUnfinishedToolCalls g' = false.
Proof.
  intros Hg Hc Hn Hnd Hfresh Hlen g'.
  destruct (leaf_of_chain g c n Hg Hc) as [Hleaf Hlk].
  destruct (set_leaf_payload g c n (sealed a) Hg Hc) as [Hg1 Hc1].
  unfold g', SealInterruptedToolCalls. rewrite Hlk, Hn.
  fold (pending_calls a). fold (sealed a).
  set (g1 := mk (<[leaf_ g := set_payload (sealed a) n]> (nodes_ g)) (leaf_ g)) in *.
  edestruct (append_receipts_spec ids (map interrupt (pending_calls a)) c
    (set_payload (sealed a) n) (mkAssistant (a_content a) (a_reasoning a) (map interrupt (a_tool_calls a)))
    [] g1 Hg1 Hc1) as [H1 H2];
    [done|apply interrupt_settled|constructor| |done| |by rewrite length_map|].
  - apply Forall_forall. intros r (q & -> & [_ Hq]%list_elem_of_filter)%list_elem_of_fmap.
    cbn [a_tool_calls]. apply list_elem_of_fmap_2. by apply list_elem_of_fmap_2.
  - eapply Forall_impl; [exact Hfresh|]. intros id [Hid Hno]. split; [done|].
    unfold g1. cbn. rewrite lookup_insert_ne; [done|]. intros <-. congruence.
  - assert (Hl1 : leaf_ g1 = n_id n) by done. rewrite Hl1 in H2.
    split_and!; [exact H1|exact H2|].
    pose proof (receipts_last_tool (n_id n) ids (map interrupt (pending_calls a))) as Hrs.
    set (rs := receipts _ _ _) in *. clearbody rs.
    set (g2 := append_receipts _ _ _) in *. clearbody g2.
    unfold LeafHasUnfinishedToolCalls, Find.
    destruct (exists_last (l := set_payload (sealed a) n :: rs)) as (l & m & E); [done|].
    cbn [app] in H2. rewrite E, app_assoc in H2.
    destruct (leaf_of_chain g2 _ _ H1 H2) as [_ ->].
    assert (Hm : m ∈ set_payload (sealed a) n :: rs) by (rewrite E; apply elem_of_app; right; by left).
    apply elem_of_cons in Hm as [->|[r Hr]%Hrs]; unfold HasUnfinishedToolCalls.
    + apply interrupt_settled.
    + by rewrite Hr.
Qed.


Lemma Seal_no_answer ids g c n :
  graph_ok g -> Chain g = c ++ [n] -> (forall a, n_payload n <> Assistant a) ->
  SealInterruptedToolCalls ids g = g /\ LeafHasUnfinishedToolCalls g = false.
Proof.
  intros Hg Hc Hn. destruct (leaf_of_chain g c n Hg Hc) as [_ Hlk].
  unfold SealInterruptedToolCalls, LeafHasUnfinishedToolCalls, Find, HasUnfinishedToolCalls.
  rewrite Hlk. destruct (n_payload n); naive_solver.
Qed.

(** Sealing a conversation whose last message is not an answer does nothing:
    when a turn is cut between two of an answer's calls the leaf is the receipt
    of the first, and the calls that never ran stay pending without a receipt. *)
Theorem Seal_behind_receipt ids g c n :
  graph_ok g -> Chain g = c ++ [n] -> (forall a, n_payload n <> Assistant a) ->
  SealInterruptedToolCalls ids g = g /\ LeafHasUnfinishedToolCalls g = false.
Proof. apply Seal_no_answer. Qed.

(** ** The check of the links *)

Definition marks_sound (nodes : node_map) (m : marks) : Prop :=
  forall id, m !! id = Some kSound -> has_path nodes id.

Lemma follow_links_sound nodes fuel cur p m p' m' :
  follow_links fuel nodes cur p m = Some (p', m') -> marks_sound nodes m ->
  has_path nodes cur /\ marks_sound nodes m'
  /\ exists new, p' = p ++ new /\ Forall (has_path nodes) new.
Proof.
  revert cur p m. induction fuel as [|fuel IH]; intros cur p m; [done|]. cbn [follow_links].
  destruct (sempty cur) eqn:Ec.
  - apply sempty_true in Ec as ->. intros [= <- <-] Hm. split_and!; [by exists []; constructor|done|].
    exists []. by rewrite app_nil_r.
  - apply sempty_false in Ec. destruct (nodes !! cur) as [n|] eqn:Hn; [|done].
    destruct (m !! cur) as [[]|] eqn:Hc; cbn [default]; try done.
    2:{ intros [= <- <-] Hm. split_and!; [by apply Hm|done|]. exists []. by rewrite app_nil_r. }
    all: intros Hf Hm; destruct (IH _ _ _ Hf) as ([l Hl] & Hm' & new & -> & Hnew);
      [intros id; destruct (decide (cur = id)) as [->|Hne];
        [by rewrite lookup_insert_eq|rewrite lookup_insert_ne by done; apply Hm]|];
      assert (Hcur : has_path nodes cur) by (by exists (n :: l); constructor);
      split_and!; [done|done|]; exists (cur :: new);
      rewrite <- app_assoc; split; [done|by constructor].
Qed.

Lemma mark_sound_lookup p m id :
  mark_sound p m !! id = if decide (id ∈ p) then Some kSound else m !! id.
Proof.
  revert m. induction p as [|x p IH]; intros m; cbn.
  { rewrite decide_False; [done|apply not_elem_of_nil]. }
  fold (mark_sound p (<[x:=kSound]> m)). rewrite IH.
  destruct (decide (id ∈ p)) as [Hp|Hp]; [by rewrite decide_True by by right|].
  destruct (decide (x = id)) as [->|Hx].
  - by rewrite lookup_insert_eq, decide_True by left.
  - rewrite lookup_insert_ne, decide_False; [done| |done]. intros [->|?]%elem_of_cons; done.
Qed.

Lemma links_from_sound nodes ids m :
  links_from nodes ids m = true -> marks_sound nodes m -> Forall (has_path nodes) ids.
Proof.
  revert m. induction ids as [|id ids IH]; intros m; [constructor|]. cbn [links_from].
  destruct (follow_links _ _ _ _ _) as [[p m']|] eqn:E; [|done]. intros Hf Hm.
  destruct (follow_links_sound _ _ _ _ _ _ _ E Hm) as (Hid & Hm' & new & -> & Hnew).
  constructor; [done|]. apply (IH _ Hf). intros k. rewrite mark_sound_lookup.
  case_decide as Hk; [|apply Hm']. intros _. cbn in Hk. by rewrite Forall_forall in Hnew; apply Hnew.
Qed.

Lemma follow_links_complete nodes fuel cur p m l :
  ids_ok nodes -> path nodes cur l -> (length l < fuel)%nat ->
  (forall n, n ∈ l -> m !! n_id n <> Some kOnPath) ->
  exists new m', follow_links fuel nodes cur p m = Some (p ++ new, m')
    /\ forall id, m' !! id = Some kOnPath -> id ∈ new \/ m !! id = Some kOnPath.
Proof.
  intros Hok Hp. revert fuel p m. induction Hp as [|cur n l Hne Hn Hp IH]; intros [|fuel] p m Hf Hm;
    cbn [length] in Hf; try lia.
  { exists [], m. cbn. rewrite app_nil_r. auto. }
  cbn [follow_links]. rewrite (proj2 (sempty_false cur)), Hn by done.
  assert (Hid : n_id n = cur) by by apply Hok.
  destruct (decide (m !! cur = Some kSound)) as [Hc|Hc].
  { rewrite Hc. cbn. exists [], m. rewrite app_nil_r. auto. }
  assert (Hu : default kUnvisited (m !! cur) = kUnvisited).
  { assert (H : m !! n_id n <> Some kOnPath) by (apply Hm; left).
    rewrite Hid in H. by destruct (m !! cur) as [[]|]. }
  rewrite Hu.
  pose proof (path_NoDup nodes cur (n :: l) Hok (path_step _ _ _ _ Hne Hn Hp)) as Hnd.
  cbn in Hnd. apply NoDup_cons in Hnd as [Hni _].
  destruct (IH fuel (p ++ [cur]) (<[cur:=kOnPath]> m)) as (new & m' & E & Hm').
  - lia.
  - intros x Hx. rewrite lookup_insert_ne; [apply Hm; by right|].
    intros Heq. apply Hni. rewrite Hid, Heq. by apply list_elem_of_fmap_2.
  - exists (cur :: new), m'. rewrite E, <- app_assoc. split; [done|].
    intros id Hin. apply Hm' in Hin as [Hin|Hin]; [by left; right|].
    destruct (decide (cur = id)) as [->|Hx]; [by left; left|].
    rewrite lookup_insert_ne in Hin by done. by right.
Qed.

Lemma links_from_complete nodes ids m :
  ids_ok nodes -> Forall (has_path nodes) ids -> (forall id, m !! id <> Some kOnPath) ->
  links_from nodes ids m = true.
Proof.
  intros Hok Hall. revert m. induction Hall as [|id ids [l Hl] _ IH]; intros m Hm; [done|].
  cbn [links_from].
  destruct (follow_links_complete nodes (S (S (size nodes))) id [] m l Hok Hl)
    as (new & m' & E & Hm').
  - pose proof (path_length _ _ _ Hok Hl). lia.
  - intros n _. apply Hm.
  - rewrite E. apply IH. intros k. rewrite mark_sound_lookup. cbn.
    case_decide as Hk; [done|]. intros Hk'. apply Hm' in Hk' as [?|?]; [done|by eapply Hm].
Qed.

Lemma map_entries_keys {V} (m : gmap string V) k : k ∈ (map_entries m).*1 <-> is_Some (m !! k).
Proof.
  rewrite list_elem_of_fmap. split.
  - intros ([k' v] & -> & Hv%elem_of_map_entries). by eexists.
  - intros [v Hv]. exists (k, v). split; [done|]. by apply elem_of_map_entries.
Qed.

(** The marking walk made when a graph is read accepts exactly the graphs
    whose links all resolve: from every node, following parents reaches a root
    through nodes of the graph, so no link is missing and none closes a cycle. *)
Theorem LinksResolve_correct g :
  ids_ok (nodes_ g) ->
  (LinksResolve g = true <-> forall id, is_Some (nodes_ g !! id) -> has_path (nodes_ g) id).
Proof.
  intros Hok. unfold LinksResolve. split.
  - intros H id Hid%map_entries_keys. apply links_from_sound in H; [|by intros k; rewrite lookup_empty].
    rewrite Forall_forall in H. by apply H.
  - intros H. apply links_from_complete; [done| |by intros k; rewrite lookup_empty].
    apply Forall_forall. intros id Hid%map_entries_keys. by apply H.
Qed.

(** ** Round trip *)

Definition norm_record (r : ToolCallRecord) : ToolCallRecord :=
  mkRecord (rec_id r) (rec_name r) (normalize (rec_arguments r)) (rec_status r).

Definition norm_payload (p : MessagePayload) : MessagePayload :=
  match p with
  | Assistant a =>
      Assistant (mkAssistant (a_content a) (map norm_reasoning (a_reasoning a))
                   (map norm_record (a_tool_calls a)))
  | _ => p
  end.

(** What the codec makes of a node: the JSON values in it come back in the
    number kinds the parser chooses. *)
Definition norm_node (n : MessageNode) : MessageNode :=
  set_payload (norm_payload (n_payload n)) n.

Definition norm_graph (g : t) : t := mk (norm_node <$> nodes_ g) (leaf_ g).

(** An origin that was read out of a receipt names both its ends. *)
Definition origin_ok (o : Origin) : Prop :=
  o_source o <> "" /\ o_buffer o <> "" /\ 0 <= o_rank o.

Definition payload_ok (p : MessagePayload) : Prop :=
  match p with
  | Tool r => match t_origin r with Some o => origin_ok o | None => True end
  | _ => True
  end.

Lemma RankIn_nonneg fields : plain (JObject fields) = true -> 0 <= RankIn (JObject fields).
Proof.
  rewrite plain_JObject. intros [_ Hp]. unfold RankIn. cbn [if_object].
  destruct (obj_find "rank" fields) as [v|] eqn:E; [|done].
  apply obj_find_elem in E. rewrite Forall_forall in Hp. destruct (Hp _ E) as [_ Hv].
  destruct v; try done; cbn in *.
  - destruct (0 <? z) eqn:Ez; [apply Z.ltb_lt in Ez; lia|done].
  - by apply andb_prop in Hv as [?%Z.leb_le _].
Qed.

Lemma OriginOf_ok `{JsonCodec} receipt o :
  (forall v, parse receipt = Some v -> plain v = true) -> OriginOf receipt = Some o -> origin_ok o.
Proof.
  intros Hp. unfold OriginOf. destruct receipt as [|c rest]; [done|].
  destruct c as [[] [] [] [] [] [] [] []]; try done. set (receipt := String _ _) in *.
  destruct (parse receipt) as [v|]; [|done]. specialize (Hp v eq_refl).
  cbn [mbind option_bind]. unfold origin_in.
  destruct v as [| | | | | | |result]; try done.
  destruct (obj_find "buffer" result) as [held|] eqn:Eh; [|done].
  destruct held as [| | | | | | |fields]; try done.
  destruct (obj_find "source" fields) as [[]|]; try done.
  destruct (obj_find "id" fields) as [[]|]; try done.
  destruct (sempty s) eqn:Es; [done|]. destruct (sempty s0) eqn:Es0; [done|].
  cbn [orb]. intros [= <-]. split_and!; [by apply sempty_false..|]. apply RankIn_nonneg.
  rewrite plain_JObject in Hp. destruct Hp as [_ Hp]. rewrite Forall_forall in Hp.
  by destruct (Hp _ (obj_find_elem _ _ _ Eh)).
Qed.

Lemma Record_roundtrip r : DeserializeRecord (normalize (SerializeRecord r)) = norm_record r.
Proof. destruct r as [id name args status]. by destruct status. Qed.

Lemma Origin_roundtrip' o :
  origin_ok o -> OriginFromJson (normalize (OriginToJson o)) = Some o.
Proof.
  destruct o as [source buffer rank]. intros (Hs%sempty_false & Hb%sempty_false & Hr).
  cbn [o_source o_buffer o_rank] in *.
  unfold OriginFromJson. rewrite !string_or_normalize. unfold OriginToJson.
  cbn [o_source o_buffer o_rank].
  set (fields := [("source", _); _; _]). rewrite (RankIn_normalize fields rank) by done.
  rewrite (string_or_JString fields "source" source), (string_or_JString fields "buffer" buffer) by done.
  by rewrite Hs, Hb.
Qed.

Lemma Payload_roundtrip n :
  payload_ok (n_payload n) ->
  DeserializePayload (normalize (SerializeNode n)) = Some (norm_payload (n_payload n)).
Proof.
  destruct n as [id ts payload parent]. cbn [n_payload]. intros Hok.
  unfold SerializeNode. cbn [n_payload n_id n_timestamp n_parent].
  destruct payload as [u|a|s|r].
  - destruct u as [content from]. cbn [u_content u_from_peer].
    destruct (sempty from) eqn:E; [apply sempty_true in E as ->|]; reflexivity.
  - destruct a as [content blocks calls]. cbn [a_content a_reasoning a_tool_calls].
    assert (Hb : map ReasoningFromJson (map normalize (map ReasoningToJson blocks))
                 = map norm_reasoning blocks).
    { rewrite !map_map. apply map_ext. apply Reasoning_roundtrip. }
    assert (Hc : map DeserializeRecord (map normalize (map SerializeRecord calls))
                 = map norm_record calls).
    { rewrite !map_map. apply map_ext. apply Record_roundtrip. }
    cbn [norm_payload a_content a_reasoning a_tool_calls]. rewrite <- Hb, <- Hc.
    destruct blocks, calls; reflexivity.
  - by destruct s.
  - destruct r as [call name content [o|]]; cbn [t_call_id t_name t_content t_origin]; [|reflexivity].
    cbn in Hok. apply Origin_roundtrip' in Hok. cbn [norm_payload]. rewrite <- Hok. reflexivity.
Qed.

Lemma Node_fields n :
  exists fields, SerializeNode n = JObject fields
    /\ obj_find "id" fields = Some (JString (n_id n))
    /\ obj_find "timestamp" fields = Some (JString (n_timestamp n))
    /\ obj_find "parent" fields = Some (JString (n_parent n)).
Proof.
  destruct n as [id ts payload parent]. unfold SerializeNode. eexists. split; [reflexivity|].
  cbn [n_payload n_id n_timestamp n_parent].
  destruct payload as [u|a|s|r]; repeat case_match; done.
Qed.

Lemma Node_roundtrip n :
  n_id n <> "" -> payload_ok (n_payload n) ->
  DeserializeNode (normalize (SerializeNode n)) = Some (norm_node n).
Proof.
  intros Hid%sempty_false Hok. pose proof (Payload_roundtrip n Hok) as Hp.
  destruct (Node_fields n) as (fields & E & H1 & H2 & H3).
  unfold DeserializeNode. rewrite Hp, !string_or_normalize, E.
  rewrite (string_or_JString _ _ _ _ H1), Hid, (string_or_JString _ _ _ _ H2).
  unfold at_key. cbn [normalize is_object if_object mbind option_bind].
  rewrite obj_find_normalize, H3. by destruct n.
Qed.

Lemma path_fmap nodes id l :
  path nodes id l -> path (norm_node <$> nodes) id (map norm_node l).
Proof.
  induction 1 as [|id n l Hid Hn _ IH]; cbn; constructor; [done| |done].
  by rewrite lookup_fmap, Hn.
Qed.

Lemma norm_graph_ok g : graph_ok g -> graph_ok (norm_graph g).
Proof.
  intros [[He Hids] Hl [l Hleaf]]. split; cbn.
  - split; [by rewrite lookup_fmap, He|]. intros id n. rewrite lookup_fmap.
    destruct (nodes_ g !! id) eqn:E; [|done]. cbn. intros [= <-]. cbn. by apply Hids.
  - intros id. rewrite lookup_fmap, fmap_is_Some. intros Hid. destruct (Hl id Hid) as [l' Hl'].
    eexists. by apply path_fmap.
  - eexists. by apply path_fmap.
Qed.

Lemma read_nodes_app entries acc :
  NoDup (map n_id entries) -> (forall n, n ∈ entries -> acc !! n_id n = None) ->
  Forall (fun n => n_id n <> "" /\ payload_ok (n_payload n)) entries ->
  read_nodes (map (fun n => normalize (SerializeNode n)) entries) acc
  = Some (list_to_map (map (fun n => (n_id n, norm_node n)) entries) ∪ acc).
Proof.
  revert acc. induction entries as [|n entries IH]; intros acc Hnd Hacc Hall.
  { cbn. by rewrite (left_id_L ∅ (∪)). }
  cbn [map read_nodes] in *.
  apply Forall_cons in Hall as [[Hid Hok] Hall]. apply NoDup_cons in Hnd as [Hni Hnd].
  rewrite Node_roundtrip by done. cbn [mbind option_bind].
  change (n_id (norm_node n)) with (n_id n). rewrite Hacc by left.
  rewrite IH; [|done| |done].
  - f_equal. rewrite list_to_map_cons, <- insert_union_r; [by rewrite insert_union_l|].
    apply not_elem_of_list_to_map_1. by rewrite <- list_fmap_compose.
  - intros m Hm. rewrite lookup_insert_ne; [apply Hacc; by right|].
    intros Heq. apply Hni. rewrite Heq. by apply list_elem_of_fmap_2.
Qed.

Lemma Deserialize_fields entries leaf :
  Deserialize (JObject [("nodes", JArray entries); ("leaf", JString leaf)])
  = nodes ← read_nodes entries ∅;
    if negb (sempty leaf) && bool_decide (nodes !! leaf = None) then None
    else if LinksResolve (mk nodes "") then Some (mk nodes leaf) else None.
Proof. done. Qed.

Lemma map_entries_ids g :
  ids_ok (nodes_ g) ->
  map_entries (nodes_ g) = map (fun n => (n_id n, n)) (map snd (map_entries (nodes_ g))).
Proof.
  intros Hok. rewrite map_map. rewrite <- (map_id (map_entries (nodes_ g))) at 1.
  apply map_ext_in. intros [k m] Hm%list_elem_of_In. apply elem_of_map_entries in Hm.
  cbn. by rewrite (proj2 Hok _ _ Hm).
Qed.

Lemma Graph_reads_back g :
  graph_ok g -> map_Forall (fun _ n => payload_ok (n_payload n)) (nodes_ g) ->
  Deserialize (normalize (Serialize g)) = Some (norm_graph g)
  /\ graph_ok (norm_graph g)
  /\ Chain (norm_graph g) = map norm_node (Chain g).
Proof.
  intros Hg Hok. pose proof (norm_graph_ok g Hg) as Hn. split_and!; [|done|].
  - set (entries := map snd (map_entries (nodes_ g))).
    pose proof (map_entries_ids g (ok_node_ids _ Hg)) as He. fold entries in He.
    assert (Hent : forall n, n ∈ entries -> nodes_ g !! n_id n = Some n).
    { intros n Hnin. apply elem_of_map_entries. rewrite He.
      exact (list_elem_of_fmap_2 (fun n => (n_id n, n)) _ _ Hnin). }
    change (normalize (Serialize g)) with
      (JObject [("nodes", JArray (map normalize (map (fun e => SerializeNode e.2) (map_entries (nodes_ g)))));
                ("leaf", JString (leaf_ g))]).
    rewrite Deserialize_fields, He, !map_map. cbn [snd]. rewrite read_nodes_app.
    + cbn [mbind option_bind]. rewrite (right_id_L ∅ (∪)).
      assert (HL : LinksResolve (mk (nodes_ (norm_graph g)) "") = true).
      { apply LinksResolve_correct; [apply Hn|]. intros id. apply (ok_links _ Hn). }
      replace (list_to_map _) with (nodes_ (norm_graph g)).
      2:{ cbn [norm_graph nodes_]. rewrite <- (list_to_map_entries (nodes_ g)), He, <- list_to_map_fmap.
          f_equal. by rewrite <- list_fmap_compose. }
      rewrite HL.
      case_match eqn:E; [|done]. exfalso. apply andb_prop in E as [El%negb_true_iff E%bool_decide_eq_true].
      destruct (ok_leaf _ Hn) as [l Hl]. change (leaf_ (norm_graph g)) with (leaf_ g) in Hl.
      destruct Hl as [|id n l _ Hl _]; [done|]. by rewrite Hl in E.
    + assert (Hids : map n_id entries = (map_entries (nodes_ g)).*1) by (rewrite He; by rewrite <- list_fmap_compose).
      rewrite Hids. apply NoDup_map_entries.
    + intros n _. apply lookup_empty.
    + apply Forall_forall. intros n Hnin%Hent. split; [|by apply (Hok (n_id n))].
      intros E. rewrite E in Hnin. by rewrite (proj1 (ok_node_ids _ Hg)) in Hnin.
  - assert (Hp : path (nodes_ (norm_graph g)) (leaf_ (norm_graph g)) (map norm_node (reverse (Chain g))))
      by exact (path_fmap _ _ _ (Chain_path g Hg)).
    rewrite (Chain_of_path _ _ (ok_node_ids _ Hn) Hp), <- map_reverse. by rewrite reverse_involutive.
Qed.

(** C20: a conversation written to its stored form and read back through the
    codec is the same conversation: same nodes, links, leaf and chain, every
    status, origin and reasoning block, the JSON values inside in the number
    kinds the parser chooses. *)
Theorem Graph_roundtrip g :
  graph_ok g -> map_Forall (fun _ n => payload_ok (n_payload n)) (nodes_ g) ->
  Deserialize (normalize (Serialize g)) = Some (norm_graph g)
  /\ graph_ok (norm_graph g)
  /\ Chain (norm_graph g) = map norm_node (Chain g).
Proof. apply Graph_reads_back. Qed.

(** ** Witnesses *)

Definition demo_call : ToolCallRecord := mkRecord "call-1" "bash" (JObject []) kPending.
Definition demo_answer : AssistantPayload := mkAssistant "on it" [] [demo_call].
Definition demo_graph : t :=
  AppendAfterLeaf "b" (Assistant demo_answer) "" (AppendAfterLeaf "a" (User (mkUser "hi" "")) "t0" empty).

Lemma empty_ok : graph_ok empty.
Proof.
  split; cbn.
  - split; [apply lookup_empty|]. intros id n. by rewrite lookup_empty.
  - intros id [n Hn]. by rewrite lookup_empty in Hn.
  - exists []. constructor.
Qed.

Lemma demo_graph_ok : graph_ok demo_graph.
Proof.
  apply AppendAfterLeaf_keeps; [apply AppendAfterLeaf_keeps|done|done];
    [apply empty_ok|done|done].
Qed.

Definition demo_receipt : MessagePayload := Tool (mkTool "call-1" "bash" "{}" None).

Lemma AppendAfterLeaf_spec_witness :
  Chain (AppendAfterLeaf "c" demo_receipt "t1" demo_graph)
  = list_append "c" demo_receipt "t1" (Chain demo_graph).
Proof.
  exact (proj1 (proj2 (AppendAfterLeaf_spec "c" demo_receipt "t1" demo_graph demo_graph_ok
    ltac:(discriminate) ltac:(reflexivity)))).
Defined.

Lemma RewindTo_spec_witness :
  exists g', RewindTo "a" demo_graph = Some g' /\ graph_ok g' /\ Chain g' = take 1 (Chain demo_graph).
Proof.
  exact (proj1 (RewindTo_spec demo_graph demo_graph_ok) 0%nat
    (mkNode "a" "t0" (User (mkUser "hi" "")) "") ltac:(reflexivity)).
Defined.


Definition two_calls : AssistantPayload :=
  mkAssistant "" [] [demo_call; mkRecord "call-2" "bash" (JObject []) kPending].
Definition cut_graph : t :=
  AppendAfterLeaf "c" demo_receipt ""
    (AppendAfterLeaf "b" (Assistant two_calls) "" (AppendAfterLeaf "a" (User (mkUser "hi" "")) "t0" empty)).

Lemma Seal_behind_receipt_witness :
  existsb HasUnfinishedToolCalls (Chain cut_graph) = true
  /\ SealInterruptedToolCalls ["d"] cut_graph = cut_graph.
Proof.
  split; [reflexivity|].
  refine (proj1 (Seal_behind_receipt ["d"] cut_graph
    (take 2 (Chain cut_graph)) (mkNode "c" "" demo_receipt "b") _ _ _)); [|reflexivity|discriminate].
  apply AppendAfterLeaf_keeps; [apply AppendAfterLeaf_keeps; [apply AppendAfterLeaf_keeps|..]|..];
    [apply empty_ok|done..].
Defined.

Lemma LinksResolve_correct_witness :
  LinksResolve (mk {[ "a" := mkNode "a" "" (System (mkSystem "")) "b";
                      "b" := mkNode "b" "" (System (mkSystem "")) "a" ]} "") = false
  /\ LinksResolve demo_graph = true.
Proof.
  split; [reflexivity|].
  exact (proj2 (LinksResolve_correct demo_graph (ok_node_ids _ demo_graph_ok)) (ok_links _ demo_graph_ok)).
Defined.

Lemma Graph_roundtrip_witness :
  Deserialize (normalize (Serialize demo_graph)) = Some (norm_graph demo_graph).
Proof.
  refine (proj1 (Graph_roundtrip demo_graph demo_graph_ok _)).
  apply map_Forall_to_list. by vm_compute; repeat constructor.
Defined.
