(* ===== verification/Request.v ===== *)
(** * What is sent to the model ([src/session/request.cpp])

    [BuildRequestPath] renders the system inputs and the chain of a graph; a
    page that a newer run of the same question was read after is replaced by a
    receipt.  The maps keyed by node pointers are lists along the chain. *)
From Stdlib Require Import Ascii.
From S2P Require Export Prelude Text Json Paging Message Graph.

Record RequestInputs := mkInputs { system_prompt : string; environment : string }.

(** The origin of a node that is a page. *)
Definition page_origin (node : MessageNode) : option Origin :=
  match n_payload node with Tool receipt => t_origin receipt | _ => None end.

(** [Newer]: the newest run of a source read after this point. *)
Record Newer := mkNewer { nw_rank : Z; nw_buffer : string }.

Abbreviation newer_map := (gmap string Newer).

(** One step of the backward walk: the mark of this node, and what later runs
    the nodes before it see. *)
Definition supersede_step (node : MessageNode) (acc : newer_map * list (option string))
    : newer_map * list (option string) :=
  let '(newer_behind, marks) := acc in
  match page_origin node with
  | None => (newer_behind, None :: marks)
  | Some page =>
      let mark :=
        match newer_behind !! o_source page with
        | Some seen => if o_rank page <? nw_rank seen then Some (nw_buffer seen) else None
        | None => None
        end in
      let newest := default (mkNewer 0 "") (newer_behind !! o_source page) in
      let newest := if nw_rank newest <? o_rank page then mkNewer (o_rank page) (o_buffer page)
                    else newest in
      (<[o_source page := newest]> newer_behind, mark :: marks)
  end.

Definition SupersededPages (chain : list MessageNode) : list (option string) :=
  (foldr supersede_step (∅, []) chain).2.

Definition RenderMessage (node : MessageNode) (position : Z) : ChatMessage :=
  match n_payload node with
  | User user =>
      mkMessage position (n_timestamp node) kUserRole (u_content user) "" JNull [] "" (u_from_peer user)
  | Assistant assistant =>
      mkMessage position (n_timestamp node) kAssistantRole (a_content assistant) ""
        (match a_tool_calls assistant with
         | [] => JNull
         | calls => JArray (map ToolCallToJson calls)
         end)
        (a_reasoning assistant) "" ""
  | System system =>
      mkMessage position (n_timestamp node) kSystemRole (s_content system) "" JNull [] "" ""
  | Tool receipt =>
      mkMessage position (n_timestamp node) kToolRole (t_content receipt) (t_name receipt) JNull []
        (t_call_id receipt) ""
  end.

Definition set_content (content : string) (m : ChatMessage) : ChatMessage :=
  mkMessage (m_id m) (m_timestamp m) (m_role m) content (m_tool_name m) (m_tool_calls m)
    (m_reasoning m) (m_tool_call_id m) (m_from_peer m).

Definition system_text (inputs : RequestInputs) : string :=
  if sempty (environment inputs) then system_prompt inputs
  else (if sempty (system_prompt inputs) then ""
        else system_prompt inputs +:+ NL +:+ NL) +:+ environment inputs.

Definition system_message (text : string) : ChatMessage :=
  mkMessage 0 "" kSystemRole text "" JNull [] "" "".

Section BuildRequestPath.
#[local] Set Default Proof Using "Type*".
Context `{codec : JsonCodec}.

(** The loop over the chain, from [position]. *)
Fixpoint render_chain (chain : list MessageNode) (marks : list (option string)) (position : Z)
    : res (list ChatMessage) :=
  match chain, marks with
  | node :: chain, mark :: marks =>
      let msg := RenderMessage node position in
      let? msg := match mark with
                  | Some by_ =>
                      let? content := SupersededReceipt (m_content msg) by_ in
                      Ok (set_content content msg)
                  | None => Ok msg
                  end in
      let? rest := render_chain chain marks (position + 1) in
      Ok (msg :: rest)
  | _, _ => Ok []
  end.

Definition BuildRequestPath (graph : MessageGraph.t) (inputs : RequestInputs)
    : res (list ChatMessage) :=
  let text := system_text inputs in
  let messages := if sempty text then [] else [system_message text] in
  let chain := MessageGraph.Chain graph in
  let? rest := render_chain chain (SupersededPages chain) (Z.of_nat (length messages) + 1) in
  Ok (messages ++ rest).

End BuildRequestPath.

(** ** Which pages are superseded *)

(** The newest run of [source] among [nodes], as the walk keeps it. *)
Definition newest_ok (nodes : list MessageNode) (source : string) (n : option Newer) : Prop :=
  match n with
  | None => forall m o, m ∈ nodes -> page_origin m = Some o -> o_source o <> source
  | Some n =>
      0 <= nw_rank n
      /\ (forall m o, m ∈ nodes -> page_origin m = Some o -> o_source o = source ->
            o_rank o <= nw_rank n)
      /\ (0 < nw_rank n -> exists m o, m ∈ nodes /\ page_origin m = Some o
            /\ o_source o = source /\ o_rank o = nw_rank n /\ o_buffer o = nw_buffer n)
  end.

Definition ranks_ok (chain : list MessageNode) : Prop :=
  forall m o, m ∈ chain -> page_origin m = Some o -> 0 <= o_rank o.

Lemma newest_step n chain source (newer : newer_map) :
  (forall s, newest_ok chain s (newer !! s)) -> ranks_ok (n :: chain) ->
  newest_ok (n :: chain) source ((supersede_step n (newer, [])).1 !! source).
Proof.
  intros IH Hr. unfold supersede_step. destruct (page_origin n) as [page|] eqn:Hp; cbn [fst].
  - assert (Hrank : 0 <= o_rank page) by (eapply Hr; [left|done]).
    destruct (decide (o_source page = source)) as [Hs|Hs].
    + subst source. rewrite lookup_insert_eq. specialize (IH (o_source page)).
      destruct (newer !! o_source page) as [[r b]|]; unfold newest_ok in IH |- *; cbn [from_option id nw_rank nw_buffer] in *.
      * destruct IH as (H0 & H1 & H2). destruct (r <? o_rank page) eqn:E; cbn [nw_rank nw_buffer].
        -- apply Z.ltb_lt in E. split_and!; [lia| |].
           ++ intros m o [->|Hm]%elem_of_cons Ho Hso; [replace o with page by congruence; lia|].
              specialize (H1 _ _ Hm Ho Hso). lia.
           ++ intros _. exists n, page. split; [left|done].
        -- apply Z.ltb_ge in E. split_and!; [lia| |].
           ++ intros m o [->|Hm]%elem_of_cons Ho Hso; [replace o with page by congruence; lia|by eapply H1].
           ++ intros Hpos. destruct (H2 Hpos) as (m & o & Hm & Ho). exists m, o. split; [by right|done].
      * destruct (0 <? o_rank page) eqn:E; cbn.
        -- split_and!; [lia| |].
           ++ intros m o [->|Hm]%elem_of_cons Ho Hso; [replace o with page by congruence; lia|].
              by destruct (IH _ _ Hm Ho).
           ++ intros _. exists n, page. split; [left|done].
        -- apply Z.ltb_ge in E. split_and!; [lia| |lia].
           intros m o [->|Hm]%elem_of_cons Ho Hso; [|by destruct (IH _ _ Hm Ho)].
           replace o with page by congruence. lia.
    + rewrite lookup_insert_ne by done. specialize (IH source).
      destruct (newer !! source) as [[r b]|]; cbn in *.
      * destruct IH as (H0 & H1 & H2). split_and!; [lia| |].
        -- intros m o [->|Hm]%elem_of_cons Ho Hso; [congruence|by eapply H1].
        -- intros Hpos. destruct (H2 Hpos) as (m & o & Hm & Ho). exists m, o. split; [by right|done].
      * intros m o [->|Hm]%elem_of_cons Ho; [congruence|by eapply IH].
  - specialize (IH source). destruct (newer !! source) as [[r b]|]; cbn in *.
    + destruct IH as (H0 & H1 & H2). split_and!; [lia| |].
      * intros m o [->|Hm]%elem_of_cons Ho Hso; [congruence|by eapply H1].
      * intros Hpos. destruct (H2 Hpos) as (m & o & Hm & Ho). exists m, o. split; [by right|done].
    + intros m o [->|Hm]%elem_of_cons Ho; [congruence|by eapply IH].
Qed.

Lemma newest_walk chain source :
  ranks_ok chain -> newest_ok chain source ((foldr supersede_step (∅, []) chain).1 !! source).
Proof.
  revert source. induction chain as [|n chain IH]; intros source Hr.
  { cbn. rewrite lookup_empty. by intros m o ?%elem_of_nil. }
  cbn [foldr]. destruct (foldr supersede_step (∅, []) chain) as [newer marks]. cbn [fst] in *.
  replace ((supersede_step n (newer, marks)).1) with ((supersede_step n (newer, [])).1)
    by (unfold supersede_step; by destruct (page_origin n)).
  apply newest_step; [|done]. intros s. apply IH. intros m o Hm. apply Hr. by right.
Qed.

Lemma SupersededPages_cons n chain :
  SupersededPages (n :: chain)
  = (match page_origin n with
     | None => None
     | Some page =>
         match (foldr supersede_step (∅, []) chain).1 !! o_source page with
         | Some seen => if o_rank page <? nw_rank seen then Some (nw_buffer seen) else None
         | None => None
         end
     end) :: SupersededPages chain.
Proof.
  unfold SupersededPages. cbn [foldr]. destruct (foldr _ _ _) as [newer marks].
  unfold supersede_step. by destruct (page_origin n).
Qed.

Lemma SupersededPages_length chain : length (SupersededPages chain) = length chain.
Proof. induction chain as [|n chain IH]; [done|]. rewrite SupersededPages_cons. cbn. by rewrite IH. Qed.

(** A later page of the same question from a newer run. *)
Definition newer_read (chain : list MessageNode) (i : nat) (page : Origin) (later : Origin) : Prop :=
  exists j m, (i < j)%nat /\ chain !! j = Some m /\ page_origin m = Some later
    /\ o_source later = o_source page /\ o_rank page < o_rank later.

(** A page is superseded exactly when a page of a newer run of the same
    question was read after it, and then by the newest of those: so the newest
    run is never elided, pages of one run never elide each other, and a page
    read again after a newer run stays.  A message that is no page is never
    superseded. *)
Theorem SupersededPages_spec chain i n :
  ranks_ok chain -> chain !! i = Some n ->
  (page_origin n = None -> SupersededPages chain !! i = Some None)
  /\ forall page, page_origin n = Some page ->
     (SupersededPages chain !! i = Some None /\ (forall o, ~ newer_read chain i page o))
     \/ exists newest, SupersededPages chain !! i = Some (Some (o_buffer newest))
          /\ newer_read chain i page newest
          /\ forall o, newer_read chain i page o -> o_rank o <= o_rank newest.
Proof.
  revert i. induction chain as [|x chain IH]; intros i Hr Hi; [done|].
  assert (Hr' : ranks_ok chain) by (intros m o Hm; apply Hr; by right).
  rewrite SupersededPages_cons. destruct i as [|i].
  - injection Hi as ->. split; [by intros ->|]. intros page Hpage. rewrite Hpage. cbn [lookup list_lookup].
    pose proof (newest_walk chain (o_source page) Hr') as Hn.
    assert (Hlater : forall o, newer_read (n :: chain) 0 page o <->
      exists m, m ∈ chain /\ page_origin m = Some o /\ o_source o = o_source page /\ o_rank page < o_rank o).
    { intros o. split.
      - intros ([|j] & m & Hj & Hm & H); [lia|]. exists m. split; [by eapply list_elem_of_lookup_2|done].
      - intros (m & [j Hm]%list_elem_of_lookup_1 & H). exists (S j), m. split; [lia|done]. }
    destruct ((foldr supersede_step (∅, []) chain).1 !! o_source page) as [seen|]; cbn in Hn.
    + destruct Hn as (H0 & H1 & H2). destruct (o_rank page <? nw_rank seen) eqn:E.
      * apply Z.ltb_lt in E. assert (0 <= o_rank page) by (eapply Hr; [left|done]).
        destruct H2 as (m & o & Hm & Ho & Hs & Hrk & <-); [lia|]. right. exists o. split; [done|]. split.
        -- apply Hlater. exists m. split_and!; try done. lia.
        -- intros o' (m' & Hm' & Ho' & Hs' & _)%Hlater. specialize (H1 _ _ Hm' Ho' Hs'). lia.
      * apply Z.ltb_ge in E. left. split; [done|].
        intros o (m & Hm & Ho & Hs & Hlt)%Hlater. specialize (H1 _ _ Hm Ho Hs). lia.
    + left. split; [done|]. intros o (m & Hm & Ho & Hs & _)%Hlater. by apply (Hn _ _ Hm Ho).
  - cbn in Hi. destruct (IH i Hr' Hi) as [IH1 IH2]. cbn [lookup list_lookup] in *.
    assert (Hshift : forall page o, newer_read (x :: chain) (S i) page o <-> newer_read chain i page o).
    { intros page o. split.
      - intros ([|j] & m & Hj & Hm & H); [lia|]. exists j, m. split; [lia|done].
      - intros (j & m & Hj & Hm & H). exists (S j), m. split; [lia|done]. }
    split; [done|]. intros page Hpage. setoid_rewrite Hshift. by apply IH2.
Qed.

(** ** The request as a whole *)

Section RequestFacts.
#[local] Set Default Proof Using "Type*".
Context `{codec : JsonCodec}.

(** An origin on a receipt was read out of the receipt's text, as appending a
    result does. *)
Definition origins_read (chain : list MessageNode) : Prop :=
  forall m r o, m ∈ chain -> n_payload m = Tool r -> t_origin r = Some o ->
    OriginOf (t_content r) = Some o.

Lemma SupersededReceipt_total receipt o by_ :
  OriginOf receipt = Some o -> exists text, SupersededReceipt receipt by_ = Ok text.
Proof.
  unfold OriginOf, SupersededReceipt. destruct receipt as [|c rest]; [done|].
  destruct c as [[] [] [] [] [] [] [] []]; try done. set (receipt := String _ _).
  destruct (parse receipt) as [v|]; [|done]. destruct v; try done. by eexists.
Qed.

Lemma superseded_is_page chain i by_ :
  SupersededPages chain !! i = Some (Some by_) ->
  exists n o, chain !! i = Some n /\ page_origin n = Some o.
Proof.
  revert i. induction chain as [|n chain IH]; intros i; [done|]. rewrite SupersededPages_cons.
  destruct i as [|i]; cbn; [|apply IH].
  destruct (page_origin n) as [o|] eqn:E; [|done]. intros _. by exists n, o.
Qed.

(** The message sent for node [n] at [position] under its mark. *)
Definition sent_as (n : MessageNode) (mark : option string) (position : Z) (msg : ChatMessage) : Prop :=
  match mark with
  | None => msg = RenderMessage n position
  | Some by_ => exists content, SupersededReceipt (m_content (RenderMessage n position)) by_ = Ok content
                  /\ msg = set_content content (RenderMessage n position)
  end.

Lemma render_chain_spec chain marks position :
  length marks = length chain ->
  (forall i n by_, chain !! i = Some n -> marks !! i = Some (Some by_) ->
     exists o r, n_payload n = Tool r /\ OriginOf (t_content r) = Some o) ->
  exists msgs, render_chain chain marks position = Ok msgs /\ length msgs = length chain
    /\ forall i n mark, chain !! i = Some n -> marks !! i = Some mark ->
       exists msg, msgs !! i = Some msg /\ sent_as n mark (position + Z.of_nat i) msg.
Proof.
  revert marks position. induction chain as [|n chain IH]; intros [|mark marks] position Hlen Hpages;
    try done.
  { exists []. by repeat split. }
  destruct (IH marks (position + 1)) as (rest & E & Hl & Hrest).
  { by injection Hlen. }
  { intros i. apply (Hpages (S i)). }
  assert (Hhead : exists msg, sent_as n mark position msg /\
    match mark with
    | Some by_ => let? content := SupersededReceipt (m_content (RenderMessage n position)) by_ in
                  Ok (set_content content (RenderMessage n position))
    | None => Ok (RenderMessage n position) end = Ok msg).
  { destruct mark as [by_|]; [|by eexists].
    destruct (Hpages 0%nat n by_ eq_refl eq_refl) as (o & r & Hp & Ho).
    destruct (SupersededReceipt_total _ _ by_ Ho) as [text Ht].
    assert (Hc : m_content (RenderMessage n position) = t_content r) by (unfold RenderMessage; by rewrite Hp).
    eexists. split; [exists text; by rewrite Hc|]. by rewrite Hc, Ht. }
  destruct Hhead as (msg & Hsent & Hmsg).
  exists (msg :: rest). cbn [render_chain]. rewrite Hmsg. cbn. rewrite E. cbn. split_and!; [done|by rewrite Hl|].
  intros [|i] x y Hx Hy.
  - injection Hx as <-. injection Hy as <-. exists msg. by rewrite Z.add_0_r.
  - destruct (Hrest i x y Hx Hy) as (m & Hm & Hs). exists m. split; [done|].
    replace (position + Z.of_nat (S i)) with (position + 1 + Z.of_nat i) by lia. done.
Qed.


End RequestFacts.

(** ** Witnesses *)

Definition page_node (id parent : string) (rank : Z) (buffer : string) : MessageNode :=
  mkNode id "" (Tool (mkTool ("call-" +:+ id) "bash" "" (Some (mkOrigin "s1" buffer rank)))) parent.

Definition two_runs : list MessageNode := [page_node "a" "" 1 "o-1"; page_node "b" "a" 2 "o-2"].

Lemma SupersededPages_spec_witness :
  SupersededPages two_runs = [Some "o-2"; None]
  /\ (page_origin (page_node "a" "" 1 "o-1") = None -> SupersededPages two_runs !! 0%nat = Some None).
Proof.
  split; [reflexivity|].
  refine (proj1 (SupersededPages_spec two_runs 0 (page_node "a" "" 1 "o-1") _ eq_refl)).
  intros m o [->|[->|[]%elem_of_nil]%elem_of_cons]%elem_of_cons [= <-]; discriminate.
Defined.

Definition demo_page (rank : Z) : string :=
  serialize (JsonCodec := bit_codec)
    (JObject [("output", JString "x");
              ("buffer", JObject [("id", JString "o-1"); ("source", JString "s1"); ("rank", JUint64 rank)])]).

Definition paged_graph : MessageGraph.t :=
  MessageGraph.AppendAfterLeaf "b"
    (Tool (mkTool "call-2" "bash" (demo_page 2) (OriginOf (codec := bit_codec) (demo_page 2)))) ""
    (MessageGraph.AppendAfterLeaf "a"
       (Tool (mkTool "call-1" "bash" (demo_page 1) (OriginOf (codec := bit_codec) (demo_page 1)))) ""
       MessageGraph.empty).

