(* ===== verification/Usage.v ===== *)
(** * What a session spent ([src/session/usage.cpp])

    The ledger of turns by node id, its total, and its two JSON forms.  Counts
    are C++ [int]s: an addition that leaves their range is undefined, as is
    reading a disengaged [std::optional], which [Total] can reach. *)
From Stdlib Require Import Ascii.
From S2P Require Export Prelude Text Json Message.

Record TurnUsage := mkTurn {
  tu_node_id : string;
  tu_rounds : Z;
  tu_prompt : Z;
  tu_completion : Z;
  tu_cached : Z;
  tu_cost : option Cost;
  tu_model : string;
  tu_gateway : string;
}.

Record SessionUsageTotal := mkTotal {
  st_turns : Z;
  st_rounds : Z;
  st_prompt : Z;
  st_completion : Z;
  st_cached : Z;
  st_cost : option Cost;
  st_priced : Z;
}.

Module UsageLedger.

Abbreviation t := (gmap string TurnUsage).

Definition Record_ (usage : TurnUsage) (l : t) : t :=
  if sempty (tu_node_id usage) then l else <[tu_node_id usage := usage]> l.

Definition KeepOnly (live : gset string) (l : t) : t :=
  filter (fun entry => entry.1 ∈ live) l.

Definition Clear (l : t) : t := ∅.

Definition For (node_id : string) (l : t) : option TurnUsage := l !! node_id.

(** Signed addition. *)
Definition add_int (x y : Z) : res Z :=
  if (int_min <=? x + y) && (x + y <=? int_max) then Ok (x + y) else Undef.

(** One round of the loop of [Total]. *)
Definition total_step (acc : SessionUsageTotal * bool * bool) (usage : TurnUsage)
    : res (SessionUsageTotal * bool * bool) :=
  let '(total, any_cost_seen, any_cost_missing) := acc in
  let? turns := add_int (st_turns total) 1 in
  let? rounds := add_int (st_rounds total) (tu_rounds usage) in
  let? prompt := add_int (st_prompt total) (tu_prompt usage) in
  let? completion := add_int (st_completion total) (tu_completion usage) in
  let? cached := add_int (st_cached total) (tu_cached usage) in
  let counted cost priced := mkTotal turns rounds prompt completion cached cost priced in
  match tu_cost usage with
  | None => Ok (counted (st_cost total) (st_priced total), any_cost_seen, true)
  | Some price =>
      let? priced := add_int (st_priced total) 1 in
      if negb any_cost_seen then Ok (counted (Some price) priced, true, any_cost_missing)
      else
        match st_cost total with
        | None => Undef
        | Some sum =>
            if decide (unit_ sum = unit_ price) then
              Ok (counted (Some (mkCost (dadd (amount sum) (amount price)) (unit_ sum))) priced,
                  true, any_cost_missing)
            else Ok (counted None priced, true, true)
        end
  end.

Fixpoint total_loop (us : list TurnUsage) (acc : SessionUsageTotal * bool * bool)
    : res (SessionUsageTotal * bool * bool) :=
  match us with
  | [] => Ok acc
  | usage :: us => let? acc := total_step acc usage in total_loop us acc
  end.

Definition Total (l : t) : res SessionUsageTotal :=
  let? acc := total_loop (map_entries l).*2 (mkTotal 0 0 0 0 0 None 0, false, false) in
  let '(total, _, any_cost_missing) := acc in
  Ok (if any_cost_missing
      then mkTotal (st_turns total) (st_rounds total) (st_prompt total) (st_completion total)
             (st_cached total) None (st_priced total)
      else total).

(** ** JSON forms *)

Definition cost_json (cost : Cost) : value :=
  JObject [("amount", JDouble (amount cost)); ("unit", JString (unit_ cost))].

Definition with_cost (cost : option Cost) (out : object) : object :=
  match cost with Some cost => obj_set "cost" (cost_json cost) out | None => out end.

Definition TurnToJson (usage : TurnUsage) : object :=
  with_cost (tu_cost usage)
    [("prompt_tokens", JInt64 (tu_prompt usage)); ("completion_tokens", JInt64 (tu_completion usage));
     ("cached_tokens", JInt64 (tu_cached usage)); ("rounds", JInt64 (tu_rounds usage));
     ("model", JString (tu_model usage)); ("gateway", JString (tu_gateway usage))].

Definition TotalToJson (total : SessionUsageTotal) : object :=
  with_cost (st_cost total)
    [("turns", JInt64 (st_turns total)); ("rounds", JInt64 (st_rounds total));
     ("prompt_tokens", JInt64 (st_prompt total)); ("completion_tokens", JInt64 (st_completion total));
     ("cached_tokens", JInt64 (st_cached total)); ("priced_turns", JInt64 (st_priced total))].

Definition serialize_entry (node_id : string) (usage : TurnUsage) : value :=
  let entry := TurnToJson usage in
  let entry := if sempty (tu_model usage) then obj_erase "model" entry else entry in
  let entry := if sempty (tu_gateway usage) then obj_erase "gateway" entry else entry in
  JObject (obj_set "node" (JString node_id) entry).

Definition Serialize (l : t) : value :=
  JObject (foldl (fun out entry => obj_set entry.1 (serialize_entry entry.1 entry.2) out) []
             (map_entries l)).

Definition int_or (j : value) (key : string) (def : Z) : Z := ValueOrDefault to_int j key def.

Definition read_entry (node_id : string) (entry : value) : TurnUsage :=
  mkTurn node_id (int_or entry "rounds" 0) (int_or entry "prompt_tokens" 0)
    (int_or entry "completion_tokens" 0) (int_or entry "cached_tokens" 0)
    (match at_key entry "cost" with
     | Some (JObject _ as cost) =>
         Some (mkCost (ValueOrDefault to_double cost "amount" (double_of_Z 0)) (string_or cost "unit" ""))
     | _ => None
     end)
    (string_or entry "model" "") (string_or entry "gateway" "").

(** The loop over the members; [emplace] keeps the first entry of a key. *)
Fixpoint read_entries (fields : object) (l : t) : t :=
  match fields with
  | [] => l
  | (node_id, entry) :: fields =>
      read_entries fields
        (if is_object entry
         then match l !! node_id with Some _ => l | None => <[node_id := read_entry node_id entry]> l end
         else l)
  end.

Definition Deserialize (j : value) : t :=
  match j with JObject fields => read_entries fields ∅ | _ => ∅ end.

End UsageLedger.

(** ** The total *)

Import UsageLedger.

Fixpoint sum_of (f : TurnUsage -> Z) (us : list TurnUsage) : Z :=
  match us with [] => 0 | u :: us => f u + sum_of f us end.

Definition costs (us : list TurnUsage) : list Cost := omap tu_cost us.

(** Where the prices stop agreeing on a unit, if they do: the index of the
    first price whose unit is not the first one's. *)
Definition first_mismatch (ps : list Cost) : option nat :=
  match ps with
  | [] => None
  | p :: _ => fst <$> list_find (fun q => unit_ q <> unit_ p) ps
  end.

(** The sum of prices in one unit, added in order. *)
Definition price_sum (ps : list Cost) : option Cost :=
  match ps with
  | [] => None
  | p :: ps => Some (foldl (fun s q => mkCost (dadd (amount s) (amount q)) (unit_ s)) p ps)
  end.

(** Counts that are not negative and whose totals fit an [int]. *)
Definition counts_fit (us : list TurnUsage) : Prop :=
  Z.of_nat (length us) <= int_max
  /\ Forall (fun u => 0 <= tu_rounds u /\ 0 <= tu_prompt u /\ 0 <= tu_completion u /\ 0 <= tu_cached u) us
  /\ sum_of tu_rounds us <= int_max /\ sum_of tu_prompt us <= int_max
  /\ sum_of tu_completion us <= int_max /\ sum_of tu_cached us <= int_max.

(** What the loop leaves, over the turns read so far. *)
Definition total_after (us : list TurnUsage) (cost : option Cost) : SessionUsageTotal :=
  mkTotal (Z.of_nat (length us)) (sum_of tu_rounds us) (sum_of tu_prompt us)
    (sum_of tu_completion us) (sum_of tu_cached us) cost (Z.of_nat (length (costs us))).

Lemma sum_of_app f us vs : sum_of f (us ++ vs) = sum_of f us + sum_of f vs.
Proof. induction us as [|u us IH]; [done|]. cbn. lia. Qed.

Lemma sum_of_nonneg f us : Forall (fun u => 0 <= f u) us -> 0 <= sum_of f us.
Proof. induction 1 as [|u us Hu _ IH]; cbn; [done|]. lia. Qed.

Lemma costs_length us : (length (costs us) <= length us)%nat.
Proof. induction us as [|u us IH]; [done|]. cbn. destruct (tu_cost u); cbn; unfold costs in IH; lia. Qed.

Lemma add_int_ok x y : 0 <= x + y <= int_max -> add_int x y = Ok (x + y).
Proof.
  intros H. unfold add_int. rewrite (proj2 (Z.leb_le _ _)), (proj2 (Z.leb_le _ _)); [done|lia|].
  unfold int_min. lia.
Qed.

(** The step on counts that fit: only the price can go wrong. *)
Lemma total_step_fits us u vs cost seen missing :
  counts_fit (us ++ u :: vs) ->
  total_step (total_after us cost, seen, missing) u
  = match tu_cost u with
    | None => Ok (total_after (us ++ [u]) cost, seen, true)
    | Some price =>
        if negb seen then Ok (total_after (us ++ [u]) (Some price), true, missing)
        else match cost with
             | None => Undef
             | Some sum =>
                 if decide (unit_ sum = unit_ price)
                 then Ok (total_after (us ++ [u])
                            (Some (mkCost (dadd (amount sum) (amount price)) (unit_ sum))), true, missing)
                 else Ok (total_after (us ++ [u]) None, true, true)
             end
    end.
Proof.
  intros (Hlen & Hall & Hs). rewrite !sum_of_app in Hs. cbn [sum_of] in Hs.
  apply Forall_app in Hall as [Hus [Hu Hvs]%Forall_cons].
  assert (Hn : forall f, (forall x, (0 <= tu_rounds x /\ 0 <= tu_prompt x /\ 0 <= tu_completion x
      /\ 0 <= tu_cached x) -> 0 <= f x) -> 0 <= sum_of f us /\ 0 <= sum_of f vs).
  { intros f Hf. split; apply sum_of_nonneg; eapply Forall_impl; eauto. }
  pose proof (Hn tu_rounds ltac:(tauto)). pose proof (Hn tu_prompt ltac:(tauto)).
  pose proof (Hn tu_completion ltac:(tauto)). pose proof (Hn tu_cached ltac:(tauto)).
  rewrite length_app in Hlen. cbn [length] in Hlen. pose proof (costs_length us).
  unfold total_step, total_after. cbn [st_turns st_rounds st_prompt st_completion st_cached st_cost st_priced].
  rewrite !add_int_ok by lia. cbn [res_bind].
  rewrite !sum_of_app, length_app. cbn [sum_of length]. rewrite !Z.add_0_r.
  unfold costs. rewrite omap_app, length_app. cbn [omap list_omap].
  rewrite !Nat2Z.inj_add. destruct (tu_cost u); cbn [length]; [|by rewrite Z.add_0_r].
  destruct (negb seen); [done|]. destruct cost as [sum|]; [|done]. by case_decide.
Qed.

Lemma total_loop_app us vs acc :
  total_loop (us ++ vs) acc = let? acc := total_loop us acc in total_loop vs acc.
Proof.
  revert acc. induction us as [|u us IH]; intros acc; [done|]. cbn.
  destruct (total_step acc u); cbn; [apply IH|done|done].
Qed.

Lemma first_mismatch_snoc p ps q :
  first_mismatch ((p :: ps) ++ [q])
  = match first_mismatch (p :: ps) with
    | Some k => Some k
    | None => if decide (unit_ p = unit_ q) then None else Some (length (p :: ps))
    end.
Proof.
  unfold first_mismatch. cbn [app]. change (p :: ps ++ [q]) with ((p :: ps) ++ [q]).
  destruct (list_find (fun x => unit_ x <> unit_ p) (p :: ps)) as [[k x]|] eqn:E.
  - by rewrite (list_find_app_l _ _ _ _ _ E).
  - rewrite list_find_app_r by done. cbn [list_find fmap option_fmap option_map].
    destruct (decide (unit_ p = unit_ q)) as [H2|H2].
    + rewrite decide_False by (intros H; by apply H). done.
    + rewrite decide_True by congruence. done.
Qed.

Lemma first_mismatch_lt ps k : first_mismatch ps = Some k -> (k < length ps)%nat.
Proof.
  unfold first_mismatch. destruct ps as [|p ps]; [done|].
  destruct (list_find _ _) as [[i x]|] eqn:E; [|done]. intros [= <-].
  apply list_find_Some in E as (H & _). by eapply lookup_lt_Some.
Qed.

Lemma price_sum_snoc p ps q :
  price_sum ((p :: ps) ++ [q])
  = (fun s => mkCost (dadd (amount s) (amount q)) (unit_ s)) <$> price_sum (p :: ps).
Proof. cbn. by rewrite foldl_app. Qed.

Lemma price_sum_unit p ps : exists a, price_sum (p :: ps) = Some (mkCost a (unit_ p)).
Proof.
  cbn. generalize p. induction ps as [|q ps IH]; intros r; cbn; [by exists (amount r); destruct r|].
  apply (IH (mkCost _ _)).
Qed.

(** The loop as a whole. *)
Lemma total_loop_spec us :
  counts_fit us ->
  total_loop us (mkTotal 0 0 0 0 0 None 0, false, false)
  = match first_mismatch (costs us) with
    | Some k => if (S k <? length (costs us))%nat then Undef else Ok (total_after us None, true, true)
    | None => Ok (total_after us (price_sum (costs us)), bool_decide (costs us <> []),
                  bool_decide (length (costs us) <> length us))
    end.
Proof.
  assert (Hgen : forall vs, counts_fit (us ++ vs) ->
    total_loop us (mkTotal 0 0 0 0 0 None 0, false, false)
    = match first_mismatch (costs us) with
      | Some k => if (S k <? length (costs us))%nat then Undef else Ok (total_after us None, true, true)
      | None => Ok (total_after us (price_sum (costs us)), bool_decide (costs us <> []),
                    bool_decide (length (costs us) <> length us))
      end); [|by intros H; apply (Hgen []); rewrite app_nil_r].
  induction us as [|u us IH] using rev_ind; intros vs Hfit; [done|].
  rewrite <- app_assoc in Hfit. rewrite total_loop_app, (IH _ Hfit). clear IH.
  pose proof (costs_length us) as Hle.
  assert (Hcosts : costs (us ++ [u]) = costs us ++ match tu_cost u with Some p => [p] | None => [] end).
  { unfold costs. rewrite omap_app. cbn. by destruct (tu_cost u). }
  rewrite Hcosts. rewrite !length_app. cbn [length].
  destruct (tu_cost u) as [q|] eqn:Hq.
  2:{ rewrite app_nil_r. cbn [length]. rewrite Nat.add_0_r. destruct (first_mismatch (costs us)) as [k|].
      - destruct (S k <? length (costs us))%nat; [done|]. cbn [res_bind total_loop].
        by rewrite (total_step_fits _ _ _ _ _ _ Hfit), Hq.
      - cbn [res_bind total_loop]. rewrite (total_step_fits _ _ _ _ _ _ Hfit), Hq. cbn [res_bind].
        rewrite (bool_decide_eq_true_2 (_ <> (_ + 1)%nat)) by lia. done. }
  cbn [length]. destruct (costs us) as [|p ps] eqn:Hps.
  - cbn [res_bind total_loop first_mismatch list_find fmap option_fmap option_map price_sum].
    rewrite (total_step_fits _ _ _ _ _ _ Hfit), Hq. cbn.
    rewrite decide_False by (intros H; by apply H). cbn. destruct q. do 3 f_equal.
    case_bool_decide; case_bool_decide; try done; cbn in *; lia.
  - rewrite first_mismatch_snoc. destruct (first_mismatch (p :: ps)) as [k|] eqn:Hk.
    + pose proof (first_mismatch_lt _ _ Hk). rewrite (proj2 (Nat.ltb_lt (S k) (length (p :: ps) + 1))) by lia.
      destruct (S k <? length (p :: ps))%nat; [done|]. cbn [res_bind total_loop].
      by rewrite (total_step_fits _ _ _ _ _ _ Hfit), Hq.
    + cbn [res_bind total_loop]. rewrite (total_step_fits _ _ _ _ _ _ Hfit), Hq.
      rewrite bool_decide_eq_true_2 by done. cbn [negb].
      destruct (price_sum_unit p ps) as [a Ha]. rewrite price_sum_snoc, Ha. cbn [unit_ fmap option_fmap option_map amount].
      case_decide as Hu; cbn [res_bind].
      * rewrite (bool_decide_eq_true_2 ((p :: ps) ++ [q] <> [])) by done. do 2 f_equal.
        apply bool_decide_ext. lia.
      * rewrite (proj2 (Nat.ltb_ge _ _)) by lia. done.
Qed.


(** The total of a ledger whose counts fit adds up every turn; it carries a
    price exactly when every turn reported one and all in the same unit, added
    in the order of the node ids.  Two units leave no price, but a further
    priced turn after the first that disagrees reads the price just taken away,
    which is undefined behaviour. *)
Theorem Total_spec l :
  let us := (map_entries l).*2 in
  counts_fit us ->
  Total l
  = match first_mismatch (costs us) with
    | Some k => if (S k <? length (costs us))%nat then Undef else Ok (total_after us None)
    | None => Ok (total_after us (if decide (length (costs us) = length us)
                                  then price_sum (costs us) else None))
    end.
Proof.
  intros us Hfit. unfold Total. fold us. rewrite (total_loop_spec us Hfit).
  destruct (first_mismatch (costs us)) as [k|].
  - by destruct (S k <? length (costs us))%nat.
  - cbn [res_bind]. case_bool_decide as H; destruct (decide _) as [H'|H']; done.
Qed.

(** ** The stored form *)

Definition in_int (z : Z) : Prop := int_min <= z <= int_max.

Definition entry_ok (id : string) (u : TurnUsage) : Prop :=
  tu_node_id u = id /\ in_int (tu_rounds u) /\ in_int (tu_prompt u) /\ in_int (tu_completion u)
  /\ in_int (tu_cached u).

Lemma read_entry_normalize id v : read_entry id (normalize v) = read_entry id v.
Proof.
  unfold read_entry, int_or. rewrite !ValueOrDefault_normalize by auto with pu. f_equal.
  unfold at_key. destruct v as [| |z|z| | | |fields]; try done.
  { cbn. by destruct (z <=? int64_max). }
  cbn [normalize if_object mbind option_bind]. rewrite obj_find_normalize.
  destruct (obj_find "cost" fields) as [c|]; [|done]. cbn [fmap option_fmap option_map].
  destruct c as [| |z|z| | | |cost]; try done; [by cbn; destruct (z <=? int64_max)|].
  cbn [normalize]. change (JObject (map _ cost)) with (normalize (JObject cost)).
  by rewrite !ValueOrDefault_normalize by auto with pu.
Qed.

Lemma entry_fields id u :
  exists fields, serialize_entry id u = JObject fields
    /\ obj_find "rounds" fields = Some (JInt64 (tu_rounds u))
    /\ obj_find "prompt_tokens" fields = Some (JInt64 (tu_prompt u))
    /\ obj_find "completion_tokens" fields = Some (JInt64 (tu_completion u))
    /\ obj_find "cached_tokens" fields = Some (JInt64 (tu_cached u))
    /\ obj_find "cost" fields = cost_json <$> tu_cost u
    /\ string_or (JObject fields) "model" "" = tu_model u
    /\ string_or (JObject fields) "gateway" "" = tu_gateway u.
Proof.
  destruct u as [node rounds prompt completion cached cost model gateway].
  eexists. split; [reflexivity|]. unfold TurnToJson.
  cbn [tu_rounds tu_prompt tu_completion tu_cached tu_cost tu_model tu_gateway].
  destruct (sempty model) eqn:Em; [apply sempty_true in Em as ->|];
    (destruct (sempty gateway) eqn:Eg; [apply sempty_true in Eg as ->|]);
    (destruct cost as [[a unt]|]); split_and!; reflexivity.
Qed.

Lemma read_entry_serialize id u : entry_ok id u -> read_entry id (serialize_entry id u) = u.
Proof.
  intros (Hid & H1 & H2 & H3 & H4).
  destruct (entry_fields id u) as (fields & -> & F1 & F2 & F3 & F4 & F5 & F6 & F7).
  assert (Hint : forall z, in_int z -> to_int (JInt64 z) = Some z) by (intros z; apply in_range_Some).
  unfold read_entry, int_or.
  rewrite (ValueOrDefault_found _ _ _ _ _ _ F1 (Hint _ H1)), (ValueOrDefault_found _ _ _ _ _ _ F2 (Hint _ H2)),
    (ValueOrDefault_found _ _ _ _ _ _ F3 (Hint _ H3)), (ValueOrDefault_found _ _ _ _ _ _ F4 (Hint _ H4)), F6, F7.
  unfold at_key. cbn [if_object mbind option_bind]. rewrite F5.
  destruct u as [node rounds prompt completion cached [[a unt]|] model gateway]; cbn in *; by subst.
Qed.

Lemma serialize_entry_object id u : is_object (normalize (serialize_entry id u)) = true.
Proof. done. Qed.

Lemma read_entries_spec (entries : list (string * TurnUsage)) (l : t) :
  NoDup entries.*1 -> (forall id, id ∈ entries.*1 -> l !! id = None) ->
  Forall (fun e => entry_ok e.1 e.2) entries ->
  read_entries (map (fun e => (e.1, normalize (serialize_entry e.1 e.2))) entries) l
  = list_to_map entries ∪ l.
Proof.
  revert l. induction entries as [|[id u] entries IH]; intros l Hn Hl Hok.
  { cbn. by rewrite (left_id_L ∅ (∪)). }
  apply NoDup_cons in Hn as [Hni Hn]. apply Forall_cons in Hok as [Hu Hok]. cbn [fst snd] in *.
  cbn [map read_entries]. rewrite serialize_entry_object, read_entry_normalize, read_entry_serialize by done.
  rewrite Hl by left. rewrite IH; [| done | | done].
  - rewrite list_to_map_cons, <- insert_union_r; [by rewrite insert_union_l|].
    by apply not_elem_of_list_to_map_1.
  - intros k Hk. rewrite lookup_insert_ne; [apply Hl; by right|]. intros <-. exact (Hni Hk).
Qed.

Lemma Ledger_reads_back l :
  map_Forall entry_ok l -> Deserialize (normalize (Serialize l)) = l.
Proof.
  intros Hok. unfold Serialize. rewrite (foldl_obj_set (fun e => serialize_entry e.1 e.2)).
  - cbn [app Deserialize normalize]. rewrite map_map. cbn [fst snd].
    rewrite read_entries_spec.
    + by rewrite list_to_map_entries, (right_id_L ∅ (∪)).
    + apply NoDup_map_entries.
    + intros id _. apply lookup_empty.
    + apply Forall_forall. intros [id u] Hu%elem_of_map_entries. by apply Hok.
  - apply NoDup_map_entries.
  - intros k _. apply not_elem_of_nil.
Qed.

(** A ledger written to a session file and read back is the same ledger,
    turn by turn: counts, price, model and gateway, also where an empty name or
    an absent price was left out of the file. *)
Theorem Ledger_roundtrip l :
  map_Forall entry_ok l -> Deserialize (normalize (Serialize l)) = l.
Proof. apply Ledger_reads_back. Qed.

(** Recording a turn replaces what its node held and nothing else, a turn
    without a node is not recorded, and [KeepOnly] keeps exactly the live
    turns. *)
Theorem Ledger_entries l usage live :
  (forall id, For id (Record_ usage l)
     = if decide (id = tu_node_id usage /\ id <> "") then Some usage else For id l)
  /\ (forall id, For id (KeepOnly live l) = if decide (id ∈ live) then For id l else None).
Proof.
  split; intros id.
  - unfold Record_, For. destruct (sempty (tu_node_id usage)) eqn:E.
    + apply sempty_true in E. rewrite E. rewrite decide_False; [done|]. by intros [-> ?].
    + apply sempty_false in E. case_decide as H; [destruct H as [-> _]; by rewrite lookup_insert_eq|].
      rewrite lookup_insert_ne; [done|]. intros <-. by apply H.
  - unfold KeepOnly, For. case_decide as H.
    + destruct (l !! id) as [u|] eqn:E.
      * by apply map_lookup_filter_Some.
      * apply map_lookup_filter_None. by left.
    + apply map_lookup_filter_None. right. intros u _. done.
Qed.

(** ** Witnesses *)

Definition priced (id unit : string) : TurnUsage :=
  mkTurn id 1 100 20 0 (Some (mkCost (double_of_Z 1) unit)) "m" "g".

Definition two_priced : t := Record_ (priced "b" "USD") (Record_ (priced "a" "USD") ∅).
Definition mixed : t := Record_ (priced "c" "USD") (Record_ (priced "b" "EUR") two_priced).

Lemma priced_fit (ids : list (string * string)) :
  (length ids <= 10)%nat -> counts_fit (map (fun e => priced e.1 e.2) ids).
Proof.
  intros Hl.
  assert (H : forall f c, (forall e, f (priced e.1 e.2) = c) ->
    sum_of f (map (fun e => priced e.1 e.2) ids) = c * Z.of_nat (length ids)).
  { intros f c Hf. clear Hl. induction ids as [|e ids IH]; cbn [map sum_of length]; [lia|].
    rewrite IH, Hf. lia. }
  unfold counts_fit, int_max. rewrite length_map.
  rewrite (H tu_rounds 1), (H tu_prompt 100), (H tu_completion 20), (H tu_cached 0) by done.
  split_and!; try lia. apply Forall_map, Forall_true. intros e. cbn. lia.
Qed.

Lemma Total_spec_witness :
  Total two_priced = Ok (mkTotal 2 2 200 40 0 (Some (mkCost (double_of_Z 2) "USD")) 2)
  /\ Total mixed = Undef.
Proof.
  split.
  - refine (eq_trans (Total_spec two_priced _) _); [|reflexivity].
    exact (priced_fit [("a", "USD"); ("b", "USD")] ltac:(cbn; lia)).
  - refine (eq_trans (Total_spec mixed _) _); [|reflexivity].
    exact (priced_fit [("a", "USD"); ("b", "EUR"); ("c", "USD")] ltac:(cbn; lia)).
Defined.

Lemma Record_ok u l :
  map_Forall entry_ok l -> entry_ok (tu_node_id u) u -> map_Forall entry_ok (Record_ u l).
Proof.
  intros Hl Hu. unfold Record_. destruct (sempty _); [done|]. by apply map_Forall_insert_2.
Qed.

Lemma priced_ok id unit : entry_ok id (priced id unit).
Proof. unfold entry_ok, in_int, int_min, int_max. cbn. split_and!; (done || lia). Qed.

Lemma Ledger_roundtrip_witness : Deserialize (normalize (Serialize mixed)) = mixed.
Proof.
  apply Ledger_roundtrip. repeat apply Record_ok; try apply priced_ok. apply map_Forall_empty.
Defined.
