(* ===== verification/Gateway.v ===== *)
(** * Gateways and backends ([src/config/gateway.cpp], [src/config/backend.cpp])

    The table of products, what a backend is and how one is read and written.
    The factories of a table row are named by the provider they make; the
    headers of a listing, which draw random ids, are left out.  The
    environment is an argument. *)
From Stdlib Require Import Ascii.
From S2P Require Export Prelude Text Json Message.

Inductive GatewayId := kOllama | kOllamaCloud | kOpenAI | kDeepSeek | kNim | kCodeBuddy.

#[export] Instance GatewayId_eq_dec : EqDecision GatewayId.
Proof. solve_decision. Defined.

Inductive BillingKind := kBillingNone | kReported.
Record Billing := mkBilling { bl_kind : BillingKind; bl_field : string; bl_unit : string }.
Definition no_billing : Billing := mkBilling kBillingNone "" "".

Inductive provider_kind := OllamaProvider | OpenAIProvider | CodeBuddyProvider.
Inductive lister_kind := OllamaModelLister | OpenAIModelLister | CodeBuddyModelLister.

Record Gateway := mkGateway {
  gw_id : GatewayId;
  gw_name : string;
  gw_default_host : string;
  gw_api_key_env : string;
  gw_protocol : string;
  gw_endpoint_path : string;
  gw_make_provider : provider_kind;
  gw_make_listing : lister_kind;
  gw_billing : Billing;
}.

Definition OpenAiProduct (id : GatewayId) (name host key_env : string) : Gateway :=
  mkGateway id name host key_env "openai" "/chat/completions" OpenAIProvider OpenAIModelLister
    no_billing.

Definition kGateways : list Gateway :=
  [mkGateway kOllama "ollama" "http://localhost:11434" "" "ollama" "/api/chat" OllamaProvider
     OllamaModelLister no_billing;
   OpenAiProduct kOllamaCloud "ollama-cloud" "https://ollama.com/v1" "OLLAMA_API_KEY";
   OpenAiProduct kOpenAI "openai" "https://api.openai.com/v1" "OPENAI_API_KEY";
   OpenAiProduct kDeepSeek "deepseek" "https://api.deepseek.com/v1" "DEEPSEEK_API_KEY";
   OpenAiProduct kNim "nim" "https://integrate.api.nvidia.com/v1" "NVIDIA_API_KEY";
   mkGateway kCodeBuddy "codebuddy" "https://copilot.tencent.com/v2" "CODEBUDDY_API_KEY" "openai"
     "/chat/completions" CodeBuddyProvider CodeBuddyModelLister
     (mkBilling kReported "credit" "credits")].

Definition FindGateway (name : string) : option Gateway :=
  List.find (fun g => bool_decide (gw_name g = name)) kGateways.

(** The position of an enumerator, as the message of a missing row prints it. *)
Definition gateway_index (id : GatewayId) : Z :=
  match id with
  | kOllama => 0 | kOllamaCloud => 1 | kOpenAI => 2 | kDeepSeek => 3 | kNim => 4 | kCodeBuddy => 5
  end.

Definition GatewayForId (id : GatewayId) : res Gateway :=
  match List.find (fun g => bool_decide (gw_id g = id)) kGateways with
  | Some g => Ok g
  | None => Throw (GenericError ("No gateway answers for " +:+ decimal (gateway_index id)))
  end.

Definition DefaultHostFor (id : GatewayId) : res string := res_map gw_default_host (GatewayForId id).
Definition GatewayEndpointPath (id : GatewayId) : res string := res_map gw_endpoint_path (GatewayForId id).
Definition GatewayName (id : GatewayId) : res string := res_map gw_name (GatewayForId id).
Definition GatewayNames : string := join_with ", " (map gw_name kGateways).
Definition ApiKeyEnvFor (id : GatewayId) : res string := res_map gw_api_key_env (GatewayForId id).
Definition ParseGatewayId (name : string) : option GatewayId := gw_id <$> FindGateway name.

(** ** Backends *)

Record Backend := mkBackend {
  gateway : GatewayId;
  host : string;
  model : string;
  api_key : option string;
  temperature : spec_float;
  system_prompt_ : option string;
  max_tokens : option Z;
  thinking : ThinkingLevel;
  context_window : option Z;
}.

(** [0.7f] *)
Definition default_temperature : spec_float := S754_finite false 11744051 (-24).

Definition default_backend : Backend :=
  mkBackend kOllama "" "" None default_temperature None None kServerDefault None.

Definition with_host (h : string) (b : Backend) : Backend :=
  mkBackend (gateway b) h (model b) (api_key b) (temperature b) (system_prompt_ b) (max_tokens b)
    (thinking b) (context_window b).
Definition with_model (m : string) (b : Backend) : Backend :=
  mkBackend (gateway b) (host b) m (api_key b) (temperature b) (system_prompt_ b) (max_tokens b)
    (thinking b) (context_window b).
Definition with_api_key (k : option string) (b : Backend) : Backend :=
  mkBackend (gateway b) (host b) (model b) k (temperature b) (system_prompt_ b) (max_tokens b)
    (thinking b) (context_window b).
Definition with_system_prompt (p : option string) (b : Backend) : Backend :=
  mkBackend (gateway b) (host b) (model b) (api_key b) (temperature b) p (max_tokens b)
    (thinking b) (context_window b).

Definition ReadGateway (j : value) : res GatewayId :=
  let name := string_or j "gateway" "" in
  if sempty name then
    Throw (GenericError ("Missing gateway in backend: name one of " +:+ GatewayNames))
  else
    match ParseGatewayId name with
    | None => Throw (GenericError ("Unknown gateway: " +:+ name))
    | Some id => Ok id
    end.

(** [value_to<float>] *)
Definition to_float_value (v : value) : option spec_float :=
  match v with
  | JInt64 z | JUint64 z => Some (binary_normalize 24 128 z 0 false)
  | JDouble d => Some (to_float d)
  | _ => None
  end.

(** A [float] stored as a [double], exactly. *)
Definition double_of_float (x : spec_float) : double :=
  match x with
  | S754_finite s m e => binary_normalize 53 1024 (if s then Zneg m else Zpos m) e s
  | _ => x
  end.

(** Reads the fields into a fresh backend; its other fields keep their defaults. *)
Definition ReadBackendFields (j : value) : res Backend :=
  let? gateway := ReadGateway j in
  Ok (mkBackend gateway (string_or j "host" "") (string_or j "model" "")
        (match at_key j "api_key" with
         | Some (JString key) => if sempty key then None else Some key
         | _ => None
         end)
        (ValueOrDefault to_float_value j "temperature" default_temperature)
        None
        (OptionalOrDefault to_int j "max_tokens")
        (ReadThinkingLevel j)
        (OptionalOrDefault to_int j "context_window")).

Definition ReadBackend (j : value) : res Backend := ReadBackendFields j.

(** The overload of [tag_invoke] that writes one. *)
Definition BackendToJson (cfg : Backend) : res value :=
  let? name := GatewayName (gateway cfg) in
  let j := [("gateway", JString name); ("host", JString (host cfg)); ("model", JString (model cfg));
            ("api_key", JString (default "" (api_key cfg)));
            ("temperature", JDouble (double_of_float (temperature cfg)));
            ("thinking", JString (ThinkingLevelName (thinking cfg)))] in
  let j := match max_tokens cfg with Some n => obj_set "max_tokens" (JInt64 n) j | None => j end in
  let j := match context_window cfg with
           | Some n => obj_set "context_window" (JInt64 n) j | None => j end in
  Ok (JObject j).

(** The row a backend is served by. *)
Definition GateFor (cfg : Backend) : res Gateway :=
  if sempty (host cfg) then
    let? name := GatewayName (gateway cfg) in
    Throw (GenericError ("Missing host for gateway: " +:+ name))
  else GatewayForId (gateway cfg).

(** What [FillProtocolConfig] and [OpenAIConfig] hand a provider. *)
Record ProviderConfig := mkProviderConfig {
  pc_host : string;
  pc_model : string;
  pc_temperature : spec_float;
  pc_api_key : string;
  pc_thinking : ThinkingLevel;
  pc_max_tokens : option Z;
  pc_billing : Billing;
}.

Definition FillProtocolConfig (cfg : Backend) : ProviderConfig :=
  mkProviderConfig (host cfg) (model cfg) (temperature cfg) (default "" (api_key cfg)) (thinking cfg)
    None no_billing.

Definition OpenAIConfig (cfg : Backend) : res ProviderConfig :=
  let protocol := FillProtocolConfig cfg in
  let? row := GatewayForId (gateway cfg) in
  Ok (mkProviderConfig (pc_host protocol) (pc_model protocol) (pc_temperature protocol)
        (pc_api_key protocol) (pc_thinking protocol) (max_tokens cfg) (gw_billing row)).

(** [make_provider], by the kind of the row. *)
Definition CreateBackend (cfg : Backend) : res (provider_kind * ProviderConfig) :=
  let? row := GateFor cfg in
  match gw_make_provider row with
  | OllamaProvider => Ok (OllamaProvider, FillProtocolConfig cfg)
  | kind => let? protocol := OpenAIConfig cfg in Ok (kind, protocol)
  end.

Section Environment.
#[local] Set Default Proof Using "Type*".
(** [std::getenv] *)
Context (getenv : string -> option string).

Definition BackendForGateway (name : string) : res Backend :=
  match ParseGatewayId name with
  | None =>
      Throw (GenericError ("Unknown gateway: " +:+ name +:+ "; name one of " +:+ GatewayNames))
  | Some id =>
      let? h := DefaultHostFor id in
      let? env := ApiKeyEnvFor id in
      let key := if sempty env then None
                 else match getenv env with
                      | Some v => if sempty v then None else Some v
                      | None => None
                      end in
      Ok (mkBackend id h "" key default_temperature None None kServerDefault None)
  end.

End Environment.

(** ** The table answers for every gateway, once *)

(** Every gateway has exactly one row: looking a row up by id or by its name
    gives the same row, names and ids are unique, the name of an id parses back
    to it, and no lookup by id can throw. *)
Theorem gateways_complete id :
  exists row, GatewayForId id = Ok row /\ gw_id row = id
    /\ FindGateway (gw_name row) = Some row
    /\ GatewayName id = Ok (gw_name row)
    /\ ParseGatewayId (gw_name row) = Some id
    /\ (forall other, other ∈ kGateways -> gw_id other = id \/ gw_name other = gw_name row -> other = row)
    /\ gw_default_host row <> "".
Proof.
  destruct id; (eexists; split_and!; [reflexivity..| |done]);
    intros other Ho; repeat (apply elem_of_cons in Ho as [->|Ho]; [by intros [|]|]);
    by apply elem_of_nil in Ho.
Qed.

Lemma GatewayForId_total id : exists row, GatewayForId id = Ok row /\ ParseGatewayId (gw_name row) = Some id
  /\ gw_name row <> "".
Proof. destruct id; by eexists. Qed.

(** Fields that survive the stored form: an empty key is no key, and the
    temperature is a [float] a [double] holds. *)
Definition backend_ok (b : Backend) : Prop :=
  api_key b <> Some ""
  /\ to_float (double_of_float (temperature b)) = temperature b
  /\ (forall n, max_tokens b = Some n -> int_min <= n <= int_max)
  /\ (forall n, context_window b = Some n -> int_min <= n <= int_max).

Lemma OptionalOrDefault_found {T} (to : value -> option T) (o : object) key :
  OptionalOrDefault to (JObject o) key = obj_find key o ≫= to.
Proof. unfold OptionalOrDefault, HasKey, at_key. cbn. by destruct (obj_find key o). Qed.

(** A backend written to its stored form reads back as itself, all but the
    system prompt, which the stored form leaves out. *)
Theorem Backend_roundtrip b :
  backend_ok b ->
  exists j, BackendToJson b = Ok j /\ ReadBackend j = Ok (with_system_prompt None b).
Proof.
  destruct b as [id h m key temp prompt maxt think window]. unfold backend_ok.
  cbn [api_key temperature max_tokens context_window]. intros (Hkey & Htemp & Hmax & Hwin).
  destruct (GatewayForId_total id) as (row & Hrow & Hparse & Hne).
  unfold BackendToJson, GatewayName, res_map.
  cbn [gateway host model api_key temperature max_tokens thinking context_window].
  rewrite Hrow. cbn [res_bind]. eexists. split; [reflexivity|].
  unfold ReadBackend, ReadBackendFields, ReadGateway, ReadThinkingLevel.
  set (fields := match maxt with Some n => _ | None => _ end).
  assert (F : obj_find "gateway" fields = Some (JString (gw_name row))
    /\ obj_find "host" fields = Some (JString h) /\ obj_find "model" fields = Some (JString m)
    /\ obj_find "api_key" fields = Some (JString (default "" key))
    /\ obj_find "temperature" fields = Some (JDouble (double_of_float temp))
    /\ obj_find "thinking" fields = Some (JString (ThinkingLevelName think))
    /\ obj_find "max_tokens" fields = JInt64 <$> maxt /\ obj_find "context_window" fields = None).
  { unfold fields. destruct maxt; split_and!; reflexivity. }
  clearbody fields. destruct F as (F1 & F2 & F3 & F4 & F5 & F6 & F7 & F8).
  set (fields' := match window with Some n => _ | None => _ end).
  assert (G : forall k, k <> "context_window" -> obj_find k fields' = obj_find k fields).
  { intros k Hk. unfold fields'. destruct window; [|done]. by apply obj_find_set_ne. }
  assert (Gw : obj_find "context_window" fields' = JInt64 <$> window).
  { unfold fields'. destruct window; [apply obj_find_set_eq|done]. }
  clearbody fields'.
  rewrite (string_or_JString _ "gateway" (gw_name row)) by (by rewrite G).
  rewrite (proj2 (sempty_false _) Hne), Hparse. cbn [res_bind].
  rewrite (string_or_JString _ "host" h), (string_or_JString _ "model" m) by (by rewrite G).
  unfold at_key. cbn [if_object mbind option_bind]. rewrite !G, F4, F6 by done.
  rewrite (ValueOrDefault_found to_float_value _ _ (JDouble (double_of_float temp)) temp)
    by (first [by rewrite G | by cbn; rewrite Htemp]).
  rewrite !OptionalOrDefault_found, Gw, G, F7, ThinkingLevel_roundtrip by done.
  unfold with_system_prompt. cbn. do 2 f_equal.
  - destruct key as [k|]; [|done]. cbn. destruct (sempty k) eqn:E; [|done].
    apply sempty_true in E as ->. done.
  - destruct maxt as [n|]; [|done]. cbn. by apply in_range_Some, Hmax.
  - destruct window as [n|]; [|done]. cbn. by apply in_range_Some, Hwin.
Qed.

(** A provider is made exactly for a backend with a host, and it is given
    the backend's own host, model, temperature, key and thinking level; only a
    provider of the OpenAI wire is given the token cap and how its product
    bills.  A backend named by its gateway alone always has a host. *)
Theorem CreateBackend_spec b :
  (host b = "" -> exists msg, CreateBackend b = Throw (GenericError msg))
  /\ (host b <> "" -> exists row kind pc,
        GatewayForId (gateway b) = Ok row /\ gw_make_provider row = kind
        /\ CreateBackend b = Ok (kind, pc)
        /\ pc_host pc = host b /\ pc_model pc = model b /\ pc_temperature pc = temperature b
        /\ pc_api_key pc = default "" (api_key b) /\ pc_thinking pc = thinking b
        /\ (gw_protocol row = "openai" -> pc_max_tokens pc = max_tokens b /\ pc_billing pc = gw_billing row)
        /\ (gw_protocol row = "ollama" -> pc_max_tokens pc = None))
  /\ (forall getenv name, (exists msg, BackendForGateway getenv name = Throw (GenericError msg))
        \/ exists b', BackendForGateway getenv name = Ok b' /\ host b' <> ""
             /\ exists made, CreateBackend b' = Ok made).
Proof.
  split_and!.
  - intros Hh. unfold CreateBackend, GateFor, GatewayName, res_map. rewrite Hh. cbn.
    destruct (GatewayForId_total (gateway b)) as (row & -> & _). by eexists.
  - intros Hh%sempty_false. unfold CreateBackend, GateFor, OpenAIConfig. rewrite Hh.
    destruct (gateway b); by do 3 eexists.
  - intros getenv name. unfold BackendForGateway. destruct (ParseGatewayId name) as [id|] eqn:E.
    + right. destruct id; cbn; eexists; (split; [reflexivity|]); (split; [done|]); by eexists.
    + left. by eexists.
Qed.

(** ** Witnesses *)

Definition demo_backend : Backend :=
  mkBackend kDeepSeek "https://api.deepseek.com/v1" "deepseek-chat" (Some "k") default_temperature
    (Some "be brief") (Some 4096) kHigh None.

Lemma Backend_roundtrip_witness :
  exists j, BackendToJson demo_backend = Ok j
    /\ ReadBackend j = Ok (with_system_prompt None demo_backend).
Proof.
  apply Backend_roundtrip. split_and!; [done|reflexivity| |done].
  intros n [= <-]. unfold int_min, int_max. lia.
Defined.

Lemma CreateBackend_spec_witness :
  exists row kind pc, GatewayForId kDeepSeek = Ok row /\ gw_make_provider row = kind
    /\ CreateBackend demo_backend = Ok (kind, pc) /\ pc_host pc = "https://api.deepseek.com/v1".
Proof.
  destruct (proj1 (proj2 (CreateBackend_spec demo_backend)) ltac:(discriminate))
    as (row & kind & pc & H1 & H2 & H3 & H4 & _). by exists row, kind, pc.
Defined.
