(* ===== verification/Models.v ===== *)
(** * Model listings ([src/llm/model_listing.cpp])

    Reading a gateway's catalogue into model entries, and printing a listing.
    The HTTP read is an argument: the body the host answered with. *)
From Stdlib Require Import Ascii.
From S2P Require Export Prelude Text Json.

Record Capabilities := mkCaps {
  supports_tools : bool;
  supports_images : bool;
  supports_reasoning : bool;
  only_reasoning : bool;
  default_effort : string;
  max_input_tokens : Z;
  credits : string;
}.

Definition no_caps : Capabilities := mkCaps false false false false "" 0 "".

Record ModelEntry := mkModel { me_id : string; me_caps : Capabilities }.

Definition ends_with (suffix s : string) : bool :=
  (slen suffix <=? slen s)%nat && bool_decide (sdrop (slen s - slen suffix) s = suffix).

Definition CodeBuddyCatalogUrl (host : string) : string :=
  let origin := if ends_with "/v2" host then stake (slen host - 3) host else host in
  origin +:+ "/v3/config".

Record CatalogShape := mkShape {
  sh_path : string;
  sh_container : string;
  sh_id_key : string;
  sh_nested : string;
  sh_supports_tools : string;
  sh_supports_images : string;
  sh_supports_reasoning : string;
  sh_only_reasoning : string;
  sh_effort_parent : string;
  sh_effort_field : string;
  sh_max_input_tokens : string;
  sh_credits : string;
}.

Definition OllamaShape : CatalogShape := mkShape "/api/tags" "models" "name" "" "" "" "" "" "" "" "" "".
Definition OpenAIShape : CatalogShape := mkShape "/models" "data" "id" "" "" "" "" "" "" "" "" "".
Definition CodeBuddyShape : CatalogShape :=
  mkShape "" "agents" "models" "models" "supportsToolCall" "supportsImages" "supportsReasoning"
    "onlyReasoning" "reasoning" "effort" "maxInputTokens" "credits".

(** ** Reading *)

Definition Field (o : object) (name : string) : option value :=
  if sempty name then None else obj_find name o.

Definition BoolField (o : object) (name : string) : bool :=
  match Field o name with Some (JBool b) => b | _ => false end.

Definition StringField (o : object) (name : string) : string :=
  match Field o name with Some (JString s) => s | _ => "" end.

(** [static_cast<int>] of a 64-bit integer: its low 32 bits, signed. *)
Definition int_of_int64 (z : Z) : Z := (z + 2 ^ 31) mod 2 ^ 32 - 2 ^ 31.

Definition IntField (o : object) (name : string) : Z :=
  match Field o name with Some (JInt64 z) => int_of_int64 z | _ => 0 end.

Definition ReadCapabilities (entry : object) (shape : CatalogShape) : Capabilities :=
  mkCaps (BoolField entry (sh_supports_tools shape)) (BoolField entry (sh_supports_images shape))
    (BoolField entry (sh_supports_reasoning shape)) (BoolField entry (sh_only_reasoning shape))
    (match Field entry (sh_effort_parent shape) with
     | Some (JObject parent) => StringField parent (sh_effort_field shape)
     | _ => ""
     end)
    (IntField entry (sh_max_input_tokens shape)) (StringField entry (sh_credits shape)).

Definition set_max_input (n : Z) (c : Capabilities) : Capabilities :=
  mkCaps (supports_tools c) (supports_images c) (supports_reasoning c) (only_reasoning c)
    (default_effort c) n (credits c).

Definition ReadStrings (array : value) : list string :=
  match array with
  | JArray items => omap to_string items
  | _ => []
  end.

Definition TopLevelKeys (parsed : value) : string :=
  match parsed with
  | JObject fields =>
      let keys := join_with ", " fields.*1 in
      if sempty keys then "(an empty object)" else keys
  | _ => "(not a JSON object)"
  end.

Definition ArrayAt (parsed : value) (key : string) : option (list value) :=
  match at_key parsed key with Some (JArray items) => Some items | _ => None end.


Definition ContainerOr (parsed : value) (key url : string) : res (list value) :=
  match at_key parsed key with
  | Some (JArray items) => Ok items
  | Some JNull => Ok []
  | _ => Throw (GenericError ("Model listing from " +:+ url +:+ " carries no " +:+ quoted key
                  +:+ " array; its top-level keys were: " +:+ TopLevelKeys parsed))
  end.

Definition flat_entry (shape : CatalogShape) (entry : value) : option ModelEntry :=
  match entry with
  | JObject fields =>
      let id := StringField fields (sh_id_key shape) in
      if sempty id then None
      else
        let caps := ReadCapabilities fields shape in
        Some (mkModel id (if max_input_tokens caps =? 0
                          then set_max_input (IntField fields "context_window") caps else caps))
  | _ => None
  end.

Definition ReadFlat (parsed : value) (shape : CatalogShape) (url : string) : res (list ModelEntry) :=
  let? container := ContainerOr parsed (sh_container shape) url in
  Ok (omap (flat_entry shape) container).

Definition named_ids (shape : CatalogShape) (payload : value) : list string :=
  match ArrayAt payload (sh_container shape) with
  | None => []
  | Some agents =>
      agents ≫= (fun agent =>
        match agent with
        | JObject fields =>
            match Field fields (sh_nested shape) with
            | Some named => ReadStrings named
            | None => []
            end
        | _ => []
        end)
  end.

Definition catalogued (shape : CatalogShape) (payload : value) (id : string) : Capabilities :=
  match ArrayAt payload (sh_id_key shape) with
  | None => no_caps
  | Some catalogue =>
      match List.find (fun item => match item with
              | JObject fields => bool_decide (StringField fields "id" = id)
              | _ => false end) catalogue with
      | Some (JObject fields) => ReadCapabilities fields shape
      | _ => no_caps
      end
  end.

Definition ReadCodeBuddy (parsed : value) (shape : CatalogShape) (url : string) : res (list ModelEntry) :=
  match at_key parsed "data" with
  | Some (JObject _ as payload) =>
      Ok (map (fun id => mkModel id (catalogued shape payload id)) (named_ids shape payload))
  | _ => Throw (GenericError ("Model listing from " +:+ url +:+ " carries no " +:+ quoted "data"
                  +:+ " object; its top-level keys were: " +:+ TopLevelKeys parsed))
  end.

Definition ListingTargetFor (protocol gateway host : string) : option (string * CatalogShape) :=
  if bool_decide (protocol = "ollama") then Some (host +:+ sh_path OllamaShape, OllamaShape)
  else if negb (bool_decide (protocol = "openai")) then None
  else if bool_decide (gateway = "codebuddy") then Some (CodeBuddyCatalogUrl host, CodeBuddyShape)
  else Some (host +:+ sh_path OpenAIShape, OpenAIShape).

Section Listing.
Context `{codec : JsonCodec}.

(** [body] is what the read of [url] answered with. *)
Definition ParseListing (url body : string) : res value :=
  if sempty body then Ok JNull
  else match parse body with
       | Some v => Ok v
       | None => Throw (GenericError ("Model listing from " +:+ url +:+ " does not parse as JSON"))
       end.

Definition FlatListModels (shape : CatalogShape) (host body : string) : res (list ModelEntry) :=
  let url := host +:+ sh_path shape in
  let? parsed := ParseListing url body in
  ReadFlat parsed shape url.

Definition CodeBuddyListModels (host body : string) : res (list ModelEntry) :=
  let url := CodeBuddyCatalogUrl host in
  let? parsed := ParseListing url body in
  ReadCodeBuddy parsed CodeBuddyShape url.

End Listing.

(** ** Printing *)

Inductive ListingDetail := kIds | kCaps.

Definition add_word (line word : string) : string :=
  (if sempty line then "" else line +:+ " ") +:+ word.

Definition CapabilityLine (caps : Capabilities) : string :=
  let flag (set : bool) name line := if set then add_word line name else line in
  let line := flag (supports_tools caps) "tools" "" in
  let line := flag (supports_images caps) "images" line in
  let line := flag (supports_reasoning caps) "reasoning" line in
  let line := flag (only_reasoning caps) "only-reasoning" line in
  let line := if sempty (default_effort caps) then line
              else add_word line ("effort=" +:+ default_effort caps) in
  if 0 <? max_input_tokens caps then add_word line ("max-in=" +:+ decimal (max_input_tokens caps))
  else line.

Definition model_row (active_model : string) (width : nat) (detail : ListingDetail) (m : ModelEntry) : string :=
  let left := me_id m +:+ (if bool_decide (me_id m = active_model) then " (active)" else "") in
  "  " +:+ left
  +:+ match detail with
      | kCaps => spaces (width - slen left) +:+ "  " +:+ CapabilityLine (me_caps m)
      | kIds => ""
      end
  +:+ (if sempty (credits (me_caps m)) then "" else "  " +:+ credits (me_caps m)) +:+ NL.

Definition FormatModelList (models : list ModelEntry) (gateway host active_model : string)
    (detail : ListingDetail) : string :=
  let active_listed := existsb (fun m => bool_decide (me_id m = active_model)) models in
  match models with
  | [] => "No models reported by " +:+ gateway +:+ " at " +:+ host
  | _ =>
      let width := (foldl (fun w m => Nat.max w (slen (me_id m))) 0 models + 9)%nat in
      decimal (Z.of_nat (length models)) +:+ " model(s) reported by " +:+ gateway +:+ " at "
      +:+ host +:+ ":" +:+ NL
      +:+ foldr String.append "" (map (model_row active_model width detail) models)
      +:+ (if negb (sempty active_model) && negb active_listed
           then "  " +:+ active_model +:+ " (active, not listed by this gateway)" +:+ NL else "")
  end.
