(* ===== verification/Agents.v ===== *)
(** * Configuration files ([src/config/agents.cpp], [src/config/peer.cpp])

    The readers of [agents.json] and [peers.json] and the rules that resolve
    options from several places.  The environment is a function, a file is the
    text it holds or nothing where it cannot be opened.  [ExpandEnvVars]
    replaces until nothing matches and can go on for ever: it runs on fuel, and
    running out stands for not returning ([Undef]). *)
From Stdlib Require Import Ascii.
From S2P Require Export Prelude Text Json Paging Message Gateway Models.

Record McpServerConfig := mkMcpServer {
  srv_name : string;
  srv_command : string;
  srv_args : list string;
  srv_url : string;
  srv_headers : gmap string string;
}.

Record SecurityPolicy := mkPolicy {
  sandbox_root : string;
  max_command_length : Z;
  forbidden_patterns : list string;
  approval_patterns : list string;
}.

Definition default_policy : SecurityPolicy := mkPolicy "" 0 [] [].

Record AgentEntry := mkAgent {
  ag_name : string;
  ag_description : string;
  ag_backend : Backend;
  ag_security : SecurityPolicy;
  ag_paging : Budget;
  ag_mcp_servers : list McpServerConfig;
  ag_tool_call_budget : option Z;
}.

Record AgentsConfig := mkAgents { default_agent : string; agents : list AgentEntry }.

(** ** Environment variables *)

(** What [\$\{([^}]+)\}] captures at the start of a string: the name and what
    follows the closing brace. *)
Definition match_here (s : string) : option (string * string) :=
  match s with
  | String "$" (String "{" rest) =>
      match sfind "}" rest with
      | Some (S _ as i) => Some (stake i rest, sdrop (S i) rest)
      | _ => None
      end
  | _ => None
  end.

(** [regex_search]: the leftmost match, with what comes before it. *)
Fixpoint regex_search (s : string) : option (string * string * string) :=
  match match_here s with
  | Some (name, after) => Some ("", name, after)
  | None =>
      match s with
      | "" => None
      | String c s' =>
          '(before, name, after) ← regex_search s';
          Some (String c before, name, after)
      end
  end.

Definition is_number (v : value) : bool :=
  match v with JInt64 _ | JUint64 _ | JDouble _ => true | _ => false end.

(** [value_to<std::size_t>] of a number. *)
Definition to_size (v : value) : option Z := to_integer 0 uint64_max v.

(** A size that must be a number if it is there; [value_to] throws where it is a
    number no [size_t] holds. *)
Definition size_at (j : value) (key : string) (def : Z) : res Z :=
  match at_key j key with
  | Some v =>
      if is_number v then
        match to_size v with
        | Some z => Ok z
        | None => Throw (StdException "not exact")
        end
      else Ok def
  | None => Ok def
  end.

Definition strings_at (j : value) (key : string) : list string :=
  match at_key j key with Some (JArray items) => omap to_string items | _ => [] end.

Definition ParseSecurityPolicy (j : value) : res SecurityPolicy :=
  let root := match at_key j "sandbox_root" with Some (JString s) => s | _ => "" end in
  let? len := size_at j "max_command_length" 0 in
  Ok (mkPolicy root len (strings_at j "forbidden_patterns") (strings_at j "approval_patterns")).

Definition ParsePaging (j : value) : res Budget :=
  let? page := size_at j "page_lines" (page_lines default_budget) in
  let? most := size_at j "max_lines" (max_lines default_budget) in
  let? capture := size_at j "capture_bytes" (capture_bytes default_budget) in
  let? bytes := size_at j "retain_bytes" (retain_bytes default_budget) in
  let? buffers := size_at j "retain_buffers" (retain_buffers default_budget) in
  let page := Z.max 1 page in
  Ok (mkBudget page (Z.max page most) (Z.max 1024 capture) (Z.max 1024 bytes) (Z.max 1 buffers)).

Section Config.
#[local] Set Default Proof Using "Type*".
Context (getenv : string -> option string) (fuel : nat).

Fixpoint expand (fuel : nat) (result : string) : res string :=
  match fuel with
  | O => Undef
  | S fuel =>
      match regex_search result with
      | None => Ok result
      | Some (before, name, after) => expand fuel (before +:+ default "" (getenv name) +:+ after)
      end
  end.

Definition ExpandEnvVars (input : string) : res string := expand fuel input.

Definition ParseBackend (j : value) : res Backend :=
  let? cfg := ReadBackendFields j in
  let? h := ExpandEnvVars (host cfg) in
  let? m := ExpandEnvVars (model cfg) in
  let? key := match api_key cfg with
              | Some key => res_map Some (ExpandEnvVars key)
              | None => Ok None
              end in
  let cfg := with_api_key key (with_model m (with_host h cfg)) in
  match at_key j "system_prompt" with
  | None => Ok cfg
  | Some v =>
      match to_string v with
      | None => Throw (StdException "not a string")
      | Some prompt =>
          let? prompt := ExpandEnvVars prompt in
          Ok (with_system_prompt (Some prompt) cfg)
      end
  end.

(** [srv.headers\[key\] = ...] over the string members. *)
Fixpoint read_headers (fields : object) (headers : gmap string string) : res (gmap string string) :=
  match fields with
  | [] => Ok headers
  | (key, JString v) :: fields =>
      let? v := ExpandEnvVars v in
      read_headers fields (<[key := v]> headers)
  | _ :: fields => read_headers fields headers
  end.

Definition ParseMcpServer (item : value) : res (option McpServerConfig) :=
  let name := string_or item "name" "" in
  let command := string_or item "command" "" in
  let args := strings_at item "args" in
  let? url := match at_key item "url" with Some (JString s) => ExpandEnvVars s | _ => Ok "" end in
  let? headers := match at_key item "headers" with
                  | Some (JObject fields) => read_headers fields ∅
                  | _ => Ok ∅
                  end in
  Ok (if negb (sempty name) && (negb (sempty command) || negb (sempty url))
      then Some (mkMcpServer name command args url headers) else None).

Fixpoint ParseMcpServers_items (items : list value) : res (list McpServerConfig) :=
  match items with
  | [] => Ok []
  | item :: items =>
      let? srv := ParseMcpServer item in
      let? rest := ParseMcpServers_items items in
      Ok (match srv with Some srv => srv :: rest | None => rest end)
  end.

Definition ParseMcpServers (j : value) : res (list McpServerConfig) :=
  match j with JArray items => ParseMcpServers_items items | _ => Ok [] end.

(** The member under [key] where it is an object. *)
Definition object_at (j : value) (key : string) : option value :=
  match at_key j key with Some (JObject o) => Some (JObject o) | _ => None end.

Definition ParseAgentEntry (j : value) : res AgentEntry :=
  let name := string_or j "name" "" in
  if sempty name then Throw (GenericError "Missing agent name")
  else
    match object_at j "backend" with
    | None => Throw (GenericError "Missing backend field")
    | Some backend =>
        let? cfg := ParseBackend backend in
        let? cfg := if sempty (host cfg)
                    then res_map (fun h => with_host h cfg) (DefaultHostFor (gateway cfg))
                    else Ok cfg in
        if sempty (model cfg) then Throw (GenericError "Missing model in backend")
        else
          let? security := match object_at j "security" with
                           | Some s => ParseSecurityPolicy s
                           | None => Ok default_policy
                           end in
          let? paging := match object_at j "paging" with
                         | Some p => ParsePaging p
                         | None => Ok default_budget
                         end in
          let? servers := match at_key j "mcp_servers" with
                          | Some (JArray items) => ParseMcpServers (JArray items)
                          | _ => Ok []
                          end in
          Ok (mkAgent name (string_or j "description" "") cfg security paging servers
                (OptionalOrDefault to_int j "tool_call_budget"))
    end.

Fixpoint parse_entries (items : list value) : res (list AgentEntry) :=
  match items with
  | [] => Ok []
  | item :: items =>
      let? entry := ParseAgentEntry item in
      let? rest := parse_entries items in
      Ok (entry :: rest)
  end.

Context `{codec : JsonCodec}.

(** [contents]: the text of the file, [None] where it cannot be opened. *)
Definition LoadAgentsConfig (path : string) (contents : option string) : res AgentsConfig :=
  match contents with
  | None => Throw (GenericError ("Configuration file not found: " +:+ path))
  | Some text =>
      match parse text with
      | None => Throw (GenericError "Failed to parse configuration JSON")
      | Some j =>
          match at_key j "default_agent" with
          | Some (JString name) =>
              match at_key j "agents" with
              | Some (JArray items) =>
                  let? entries := parse_entries items in
                  if existsb (fun e => bool_decide (ag_name e = name)) entries
                  then Ok (mkAgents name entries)
                  else Throw (GenericError "default_agent does not match any configured agent")
              | _ => Throw (GenericError "Missing agents array")
              end
          | _ => Throw (GenericError "Missing default_agent field")
          end
      end
  end.

Definition FindRawAgentEntry (contents : option string) (agent_name : string) : option value :=
  text ← contents;
  parsed ← parse text;
  match at_key parsed "agents" with
  | Some (JArray items) =>
      List.find (fun entry => match at_key entry "name" with
                              | Some (JString s) => bool_decide (s = agent_name)
                              | _ => false
                              end) items
  | _ => None
  end.

(** ** Where to listen *)

Record ServeOptions := mkServe { so_bind : option string; so_port : option Z }.

(** [path] is the configuration file found, if any. *)
Definition FindServeOptions (contents : option string) : res (option ServeOptions) :=
  match contents ≫= parse with
  | None => Ok None
  | Some j =>
      match object_at j "serve" with
      | None => Ok None
      | Some serve =>
          let? bind := match at_key serve "bind" with
                       | Some (JString s) =>
                           let? b := ExpandEnvVars s in
                           Ok (if sempty b then None else Some b)
                       | _ => Ok None
                       end in
          let port := match at_key serve "port" with
                      | Some (JInt64 p) => if (1 <=? p) && (p <=? 65535) then Some p else None
                      | _ => None
                      end in
          Ok (match bind, port with
              | None, None => None
              | _, _ => Some (mkServe bind port)
              end)
      end
  end.

End Config.

Definition ParsePort (text : string) : option Z :=
  if sempty text || (5 <? slen text)%nat then None
  else
    value ← digits_value text 0;
    if (value <? 1) || (65535 <? value) then None else Some value.

Record ListenOptions := mkListen { lo_bind : string; lo_port : Z }.

Definition ResolveListenOptions (flag_bind flag_port env_bind env_port : option string)
    (from_file : option ServeOptions) : ListenOptions :=
  let bind :=
    match flag_bind, env_bind with
    | Some b, _ => b
    | None, Some b => b
    | None, None => default "127.0.0.1" (from_file ≫= so_bind)
    end in
  let named := match flag_port with Some _ => flag_port | None => env_port end in
  let port :=
    match named with
    | None => default 8080 (from_file ≫= so_port)
    | Some text => default 8080 (ParsePort text)
    end in
  mkListen bind port.

(** ** Rendering an entry *)

Definition AgentNameFor (m : ModelEntry) (gateway : string) : string :=
  if bool_decide (gateway = "codebuddy") then gateway +:+ "-" +:+ me_id m else me_id m.

Definition StringMember (o : object) (key : string) : string :=
  match obj_find key o with Some (JString s) => s | _ => "" end.

(** The entry before it is printed; [FormatAgentEntry] is [PrettyPrint] of it. *)
Definition agent_entry (m : ModelEntry) (source : value) : res object :=
  match source with
  | JObject src =>
      match obj_find "backend" src with
      | Some (JObject backend) =>
          let gateway := StringMember backend "gateway" in
          let description := me_id m +:+ " via " +:+ gateway in
          let description := if sempty (credits (me_caps m)) then description
                             else description +:+ ", " +:+ credits (me_caps m) in
          let copied := obj_set "model" (JString (me_id m)) backend in
          let copied :=
            if only_reasoning (me_caps m) && negb (sempty (default_effort (me_caps m))) then
              let named := StringMember copied "thinking" in
              if sempty named || bool_decide (named = "default")
              then obj_set "thinking" (JString (default_effort (me_caps m))) copied
              else copied
            else copied in
          let entry := [("name", JString (AgentNameFor m gateway)); ("description", JString description);
                        ("backend", JObject copied)] in
          Ok (foldl (fun entry key => match obj_find key src with
                                      | Some v => obj_set key v entry
                                      | None => entry
                                      end) entry ["security"; "mcp_servers"; "tool_call_budget"])
      | _ => Throw (GenericError "The agent this command runs as carries no backend to copy")
      end
  | _ => Throw (GenericError "Cannot render an entry from something that is not an object")
  end.

Definition FormatAgentEntry `{codec : JsonCodec} (to_chars : double -> string) (m : ModelEntry)
    (source : value) : res string :=
  res_map (fun entry => PrettyPrint to_chars (JObject entry)) (agent_entry m source).

(** ** Peers *)

Record PeerEntry := mkPeer { peer_name : string; peer_url : string }.
Record PeerConfig := mkPeers { self_name : string; token : string; peers : list PeerEntry }.

Definition ParsePeer (item : value) : option PeerEntry :=
  if is_object item then
    let field key := match at_key item key with Some (JString s) => s | _ => "" end in
    if sempty (field "name") || sempty (field "url") then None
    else Some (mkPeer (field "name") (field "url"))
  else None.

Definition ParsePeers (j : value) : list PeerEntry :=
  match at_key j "peers" with Some (JArray items) => omap ParsePeer items | _ => [] end.

Definition FindPeer (name : string) (c : PeerConfig) : option PeerEntry :=
  List.find (fun e => bool_decide (peer_name e = name)) (peers c).

Definition Knows (name : string) (c : PeerConfig) : bool :=
  match FindPeer name c with Some _ => true | None => false end.

(** The byte at [i], and zero past the end. *)
Definition token_byte (s : string) (i : nat) : Z :=
  match String.get i s with Some c => byte_z c | None => 0 end.

(** [static_cast<unsigned char>] *)
Definition low_byte (z : Z) : Z := z mod 256.

Definition ConstantTimeEquals (a b : string) : bool :=
  foldl (fun difference i => low_byte (Z.lor difference (Z.lxor (token_byte a i) (token_byte b i))))
    (low_byte (Z.lxor (Z.of_nat (slen a)) (Z.of_nat (slen b))))
    (seq 0 (Nat.max (slen a) (slen b))) =? 0.

Definition Accepts (presented : string) (c : PeerConfig) : bool :=
  negb (sempty (token c)) && ConstantTimeEquals (token c) presented.

Section Peers.
Context (getenv : string -> option string) `{codec : JsonCodec}.

Definition PeerTokenFromEnv : option string :=
  match getenv "PU_PEER_TOKEN" with
  | Some s => if sempty s then None else Some s
  | None => None
  end.

Definition LoadPeerConfig (path : string) (contents : option string) : res (option PeerConfig) :=
  match contents with
  | None => Ok None
  | Some text =>
      match parse text with
      | None => Throw (GenericError ("Failed to parse peer configuration JSON: " +:+ path))
      | Some j =>
          let name := match object_at j "self" with
                      | Some self => match at_key self "name" with Some (JString s) => s | _ => "" end
                      | None => ""
                      end in
          let tok := match at_key j "token" with Some (JString s) => s | _ => "" end in
          Ok (Some (mkPeers name (default tok PeerTokenFromEnv) (ParsePeers j)))
      end
  end.

End Peers.

(** ** Expanding variables *)

Lemma match_here_spec s name after :
  match_here s = Some (name, after) ->
  s = "${" +:+ name +:+ "}" +:+ after /\ name <> "" /\ sfind "}" name = None.
Proof.
  unfold match_here. destruct s as [|c [|d rest]]; try done.
  { destruct c as [[] [] [] [] [] [] [] []]; done. }
  destruct (decide (c = "$"%char)) as [->|Hc].
  2:{ destruct c as [[] [] [] [] [] [] [] []]; try done. }
  destruct (decide (d = "{"%char)) as [->|Hd].
  2:{ destruct d as [[] [] [] [] [] [] [] []]; try done. }
  destruct (sfind "}" rest) as [[|i]|] eqn:E; try done. remember (S i) as k eqn:Hk.
  destruct (sfind_Some _ _ _ E) as (H1 & H2 & H3). intros Heq. injection Heq as <- <-.
  split_and!; [|intros H; rewrite H in H3; by subst|done].
  change (String "$" (String "{" rest) = String "$" (String "{" (stake k rest +:+ String "}" (sdrop (S k) rest)))).
  by rewrite <- H1.
Qed.

Lemma match_here_intro name after :
  name <> "" -> sfind "}" name = None ->
  match_here ("${" +:+ name +:+ "}" +:+ after) = Some (name, after).
Proof.
  intros Hn Hf.
  change (match sfind "}" (name +:+ String "}" after) with
          | Some (S _ as i) => Some (stake i (name +:+ String "}" after),
                                     sdrop (S i) (name +:+ String "}" after))
          | _ => None end = Some (name, after)).
  rewrite (sfind_app_None "}" name after) by done.
  destruct (slen name) as [|n] eqn:E; [by apply slen_0 in E|]. rewrite <- E.
  rewrite stake_app_exact. do 2 f_equal.
  change (String "}" after) with ("}" +:+ after). rewrite sapp_assoc.
  replace (S (slen name)) with (slen (name +:+ "}")) by (rewrite slen_app; cbn; lia).
  apply sdrop_app_exact.
Qed.

Lemma regex_search_spec s before name after :
  regex_search s = Some (before, name, after) ->
  s = before +:+ "${" +:+ name +:+ "}" +:+ after /\ name <> "" /\ sfind "}" name = None.
Proof.
  revert before. induction s as [|c s IH]; intros before; [done|].
  cbn [regex_search]. destruct (match_here (String c s)) as [[n a]|] eqn:E.
  - intros [= <- <- <-]. by apply match_here_spec.
  - destruct (regex_search s) as [[[b n] a]|]; [|done]. cbn. intros [= <- <- <-].
    destruct (IH b eq_refl) as (H1 & H2 & H3). split_and!; [|done|done].
    change (String c s = String c (b +:+ ("${" +:+ n +:+ "}" +:+ a))). by rewrite <- H1.
Qed.

(** Expanding variables returns, and with nothing left to expand, whenever
    no value the environment holds contains a dollar sign: every replacement
    uses one up, so as many rounds as the text has dollar signs are enough.
    Without that it may never return: a variable whose value mentions itself is
    expanded for ever, whatever the number of rounds. *)
Theorem ExpandEnvVars_termination getenv :
  (forall s fuel, (forall n v, getenv n = Some v -> count_char "$" v = 0%nat) ->
     (count_char "$" s < fuel)%nat ->
     exists r, ExpandEnvVars getenv fuel s = Ok r /\ regex_search r = None)
  /\ (forall n fuel, n <> "" -> sfind "}" n = None -> getenv n = Some ("${" +:+ n +:+ "}") ->
     ExpandEnvVars getenv fuel ("${" +:+ n +:+ "}") = Undef).
Proof.
  unfold ExpandEnvVars. split.
  - intros s fuel Henv. revert s. induction fuel as [|fuel IH]; intros s Hs; [lia|]. cbn [expand].
    destruct (regex_search s) as [[[b n] a]|] eqn:E; [|by exists s].
    apply IH. destruct (regex_search_spec _ _ _ _ E) as (-> & _ & _).
    assert (Hv : count_char "$" (default "" (getenv n)) = 0%nat).
    { destruct (getenv n) as [v|] eqn:Ev; [by apply (Henv n)|done]. }
    rewrite !count_char_app in Hs. change (count_char "$" "${") with 1%nat in Hs.
    rewrite !count_char_app, Hv. lia.
  - intros n fuel Hn Hf Hv. induction fuel as [|fuel IH]; [done|]. cbn [expand].
    assert (E : regex_search ("${" +:+ n +:+ "}") = Some ("", n, "")).
    { cbn [regex_search]. pose proof (match_here_intro n "" Hn Hf) as Hm.
      rewrite sapp_nil_r in Hm. cbn [String.append] in Hm |- *. cbn [regex_search]. by rewrite Hm. }
    rewrite E, Hv. cbn [default from_option id]. rewrite sapp_nil_r. exact IH.
Qed.

(** ** Comparing tokens *)

Lemma low_byte_land z : low_byte z = Z.land z (Z.ones 8).
Proof. unfold low_byte. change 256 with (2 ^ 8). by rewrite Z.land_ones. Qed.

Lemma low_byte_lor x y : low_byte (Z.lor x y) = Z.lor (low_byte x) (low_byte y).
Proof. rewrite !low_byte_land. apply Z.land_lor_distr_l. Qed.

Lemma low_byte_lxor x y : low_byte (Z.lxor x y) = 0 <-> low_byte x = low_byte y.
Proof.
  rewrite <- (Z.lxor_eq_0_iff (low_byte x)).
  enough (low_byte (Z.lxor x y) = Z.lxor (low_byte x) (low_byte y)) as -> by done.
  rewrite !low_byte_land. apply Z.bits_inj'. intros n _.
  rewrite !Z.land_spec, !Z.lxor_spec, !Z.land_spec.
  by destruct (Z.testbit x n), (Z.testbit y n), (Z.testbit (Z.ones 8) n).
Qed.

Lemma low_byte_idem x : low_byte (low_byte x) = low_byte x.
Proof. unfold low_byte. by apply Z.mod_mod. Qed.

Lemma fold_difference (f : nat -> Z) d l :
  low_byte d = d ->
  foldl (fun difference i => low_byte (Z.lor difference (f i))) d l = 0
  <-> d = 0 /\ forall i, i ∈ l -> low_byte (f i) = 0.
Proof.
  revert d. induction l as [|i l IH]; intros d Hd; cbn [foldl].
  - split; [|by intros [? _]]. intros ->. split; [done|]. by intros i ?%elem_of_nil.
  - rewrite IH by apply low_byte_idem. rewrite low_byte_lor, Z.lor_eq_0_iff, Hd. split.
    + intros [[H1 H2] H3]. split; [done|]. intros j [->|Hj]%elem_of_cons; [done|by apply H3].
    + intros [H1 H2]. split; [split; [done|apply H2; left]|]. intros j Hj. apply H2. by right.
Qed.

Lemma token_byte_range s i : 0 <= token_byte s i < 256.
Proof. unfold token_byte. case_match; [apply byte_z_range|lia]. Qed.

Lemma token_byte_ge s i : (slen s <= i)%nat -> token_byte s i = 0.
Proof.
  unfold token_byte. revert i. induction s as [|c s IH]; intros [|i] Hi; cbn in *; try done; try lia.
  apply IH. lia.
Qed.

Lemma ConstantTimeEquals_bytes a b :
  ConstantTimeEquals a b = true
  <-> Z.of_nat (slen a) mod 256 = Z.of_nat (slen b) mod 256
      /\ forall i, token_byte a i = token_byte b i.
Proof.
  unfold ConstantTimeEquals. rewrite Z.eqb_eq.
  rewrite (fold_difference (fun i => Z.lxor (token_byte a i) (token_byte b i))) by apply low_byte_idem.
  rewrite low_byte_lxor. apply and_iff_compat_l.
  assert (Hx : forall i, low_byte (Z.lxor (token_byte a i) (token_byte b i)) = 0 <-> token_byte a i = token_byte b i).
  { intros i. rewrite low_byte_lxor. unfold low_byte.
    by rewrite !Z.mod_small by apply token_byte_range. }
  setoid_rewrite Hx. split; [|auto].
  intros H i. destruct (decide (i < Nat.max (slen a) (slen b))%nat) as [Hi|Hi].
  - apply H. apply elem_of_seq. lia.
  - by rewrite !token_byte_ge by lia.
Qed.

Lemma token_byte_eq a b : slen a = slen b -> (forall i, token_byte a i = token_byte b i) -> a = b.
Proof.
  revert b. induction a as [|c a IH]; intros [|d b] Hl H; try done.
  f_equal; [rewrite <- (chr_byte_z d); apply byte_z_inj, (H 0%nat)|]. apply IH; [by injection Hl|]. intros i. apply (H (S i)).
Qed.

Definition nuls (n : nat) : string := Nat.iter n (String zero) "".

Lemma token_byte_nuls a n i : token_byte (a +:+ nuls n) i = token_byte a i.
Proof.
  unfold token_byte. revert i. induction a as [|c a IH]; intros i; cbn.
  - revert i. induction n as [|n IHn]; intros [|i]; try done. apply IHn.
  - destruct i; [done|]. apply IH.
Qed.

Lemma slen_nuls n : slen (nuls n) = n.
Proof. induction n as [|n IH]; [done|]. cbn. by rewrite <- IH at 2. Qed.

(** Two tokens whose lengths differ by less than 256 compare equal exactly
    when they are equal, and a peer is never accepted without a configured
    token.  But only the low byte of the difference in length counts: every
    token is also accepted with 256 zero bytes appended. *)
Theorem ConstantTimeEquals_spec a b c :
  (Z.abs (Z.of_nat (slen a) - Z.of_nat (slen b)) < 256 -> ConstantTimeEquals a b = bool_decide (a = b))
  /\ ConstantTimeEquals a (a +:+ nuls 256) = true
  /\ (token c = "" -> Accepts b c = false)
  /\ (token c <> "" -> Accepts (token c +:+ nuls 256) c = true).
Proof.
  assert (Hpad : forall s, ConstantTimeEquals s (s +:+ nuls 256) = true).
  { intros s. apply ConstantTimeEquals_bytes. split.
    - rewrite slen_app, slen_nuls, Nat2Z.inj_add.
      change (Z.of_nat 256) with (1 * 256). by rewrite Z.mod_add.
    - intros i. by rewrite token_byte_nuls. }
  split_and!; [|apply Hpad| |].
  - intros Hlen. apply eq_bool_prop_intro. rewrite !Is_true_true, bool_decide_eq_true.
    rewrite ConstantTimeEquals_bytes. split; [|by intros ->].
    intros [Hmod Hbytes]. apply token_byte_eq; [|done].
    pose proof (Z.div_mod (Z.of_nat (slen a)) 256). pose proof (Z.div_mod (Z.of_nat (slen b)) 256). lia.
  - intros Ht. unfold Accepts. by rewrite Ht.
  - intros Ht%sempty_false. unfold Accepts. by rewrite Ht, Hpad.
Qed.

(** ** Loading *)

Definition budget_sane (b : Budget) : Prop :=
  1 <= page_lines b <= max_lines b /\ 1024 <= capture_bytes b /\ 1024 <= retain_bytes b
  /\ 1 <= retain_buffers b.

Definition entry_sane (e : AgentEntry) : Prop :=
  ag_name e <> "" /\ host (ag_backend e) <> "" /\ model (ag_backend e) <> ""
  /\ budget_sane (ag_paging e)
  /\ Forall (fun s => srv_name s <> "" /\ (srv_command s <> "" \/ srv_url s <> "")) (ag_mcp_servers e).

Lemma ParsePaging_sane j b : ParsePaging j = Ok b -> budget_sane b.
Proof.
  unfold ParsePaging. intros H. do 5 (apply res_bind_Ok in H as (? & _ & H)).
  injection H as <-. unfold budget_sane. cbn. lia.
Qed.

Lemma ParseMcpServers_sane getenv fuel j l :
  ParseMcpServers getenv fuel j = Ok l ->
  Forall (fun s => srv_name s <> "" /\ (srv_command s <> "" \/ srv_url s <> "")) l.
Proof.
  destruct j as [| | | | | |items|]; cbn; try by intros [= <-].
  revert l. induction items as [|item items IH]; intros l; cbn; [by intros [= <-]|].
  intros (srv & Hs & H)%res_bind_Ok. apply res_bind_Ok in H as (rest & Hr & H).
  specialize (IH _ Hr). destruct srv as [srv|]; injection H as <-; [|done].
  constructor; [|done]. unfold ParseMcpServer in Hs.
  apply res_bind_Ok in Hs as (url & _ & Hs). apply res_bind_Ok in Hs as (headers & _ & Hs).
  destruct (_ && _) eqn:E in Hs; [|done]. injection Hs as <-. cbn.
  apply andb_prop in E as [E1 E2]. apply negb_true_iff, sempty_false in E1. split; [done|].
  apply orb_prop in E2 as [E2|E2]; apply negb_true_iff, sempty_false in E2; auto.
Qed.

Lemma ParseAgentEntry_sane getenv fuel j e : ParseAgentEntry getenv fuel j = Ok e -> entry_sane e.
Proof.
  unfold ParseAgentEntry. destruct (sempty (string_or j "name" "")) eqn:En; [done|].
  destruct (object_at j "backend") as [backend|]; [|done].
  intros (cfg & _ & H)%res_bind_Ok. apply res_bind_Ok in H as (cfg' & Hh & H).
  destruct (sempty (model cfg')) eqn:Em; [done|].
  apply res_bind_Ok in H as (security & _ & H). apply res_bind_Ok in H as (pg & Hp & H).
  apply res_bind_Ok in H as (servers & Hs & H). injection H as <-.
  unfold entry_sane. cbn [ag_name ag_backend ag_paging ag_mcp_servers].
  split_and!; [by apply sempty_false| |by apply sempty_false| |].
  - destruct (sempty (host cfg)) eqn:Eh; [|by injection Hh as <-; apply sempty_false].
    unfold res_map in Hh. apply res_bind_Ok in Hh as (h & Hd & Hh). injection Hh as <-. cbn.
    unfold DefaultHostFor, res_map in Hd. by destruct (gateway cfg); injection Hd as <-.
  - destruct (object_at j "paging"); [by eapply ParsePaging_sane|]. injection Hp as <-. done.
  - destruct (at_key j "mcp_servers") as [[]|]; try (by injection Hs as <-).
    by eapply ParseMcpServers_sane.
Qed.

(** A configuration that loads can be run: the default agent is one of its
    agents, the agents are the file's entries in order, every agent has a name,
    a model, a host (its gateway's own where the file names none), a paging
    budget the pager can serve, servers with a name and a way to reach them,
    and its provider can be made. *)
Theorem LoadAgentsConfig_sane getenv fuel `{codec : JsonCodec} path contents cfg :
  LoadAgentsConfig getenv fuel path contents = Ok cfg ->
  (exists e, e ∈ agents cfg /\ ag_name e = default_agent cfg)
  /\ Forall entry_sane (agents cfg)
  /\ Forall (fun e => exists made, CreateBackend (ag_backend e) = Ok made) (agents cfg)
  /\ exists text j items, contents = Some text /\ parse text = Some j
      /\ at_key j "agents" = Some (JArray items)
      /\ Forall2 (fun item e => ParseAgentEntry getenv fuel item = Ok e) items (agents cfg).
Proof.
  unfold LoadAgentsConfig. destruct contents as [text|]; [|done].
  destruct (parse text) as [j|] eqn:Hj; [|done].
  destruct (at_key j "default_agent") as [[| | | | |name| |]|]; try done.
  destruct (at_key j "agents") as [[| | | | | |items|]|] eqn:Ha; try done.
  intros (entries & He & H)%res_bind_Ok. destruct (existsb _ entries) eqn:Ed; [|done].
  injection H as <-. cbn [agents default_agent].
  assert (H2 : Forall2 (fun item e => ParseAgentEntry getenv fuel item = Ok e) items entries).
  { clear Ha Ed. revert entries He. induction items as [|item items IH]; intros entries; cbn;
      [by intros [= <-]; constructor|].
    intros (e & H1 & H)%res_bind_Ok. apply res_bind_Ok in H as (rest & Hr & H). injection H as <-.
    constructor; [done|by apply IH]. }
  assert (Hs : Forall entry_sane entries).
  { clear -H2. induction H2; constructor; [by eapply ParseAgentEntry_sane|done]. }
  split_and!; [|done| |by exists text, j, items].
  - apply existsb_exists in Ed as (e & Hin & Hn%bool_decide_eq_true). exists e.
    split; [by apply list_elem_of_In|done].
  - eapply Forall_impl; [exact Hs|]. intros e (_ & Hh%sempty_false & _).
    unfold CreateBackend, GateFor, OpenAIConfig. rewrite Hh.
    destruct (gateway (ag_backend e)); by eexists.
Qed.

(** ** Where to listen *)

Lemma ParsePort_range text p : ParsePort text = Some p -> 1 <= p <= 65535.
Proof.
  unfold ParsePort. destruct (_ || _); [done|]. destruct (digits_value text 0) as [v|]; [|done]. cbn.
  destruct (_ || _) eqn:E; [done|]. intros [= <-].
  apply orb_false_iff in E as [E1%Z.ltb_ge E2%Z.ltb_ge]. lia.
Qed.

Lemma ParsePort_decimal p : 1 <= p <= 65535 -> ParsePort (decimal p) = Some p.
Proof.
  intros Hp. unfold ParsePort. rewrite (proj2 (sempty_false _) (decimal_nonempty p)).
  pose proof (decimal_len 5 p ltac:(lia) ltac:(lia)) as Hl.
  rewrite (proj2 (Nat.ltb_ge _ _)) by lia. cbn [orb]. rewrite decimal_value by lia. cbn.
  by rewrite (proj2 (Z.ltb_ge _ _)), (proj2 (Z.ltb_ge _ _)) by lia.
Qed.

Lemma FindServeOptions_port getenv fuel `{codec : JsonCodec} contents o p :
  FindServeOptions getenv fuel contents = Ok (Some o) -> so_port o = Some p -> 1 <= p <= 65535.
Proof.
  unfold FindServeOptions. destruct (contents ≫= parse) as [j|]; [|done].
  destruct (object_at j "serve") as [serve|]; [|done].
  intros (bind & _ & H)%res_bind_Ok Hp.
  set (port := match at_key serve "port" with Some (JInt64 p) => _ | _ => None end) in H.
  assert (Hport : port = so_port o).
  { clearbody port. destruct bind, port; try discriminate H; injection H as <-; done. }
  rewrite Hp in Hport. unfold port in Hport. destruct (at_key serve "port") as [[]|]; try done.
  destruct (_ && _) eqn:E; [|done]. injection Hport as <-.
  apply andb_prop in E as [E1%Z.leb_le E2%Z.leb_le]. lia.
Qed.

(** Whatever the flags, the environment and the file say, the program
    listens on a port in 1..65535; the flag decides before the environment and
    the environment before the file, a port that was named but is no port
    falls back to 8080 rather than to the next place, and the interface is the
    first one named, else the loopback. *)
Theorem ResolveListenOptions_spec getenv fuel `{codec : JsonCodec} contents from_file
    flag_bind flag_port env_bind env_port :
  FindServeOptions getenv fuel contents = Ok from_file ->
  let o := ResolveListenOptions flag_bind flag_port env_bind env_port from_file in
  1 <= lo_port o <= 65535
  /\ (forall p, 1 <= p <= 65535 -> flag_port = Some (decimal p) -> lo_port o = p)
  /\ (forall p, 1 <= p <= 65535 -> flag_port = None -> env_port = Some (decimal p) -> lo_port o = p)
  /\ (forall text, flag_port = Some text -> ParsePort text = None -> lo_port o = 8080)
  /\ (flag_port = None -> env_port = None -> lo_port o = default 8080 (from_file ≫= so_port))
  /\ (forall b, flag_bind = Some b -> lo_bind o = b)
  /\ (forall b, flag_bind = None -> env_bind = Some b -> lo_bind o = b)
  /\ (flag_bind = None -> env_bind = None -> lo_bind o = default "127.0.0.1" (from_file ≫= so_bind)).
Proof.
  intros Hf o. unfold o, ResolveListenOptions. cbn [lo_port lo_bind]. split; [|split_and!].
  - assert (Hnamed : forall text, 1 <= default 8080 (ParsePort text) <= 65535).
    { intros text. destruct (ParsePort text) as [p|] eqn:E; [by apply ParsePort_range in E|cbn; lia]. }
    destruct flag_port as [t|]; [apply Hnamed|]. destruct env_port as [t|]; [apply Hnamed|].
    destruct from_file as [so|]; [|cbn; lia]. cbn. destruct (so_port so) as [p|] eqn:E; [|cbn; lia].
    cbn. by eapply FindServeOptions_port.
  - intros p Hp ->. by rewrite ParsePort_decimal.
  - intros p Hp -> ->. by rewrite ParsePort_decimal.
  - intros text -> Ht. by rewrite Ht.
  - by intros -> ->.
  - by intros b ->.
  - by intros b -> ->.
  - by intros -> ->.
Qed.

(** ** Rendering an entry *)

Lemma foldl_keep_members (src : object) keys (entry : object) k :
  k ∉ keys ->
  obj_find k (foldl (fun entry key => match obj_find key src with
                                      | Some v => obj_set key v entry
                                      | None => entry end) entry keys) = obj_find k entry.
Proof.
  revert entry. induction keys as [|key keys IH]; intros entry Hk; [done|].
  apply not_elem_of_cons in Hk as [Hne Hk]. cbn [foldl]. rewrite IH by done.
  destruct (obj_find key src); [|done]. by apply obj_find_set_ne.
Qed.

(** An entry rendered for a model copies the backend of the file's text, so
    a key stays spelled as the file spells it: every member but the model and
    the thinking level is the file's, the model is the one asked for, and a
    thinking level the file names (other than [default]) is kept, while a model
    that only reasons is given its own effort otherwise. *)
Theorem agent_entry_spec m source entry :
  agent_entry m source = Ok entry ->
  exists src backend copied,
    source = JObject src /\ obj_find "backend" src = Some (JObject backend)
    /\ obj_find "backend" entry = Some (JObject copied)
    /\ obj_find "name" entry = Some (JString (AgentNameFor m (StringMember backend "gateway")))
    /\ obj_find "model" copied = Some (JString (me_id m))
    /\ (forall k, k <> "model" -> k <> "thinking" -> obj_find k copied = obj_find k backend)
    /\ let named := StringMember backend "thinking" in
       let effort := default_effort (me_caps m) in
       if only_reasoning (me_caps m) && negb (sempty effort)
          && (sempty named || bool_decide (named = "default"))
       then obj_find "thinking" copied = Some (JString effort)
       else obj_find "thinking" copied = obj_find "thinking" backend.
Proof.
  unfold agent_entry. destruct source as [| | | | | | |src]; try done.
  destruct (obj_find "backend" src) as [[| | | | | | |backend]|] eqn:Hb; try done.
  intros H%Ok_inj. exists src, backend.
  set (base := obj_set "model" (JString (me_id m)) backend) in H.
  assert (Hth : StringMember base "thinking" = StringMember backend "thinking").
  { unfold StringMember, base. by rewrite obj_find_set_ne. }
  rewrite Hth in H.
  set (copied := if only_reasoning (me_caps m) && _ then _ else base) in H.
  exists copied. split_and!; try done.
  - rewrite <- H, foldl_keep_members; [done|].
    by rewrite !not_elem_of_cons; split_and!; [..|apply not_elem_of_nil].
  - rewrite <- H, foldl_keep_members; [done|].
    by rewrite !not_elem_of_cons; split_and!; [..|apply not_elem_of_nil].
  - unfold copied. destruct (_ && _); [destruct (_ || _)|]; rewrite ?obj_find_set_ne by done; apply obj_find_set_eq.
  - intros k H1 H2. unfold copied. destruct (_ && _); [destruct (_ || _)|];
      rewrite ?obj_find_set_ne by done; unfold base; by rewrite obj_find_set_ne.
  - cbn zeta. unfold copied. destruct (only_reasoning _ && _) eqn:E1; cbn [andb].
    + destruct (_ || _); [apply obj_find_set_eq|]. unfold base. by rewrite obj_find_set_ne.
    + unfold base. by rewrite obj_find_set_ne.
Qed.

(** ** Witnesses *)

Definition demo_env (name : string) : option string :=
  if decide (name = "HOST") then Some "http://box:11434"
  else if decide (name = "LOOP") then Some "${LOOP}" else None.

Definition plain_env (name : string) : option string :=
  if decide (name = "HOST") then Some "http://box:11434" else None.

Lemma ExpandEnvVars_termination_witness :
  (exists r, ExpandEnvVars plain_env 2 "${HOST}/v1" = Ok r /\ regex_search r = None)
  /\ ExpandEnvVars demo_env 1000 "${LOOP}" = Undef.
Proof.
  split.
  - apply (proj1 (ExpandEnvVars_termination plain_env)); [|vm_compute; lia].
    intros n v. unfold plain_env. case_decide; [by intros [= <-]|done].
  - by apply (proj2 (ExpandEnvVars_termination demo_env) "LOOP" 1000%nat).
Defined.

Lemma ConstantTimeEquals_spec_witness :
  ConstantTimeEquals "secret" "secreT" = false
  /\ Accepts ("secret" +:+ nuls 256) (mkPeers "me" "secret" []) = true.
Proof.
  split.
  - exact (proj1 (ConstantTimeEquals_spec "secret" "secreT" (mkPeers "" "" [])) ltac:(reflexivity)).
  - exact (proj2 (proj2 (proj2 (ConstantTimeEquals_spec "" "" (mkPeers "me" "secret" [])))) ltac:(discriminate)).
Defined.

Definition demo_config : value :=
  JObject [("default_agent", JString "main");
           ("agents", JArray [JObject [("name", JString "main");
              ("backend", JObject [("gateway", JString "ollama"); ("model", JString "qwen3")])]])].

Lemma LoadAgentsConfig_sane_witness :
  exists cfg,
    LoadAgentsConfig (codec := bit_codec) plain_env 100 "agents.json"
      (Some (serialize (JsonCodec := bit_codec) demo_config)) = Ok cfg
    /\ Forall entry_sane (agents cfg).
Proof.
  destruct (LoadAgentsConfig (codec := bit_codec) plain_env 100 "agents.json"
    (Some (serialize (JsonCodec := bit_codec) demo_config))) as [cfg| |] eqn:E;
    [|vm_compute in E; discriminate E|vm_compute in E; discriminate E].
  exists cfg. split; [reflexivity|].
  exact (proj1 (proj2 (LoadAgentsConfig_sane plain_env 100 (codec := bit_codec) _ _ _ E))).
Defined.

Lemma ResolveListenOptions_spec_witness :
  lo_port (ResolveListenOptions None (Some "99999") None None (Some (mkServe None (Some 9000)))) = 8080
  /\ lo_port (ResolveListenOptions None None None (Some (decimal 8081)) None) = 8081.
Proof.
  split; [reflexivity|].
  refine (proj1 (proj2 (proj2 (ResolveListenOptions_spec plain_env 100 (codec := bit_codec) None None
    None None None (Some (decimal 8081)) _))) 8081 _ _ _); try reflexivity. lia.
Defined.

Definition demo_source : value :=
  JObject [("backend", JObject [("gateway", JString "openai"); ("model", JString "old");
                                ("api_key", JString "${OPENAI_API_KEY}")])].

Lemma agent_entry_spec_witness :
  exists entry copied, agent_entry (mkModel "new" no_caps) demo_source = Ok entry
    /\ obj_find "backend" entry = Some (JObject copied)
    /\ obj_find "api_key" copied = Some (JString "${OPENAI_API_KEY}").
Proof.
  destruct (agent_entry_spec (mkModel "new" no_caps) demo_source _ eq_refl)
    as (src & backend & copied & Hs & Hb & He & _ & _ & Hk & _).
  eexists _, copied. split; [reflexivity|]. split; [exact He|].
  rewrite Hk by discriminate. injection Hs as <-. injection Hb as <-. reflexivity.
Defined.
