(* ===== verification/Tools.v ===== *)
(** * Tools ([include/pu/tools/], [src/tools/toolbox.cpp], [policy.cpp], [write_file.cpp])

    The result envelope every tool answers with, the toolbox, the command
    policy and the file tool.  A tool is its name, description, schema and what
    executing it does; [std::regex] and the file system are parameters, as a
    pattern's meaning and a path's resolution are not this program's. *)
From Stdlib Require Import Ascii.
From S2P Require Export Prelude Text Json Paging Message Models Agents.

Inductive Refusal := kNoRefusal | kPolicy | kNobodyToAsk.

#[export] Instance Refusal_eq_dec : EqDecision Refusal.
Proof. solve_decision. Defined.

Record ToolResult := mkResult {
  r_valid : bool;
  r_success : bool;
  r_blocked : bool;
  r_refusal : Refusal;
  r_output : string;
  r_error : string;
  r_exit_code : Z;
}.

Definition no_result : ToolResult := mkResult false false false kNoRefusal "" "" 0.

(** The object of [MakeToolResultJson], before it is written. *)
Definition result_object (success : bool) (output error : string) (exit_code : Z) (blocked : bool)
    (refusal : Refusal) (extra : object) : object :=
  let j := [("success", JBool success); ("blocked", JBool blocked);
            ("output", JString (SanitizeUtf8 output)); ("error", JString (SanitizeUtf8 error));
            ("exit_code", JInt64 exit_code)] in
  let j := if decide (refusal = kNobodyToAsk) then obj_set "refusal" (JString "nobody_to_ask") j
           else j in
  foldl (fun j field => obj_set field.1 field.2 j) j extra.

Definition QuoteJoin (names : list string) : string := join_with ", " (map quoted names).

Section Envelope.
#[local] Set Default Proof Using "Type*".
Context `{codec : JsonCodec}.

Definition MakeToolResultJson (success : bool) (output error : string) (exit_code : Z)
    (blocked : bool) (refusal : Refusal) (extra : object) : string :=
  serialize (JObject (result_object success output error exit_code blocked refusal extra)).

Definition MakeRefusal (error : string) (blocked : bool) (refusal : Refusal) : string :=
  MakeToolResultJson false "" error (-1) blocked refusal [].

(** What [ParseToolResult] reads from a parsed object.  [value_to<bool>] throws
    on another kind, after [valid] was set; the rest keeps its defaults. *)
Definition read_result (j : value) (success : value) : ToolResult :=
  match to_bool success with
  | None => mkResult true false false kNoRefusal "" "" 0
  | Some ok =>
      let blocked := ValueOrDefault to_bool j "blocked" false in
      let refusal := string_or j "refusal" "" in
      mkResult true ok blocked
        (if bool_decide (refusal = "nobody_to_ask") then kNobodyToAsk
         else if blocked then kPolicy else kNoRefusal)
        (string_or j "output" "") (string_or j "error" "") (ValueOrDefault to_int j "exit_code" 0)
  end.

Definition ParseToolResult (raw : string) : ToolResult :=
  match parse raw with
  | None => no_result
  | Some j =>
      match at_key j "success" with
      | None => no_result
      | Some success => read_result j success
      end
  end.

(** [McpTool::WrapResult] *)
Definition WrapResult (raw : string) : string :=
  let is_error := starts_with "Error:" raw || starts_with "MCP error:" raw
                  || starts_with "MCP call error:" raw in
  MakeToolResultJson (negb is_error) raw (if is_error then raw else "") (if is_error then 1 else 0)
    false kNoRefusal [].

End Envelope.

(** ** The toolbox *)

(** [Tool]: [state] is what executing tools can change. *)
Record Tool (state : Type) := mkToolImpl {
  Name : string;
  Description : string;
  ParametersSchema : value;
  Execute : value -> state -> state * res string;
}.
Arguments mkToolImpl {state} _ _ _ _.
Arguments Name {state} _.
Arguments Description {state} _.
Arguments ParametersSchema {state} _.
Arguments Execute {state} _ _ _.

Definition is_alnum (c : ascii) : bool :=
  is_digit c || ((65 <=? byte_z c) && (byte_z c <=? 90)) || ((97 <=? byte_z c) && (byte_z c <=? 122)).

Definition IsAllowedToolNameChar (c : ascii) : bool :=
  is_alnum c || bool_decide (c = "_"%char) || bool_decide (c = "-"%char).

Fixpoint SanitizeToolName (name : string) : string :=
  match name with
  | "" => ""
  | String c name => String (if IsAllowedToolNameChar c then c else "_") (SanitizeToolName name)
  end.

Module Toolbox.
Section Toolbox.
Context {state : Type}.

Abbreviation t := (gmap string (Tool state)).

Definition Clear (tools : t) : t := ∅.

(** The suffix loop, from [suffix]. *)
Fixpoint free_name (fuel : nat) (tools : t) (base : string) (suffix : Z) (display_name : string)
    : option string :=
  match fuel with
  | O => None
  | S fuel =>
      match tools !! display_name with
      | None => Some display_name
      | Some _ => free_name fuel tools base (suffix + 1) (base +:+ "_" +:+ decimal suffix)
      end
  end.

(** [None]: the loop has not ended. *)
Definition RegisterTool (tool : Tool state) (tools : t) : option (bool * t) :=
  if sempty (Name tool) then Some (false, tools)
  else
    let base := SanitizeToolName (Name tool) in
    display_name ← free_name (S (S (size tools))) tools base 1 base;
    Some (true, <[display_name := tool]> tools).

(** The map is unordered in the source; here its entries come in key order. *)
Definition ToolNames (tools : t) : list string := (map_entries tools).*1.

Definition ToolDefinitions (tools : t) : list ToolDefinition :=
  map (fun e => mkToolDefinition e.1 (Description e.2) (ParametersSchema e.2)) (map_entries tools).

Definition ExecuteTool `{codec : JsonCodec} (name : string) (args : value) (tools : t) (s : state)
    : state * res string :=
  match tools !! name with
  | None => (s, Ok (MakeToolResultJson false "" ("Tool not found: " +:+ name) (-1) false kNoRefusal []))
  | Some tool => Execute tool args s
  end.

End Toolbox.
End Toolbox.

(** ** Policy *)

Inductive Risk := kSafeRisk | kNeutral | kApproval | kDangerousRisk.

#[export] Instance Risk_eq_dec : EqDecision Risk.
Proof. solve_decision. Defined.

Record Assessment := mkAssessment { risk : Risk; reason : string }.

Definition kDangerous : list string :=
  ["rm\s+-rf\s+/"; "sudo\b"; "mkfs"; "dd\s+if=.*of=/dev/sd"; ":\(\)\{ :\|:&\};:"].

Definition kSafe : list string :=
  ["ls"; "pwd"; "cat"; "head"; "tail"; "less"; "more"; "echo"; "date"; "whoami"; "hostname"; "uptime";
   "which"; "type"; "wc"; "sort"; "uniq"; "cut"; "tr"; "find ."; "grep"; "awk"; "sed"; "diff"; "file";
   "stat"; "du"; "df"; "free"; "ps"; "top -n"; "pgrep"].

Section Policy.
#[local] Set Default Proof Using "Type*".
(** [std::regex(pattern, icase)] and [regex_search]: [None] where the engine
    refuses the pattern. *)
Context (regex : string -> option (string -> bool)).

Definition Compile (patterns : list string) : list (string * (string -> bool)) :=
  omap (fun p => (fun e => (p, e)) <$> regex p) patterns.

(** [MatchesAny]: the first pattern that matches. *)
Definition MatchesAny (command : string) (rules : list (string * (string -> bool))) : option string :=
  fst <$> List.find (fun rule => rule.2 command) rules.

Definition MatchesAnyPattern (command : string) (patterns : list string) : bool :=
  existsb (fun p => match regex p with Some e => e command | None => false end) patterns.

Definition Assess (command : string) (policy : option SecurityPolicy) : Assessment :=
  match MatchesAny command (Compile kDangerous) with
  | Some pattern => mkAssessment kDangerousRisk ("matches dangerous pattern: " +:+ pattern)
  | None =>
      let asks := match policy with
                  | Some p => MatchesAnyPattern command (approval_patterns p)
                  | None => false
                  end in
      if asks then mkAssessment kApproval ""
      else mkAssessment
             (match MatchesAny command (Compile kSafe) with Some _ => kSafeRisk | None => kNeutral end) ""
  end.

End Policy.

(** ** Writing a file *)

(** The steps [write_file] asks of the file system, on paths as their components:
    [weakly_canonical] of the root, of a path below it, and the two that can
    fail on the way to a written file. *)
Record file_system := mkFs {
  fs_root : string -> option (list string);
  fs_below : list string -> string -> option (list string);
  fs_make_parents : list string -> bool;
  fs_open : list string -> bool;
}.

Fixpoint Within (root target : list string) : bool :=
  match root, target with
  | [], _ => true
  | r :: root, t :: target => bool_decide (r = t) && Within root target
  | _ :: _, [] => false
  end.

Section WriteFile.
#[local] Set Default Proof Using "Type*".
Context `{codec : JsonCodec} (fs : file_system).

(** The answer, and the file written: its path and its content. *)
Definition WriteFile_Execute (security : option SecurityPolicy) (args : value)
    : string * option (list string * string) :=
  let refuse error blocked := (MakeRefusal error blocked kNoRefusal, None) in
  let path := string_or args "path" "" in
  let content := string_or args "content" "" in
  if sempty path then refuse "'path' is required" false
  else
    match security with
    | None => refuse "security policy not set" false
    | Some policy =>
        match fs_root fs (sandbox_root policy) with
        | None => refuse ("cannot resolve sandbox root: " +:+ sandbox_root policy) false
        | Some root =>
            match fs_below fs root path with
            | None => refuse "invalid path" false
            | Some target =>
                if negb (Within root target) then
                  refuse "path outside sandbox root (traversal not allowed)" true
                else if negb (fs_make_parents fs target) then
                  refuse "cannot create parent directories" false
                else if negb (fs_open fs target) then refuse ("cannot write to " +:+ path) false
                else
                  (MakeToolResultJson true
                     ("Successfully wrote " +:+ decimal (Z.of_nat (slen content)) +:+ " bytes to "
                        +:+ path) "" 0 false kNoRefusal [],
                   Some (target, content))
            end
        end
    end.

End WriteFile.

(** ** The envelope *)

Definition envelope_keys : list string :=
  ["success"; "blocked"; "output"; "error"; "exit_code"; "refusal"].

Lemma foldl_obj_set_other (extra o : object) k :
  k ∉ extra.*1 -> obj_find k (foldl (fun j field => obj_set field.1 field.2 j) o extra) = obj_find k o.
Proof.
  revert o. induction extra as [|[k' v] extra IH]; intros o Hk; [done|].
  cbn in Hk. apply not_elem_of_cons in Hk as [Hne Hk]. cbn [foldl fst snd].
  rewrite IH by done. by apply obj_find_set_ne.
Qed.

Lemma foldl_obj_set_in (extra o : object) k :
  k ∈ extra.*1 -> NoDup extra.*1 ->
  obj_find k (foldl (fun j field => obj_set field.1 field.2 j) o extra) = obj_find k extra.
Proof.
  revert o. induction extra as [|[k' v] extra IH]; intros o Hk Hn; [by apply elem_of_nil in Hk|].
  cbn in Hk, Hn |- *. apply NoDup_cons in Hn as [Hni Hn]. case_decide as Hd.
  - subst k'. rewrite foldl_obj_set_other by done. apply obj_find_set_eq.
  - apply elem_of_cons in Hk as [->|Hk]; [done|]. by apply IH.
Qed.

Lemma wire_foldl_set (extra o : object) :
  wire (JObject extra) = true -> wire (JObject o) = true ->
  wire (JObject (foldl (fun j field => obj_set field.1 field.2 j) o extra)) = true.
Proof.
  rewrite wire_spec, plain_JObject, depth_JObject. intros [[_ Hp] [_ Hd]].
  revert o. induction extra as [|[k v] extra IH]; intros o Ho; [done|].
  apply Forall_cons in Hp as [[Hk Hv] Hp]. apply Forall_cons in Hd as [Hdv Hd]. cbn [foldl fst snd] in *.
  apply IH; [done|done|]. apply wire_obj_set; try done.
Qed.

Lemma result_object_wire success output error exit_code blocked refusal extra :
  in_range int_min int_max exit_code = Some exit_code -> wire (JObject extra) = true ->
  wire (JObject (result_object success output error exit_code blocked refusal extra)) = true.
Proof.
  intros Hc Hx. unfold result_object. apply wire_foldl_set; [done|].
  assert (Hbase : wire (JObject [("success", JBool success); ("blocked", JBool blocked);
    ("output", JString (SanitizeUtf8 output)); ("error", JString (SanitizeUtf8 error));
    ("exit_code", JInt64 exit_code)]) = true).
  { apply wire_spec. split.
    - apply plain_JObject. split; [by apply (bool_decide_eq_true_1 _)|].
      repeat constructor; cbn; try apply SanitizeUtf8_is_valid; try done.
      unfold in_range in Hc. destruct (_ && _) eqn:E; [|done].
      apply andb_prop in E as [E1%Z.leb_le E2%Z.leb_le].
      unfold int_min, int_max, int64_min, int64_max in *.
      by rewrite (proj2 (Z.leb_le _ _)), (proj2 (Z.leb_le _ _)) by lia.
    - apply depth_JObject. split; [lia|]. repeat constructor; cbn; lia. }
  case_decide; [|done]. apply wire_obj_set; try done. cbn. lia.
Qed.

Section EnvelopeFacts.
#[local] Set Default Proof Using "Type*".
Context `{codec : JsonCodec} {ok : JsonCodecOk codec}.

Lemma ParseToolResult_object result v success :
  wire (JObject result) = true -> obj_find "success" result = Some (JBool success) ->
  v = serialize (JObject result) ->
  ParseToolResult v
  = mkResult true success (ValueOrDefault to_bool (JObject result) "blocked" false)
      (if bool_decide (string_or (JObject result) "refusal" "" = "nobody_to_ask") then kNobodyToAsk
       else if ValueOrDefault to_bool (JObject result) "blocked" false then kPolicy else kNoRefusal)
      (string_or (JObject result) "output" "") (string_or (JObject result) "error" "")
      (ValueOrDefault to_int (JObject result) "exit_code" 0).
Proof.
  intros Hw Hs ->. unfold ParseToolResult. rewrite parse_serialize by done.
  unfold at_key. cbn [normalize if_object mbind option_bind]. rewrite obj_find_normalize, Hs.
  cbn [fmap option_fmap option_map normalize]. unfold read_result. cbn [to_bool].
  change (JObject (map _ result)) with (normalize (JObject result)).
  by rewrite !ValueOrDefault_normalize by auto with pu.
Qed.

Lemma ParseToolResult_envelope success output error exit_code blocked refusal extra :
  in_range int_min int_max exit_code = Some exit_code -> wire (JObject extra) = true ->
  Forall (fun k => k ∉ envelope_keys) extra.*1 ->
  ParseToolResult (MakeToolResultJson success output error exit_code blocked refusal extra)
  = mkResult true success blocked
      (if decide (refusal = kNobodyToAsk) then kNobodyToAsk else if blocked then kPolicy else kNoRefusal)
      (SanitizeUtf8 output) (SanitizeUtf8 error) exit_code.
Proof.
  intros Hc Hx Hkeys. unfold MakeToolResultJson.
  pose proof (result_object_wire success output error exit_code blocked refusal extra Hc Hx) as Hw.
  assert (Hout : forall k, k ∈ envelope_keys ->
    obj_find k (result_object success output error exit_code blocked refusal extra)
    = obj_find k (result_object success output error exit_code blocked refusal [])).
  { intros k Hk. unfold result_object. apply foldl_obj_set_other.
    intros Hin. rewrite Forall_forall in Hkeys. by apply (Hkeys k Hin). }
  set (o := result_object success output error exit_code blocked refusal extra) in *. clearbody o.
  assert (F : obj_find "success" o = Some (JBool success) /\ obj_find "blocked" o = Some (JBool blocked)
    /\ obj_find "output" o = Some (JString (SanitizeUtf8 output))
    /\ obj_find "error" o = Some (JString (SanitizeUtf8 error))
    /\ obj_find "exit_code" o = Some (JInt64 exit_code)
    /\ obj_find "refusal" o = if decide (refusal = kNobodyToAsk) then Some (JString "nobody_to_ask") else None).
  { rewrite !Hout by (by apply (bool_decide_eq_true_1 _)).
    destruct refusal; split_and!; reflexivity. }
  destruct F as (F1 & F2 & F3 & F4 & F5 & F6).
  rewrite (ParseToolResult_object o _ success Hw F1 eq_refl).
  rewrite (ValueOrDefault_found to_bool _ _ _ blocked _ F2 eq_refl).
  rewrite (string_or_JString _ _ _ _ F3), (string_or_JString _ _ _ _ F4).
  rewrite (ValueOrDefault_found to_int _ _ _ exit_code _ F5 Hc).
  destruct refusal.
  1,2: by rewrite (ValueOrDefault_absent _ _ _ _ (F6 : obj_find "refusal" o = None)).
  by rewrite (string_or_JString _ _ _ _ F6).
Qed.

(** What a tool reports is what is read back: through the codec, every
    envelope parses as a valid result with the same success, refusal and exit
    code and the sanitized texts, whatever fields a tool adds beside the
    envelope's own, each of which is read back too; a refusal that is not for want of someone to ask reads as
    the policy's. *)
Theorem ToolResult_roundtrip success output error exit_code blocked refusal extra :
  int_min <= exit_code <= int_max -> wire (JObject extra) = true ->
  Forall (fun k => k ∉ envelope_keys) extra.*1 ->
  let raw := MakeToolResultJson success output error exit_code blocked refusal extra in
  ParseToolResult raw
  = mkResult true success blocked
      (if decide (refusal = kNobodyToAsk) then kNobodyToAsk else if blocked then kPolicy else kNoRefusal)
      (SanitizeUtf8 output) (SanitizeUtf8 error) exit_code
  /\ exists fields, parse raw = Some (JObject fields)
      /\ forall k, k ∈ extra.*1 -> NoDup extra.*1 -> obj_find k fields = normalize <$> obj_find k extra.
Proof.
  intros Hc%in_range_Some Hx Hkeys raw. split; [by apply ParseToolResult_envelope|].
  unfold raw, MakeToolResultJson. eexists.
  rewrite parse_serialize by (by apply result_object_wire). split; [reflexivity|].
  intros k Hk Hn. rewrite obj_find_normalize. f_equal. unfold result_object. by apply foldl_obj_set_in.
Qed.

Lemma ParseToolResult_flags success output error exit_code blocked refusal :
  in_range int_min int_max exit_code = Some exit_code ->
  ParseToolResult (MakeToolResultJson success output error exit_code blocked refusal [])
  = mkResult true success blocked
      (if decide (refusal = kNobodyToAsk) then kNobodyToAsk else if blocked then kPolicy else kNoRefusal)
      (SanitizeUtf8 output) (SanitizeUtf8 error) exit_code.
Proof. intros Hc. by apply ParseToolResult_envelope. Qed.

End EnvelopeFacts.

(** ** Registering a tool *)

Lemma SanitizeToolName_allowed name : all_chars IsAllowedToolNameChar (SanitizeToolName name) = true.
Proof.
  induction name as [|c name IH]; [done|]. cbn. rewrite IH, andb_true_r.
  destruct (IsAllowedToolNameChar c) eqn:E; done.
Qed.

Lemma SanitizeToolName_len name : slen (SanitizeToolName name) = slen name.
Proof. induction name as [|c name IH]; [done|]. cbn. by rewrite IH. Qed.

Section Register.
#[local] Set Default Proof Using "Type*".
Context {state : Type}.
Implicit Types tools : gmap string (Tool state).

Definition suffixed (base : string) (k : Z) : string := base +:+ "_" +:+ decimal k.

(** The names the suffix loop tries. *)
Fixpoint tried (fuel : nat) (base : string) (suffix : Z) (display_name : string) : list string :=
  match fuel with
  | O => []
  | S fuel => display_name :: tried fuel base (suffix + 1) (suffixed base suffix)
  end.

Lemma free_name_None fuel tools base suffix d :
  Toolbox.free_name fuel tools base suffix d = None ->
  Forall (fun n => n ∈ dom tools) (tried fuel base suffix d).
Proof.
  revert suffix d. induction fuel as [|fuel IH]; intros suffix d; [constructor|]. cbn.
  destruct (tools !! d) eqn:E; [|done]. intros H. constructor; [by apply elem_of_dom_2 in E|by apply IH].
Qed.

Lemma free_name_Some fuel tools base suffix d n :
  Toolbox.free_name fuel tools base suffix d = Some n ->
  tools !! n = None /\ (n = d \/ exists k, suffix <= k /\ n = suffixed base k).
Proof.
  revert suffix d. induction fuel as [|fuel IH]; intros suffix d; [done|]. cbn.
  destruct (tools !! d) eqn:E; [|by intros [= <-]; auto].
  intros H. destruct (IH _ _ H) as [H1 [->|(k & Hk & ->)]]; (split; [done|]); right.
  - exists suffix. split; [lia|done].
  - exists k. split; [lia|done].
Qed.

Lemma suffixed_inj base j k : 0 <= j -> 0 <= k -> suffixed base j = suffixed base k -> j = k.
Proof. intros Hj Hk E. unfold suffixed in E. do 2 apply sapp_inj_r in E. by apply decimal_inj. Qed.

Lemma tried_spec fuel base suffix d n :
  n ∈ tried fuel base suffix d -> n = d \/ exists k, suffix <= k /\ n = suffixed base k.
Proof.
  revert suffix d. induction fuel as [|fuel IH]; intros suffix d; [by intros ?%elem_of_nil|]. cbn.
  intros [->|Hn]%elem_of_cons; [by left|]. right. destruct (IH _ _ Hn) as [->|(k & Hk & ->)].
  - exists suffix. split; [lia|done].
  - exists k. split; [lia|done].
Qed.

Lemma tried_NoDup fuel base suffix d :
  0 <= suffix -> (forall k, suffix <= k -> d <> suffixed base k) -> NoDup (tried fuel base suffix d).
Proof.
  revert suffix d. induction fuel as [|fuel IH]; intros suffix d Hs Hd; cbn; constructor.
  - intros [E|(k & Hk & E)]%tried_spec; [by apply (Hd suffix)|apply (Hd k); [lia|done]].
  - apply IH; [lia|]. intros k Hk E%suffixed_inj; lia.
Qed.

Lemma tried_length fuel base suffix d : length (tried fuel base suffix d) = fuel.
Proof. revert suffix d. induction fuel as [|fuel IH]; intros; cbn; [done|]. by rewrite IH. Qed.

Lemma free_name_total tools base : exists n, Toolbox.free_name (S (S (size tools))) tools base 1 base = Some n.
Proof.
  destruct (Toolbox.free_name _ _ _ _ _) as [n|] eqn:E; [by exists n|exfalso].
  apply free_name_None in E. set (names := tried _ _ _ _) in E.
  assert (Hn : NoDup names).
  { apply tried_NoDup; [lia|]. intros k _ Eb. apply (f_equal slen) in Eb. unfold suffixed in Eb.
    rewrite slen_app in Eb. cbn in Eb. lia. }
  assert (Hlen : length names = S (S (size tools))) by apply tried_length.
  rewrite <- (size_list_to_set (C := gset string)) in Hlen by done.
  assert (Hsub : (list_to_set names : gset string) ⊆ dom tools).
  { intros x. rewrite elem_of_list_to_set. intros Hx. rewrite Forall_forall in E. by apply E. }
  apply subseteq_size in Hsub. rewrite size_dom in Hsub. lia.
Qed.

(** Registering a named tool always ends, and adds it under a name of its
    own: one no tool had, made of the characters a provider allows, its
    sanitized name or that with a counter; every tool already there keeps its
    name.  A tool without a name is refused. *)
Theorem RegisterTool_spec (tool : Tool state) tools :
  (Name tool = "" -> Toolbox.RegisterTool tool tools = Some (false, tools))
  /\ (Name tool <> "" -> exists display tools',
        Toolbox.RegisterTool tool tools = Some (true, tools')
        /\ tools !! display = None /\ tools' = <[display := tool]> tools
        /\ (display = SanitizeToolName (Name tool)
            \/ exists k, 1 <= k /\ display = suffixed (SanitizeToolName (Name tool)) k)
        /\ all_chars IsAllowedToolNameChar display = true
        /\ (tools !! SanitizeToolName (Name tool) = None -> display = SanitizeToolName (Name tool))).
Proof.
  unfold Toolbox.RegisterTool. split; [by intros ->|]. intros Hn%sempty_false. rewrite Hn.
  set (base := SanitizeToolName (Name tool)).
  destruct (free_name_total tools base) as [n E]. rewrite E. cbn.
  destruct (free_name_Some _ _ _ _ _ _ E) as [Hfree Hshape].
  exists n, (<[n := tool]> tools). split_and!; try done.
  - assert (Hb := SanitizeToolName_allowed (Name tool)). fold base in Hb.
    destruct Hshape as [->|(k & _ & ->)]; [done|]. unfold suffixed. rewrite !all_chars_app, Hb.
    cbn [andb]. assert (Hd := decimal_digits k). clear -Hd.
    induction (decimal k) as [|c s IH]; [done|]. cbn in *. apply andb_prop in Hd as [Hc Hs].
    unfold IsAllowedToolNameChar, is_alnum. rewrite Hc. cbn. by apply IH.
  - intros Hbase. cbn [Toolbox.free_name] in E. rewrite Hbase in E. by injection E as <-.
Qed.

End Register.

(** ** Confinement of written files *)

Lemma Within_spec root target : Within root target = true <-> exists below, target = root ++ below.
Proof.
  revert target. induction root as [|r root IH]; intros [|t target]; cbn.
  - split; [by exists []|done].
  - split; [by eexists|done].
  - split; [done|]. by intros [below ?].
  - rewrite andb_true_iff, bool_decide_eq_true, IH. split.
    + intros [-> [below ->]]. by exists below.
    + intros [below [= -> ->]]. split; [done|by exists below].
Qed.


(** ** Witnesses *)

Lemma ToolResult_roundtrip_witness :
  ParseToolResult (codec := bit_codec)
    (MakeToolResultJson (codec := bit_codec) false "out" "no" 2 true kPolicy [("page", JNull)])
  = mkResult true false true kPolicy "out" "no" 2.
Proof.
  refine (proj1 (ToolResult_roundtrip (codec := bit_codec) false "out" "no" 2 true kPolicy [("page", JNull)]
    _ _ _)).
  - unfold int_min, int_max. lia.
  - reflexivity.
  - repeat constructor. by apply (bool_decide_eq_true_1 _).
Defined.

Definition demo_tool (name : string) : Tool nat :=
  mkToolImpl name "" (JObject []) (fun _ n => (S n, Ok "")).

Lemma RegisterTool_spec_witness :
  exists display tools',
    Toolbox.RegisterTool (demo_tool "mcp.x.read") {[ "mcp_x_read" := demo_tool "mcp_x_read" ]}
    = Some (true, tools') /\ display <> "mcp_x_read" /\ tools' !! display = Some (demo_tool "mcp.x.read").
Proof.
  destruct (proj2 (RegisterTool_spec (demo_tool "mcp.x.read") {[ "mcp_x_read" := demo_tool "mcp_x_read" ]})
    ltac:(discriminate)) as (display & tools' & E & Hfree & -> & _).
  exists display. eexists. split; [exact E|]. split; [|apply lookup_insert_eq].
  intros ->. by rewrite lookup_singleton_eq in Hfree.
Defined.

Definition demo_fs : file_system :=
  mkFs (fun _ => Some ["tmp"; "safe"])
    (fun _ path => Some (if decide (path = "../safe-evil/x") then ["tmp"; "safe-evil"; "x"]
                         else ["tmp"; "safe"; path])) (fun _ => true) (fun _ => true).

