(* ===== verification/Bash.v ===== *)
(** * The command tool ([src/tools/bash.cpp])

    [execute_bash] judges a command, asks for approval where the policy says so,
    runs it and answers with a page of what it printed.  What the shell does with
    a command line and the user's answer are arguments; what the tool did with
    them is in what it returns. *)
From Stdlib Require Import Ascii.
From S2P Require Export Prelude Text Json Exec Paging Message Agents Tools.

(** [ToolContext::Control]: whether there is a stop token, the user's words
    beside a stop, and whether an approval's words have somewhere to go. *)
Record Control := mkControl { stop_token : bool; ctl_note : string; on_note : bool }.

Record ToolContext := mkContext {
  security : option SecurityPolicy;
  control : option Control;
  (** [Approval::ask]: the decision on a command, and the words beside it. *)
  approval : option (string -> bool * string);
  peer_origin : string;
}.

(** What executing the tool did beside answering. *)
Record bash_effects := mkEffects {
  ran_command : option string;
  asked : option string;
  noted : option string;
}.

Definition no_effects : bash_effects := mkEffects None None None.

Section Bash.
#[local] Set Default Proof Using "Type*".
Context `{codec : JsonCodec}.
(** What becomes of a command line given to the shell. *)
Context (shell : string -> os_run) (regex : string -> option (string -> bool)).
Context (sandbox_root_ : string).

Definition PageLines (args : value) (p : Pager) : Z :=
  let budget := budget_ p in
  let lines := default (page_lines budget) (OptionalOrDefault to_size args "limit") in
  let lines := if lines =? 0 then page_lines budget else lines in
  Z.min lines (max_lines budget).

Definition unit_separator : ascii := "031"%char.

Definition SourceKey (command : string) : string :=
  command +:+ String unit_separator sandbox_root_.

Definition PageResult (buffer : Buffer) (anchor : Anchor) (lines : Z) : string :=
  let page := Read buffer anchor lines in
  let v := b_verdict buffer in
  MakeToolResultJson (v_ok v) (p_text page) (v_error v) (exit_code v) false kNoRefusal
    (Envelope buffer page).

Definition ReadAt (cursor : Cursor) (lines : Z) (p : Pager) : string :=
  match Find (cur_buffer cursor) p with
  | None => MakeRefusal ("no such page: " +:+ cur_buffer cursor
              +:+ " is no longer retained. Run the command again to read it.") false kNoRefusal
  | Some buffer =>
      if buffer_lines buffer <=? cur_line cursor then
        MakeRefusal ("cursor is past the end of " +:+ cur_buffer cursor) false kNoRefusal
      else PageResult buffer (At cursor) lines
  end.

(** [None]: the command is still being read. *)
Definition RunAndPage (command : string) (anchor : Anchor) (lines : Z) (ctx : ToolContext) (p : Pager)
    : option (Pager * string) :=
  let stops := match control ctx with Some c => stop_token c | None => false end in
  ran ← Run (shell (full_cmd command sandbox_root_)) command stops (capture_bytes (budget_ p))
          (if from_end anchor then kEnd else kHead);
  let v := verdict ran in
  let v := match control ctx with
           | Some c => if stopped v && negb (sempty (ctl_note c))
                       then with_error (v_error v +:+ ". The user adds: " +:+ ctl_note c) v else v
           | None => v
           end in
  let '(p, buffer) := Store (captured ran) v (SourceKey command) p in
  Some (p, PageResult buffer anchor lines).

Definition refused (p : Pager) (e : bash_effects) (error : string) (blocked : bool) (refusal : Refusal)
    : option (Pager * bash_effects * res string) :=
  Some (p, e, Ok (MakeRefusal error blocked refusal)).

(** The run, once the command may. *)
Definition run_allowed (command : string) (anchor : Anchor) (lines : Z) (ctx : ToolContext)
    (p : Pager) (e : bash_effects) : option (Pager * bash_effects * res string) :=
  '(p, answer) ← RunAndPage command anchor lines ctx p;
  Some (p, mkEffects (Some command) (asked e) (noted e), Ok answer).

(** The checks on a command, in the order of [Execute]. *)
Definition judge_and_run (command : string) (anchor : Anchor) (lines : Z) (ctx : ToolContext) (p : Pager)
    : option (Pager * bash_effects * res string) :=
  let too_long := match security ctx with
                  | Some s => (0 <? max_command_length s) && (max_command_length s <? zlen command)
                  | None => false
                  end in
  if too_long then
    refused p no_effects ("command exceeds maximum allowed length ("
      +:+ match security ctx with Some s => decimal (max_command_length s) | None => "" end +:+ ")")
      false kNoRefusal
  else if match security ctx with
          | Some s => MatchesAnyPattern regex command (forbidden_patterns s)
          | None => false
          end then
    refused p no_effects
      ("Command rejected: contains a forbidden pattern. This sandbox forbids "
         +:+ match security ctx with Some s => QuoteJoin (forbidden_patterns s) | None => "" end
         +:+ ". Rework the command to stay within them.") true kNoRefusal
  else
    let assessment := Assess regex command (security ctx) in
    match risk assessment with
    | kDangerousRisk => refused p no_effects ("Command rejected: " +:+ reason assessment) true kNoRefusal
    | kApproval =>
        match approval ctx with
        | None =>
            refused p no_effects
              ("Command needs user approval and no approval channel is open. Rework it to avoid: "
                 +:+ QuoteJoin (match security ctx with Some s => approval_patterns s | None => [] end)
                 +:+ ".") true kNobodyToAsk
        | Some ask =>
            let '(granted, note) := ask command in
            let e := mkEffects None (Some command) None in
            if negb granted then
              refused p e ("Command rejected by the user"
                 +:+ (if sempty note then "" else ". The user adds: " +:+ note)) true kNoRefusal
            else
              let heard := negb (sempty note)
                           && match control ctx with Some c => on_note c | None => false end in
              run_allowed command anchor lines ctx p
                (mkEffects None (Some command) (if heard then Some note else None))
        end
    | _ => run_allowed command anchor lines ctx p no_effects
    end.

Definition Bash_Execute (args : value) (ctx : ToolContext) (p : Pager)
    : option (Pager * bash_effects * res string) :=
  let at_ := string_or args "at" "head" in
  match anchor_parse at_ with
  | None =>
      refused p no_effects
        ("at must be 'head', 'tail', or a cursor from page.earlier/page.later, not '" +:+ at_ +:+ "'")
        false kNoRefusal
  | Some anchor =>
      let lines := PageLines args p in
      match anchor with
      | At cursor => Some (p, no_effects, Ok (ReadAt cursor lines p))
      | _ =>
          match at_key args "command" with
          | Some (JString command) =>
              if sempty command then
                refused p no_effects "'command' is required unless 'at' names a cursor" false kNoRefusal
              else judge_and_run command anchor lines ctx p
          | Some _ => Some (p, no_effects, Throw (StdException "not a string"))
          | None =>
              refused p no_effects "'command' is required unless 'at' names a cursor" false kNoRefusal
          end
      end
  end.

End Bash.

(** ** What a command has to pass *)

Section BashFacts.
#[local] Set Default Proof Using "Type*".
Context `{codec : JsonCodec} (shell : string -> os_run) (regex : string -> option (string -> bool)).
Context (sandbox_root_ : string).

Lemma Compile_elem patterns p e : (p, e) ∈ Compile regex patterns <-> p ∈ patterns /\ regex p = Some e.
Proof.
  unfold Compile. rewrite list_elem_of_omap. split.
  - intros (q & Hq & H). destruct (regex q) as [x|] eqn:E; [|done]. cbn in H. by simplify_eq.
  - intros [Hp Hr]. exists p. split; [done|]. by rewrite Hr.
Qed.

Lemma MatchesAny_None command rules :
  MatchesAny command rules = None <-> forall p e, (p, e) ∈ rules -> e command = false.
Proof.
  unfold MatchesAny. rewrite fmap_None. split.
  - intros H p e Hin. apply list_elem_of_In in Hin. exact (List.find_none _ _ H _ Hin).
  - intros H. destruct (List.find _ rules) as [[p e]|] eqn:E; [|done].
    apply List.find_some in E as [Hin He]. cbn in He.
    rewrite (H p e) in He by (by apply list_elem_of_In). done.
Qed.

(** What the policy asks of a command before it may run. *)
Definition passes (ctx : ToolContext) (command : string) : Prop :=
  (forall pattern e, pattern ∈ kDangerous -> regex pattern = Some e -> e command = false)
  /\ forall s, security ctx = Some s ->
       (0 < max_command_length s -> zlen command <= max_command_length s)
       /\ MatchesAnyPattern regex command (forbidden_patterns s) = false
       /\ (MatchesAnyPattern regex command (approval_patterns s) = true ->
             exists ask note, approval ctx = Some ask /\ ask command = (true, note)).

(** The effects of a call: what it ran, if it ran. *)
Definition call_ok (ctx : ToolContext) (command : string) (p : Pager)
    (outcome : Pager * bash_effects * res string) : Prop :=
  let '(p', e, _) := outcome in
  match ran_command e with
  | None => p' = p /\ noted e = None
  | Some c => c = command /\ passes ctx command
  end.

Lemma run_allowed_ok command anchor lines ctx p e outcome :
  passes ctx command ->
  run_allowed shell sandbox_root_ command anchor lines ctx p e = Some outcome ->
  call_ok ctx command p outcome.
Proof.
  intros Hp. unfold run_allowed. destruct (RunAndPage _ _ _ _ _ _ _) as [[p' answer]|]; [|done].
  by intros [= <-].
Qed.

Lemma Assess_passes command ctx :
  risk (Assess regex command (security ctx)) <> kDangerousRisk ->
  (forall pattern e, pattern ∈ kDangerous -> regex pattern = Some e -> e command = false)
  /\ (risk (Assess regex command (security ctx)) <> kApproval ->
      forall s, security ctx = Some s -> MatchesAnyPattern regex command (approval_patterns s) = false).
Proof.
  unfold Assess. destruct (MatchesAny command (Compile regex kDangerous)) eqn:E; [done|].
  rewrite MatchesAny_None in E. intros _. split.
  - intros pattern e Hin Hr. apply (E pattern e). by apply Compile_elem.
  - intros Hr s Hs. rewrite Hs in Hr. by destruct (MatchesAnyPattern regex command (approval_patterns s)).
Qed.

Lemma judge_and_run_ok command anchor lines ctx p outcome :
  judge_and_run shell regex sandbox_root_ command anchor lines ctx p = Some outcome ->
  call_ok ctx command p outcome.
Proof.
  unfold judge_and_run, refused.
  destruct (match security ctx with Some s => (0 <? _) && _ | None => false end) eqn:El;
    [by intros [= <-]|].
  destruct (match security ctx with Some s => MatchesAnyPattern regex command (forbidden_patterns s)
            | None => false end) eqn:Ef; [by intros [= <-]|].
  assert (Hbase : forall s, security ctx = Some s ->
    (0 < max_command_length s -> zlen command <= max_command_length s)
    /\ MatchesAnyPattern regex command (forbidden_patterns s) = false).
  { intros s Hs. rewrite Hs in El, Ef. split; [|done]. intros Hm%Z.ltb_lt. rewrite Hm in El.
    by apply Z.ltb_ge in El. }
  pose proof (Assess_passes command ctx) as Ha.
  destruct (risk (Assess regex command (security ctx))) eqn:Er; [..|by intros [= <-]].
  1,2: apply run_allowed_ok; destruct Ha as [H1 H2]; [done|]; split; [done|]; intros s Hs;
    destruct (Hbase s Hs) as [H3 H4]; split_and!; [done|done|]; by rewrite (H2 ltac:(done) s Hs).
  destruct Ha as [H1 _]; [done|]. destruct (approval ctx) as [ask|] eqn:Eask; [|by intros [= <-]].
  destruct (ask command) as [[] note] eqn:Eg; cbn [negb]; [|by intros [= <-]].
  apply run_allowed_ok. split; [done|]. intros s Hs. destruct (Hbase s Hs) as [H3 H4].
  split_and!; [done|done|]. intros _. by exists ask, note.
Qed.

(** C21: a call of [execute_bash] runs nothing but the command it was given, and
    only after every check: it names no cursor, the command is not empty, no
    dangerous pattern matches whoever asks, it is within the policy's length,
    matches none of its forbidden patterns, and where it matches an approval
    pattern the user was asked and said yes.  A call that runs nothing leaves
    the stored output as it was. *)
Theorem Bash_runs_only_allowed args ctx p p' e r :
  Bash_Execute shell regex sandbox_root_ args ctx p = Some (p', e, r) ->
  match ran_command e with
  | None => p' = p /\ noted e = None
  | Some c =>
      at_key args "command" = Some (JString c) /\ c <> "" /\ passes ctx c
      /\ exists anchor, anchor_parse (string_or args "at" "head") = Some anchor /\ is_cursor anchor = false
  end.
Proof.
  unfold Bash_Execute, refused. destruct (anchor_parse _) as [anchor|] eqn:Ea; [|by intros [= <- <- _]].
  assert (Hhead : is_cursor anchor = false ->
    match at_key args "command" with
    | Some (JString command) =>
        if sempty command then Some (p, no_effects, Ok (MakeRefusal "'command' is required unless 'at' names a cursor" false kNoRefusal))
        else judge_and_run shell regex sandbox_root_ command anchor (PageLines args p) ctx p
    | Some _ => Some (p, no_effects, Throw (StdException "not a string"))
    | None => Some (p, no_effects, Ok (MakeRefusal "'command' is required unless 'at' names a cursor" false kNoRefusal))
    end = Some (p', e, r) ->
    match ran_command e with
    | None => p' = p /\ noted e = None
    | Some c => at_key args "command" = Some (JString c) /\ c <> "" /\ passes ctx c
        /\ exists anchor0, Some anchor = Some anchor0 /\ is_cursor anchor0 = false
    end).
  { intros Hc. destruct (at_key args "command") as [v|]; [|by intros [= <- <- _]].
    destruct v as [| | | | |command| |]; try by intros [= <- <- _].
    destruct (sempty command) eqn:Ec; [by intros [= <- <- _]|]. intros H%judge_and_run_ok. cbn in H.
    destruct (ran_command e) as [c|]; [|done]. destruct H as [-> H].
    split_and!; [done|by apply sempty_false|done|by exists anchor]. }
  destruct anchor as [| |cursor]; [by apply Hhead..|]. by intros [= <- <- _].
Qed.

End BashFacts.

(** ** Witness *)

Definition quiet_shell (_ : string) : os_run := {|
  pipe_ok := true; fork_ok := true; fdopen_ok := true;
  rounds := [(Readable ("hi" +:+ NL), false); (Readable "", false)];
  token_at_end := false; exited_with := Some 0 |}.

Definition prefix_regex (pattern : string) : option (string -> bool) := Some (starts_with pattern).

Definition guarded : ToolContext :=
  mkContext (Some (mkPolicy "/tmp" 100 ["curl"] ["git push"])) None (Some (fun _ => (true, "go on"))) "".

Lemma Bash_runs_only_allowed_witness :
  exists p' e r,
    Bash_Execute (codec := bit_codec) quiet_shell prefix_regex "/tmp"
      (JObject [("command", JString "git push origin")]) guarded (new_pager default_budget "ab12")
    = Some (p', e, r)
    /\ ran_command e = Some "git push origin" /\ passes prefix_regex guarded "git push origin".
Proof.
  destruct (Bash_Execute (codec := bit_codec) quiet_shell prefix_regex "/tmp"
    (JObject [("command", JString "git push origin")]) guarded (new_pager default_budget "ab12"))
    as [[[p' e] r]|] eqn:E; [|by vm_compute in E].
  pose proof (Bash_runs_only_allowed (codec := bit_codec) quiet_shell prefix_regex "/tmp" _ _ _ _ _ _ E) as H.
  assert (He : ran_command e = Some "git push origin").
  { apply (f_equal (fun o => match o with Some (_, e, _) => ran_command e | None => None end)) in E.
    rewrite <- E. vm_compute. reflexivity. }
  exists p', e, r. split; [reflexivity|]. split; [exact He|]. rewrite He in H. exact (proj1 (proj2 (proj2 H))).
Defined.
