(* ===== verification/PeerTool.v ===== *)
(** * Handing work to another server ([src/tools/peer_tool.cpp])

    [send_to_peer] posts a job on the receiving board and only then sends the
    message.  The HTTP client is a function of the requests made so far; the
    requests a call made are part of what it returns. *)
From Stdlib Require Import Ascii.
From S2P Require Export Prelude Text Json Message Agents Tools.

Definition kPeerPath : string := "/api/peer/message".
Definition kJobsPath : string := "/api/jobs".

Record request := mkRequest { rq_url : string; rq_body : value; rq_headers : list string }.

Record PostedJob := mkPosted { job_id : string; job_due_at : string }.

Section PeerTool.
#[local] Set Default Proof Using "Type*".
Context `{codec : JsonCodec} (peers_ : PeerConfig).
(** [PostStream]: the body received, or what it threw. *)
Context (post : list request -> request -> res string).

Definition Headers : list string :=
  "Content-Type: application/json"
  :: (if sempty (token peers_) then [] else ["Authorization: Bearer " +:+ token peers_]).

Definition parse_reply (received : string) : res value :=
  match parse received with Some v => Ok v | None => Throw (StdException "parse") end.

(** The request log grows whether or not the answer is an exception. *)
Definition PostJob (log : list request) (peer_url to intent : string) (due : option string)
    : list request * res PostedJob :=
  let body := [("from", JString (self_name peers_)); ("to", JString to); ("intent", JString intent)] in
  let body := match due with Some d => obj_set "due" (JString d) body | None => body end in
  let rq := mkRequest (peer_url +:+ kJobsPath) (JObject body) Headers in
  (log ++ [rq],
   let? received := post log rq in
   let? reply := parse_reply received in
   match at_key reply "job" with
   | None => Throw (StdException "at")
   | Some job =>
       let posted := mkPosted (string_or job "id" "") (string_or job "due_at" "") in
       if sempty (job_id posted) then Throw (StdException "the board did not return a job id")
       else Ok posted
   end).

Definition Send (log : list request) (peer_url message : string) (job : PostedJob)
    : list request * res value :=
  let rq := mkRequest (peer_url +:+ kPeerPath)
              (JObject [("from", JString (self_name peers_)); ("message", JString message);
                        ("job", JString (job_id job)); ("hop", JInt64 1)]) Headers in
  (log ++ [rq], let? received := post log rq in parse_reply received).

(** A throw caught by [catch (const std::exception&)]. *)
Definition caught {A} (r : res A) : res (A + string) :=
  match r with
  | Ok a => Ok (inl a)
  | Throw e => Ok (inr (what e))
  | Undef => Undef
  end.

(** [has_client]: whether there is an HTTP client; [origin]: the peer the turn
    came from. *)
Definition Peer_Execute (has_client : bool) (origin : string) (args : value) : list request * res string :=
  let refuse log error blocked := (log, Ok (MakeRefusal error blocked kNoRefusal)) in
  let name := string_or args "peer" "" in
  let intent := string_or args "intent" "" in
  let message := string_or args "message" "" in
  if sempty name || sempty intent || sempty message then
    refuse [] "A peer, an intent and a message are all required" true
  else if negb (sempty origin) && negb (bool_decide (name = origin)) then
    refuse [] (kPeerOriginNote +:+ " (this turn was asked by '" +:+ origin +:+ "', so only '" +:+ origin
                 +:+ "' can be reached)") true
  else
    match FindPeer name peers_ with
    | None => refuse [] ("No peer named '" +:+ name +:+ "' is configured") true
    | Some peer =>
        if negb has_client then
          refuse [] ("No HTTP client is available to reach '" +:+ name +:+ "'") false
        else
          let due := string_or args "due" "" in
          let '(log, posted) := PostJob [] (peer_url peer) (peer_name peer) intent
                                  (if sempty due then None else Some due) in
          match caught posted with
          | Throw e => (log, Throw e)
          | Undef => (log, Undef)
          | Ok (inr error) =>
              refuse log ("Peer '" +:+ name +:+ "' did not take the job, so nothing was sent: " +:+ error) false
          | Ok (inl job) =>
              let '(log, sent) := Send log (peer_url peer) message job in
              match caught sent with
              | Throw e => (log, Throw e)
              | Undef => (log, Undef)
              | Ok (inr error) =>
                  refuse log ("Job '" +:+ job_id job +:+ "' was posted on '" +:+ name
                                +:+ "' but the message did not arrive: " +:+ error) false
              | Ok (inl reply) =>
                  if negb (ValueOrDefault to_bool reply "accepted" false) then
                    let why := string_or reply "error" "the peer did not say why" in
                    refuse log ("Job '" +:+ job_id job +:+ "' was posted but '" +:+ name
                                  +:+ "' refused it: " +:+ why) false
                  else
                    let turn := string_or reply "turn" "" in
                    let model := string_or reply "model" "" in
                    let said :=
                      "Job '" +:+ job_id job +:+ "' is on '" +:+ name +:+ "'s board and the turn is "
                      +:+ (if sempty turn then "queued" else "'" +:+ turn +:+ "'")
                      +:+ (if sempty (job_due_at job) then "" else ", due " +:+ job_due_at job)
                      +:+ (if sempty model then "" else ", running as " +:+ model)
                      +:+ ". It answers in a later turn, so do not wait for it or ask again." in
                    (log, Ok (MakeToolResultJson true said "" 0 false kNoRefusal []))
              end
          end
    end.

(** ** What is sent, and to whom *)

Definition answer_ok (r : res string) : bool :=
  match r with Ok s => r_success (ParseToolResult s) | _ => false end.

Context {ok : JsonCodecOk codec}.

Lemma refusal_fails e b : r_success (ParseToolResult (MakeRefusal e b kNoRefusal)) = false.
Proof. unfold MakeRefusal. by rewrite ParseToolResult_flags. Qed.

(** The requests of a call, and what its answer says of them. *)
Definition sent_in_order (origin : string) (args : value) (log : list request) (answer : res string)
    : Prop :=
  let name := string_or args "peer" "" in
  (log <> [] -> (origin = "" \/ name = origin)
     /\ exists peer, FindPeer name peers_ = Some peer
        /\ Forall (fun rq => rq_url rq = peer_url peer +:+ kJobsPath \/ rq_url rq = peer_url peer +:+ kPeerPath) log)
  /\ (length log <= 2)%nat
  /\ (forall rq, log !! 1%nat = Some rq -> exists rq0 job,
        log !! 0%nat = Some rq0 /\ at_key (rq_body rq0) "intent" = Some (JString (string_or args "intent" ""))
        /\ at_key (rq_body rq) "job" = Some (JString job) /\ job <> ""
        /\ at_key (rq_body rq) "message" = Some (JString (string_or args "message" ""))
        /\ exists received reply j, post [] rq0 = Ok received /\ parse received = Some reply
             /\ at_key reply "job" = Some j /\ string_or j "id" "" = job)
  /\ (answer_ok answer = true -> exists rq0 rq received reply,
        log = [rq0; rq] /\ post [rq0] rq = Ok received /\ parse received = Some reply
        /\ ValueOrDefault to_bool reply "accepted" false = true).

(** C22: a call of [send_to_peer] makes no request, or the post of a job, or
    that and then the message under the job the board gave an id: the message
    is never sent before the board took the job.  All of it goes to the
    configured address of the one peer it names, which in a turn that came from
    a peer is that peer; and it reports success only when both were made and
    the receiver accepted. *)
Theorem Peer_posts_before_sending has_client origin args :
  let out := Peer_Execute has_client origin args in
  sent_in_order origin args out.1 out.2.
Proof.
  cbn zeta. set (P := fun out : list request * res string => sent_in_order origin args out.1 out.2).
  change (P (Peer_Execute has_client origin args)).
  assert (Hnone : forall e b, P ([], Ok (MakeRefusal e b kNoRefusal))).
  { intros e b. unfold P, sent_in_order. split_and!; [done|cbn; lia|done|]. cbn. by rewrite refusal_fails. }
  unfold Peer_Execute. destruct (_ || _); [apply Hnone|].
  destruct (negb (sempty origin) && _) eqn:Eo; [apply Hnone|].
  destruct (FindPeer _ peers_) as [peer|] eqn:Ep; [|apply Hnone].
  destruct has_client; cbn [negb]; [|apply Hnone].
  assert (Horigin : origin = "" \/ string_or args "peer" "" = origin).
  { destruct (sempty origin) eqn:E; [left; by apply sempty_true|right].
    cbn in Eo. by apply negb_false_iff, bool_decide_eq_true in Eo. }
  set (due := if sempty (string_or args "due" "") then None else _).
  unfold PostJob.
  set (rq0 := mkRequest (peer_url peer +:+ kJobsPath) _ Headers).
  assert (Hintent : at_key (rq_body rq0) "intent" = Some (JString (string_or args "intent" ""))).
  { unfold rq0. destruct due; reflexivity. }
  cbn [app].
  assert (Hone : forall r, answer_ok r = false -> P ([rq0], r)).
  { intros r Hr. unfold P, sent_in_order; cbn [fst snd]. split_and!; [|cbn; lia|done|by rewrite Hr].
    intros _. split; [done|]. exists peer. split; [done|]. repeat constructor. }
  destruct (post [] rq0) as [received|e|] eqn:Epost; cbn [res_bind caught];
    [|apply Hone; cbn; by rewrite refusal_fails|by apply Hone].
  unfold parse_reply. destruct (parse received) as [reply|] eqn:Eparse; cbn [res_bind caught];
    [|apply Hone; cbn; by rewrite refusal_fails].
  destruct (at_key reply "job") as [j|] eqn:Ej; cbn [caught];
    [|apply Hone; cbn; by rewrite refusal_fails].
  cbn [job_id]. destruct (sempty (string_or j "id" "")) eqn:Eid; cbn [caught];
    [apply Hone; cbn; by rewrite refusal_fails|].
  unfold Send, parse_reply. set (rq := mkRequest (peer_url peer +:+ kPeerPath) _ Headers). cbn [app].
  assert (Htwo : forall r, (answer_ok r = true -> exists received reply, post [rq0] rq = Ok received
      /\ parse received = Some reply /\ ValueOrDefault to_bool reply "accepted" false = true) -> P ([rq0; rq], r)).
  { intros r Hr. unfold P, sent_in_order; cbn [fst snd]. split_and!; [|cbn; lia| |].
    - intros _. split; [done|]. exists peer. split; [done|]. repeat constructor; by auto.
    - intros rq' [= <-]. exists rq0, (string_or j "id" ""). split_and!; try done; [by apply sempty_false|].
      by exists received, reply, j.
    - intros (received' & reply' & H)%Hr. by exists rq0, rq, received', reply'. }
  destruct (post [rq0] rq) as [received'|e|] eqn:Epost'; cbn [res_bind caught];
    [|apply Htwo; cbn; by rewrite refusal_fails|by apply Htwo].
  destruct (parse received') as [reply'|] eqn:Eparse'; cbn [caught];
    [|apply Htwo; cbn; by rewrite refusal_fails].
  destruct (ValueOrDefault to_bool reply' "accepted" false) eqn:Eacc; cbn [negb];
    apply Htwo; [|cbn; by rewrite refusal_fails].
  intros _. by exists received', reply'.
Qed.

End PeerTool.

(** ** Witness *)

Definition demo_peers : PeerConfig := mkPeers "me" "secret" [mkPeer "box" "http://box:8080"].

Definition demo_server (log : list request) (rq : request) : res string :=
  match log with
  | [] => Ok (serialize (JsonCodec := bit_codec) (JObject [("job", JObject [("id", JString "j1")])]))
  | _ => Ok (serialize (JsonCodec := bit_codec) (JObject [("accepted", JBool true)]))
  end.

Definition demo_work : value :=
  JObject [("peer", JString "box"); ("intent", JString "tests"); ("message", JString "run them")].

Lemma Peer_posts_before_sending_witness :
  answer_ok (codec := bit_codec)
    (Peer_Execute (codec := bit_codec) demo_peers demo_server true "" demo_work).2 = true
  /\ sent_in_order (codec := bit_codec) demo_peers demo_server "" demo_work
       (Peer_Execute (codec := bit_codec) demo_peers demo_server true "" demo_work).1
       (Peer_Execute (codec := bit_codec) demo_peers demo_server true "" demo_work).2.
Proof.
  split; [reflexivity|].
  exact (Peer_posts_before_sending (codec := bit_codec) demo_peers demo_server true "" demo_work).
Defined.
