(* ===== verification/Clock.v ===== *)
(** * Instants as text ([src/serve/board.cpp])

    The board stamps what happens with [%Y-%m-%dT%H:%M:%SZ] and reads its own
    stamps back to tell how long ago that was.  [gmtime_r], [timegm],
    [strftime] and [sscanf] are the C library's: [gmtime] peels years and
    months off a number of days, [timegm] is the closed form, and
    [Stamp_roundtrip] is that reading a stamp gives the second it was made in. *)
From Stdlib Require Import Ascii.
From S2P Require Export Prelude.

(** ** The civil calendar *)

Definition leap (y : Z) : bool := (y mod 4 =? 0) && (negb (y mod 100 =? 0) || (y mod 400 =? 0)).
Definition year_days (y : Z) : Z := if leap y then 366 else 365.

(** Months are numbered from 0, as [tm_mon] is. *)
Definition month_days (y mo : Z) : Z :=
  if mo =? 1 then if leap y then 29 else 28
  else if (mo =? 3) || (mo =? 5) || (mo =? 8) || (mo =? 10) then 30 else 31.

(** Days from 1970-01-01 to the first of January of year [y]. *)
Definition days_before_year (y : Z) : Z :=
  365 * (y - 1970) + ((y - 1) / 4 - (y - 1) / 100 + (y - 1) / 400) - 477.

(** Days from the first of January to the first of month [mo] of year [y]. *)
Fixpoint days_before_month (y : Z) (mo : nat) : Z :=
  match mo with O => 0 | S mo => days_before_month y mo + month_days y (Z.of_nat mo) end.

(** [struct tm], with its offsets: [tm_year] counts from 1900, [tm_mon] from 0. *)
Record tm := mkTm {
  tm_year : Z; tm_mon : Z; tm_mday : Z; tm_hour : Z; tm_min : Z; tm_sec : Z
}.

Fixpoint split_year (fuel : nat) (y d : Z) : Z * Z :=
  match fuel with
  | O => (y, d)
  | S fuel => if d <? year_days y then (y, d) else split_year fuel (y + 1) (d - year_days y)
  end.

Fixpoint split_month (fuel : nat) (y : Z) (mo : nat) (d : Z) : nat * Z :=
  match fuel with
  | O => (mo, d)
  | S fuel =>
      let days := month_days y (Z.of_nat mo) in
      if d <? days then (mo, d) else split_month fuel y (S mo) (d - days)
  end.

(** [gmtime_r]: the Gregorian calendar repeats every 146097 days. *)
Definition gmtime (t : Z) : tm :=
  let days := t / 86400 in
  let secs := t mod 86400 in
  let '(y, yd) := split_year 400 (1970 + 400 * (days / 146097)) (days mod 146097) in
  let '(mo, md) := split_month 12 y 0 yd in
  mkTm (y - 1900) (Z.of_nat mo) (md + 1) (secs / 3600) (secs / 60 mod 60) (secs mod 60).

(** [timegm] takes fields outside their usual range too. *)
Definition timegm (utc : tm) : Z :=
  let y := tm_year utc + 1900 + tm_mon utc / 12 in
  let mo := tm_mon utc mod 12 in
  (days_before_year y + days_before_month y (Z.to_nat mo) + (tm_mday utc - 1)) * 86400
  + tm_hour utc * 3600 + tm_min utc * 60 + tm_sec utc.

(** ** Writing and reading a stamp *)

Definition signed_decimal (z : Z) : string := if z <? 0 then "-" +:+ decimal (- z) else decimal z.
Definition two_digits (z : Z) : string := (if z <? 10 then "0" else "") +:+ decimal z.

(** [strftime] with the format of the board. *)
Definition strftime_stamp (utc : tm) : string :=
  signed_decimal (tm_year utc + 1900) +:+ "-" +:+ two_digits (tm_mon utc + 1) +:+ "-"
  +:+ two_digits (tm_mday utc) +:+ "T" +:+ two_digits (tm_hour utc) +:+ ":"
  +:+ two_digits (tm_min utc) +:+ ":" +:+ two_digits (tm_sec utc) +:+ "Z".

(** A time point is a number of seconds since the epoch once [to_time_t] has
    dropped the fraction. *)
Definition Stamp (seconds : Z) : string := strftime_stamp (gmtime seconds).

(** At most [width] digits of [s], after [acc]. *)
Fixpoint scan_digits (width : nat) (s : string) (acc : option Z) : option (Z * string) :=
  let stop := (fun v => (v, s)) <$> acc in
  match width, s with
  | S width, String c s' =>
      if is_digit c then scan_digits width s' (Some (default 0 acc * 10 + digit_z c)) else stop
  | _, _ => stop
  end.

(** [%<width>d]: white space, then a number that with its sign takes at most
    [width] characters. *)
Definition scan_int (width : nat) (s : string) : option (Z * string) :=
  match skip_space s with
  | String "-"%char s' =>
      (fun '(v, rest) => (- v, rest)) <$> scan_digits (pred width) s' None
  | String "+"%char s' => scan_digits (pred width) s' None
  | s' => scan_digits width s' None
  end.

Definition scan_char (c : ascii) (s : string) : option string :=
  match s with String c' s' => if decide (c = c') then Some s' else None | "" => None end.

Definition ParseStamp (text : string) : option Z :=
  '(year, rest) ← scan_int 4 text;
  rest ← scan_char "-" rest;
  '(mon, rest) ← scan_int 2 rest;
  rest ← scan_char "-" rest;
  '(mday, rest) ← scan_int 2 rest;
  rest ← scan_char "T" rest;
  '(hour, rest) ← scan_int 2 rest;
  rest ← scan_char ":" rest;
  '(min, rest) ← scan_int 2 rest;
  rest ← scan_char ":" rest;
  '(sec, _) ← scan_int 2 rest;
  Some (timegm (mkTm (year - 1900) (mon - 1) mday hour min sec)).

(** How long [stamp] is behind [now]; 0 when either cannot be read. *)
Definition AgeSeconds (stamp now : string) : Z :=
  match ParseStamp stamp, ParseStamp now with
  | Some then_, Some current => current - then_
  | _, _ => 0
  end.

(** ** Durations *)

(** The leading digits of [text] and what follows them. *)
Fixpoint split_digits (text : string) : string * string :=
  match text with
  | String c rest =>
      if is_digit c then let '(d, u) := split_digits rest in (String c d, u) else ("", text)
  | "" => ("", "")
  end.

Definition unit_seconds (unit : string) : option Z :=
  if decide (unit = "s") then Some 1
  else if decide (unit = "m") then Some 60
  else if decide (unit = "h") then Some 3600
  else if decide (unit = "d") then Some 86400
  else None.

(** The product is an [int64_t], so one that does not fit is undefined. *)
Definition ParseDuration (text : string) : res (option Z) :=
  if sempty text then Ok None
  else
    let '(digits, unit) := split_digits text in
    if sempty digits then Ok None
    else
      match digits_value digits 0 with
      | Some count =>
          if (2 ^ 63 - 1 <? count) || (count <=? 0) then Ok None
          else
            match unit_seconds unit with
            | None => Ok None
            | Some scale => if count * scale <? 2 ^ 63 then Ok (Some (count * scale)) else Undef
            end
      | None => Ok None
      end.

Example Stamp_epoch : Stamp 0 = "1970-01-01T00:00:00Z".
Proof. reflexivity. Qed.
Example Stamp_leap_day : Stamp 1709210096 = "2024-02-29T12:34:56Z".
Proof. vm_compute. reflexivity. Qed.
Example ParseStamp_leap_day : ParseStamp "2024-02-29T12:34:56Z" = Some 1709210096.
Proof. vm_compute. reflexivity. Qed.

(** ** The calendar is consistent *)

Lemma div_step k y : 0 < k -> y / k - (y - 1) / k = if y mod k =? 0 then 1 else 0.
Proof.
  intros Hk. pose proof (Z.div_mod y k ltac:(lia)) as H1. pose proof (Z.mod_pos_bound y k Hk) as H2.
  pose proof (Z.div_mod (y - 1) k ltac:(lia)) as H3. pose proof (Z.mod_pos_bound (y - 1) k Hk) as Hd4.
  destruct (Z.eqb_spec (y mod k) 0) as [E|E]; nia.
Qed.

Lemma mod_divides a b y : 0 < a -> 0 < b -> y mod (a * b) = 0 -> y mod a = 0.
Proof.
  intros Ha Hb H%Z.mod_divide; [|lia]. apply Z.mod_divide; [lia|].
  destruct H as [q ->]. exists (q * b). lia.
Qed.

Lemma days_before_year_succ y : days_before_year (y + 1) = days_before_year y + year_days y.
Proof.
  unfold days_before_year, year_days, leap. replace (y + 1 - 1) with y by lia.
  pose proof (div_step 4 y ltac:(lia)). pose proof (div_step 100 y ltac:(lia)).
  pose proof (div_step 400 y ltac:(lia)).
  pose proof (mod_divides 100 4 y ltac:(lia) ltac:(lia) : y mod 400 = 0 -> _) as Hd4.
  pose proof (mod_divides 4 25 y ltac:(lia) ltac:(lia) : y mod 100 = 0 -> _) as Hd1.
  destruct (Z.eqb_spec (y mod 4) 0), (Z.eqb_spec (y mod 100) 0), (Z.eqb_spec (y mod 400) 0); cbn [andb orb negb];
    try lia; exfalso; auto.
Qed.

Lemma days_before_year_cycle y k : days_before_year (y + 400 * k) = days_before_year y + 146097 * k.
Proof.
  unfold days_before_year. replace (y + 400 * k - 1) with (y - 1 + 400 * k) by lia.
  replace (400 * k) with (100 * k * 4) at 2 by lia. rewrite Z.div_add by lia.
  replace (400 * k) with (4 * k * 100) at 2 by lia. rewrite Z.div_add by lia.
  replace (400 * k) with (k * 400) at 2 by lia. rewrite Z.div_add by lia. lia.
Qed.

Lemma days_before_year_1970 : days_before_year 1970 = 0.
Proof. reflexivity. Qed.

Lemma year_days_range y : 365 <= year_days y <= 366.
Proof. unfold year_days. destruct (leap y); lia. Qed.

Lemma days_before_year_mono y n : 0 <= n -> days_before_year y + 365 * n <= days_before_year (y + n).
Proof.
  intros Hn. pattern n. apply natlike_ind; [replace (y + 0) with y by lia; lia| |done].
  intros m Hm IH. replace (y + Z.succ m) with (y + m + 1) by lia. rewrite days_before_year_succ.
  pose proof (year_days_range (y + m)). lia.
Qed.

(** Peeling years off keeps the day, and stops within the year with enough fuel. *)
Lemma split_year_spec fuel y d y' d' :
  0 <= d -> days_before_year y + d < days_before_year (y + Z.of_nat fuel) -> split_year fuel y d = (y', d') ->
  days_before_year y' + d' = days_before_year y + d /\ 0 <= d' < year_days y'
  /\ y <= y' < y + Z.of_nat fuel.
Proof.
  revert y d. induction fuel as [|fuel IH]; intros y d Hd Hlt; cbn [split_year].
  - rewrite Z.add_0_r in Hlt. lia.
  - destruct (Z.ltb_spec d (year_days y)); [intros [= <- <-]; split_and!; lia|].
    intros H'. destruct (IH (y + 1) (d - year_days y)) as (H1 & H2 & H3); [lia| |done|].
    + rewrite days_before_year_succ. replace (y + 1 + Z.of_nat fuel) with (y + Z.of_nat (S fuel)) by lia. lia.
    + rewrite days_before_year_succ in H1. split_and!; lia.
Qed.

Lemma month_days_range y mo : 28 <= month_days y mo <= 31.
Proof. unfold month_days. repeat case_match; lia. Qed.

Lemma days_before_month_12 y : days_before_month y 12 = year_days y.
Proof. unfold year_days. cbn. unfold month_days. destruct (leap y); reflexivity. Qed.

Lemma split_month_spec fuel y mo d mo' d' :
  0 <= d -> days_before_month y mo + d < days_before_month y (mo + fuel) -> split_month fuel y mo d = (mo', d') ->
  days_before_month y mo' + d' = days_before_month y mo + d /\ 0 <= d' < month_days y (Z.of_nat mo')
  /\ (mo' < mo + fuel)%nat.
Proof.
  revert mo d. induction fuel as [|fuel IH]; intros mo d Hd Hlt; cbn [split_month].
  - rewrite Nat.add_0_r in Hlt. lia.
  - destruct (Z.ltb_spec d (month_days y (Z.of_nat mo))); [intros [= <- <-]; split_and!; lia|].
    intros H'. destruct (IH (S mo) (d - month_days y (Z.of_nat mo))) as (H1 & H2 & H3); [lia| |done|].
    + cbn [days_before_month]. replace (S mo + fuel)%nat with (mo + S fuel)%nat by lia. lia.
    + cbn [days_before_month] in H1. split_and!; lia.
Qed.

(** Where the fields of a broken-down time lie, and that they are that time. *)
Lemma gmtime_spec t :
  let u := gmtime t in
  timegm u = t /\ 0 <= tm_mon u < 12 /\ 1 <= tm_mday u <= 31 /\ 0 <= tm_hour u < 24
  /\ 0 <= tm_min u < 60 /\ 0 <= tm_sec u < 60
  /\ days_before_year (tm_year u + 1900) <= t / 86400 < days_before_year (tm_year u + 1901).
Proof.
  unfold gmtime. cbn zeta.
  pose proof (Z.div_mod t 86400 ltac:(lia)) as Ht. pose proof (Z.mod_pos_bound t 86400 ltac:(lia)) as Hs.
  set (days := t / 86400) in *. set (secs := t mod 86400) in *.
  pose proof (Z.div_mod days 146097 ltac:(lia)) as Hd. pose proof (Z.mod_pos_bound days 146097 ltac:(lia)) as Hr.
  set (era := days / 146097) in *. set (rem := days mod 146097) in *.
  destruct (split_year 400 (1970 + 400 * era) rem) as [y yd] eqn:Ey.
  apply split_year_spec in Ey as (Hy & Hyd & _); [|lia|].
  2:{ change (Z.of_nat 400) with (400 * 1). rewrite (days_before_year_cycle (1970 + 400 * era) 1). lia. }
  rewrite days_before_year_cycle, days_before_year_1970 in Hy.
  destruct (split_month 12 y 0 yd) as [mo md] eqn:Em.
  apply split_month_spec in Em as (Hm & Hmd & Hmo); [|lia|].
  2:{ change (0 + 12)%nat with 12%nat. rewrite days_before_month_12. cbn [days_before_month]. lia. }
  cbn [days_before_month Nat.add] in Hm, Hmo. pose proof (month_days_range y (Z.of_nat mo)).
  unfold timegm. cbn [tm_year tm_mon tm_mday tm_hour tm_min tm_sec].
  replace (y - 1900 + 1901) with (y + 1) by lia. rewrite days_before_year_succ.
  rewrite Z.div_small, Z.mod_small, Nat2Z.id by lia. replace (y - 1900 + 1900 + 0) with y by lia.
  pose proof (Z.div_mod secs 60 ltac:(lia)). pose proof (Z.mod_pos_bound secs 60 ltac:(lia)).
  pose proof (Z.div_mod (secs / 60) 60 ltac:(lia)). pose proof (Z.mod_pos_bound (secs / 60) 60 ltac:(lia)).
  assert (secs / 3600 = secs / 60 / 60) as -> by (rewrite Z.div_div by lia; reflexivity).
  assert (0 <= secs / 60 / 60 < 24) by (rewrite Z.div_div by lia; split; [apply Z.div_pos; lia|apply Z.div_lt_upper_bound; lia]).
  replace (y - 1900 + 1900) with y by lia. split_and!; lia.
Qed.

(** ** Reading a stamp back *)

Lemma digit_not_space c s : is_digit c = true -> skip_space (String c s) = String c s.
Proof. destruct c as [[] [] [] [] [] [] [] []]; by vm_compute. Qed.

Lemma scan_int_digit width c s :
  is_digit c = true -> scan_int width (String c s) = scan_digits width (String c s) None.
Proof.
  intros Hc. unfold scan_int. rewrite digit_not_space by done.
  destruct c as [[] [] [] [] [] [] [] []]; try reflexivity; by vm_compute in Hc.
Qed.

(** What a number is followed by is no digit. *)
Definition ends_number (rest : string) : bool :=
  match rest with String c _ => negb (is_digit c) | "" => true end.

Lemma scan_digits_all width s rest acc v :
  all_chars is_digit s = true -> ends_number rest = true -> (slen s <= width)%nat ->
  (s = "" -> acc <> None) -> digits_value s (default 0 acc) = Some v ->
  scan_digits width (s +:+ rest) acc = Some (v, rest).
Proof.
  intros Hs Hrest. revert width acc. induction s as [|c s IH]; intros width acc Hw Hne Hv.
  - cbn in Hv |- *. destruct acc as [a|]; [|by destruct Hne]. cbn in Hv. injection Hv as <-.
    destruct width as [|width]; [done|]. destruct rest as [|c rest]; [done|]. cbn in Hrest |- *.
    by destruct (is_digit c).
  - cbn in Hs, Hw, Hv |- *. apply andb_true_iff in Hs as [Hc Hs]. rewrite Hc in Hv.
    destruct width as [|width]; [lia|]. cbn [scan_digits]. rewrite Hc.
    apply IH; [done|lia|done|done].
Qed.

Lemma scan_int_all width s rest v :
  all_chars is_digit s = true -> ends_number rest = true -> (slen s <= width)%nat ->
  s <> "" -> digits_value s 0 = Some v -> scan_int width (s +:+ rest) = Some (v, rest).
Proof.
  intros Hs Hrest Hw Hne Hv. destruct s as [|c s]; [done|].
  change (String c s +:+ rest) with (String c (s +:+ rest)).
  rewrite scan_int_digit by (cbn in Hs; by apply andb_true_iff in Hs as [? _]).
  change (String c (s +:+ rest)) with (String c s +:+ rest). by apply scan_digits_all.
Qed.

Lemma scan_two_digits z rest :
  0 <= z < 100 -> ends_number rest = true -> scan_int 2 (two_digits z +:+ rest) = Some (z, rest).
Proof.
  intros Hz Hrest. unfold two_digits. pose proof (decimal_nonempty z) as Hne.
  destruct (Z.ltb_spec z 10) as [Hlt|Hge]; apply scan_int_all; try done.
  - cbn. by rewrite decimal_digits.
  - pose proof (decimal_len 1 z ltac:(lia) ltac:(lia)). cbn. lia.
  - cbn [String.append digits_value]. apply decimal_value. lia.
  - apply decimal_digits.
  - apply (decimal_len 2); lia.
  - apply decimal_value. lia.
Qed.

Lemma scan_year z rest :
  0 <= z < 10000 -> ends_number rest = true -> scan_int 4 (signed_decimal z +:+ rest) = Some (z, rest).
Proof.
  intros Hz Hrest. unfold signed_decimal. rewrite (proj2 (Z.ltb_ge _ _)) by lia.
  apply scan_int_all; [apply decimal_digits|done|apply (decimal_len 4); lia|apply decimal_nonempty|].
  apply decimal_value. lia.
Qed.

Lemma scan_char_same c rest : scan_char c (String c rest) = Some rest.
Proof. cbn. by rewrite decide_True. Qed.

(** One number of a stamp and the separator after it. *)
Ltac scan_field :=
  first [rewrite scan_year by (done || lia) | rewrite scan_two_digits by (done || lia)];
  cbn [mbind option_bind String.append]; rewrite ?scan_char_same; cbn [mbind option_bind].

(** The end of the year 9999, the last a stamp can hold. *)
Definition kStampLimit : Z := 253402300800.

Lemma gmtime_year t : 0 <= t < kStampLimit -> 1970 <= tm_year (gmtime t) + 1900 < 10000.
Proof.
  intros Ht. pose proof (gmtime_spec t) as Hg. cbn zeta in Hg.
  destruct Hg as (_ & _ & _ & _ & _ & _ & Hlo & Hhi). set (y := tm_year (gmtime t)) in *.
  assert (0 <= t / 86400 < days_before_year 10000) as Hd.
  { change (days_before_year 10000) with 2932897. split; [apply Z.div_pos; lia|].
    apply Z.div_lt_upper_bound; unfold kStampLimit in Ht; lia. }
  split.
  - apply Z.nlt_ge. intros Hlt. pose proof (days_before_year_mono (y + 1901) (69 - y) ltac:(lia)) as H.
    replace (y + 1901 + (69 - y)) with 1970 in H by lia. rewrite days_before_year_1970 in H. lia.
  - apply Z.nle_gt. intros Hle. pose proof (days_before_year_mono 10000 (y + 1900 - 10000) ltac:(lia)) as H.
    replace (10000 + (y + 1900 - 10000)) with (y + 1900) in H by lia. lia.
Qed.

Lemma ParseStamp_Stamp t : 0 <= t < kStampLimit -> ParseStamp (Stamp t) = Some t.
Proof.
  intros Ht. pose proof (gmtime_year t Ht) as Hy. pose proof (gmtime_spec t) as Hg. cbn zeta in Hg.
  unfold Stamp. destruct (gmtime t) as [y mo d h mi s]; cbn [tm_year tm_mon tm_mday tm_hour tm_min tm_sec] in *.
  destruct Hg as (<- & Hmo & Hd & Hh & Hmi & Hs & _).
  unfold ParseStamp, strftime_stamp; cbn [tm_year tm_mon tm_mday tm_hour tm_min tm_sec].
  do 6 scan_field.
  by replace (y + 1900 - 1900) with y by lia; replace (mo + 1 - 1) with mo by lia.
Qed.

Lemma AgeSeconds_Stamp s t :
  0 <= s < kStampLimit -> 0 <= t < kStampLimit -> AgeSeconds (Stamp s) (Stamp t) = t - s.
Proof. intros Hs Ht. unfold AgeSeconds. by rewrite !ParseStamp_Stamp. Qed.

Lemma Stamp_inj s t : 0 <= s < kStampLimit -> 0 <= t < kStampLimit -> Stamp s = Stamp t -> s = t.
Proof.
  intros Hs Ht H. apply (f_equal ParseStamp) in H. rewrite !ParseStamp_Stamp in H by done. congruence.
Qed.
