(* ===== verification/Board.v ===== *)
(** * The job board ([src/serve/board.cpp])

    Jobs, the peers that spoke, and an audit of what happened.  [Post],
    [Update], [Answer], [Chase], [Drop] and [TouchPeer] are the operations;
    [Snapshot], [Page] and [Digest] are the three readings.  The clock is an
    argument: [clk i] is the [i]-th reading of the system clock a call makes,
    in its own ticks.  The id [uuid::Generate] makes is an argument of [Post]. *)
From Stdlib Require Import Ascii.
From S2P Require Export Prelude Json Clock.

Module Board.

(** ** Data *)

Inductive JobState := kOpen | kClaimed | kWorking | kBlocked | kDone | kFailed | kCancelled.

#[export] Instance JobState_eq_dec : EqDecision JobState.
Proof. solve_decision. Defined.

Definition JobStateName (state : JobState) : string :=
  match state with
  | kOpen => "open"
  | kClaimed => "claimed"
  | kWorking => "working"
  | kBlocked => "blocked"
  | kDone => "done"
  | kFailed => "failed"
  | kCancelled => "cancelled"
  end.

Definition ParseJobState (name : string) : option JobState :=
  if decide (name = "open") then Some kOpen
  else if decide (name = "claimed") then Some kClaimed
  else if decide (name = "working") then Some kWorking
  else if decide (name = "blocked") then Some kBlocked
  else if decide (name = "done") then Some kDone
  else if decide (name = "failed") then Some kFailed
  else None.

Record Job := mkJob {
  id : string; from : string; to : string; intent : string; state : JobState;
  due_at : option string; created_at : string; updated_at : string;
  result : option string; question : option string; note : string;
  declined_by : option string; declines : Z; chases : Z
}.

Definition Closed (job : Job) : bool :=
  match state job with kDone | kFailed | kCancelled => true | _ => false end.

Record JobUpdate := mkUpdate {
  up_state : string; up_result : string; up_question : string; up_note : string
}.

Record JobRequest := mkJobRequest {
  rq_job : option string; rq_from : option string; rq_to : option string; rq_intent : option string;
  rq_due : option string; rq_state : option string; rq_result : option string;
  rq_question : option string; rq_note : option string
}.

Record JobOutcome := mkOutcome { oc_id : string; oc_state : string; oc_result : option string }.
Record ActionResult := mkAction { ar_job : Job; ar_outcome : option JobOutcome }.

Record PeerPresence := mkPresence { pp_name : string; last_seen : string; pp_state : string; pp_job : string }.
Record AuditEntry := mkAudit { at_ : string; kind : string; au_peer : string; au_job : string; text : string }.

Record Board := mkBoard { jobs_ : list Job; peers_ : list PeerPresence; audit_ : list AuditEntry }.

Definition new_board : Board := mkBoard [] [] [].

Definition kMaxOpen : nat := 32.
Definition kMaxAudit : nat := 64.
Definition kMaxClosedKept : nat := 128.
Definition kMaxSettledShown : nat := 3.

(** ** The clock *)

(** [system_clock] of the C++ library counts nanoseconds in an [int64_t]. *)
Definition kTicks : Z := 10 ^ 9.

Definition to_time_t (ticks : Z) : Z := ticks ÷ kTicks.
Definition NowStamp (now : Z) : string := Stamp (to_time_t now).

(** A time point a span ahead; undefined when it is past the clock's range. *)
Definition after_span (now span : Z) : res Z :=
  let at_ := now + span * kTicks in
  if (at_ <? 2 ^ 63) then Ok at_ else Undef.

(** ** Changing one job *)

(** [std::find_if] by id: the job's place in the deque and the job. *)
Definition find_job (i : string) (jobs : list Job) : option (nat * Job) :=
  list_find (fun job => id job = i) jobs.

Definition uint32_succ (z : Z) : Z := (z + 1) mod 2 ^ 32.

Definition Move (job : Job) (update : JobUpdate) (now : string) : res Job :=
  let '(mkJob i f t int _ due created _ res_ q n dby dec ch) := job in
  match ParseJobState (up_state update) with
  | None =>
      Throw (RequestRefused ("`state` is open, claimed, working, blocked, done or failed, not "
                             +:+ up_state update))
  | Some kOpen => Ok (mkJob i f t int kOpen None created now None None n dby dec ch)
  | Some ((kClaimed | kWorking) as next) => Ok (mkJob i f t int next due created now res_ None n None dec ch)
  | Some kBlocked =>
      if sempty (up_question update) then
        Throw (RequestRefused "`blocked` needs a `question`, which is what the holder is asking")
      else Ok (mkJob i f t int kBlocked due created now res_ (Some (up_question update)) n dby dec ch)
  | Some kDone =>
      let r := if sempty (up_result update) then res_ else Some (up_result update) in
      Ok (mkJob i f t int kDone due created now r q n dby dec ch)
  | Some kFailed =>
      let r := if sempty (up_result update) then "failed" else up_result update in
      Ok (mkJob i f t int kFailed due created now (Some r) q n dby dec ch)
  | Some kCancelled => Throw (RequestRefused "`cancelled` is the person's verb, so it is not an update")
  end.

(** A decline counts itself and names who declined. *)
Definition declined (peer : string) (job : Job) : Job :=
  let '(mkJob i f t int s due created up r q n _ dec ch) := job in
  mkJob i f t int s due created up r q n (Some peer) (uint32_succ dec) ch.

Definition set_note (n : string) (job : Job) : Job :=
  let '(mkJob i f t int s due created up r q _ dby dec ch) := job in
  mkJob i f t int s due created up r q n dby dec ch.

Definition answered (answer now : string) (job : Job) : Job :=
  let '(mkJob i f t int _ due created _ r _ _ dby dec ch) := job in
  mkJob i f t int kWorking due created now r None answer dby dec ch.

Definition chased (n now : string) (job : Job) : Job :=
  let '(mkJob i f t int s due created _ r _ _ dby dec ch) := job in
  mkJob i f t int s due created now r None n dby dec (uint32_succ ch).

Definition dropped (n now : string) (job : Job) : Job :=
  let '(mkJob i f t int _ due created _ r _ _ dby dec ch) := job in
  mkJob i f t int kCancelled due created now r None n dby dec ch.

(** ** The operations *)

Definition Record_ (k peer job_ text_ : string) (now : Z) (b : Board) : Board :=
  let audit := audit_ b ++ [mkAudit (NowStamp now) k peer job_ text_] in
  mkBoard (jobs_ b) (peers_ b) (drop (length audit - kMaxAudit) audit).

Definition set_jobs (jobs : list Job) (b : Board) : Board := mkBoard jobs (peers_ b) (audit_ b).
Definition set_job (k : nat) (job : Job) (b : Board) : Board := set_jobs (<[k := job]> (jobs_ b)) b.

Definition TouchPeer (peer state_ : string) (clk : nat -> Z) (b : Board) : Board :=
  if sempty peer then b
  else
    let now := NowStamp (clk 0%nat) in
    match list_find (fun p => pp_name p = peer) (peers_ b) with
    | None => mkBoard (jobs_ b) (peers_ b ++ [mkPresence peer now state_ ""]) (audit_ b)
    | Some (k, p) =>
        let s := if sempty state_ then pp_state p else state_ in
        mkBoard (jobs_ b) (<[k := mkPresence (pp_name p) now s (pp_job p)]> (peers_ b)) (audit_ b)
    end.

(** [std::stable_sort] by [<] on [updated_at]: a job goes before the first that
    is not less, so equals keep their order. *)
Fixpoint insert_job (job : Job) (sorted : list Job) : list Job :=
  match sorted with
  | [] => [job]
  | other :: rest =>
      if String.ltb (updated_at other) (updated_at job) then other :: insert_job job rest
      else job :: sorted
  end.

Definition sort_jobs (jobs : list Job) : list Job := foldr insert_job [] jobs.

(** A job pushed; past the board's size, the one updated longest ago goes. *)
Definition push_job (job : Job) (jobs : list Job) : list Job :=
  let jobs := jobs ++ [job] in
  if (kMaxOpen + kMaxClosedKept <? length jobs)%nat then tail (sort_jobs jobs) else jobs.

Definition due_stamp (due : option string) (now : Z) : res (option string) :=
  match due with
  | None => Ok None
  | Some text =>
      let? span := ParseDuration text in
      match span with
      | None =>
          Throw (RequestRefused ("`due` is a duration such as " +:+ quoted "30m" +:+ ", " +:+ quoted "2h"
                                 +:+ " or " +:+ quoted "1d" +:+ ", not " +:+ text))
      | Some seconds => let? at_ := after_span now seconds in Ok (Some (NowStamp at_))
      end
  end.

Definition unfinished (jobs : list Job) : nat := length (filter (fun job => Closed job = false) jobs).

Definition Post (uuid : string) (request : JobRequest) (clk : nat -> Z) (b : Board)
    : Board * res ActionResult :=
  let to_ := default "" (rq_to request) in
  let intent_ := default "" (rq_intent request) in
  if sempty to_ then (b, Throw (RequestRefused "a job needs the peer it is for, as `to`"))
  else if sempty intent_ then (b, Throw (RequestRefused "a job needs an `intent`"))
  else if (kMaxOpen <=? unfinished (jobs_ b))%nat then
    (b, Throw (RequestRefused ("the board already holds " +:+ decimal (Z.of_nat kMaxOpen)
                               +:+ " unfinished jobs, so close one before posting another")))
  else
    let now := NowStamp (clk 0%nat) in
    match due_stamp (rq_due request) (clk 1%nat) with
    | Throw e => (b, Throw e)
    | Undef => (b, Undef)
    | Ok due =>
        let job := mkJob uuid (default "" (rq_from request)) to_ intent_ kOpen due now now
                     None None "" None 0 0 in
        (Record_ "post" (from job) (id job) (intent job) (clk 2%nat) (set_jobs (push_job job (jobs_ b)) b),
         Ok (mkAction job None))
    end.

Definition ended (job : Job) : exn :=
  RequestRefused ("job " +:+ id job +:+ " already ended as " +:+ JobStateName (state job)).

Definition missing (i : string) : exn := NotFound ("no job with id " +:+ i).

Definition held (peer i s : string) (presence : PeerPresence) : PeerPresence :=
  if decide (pp_name presence = peer) then mkPresence (pp_name presence) (last_seen presence) s i
  else presence.

Definition Update (request : JobRequest) (clk : nat -> Z) (b : Board) : Board * res ActionResult :=
  let i := default "" (rq_job request) in
  let peer := default "" (rq_from request) in
  if sempty i then (b, Throw (RequestRefused "a job update needs the `job` it is about"))
  else if sempty peer then (b, Throw (RequestRefused "a job update needs the `from` that holds it"))
  else
    match find_job i (jobs_ b) with
    | None => (b, Throw (missing i))
    | Some (k, it) =>
        if negb (bool_decide (to it = peer)) then
          (b, Throw (RequestRefused ("job " +:+ i +:+ " is " +:+ to it +:+ "'s, so " +:+ peer
                                     +:+ " cannot update it")))
        else if Closed it then (b, Throw (ended it))
        else
          let update := mkUpdate (default "" (rq_state request)) (default "" (rq_result request))
                          (default "" (rq_question request)) (default "" (rq_note request)) in
          let declines_ := bool_decide (up_state update = "open") in
          if declines_ && bool_decide (declined_by it = Some peer) then
            (b, Throw (RequestRefused ("job " +:+ i +:+ " was already declined by " +:+ peer)))
          else
            let it := if declines_ then declined peer it else it in
            match Move it update (NowStamp (clk 0%nat)) with
            | Throw e => (set_job k it b, Throw e)
            | Undef => (set_job k it b, Undef)
            | Ok it =>
                let it := if sempty (up_note update) then it else set_note (up_note update) it in
                let b := set_job k it b in
                let b := Record_ (if sempty (up_state update) then "note" else up_state update)
                           peer i (up_note update) (clk 1%nat) b in
                let name := JobStateName (state it) in
                let outcome := if Closed it then Some (mkOutcome (id it) name (result it)) else None in
                (mkBoard (jobs_ b) (held peer (id it) name <$> peers_ b) (audit_ b),
                 Ok (mkAction it outcome))
            end
    end.

(** What [Answer], [Chase] and [Drop] share: the job by its id, refused once it
    has closed. *)
Definition on_job (i : string) (b : Board) (act : nat -> Job -> Board * res ActionResult)
    : Board * res ActionResult :=
  match find_job i (jobs_ b) with
  | None => (b, Throw (missing i))
  | Some (k, it) => if Closed it then (b, Throw (ended it)) else act k it
  end.

Definition Answer (i answer : string) (clk : nat -> Z) (b : Board) : Board * res ActionResult :=
  on_job i b (fun k it =>
    if negb (bool_decide (state it = kBlocked)) then
      (b, Throw (RequestRefused ("job " +:+ i +:+ " is not blocked, so there is no question to answer")))
    else
      let it := answered answer (NowStamp (clk 0%nat)) it in
      (Record_ "answer" "" i answer (clk 1%nat) (set_job k it b), Ok (mkAction it None))).

Definition Chase (i note_ : string) (clk : nat -> Z) (b : Board) : Board * res ActionResult :=
  on_job i b (fun k it =>
    let it := chased note_ (NowStamp (clk 0%nat)) it in
    (Record_ "chase" "" i note_ (clk 1%nat) (set_job k it b), Ok (mkAction it None))).

Definition Drop (i note_ : string) (clk : nat -> Z) (b : Board) : Board * res ActionResult :=
  on_job i b (fun k it =>
    let it := dropped note_ (NowStamp (clk 0%nat)) it in
    (Record_ "drop" "" i note_ (clk 1%nat) (set_job k it b),
     Ok (mkAction it (Some (mkOutcome (id it) (JobStateName (state it)) None))))).

Definition Find (i : string) (b : Board) : option Job := snd <$> find_job i (jobs_ b).

(** ** Readings *)

Definition opt_set (key : string) (v : option value) (o : object) : object :=
  match v with Some v => obj_set key v o | None => o end.

Definition some_if (p : bool) (v : value) : option value := if p then Some v else None.

Definition overdue (job : Job) (now : string) : bool :=
  match due_at job with
  | Some due => negb (Closed job) && (0 <? AgeSeconds due now)
  | None => false
  end.

Definition Render (job : Job) (now : string) : value :=
  let out :=
    [("id", JString (id job)); ("from", JString (from job)); ("to", JString (to job));
     ("intent", JString (intent job)); ("state", JString (JobStateName (state job)));
     ("created_at", JString (created_at job)); ("updated_at", JString (updated_at job));
     ("idle_seconds", JInt64 (AgeSeconds (updated_at job) now))] in
  let out := opt_set "due_at" (JString <$> due_at job) out in
  let out := obj_set "overdue" (JBool (overdue job now)) out in
  let out := opt_set "result" (JString <$> result job) out in
  let out := opt_set "question" (JString <$> question job) out in
  let out := opt_set "note" (some_if (negb (sempty (note job))) (JString (note job))) out in
  let out := opt_set "declined_by" (JString <$> declined_by job) out in
  let out := opt_set "declines" (some_if (0 <? declines job) (JUint64 (declines job))) out in
  let out := opt_set "chases" (some_if (0 <? chases job) (JUint64 (chases job))) out in
  JObject (obj_set "closed" (JBool (Closed job)) out).

Definition RenderAudit (b : Board) : value :=
  JArray (map (fun e => JObject [("at", JString (at_ e)); ("kind", JString (kind e));
                                 ("peer", JString (au_peer e)); ("job", JString (au_job e));
                                 ("text", JString (text e))]) (audit_ b)).

Definition RenderPeer (offline_after : Z) (now : string) (p : PeerPresence) : value :=
  let seen := AgeSeconds (last_seen p) now in
  JObject (opt_set "job" (some_if (negb (sempty (pp_job p))) (JString (pp_job p)))
    [("name", JString (pp_name p)); ("last_seen", JString (last_seen p)); ("seen_seconds", JInt64 seen);
     ("online", JBool (seen <=? offline_after)); ("state", JString (pp_state p))]).

Definition Snapshot (offline_after : Z) (clk : nat -> Z) (b : Board) : value :=
  let now := NowStamp (clk 0%nat) in
  JObject [("success", JBool true); ("jobs", JArray (map (fun job => Render job now) (jobs_ b)));
           ("peers", JArray (map (RenderPeer offline_after now) (peers_ b)));
           ("audit", RenderAudit b)].

(** [newest_first]: [std::sort] by [>] on [updated_at], which may leave jobs of
    one second in any order. *)
Definition Page (newest_first : list Job -> list Job) (clk : nat -> Z) (b : Board) : value :=
  let now := NowStamp (clk 0%nat) in
  let open := filter (fun job => Closed job = false) (jobs_ b) in
  let settled := filter (fun job => Closed job = true) (jobs_ b) in
  JObject [("success", JBool true); ("open", JArray (map (fun job => Render job now) open));
           ("settled", JArray (map (fun job => Render job now) (take kMaxSettledShown (newest_first settled))));
           ("audit", RenderAudit b)].

(** The lines of a job [peer] holds, and of one it handed out that closed. *)
Definition held_lines (peer now : string) (job : Job) : list string :=
  if bool_decide (to job = peer) && negb (Closed job) then
    ("- " +:+ id job +:+ " from " +:+ (if sempty (from job) then "a person" else from job) +:+ ": "
       +:+ intent job +:+ " [" +:+ JobStateName (state job)
       +:+ (if overdue job now then ", overdue" else "")
       +:+ match question job with Some q => ", asking: " +:+ q | None => "" end
       +:+ (if 0 <? chases job then ", re-asked " +:+ decimal (chases job) +:+ "x" else "") +:+ "]")
    :: (if sempty (note job) then [] else ["  what the poster last said: " +:+ note job])
  else [].

Definition closed_lines (peer : string) (job : Job) : list string :=
  if bool_decide (to job = peer) && negb (Closed job) then []
  else if bool_decide (from job = peer) && Closed job then
    ["- " +:+ id job +:+ " to " +:+ to job +:+ ": " +:+ intent job +:+ " [" +:+ JobStateName (state job)
       +:+ match result job with Some r => ", answered: " +:+ r | None => "" end +:+ "]"]
  else [].

Definition block (title : string) (lines : list string) : string :=
  match lines with [] => "" | _ => title +:+ NL +:+ String.concat "" (map (fun l => l +:+ NL) lines) end.

Definition Digest (peer : string) (clk : nat -> Z) (b : Board) : string :=
  if sempty peer then ""
  else
    let now := NowStamp (clk 0%nat) in
    let lines := concat (map (held_lines peer now) (jobs_ b)) in
    let closed := concat (map (closed_lines peer) (jobs_ b)) in
    match lines, closed with
    | [], [] => ""
    | _, _ =>
        "=== Peer Board ===" +:+ NL
        +:+ block "Jobs you hold, which only you can move:" lines
        +:+ block "Jobs you handed out that have since closed:" closed
    end.

(** ** Calls in sequence *)

Inductive call :=
  | CTouch (peer state_ : string)
  | CPost (uuid : string) (request : JobRequest)
  | CUpdate (request : JobRequest)
  | CAnswer (i answer : string)
  | CChase (i note_ : string)
  | CDrop (i note_ : string).

(** What a call leaves and what it answers; a touch answers nothing. *)
Definition perform (c : call) (clk : nat -> Z) (b : Board) : Board * res (option ActionResult) :=
  let some (r : Board * res ActionResult) := (r.1, res_map Some r.2) in
  match c with
  | CTouch peer s => (TouchPeer peer s clk b, Ok None)
  | CPost uuid request => some (Post uuid request clk b)
  | CUpdate request => some (Update request clk b)
  | CAnswer i a => some (Answer i a clk b)
  | CChase i n => some (Chase i n clk b)
  | CDrop i n => some (Drop i n clk b)
  end.

(** Ids are never made twice. *)
Definition fresh_call (c : call) (b : Board) : Prop :=
  match c with CPost uuid _ => uuid ∉ map id (jobs_ b) | _ => True end.

(** The boards a server can come to. *)
Inductive reachable : Board -> Prop :=
  | reach_new : reachable new_board
  | reach_call b c clk : reachable b -> fresh_call c b -> reachable (perform c clk b).1.

(** ** The board stays well formed *)

Definition job_ok (job : Job) : Prop :=
  to job <> "" /\ intent job <> ""
  /\ (forall q, question job = Some q ->
        q <> "" /\ (state job = kBlocked \/ state job = kDone \/ state job = kFailed))
  /\ (forall r, result job = Some r -> r <> "" /\ (state job = kDone \/ state job = kFailed))
  /\ (state job = kFailed -> result job <> None)
  /\ (forall p, declined_by job = Some p -> p = to job)
  /\ 0 <= declines job < 2 ^ 32 /\ 0 <= chases job < 2 ^ 32.

Record board_ok (b : Board) : Prop := {
  ok_ids : NoDup (map id (jobs_ b));
  ok_open : (unfinished (jobs_ b) <= kMaxOpen)%nat;
  ok_size : (length (jobs_ b) <= kMaxOpen + kMaxClosedKept)%nat;
  ok_audit : (length (audit_ b) <= kMaxAudit)%nat;
  ok_peers : NoDup (map pp_name (peers_ b)) /\ "" ∉ map pp_name (peers_ b);
  ok_jobs : Forall job_ok (jobs_ b)
}.

(** What no call changes about a job. *)
Definition same_job (j j' : Job) : Prop :=
  id j' = id j /\ from j' = from j /\ to j' = to j /\ intent j' = intent j /\ created_at j' = created_at j.

(** The life of a job, as a specification: which call may move it, from what,
    to what.  The holder updates, and a person answers, chases and drops. *)
Inductive job_move : call -> Job -> Job -> Prop :=
  | move_update rq j j' :
      default "" (rq_job rq) = id j -> default "" (rq_from rq) = to j ->
      ParseJobState (default "" (rq_state rq)) = Some (state j') -> chases j' = chases j ->
      (state j' = kBlocked -> question j' = rq_question rq /\ question j' <> None) ->
      (state j' = kOpen -> declined_by j <> Some (to j) /\ declined_by j' = Some (to j)
         /\ declines j' = uint32_succ (declines j) /\ due_at j' = None) ->
      (state j' <> kOpen -> declines j' = declines j /\ due_at j' = due_at j) ->
      job_move (CUpdate rq) j j'
  | move_answer a j j' :
      state j = kBlocked -> state j' = kWorking -> question j' = None -> note j' = a ->
      due_at j' = due_at j -> chases j' = chases j -> declines j' = declines j ->
      job_move (CAnswer (id j) a) j j'
  | move_chase n j j' :
      state j' = state j -> question j' = None -> note j' = n ->
      due_at j' = due_at j -> chases j' = uint32_succ (chases j) -> declines j' = declines j ->
      job_move (CChase (id j) n) j j'
  | move_drop n j j' :
      state j' = kCancelled -> question j' = None -> note j' = n ->
      due_at j' = due_at j -> chases j' = chases j -> declines j' = declines j ->
      job_move (CDrop (id j) n) j j'.

(** A job as a post puts it up. *)
Definition job_posted (uuid : string) (rq : JobRequest) (j : Job) : Prop :=
  id j = uuid /\ from j = default "" (rq_from rq) /\ Some (to j) = rq_to rq /\ Some (intent j) = rq_intent rq
  /\ state j = kOpen /\ created_at j = updated_at j /\ (is_Some (due_at j) <-> is_Some (rq_due rq))
  /\ result j = None /\ question j = None /\ note j = "" /\ declined_by j = None /\ declines j = 0 /\ chases j = 0.

Lemma find_job_Some i jobs k job :
  find_job i jobs = Some (k, job) <->
  jobs !! k = Some job /\ id job = i /\ forall k' job', jobs !! k' = Some job' -> (k' < k)%nat -> id job' <> i.
Proof. unfold find_job. by rewrite list_find_Some. Qed.

Lemma find_job_NoDup i jobs job :
  NoDup (map id jobs) -> (snd <$> find_job i jobs = Some job <-> job ∈ jobs /\ id job = i).
Proof.
  intros Hnd. split.
  - intros H. destruct (find_job i jobs) as [[k j]|] eqn:E; [|done]. cbn in H. injection H as ->.
    apply find_job_Some in E as (Hk & Hi & _). split; [by eapply list_elem_of_lookup_2|done].
  - intros [[k Hk]%list_elem_of_lookup Hi]. assert (find_job i jobs = Some (k, job)) as ->; [|done].
    apply find_job_Some. split_and!; [done..|]. intros k' job' Hk' Hlt Hi'.
    assert (k' = k); [|lia]. eapply NoDup_lookup; [done|..]; rewrite list_lookup_fmap.
    + by rewrite Hk'; cbn; rewrite Hi'.
    + by rewrite Hk; cbn; rewrite Hi.
Qed.

Lemma insert_job_perm job sorted : insert_job job sorted ≡ₚ job :: sorted.
Proof.
  induction sorted as [|other rest IH]; cbn; [done|]. destruct (String.ltb _ _); [|done].
  rewrite IH. constructor.
Qed.

Lemma sort_jobs_perm jobs : sort_jobs jobs ≡ₚ jobs.
Proof. induction jobs as [|job jobs IH]; cbn; [done|]. by rewrite insert_job_perm, IH. Qed.

Lemma ltb_false s t : String.ltb s t = false <-> String.le t s.
Proof.
  unfold String.ltb, String.le, String.leb. rewrite (String.compare_antisym s t).
  destruct (String.compare t s); cbn; naive_solver.
Qed.

(** The first of a sorted deque was updated no later than any other. *)
Lemma sort_jobs_head jobs old rest :
  sort_jobs jobs = old :: rest -> Forall (fun job => String.le (updated_at old) (updated_at job)) jobs.
Proof.
  revert old rest. induction jobs as [|job jobs IH]; intros old rest; [done|].
  change (sort_jobs (job :: jobs)) with (insert_job job (sort_jobs jobs)).
  destruct (sort_jobs jobs) as [|h t] eqn:E; cbn.
  - intros [= <- <-]. assert (jobs = []) as -> by (apply Permutation_nil; rewrite <- E; by rewrite sort_jobs_perm).
    constructor; [reflexivity|constructor].
  - specialize (IH _ _ eq_refl). destruct (String.ltb _ _) eqn:El; intros [= <- _].
    + constructor; [|done]. destruct (total String.le (updated_at h) (updated_at job)) as [H|H]; [done|].
      apply ltb_false in H. congruence.
    + apply ltb_false in El. constructor; [reflexivity|]. eapply Forall_impl; [done|].
      intros j Hj. by etransitivity.
Qed.

(** A push keeps everything, or at the board's full size drops the job that was
    updated longest ago. *)
Lemma push_job_spec job jobs :
  (length jobs <= kMaxOpen + kMaxClosedKept)%nat ->
  ((length jobs < kMaxOpen + kMaxClosedKept)%nat /\ push_job job jobs = jobs ++ [job])
  \/ (length jobs = (kMaxOpen + kMaxClosedKept)%nat /\ exists old,
        old :: push_job job jobs ≡ₚ jobs ++ [job]
        /\ Forall (fun other => String.le (updated_at old) (updated_at other)) (jobs ++ [job])).
Proof.
  intros Hlen. unfold push_job. rewrite length_app. cbn [length].
  destruct (Nat.ltb_spec (kMaxOpen + kMaxClosedKept) (length jobs + 1)) as [Hgt|Hle]; [right|left; split; [lia|done]].
  split; [lia|]. pose proof (sort_jobs_perm (jobs ++ [job])) as Hp.
  destruct (sort_jobs (jobs ++ [job])) as [|old rest] eqn:E.
  - apply Permutation_nil in Hp. by destruct jobs.
  - exists old. split; [done|]. by eapply sort_jobs_head.
Qed.

(** ** What a call does to the jobs *)

Lemma uint32_succ_range z : 0 <= uint32_succ z < 2 ^ 32.
Proof. apply Z.mod_pos_bound. lia. Qed.

Lemma unfinished_result job : job_ok job -> Closed job = false -> result job = None.
Proof.
  intros (_ & _ & _ & Hr & _) Hc. destruct (result job) as [r|]; [|done].
  destruct (Hr r eq_refl) as (_ & [E|E]); unfold Closed in Hc; by rewrite E in Hc.
Qed.

Lemma ParseJobState_name name s : ParseJobState name = Some s -> name = JobStateName s /\ s <> kCancelled.
Proof. unfold ParseJobState. repeat case_decide; intros; simplify_eq; split; done. Qed.

Lemma declined_ok job : job_ok job -> job_ok (declined (to job) job).
Proof.
  destruct job. unfold job_ok; cbn. intros (? & ? & ? & ? & ? & ? & ? & ?).
  pose proof (uint32_succ_range declines0). split_and!; naive_solver lia.
Qed.

Lemma set_note_ok n job : job_ok job -> job_ok (set_note n job).
Proof. by destruct job. Qed.

Lemma Move_ok job update now job' :
  job_ok job -> Closed job = false -> Move job update now = Ok job' -> job_ok job'.
Proof.
  intros Hok Hc Hm. pose proof (unfinished_result _ Hok Hc) as Hr. revert Hok Hm Hr.
  destruct job; unfold job_ok, Move; cbn.
  intros (? & ? & ? & ? & ? & ? & ? & ?) Hm Hr. subst result0.
  repeat case_scrut_in Hm; try discriminate Hm; apply Ok_inj in Hm; subst job'; cbn;
    rewrite ?sempty_false in *; split_and!; naive_solver.
Qed.

Lemma answered_ok a now job : job_ok job -> Closed job = false -> job_ok (answered a now job).
Proof.
  intros Hok Hc. pose proof (unfinished_result _ Hok Hc) as Hr. revert Hok Hr. destruct job; unfold job_ok; cbn.
  intros (? & ? & ? & ? & ? & ? & ? & ?) ->. split_and!; naive_solver.
Qed.

Lemma dropped_ok n now job : job_ok job -> Closed job = false -> job_ok (dropped n now job).
Proof.
  intros Hok Hc. pose proof (unfinished_result _ Hok Hc) as Hr. revert Hok Hr. destruct job; unfold job_ok; cbn.
  intros (? & ? & ? & ? & ? & ? & ? & ?) ->. split_and!; naive_solver.
Qed.

Lemma chased_ok n now job : job_ok job -> Closed job = false -> job_ok (chased n now job).
Proof.
  intros Hok Hc. pose proof (unfinished_result _ Hok Hc) as Hr. revert Hok Hr Hc. destruct job; unfold job_ok; cbn.
  intros (? & ? & ? & ? & ? & ? & ? & ?) -> Hc. pose proof (uint32_succ_range chases0).
  split_and!; naive_solver.
Qed.

(** The three things a call can do to the jobs. *)
Inductive jobs_effect (c : call) (b : Board) : list Job -> Prop :=
  | eff_none : jobs_effect c b (jobs_ b)
  | eff_move k it it' :
      find_job (id it) (jobs_ b) = Some (k, it) -> Closed it = false -> same_job it it' ->
      job_move c it it' -> (job_ok it -> job_ok it') -> jobs_effect c b (<[k := it']> (jobs_ b))
  | eff_post uuid rq job :
      c = CPost uuid rq -> job_posted uuid rq job -> job_ok job -> (unfinished (jobs_ b) < kMaxOpen)%nat ->
      jobs_effect c b (push_job job (jobs_ b)).

Lemma find_job_id i jobs k it : find_job i jobs = Some (k, it) -> i = id it.
Proof. by intros (_ & <- & _)%find_job_Some. Qed.

Lemma set_job_same i k it b : find_job i (jobs_ b) = Some (k, it) -> set_job k it b = b.
Proof.
  intros (Hk & _)%find_job_Some. unfold set_job. rewrite list_insert_id by done. by destruct b.
Qed.

Lemma Move_decline it update now :
  up_state update = "open" -> exists it', Move it update now = Ok it'.
Proof. intros H. destruct it; unfold Move. rewrite H. by eexists. Qed.

(** The job an update leaves, before and after the note is put on it. *)
Lemma Move_life it update now it1 rq (n : string) :
  default "" (rq_state rq) = up_state update -> default "" (rq_question rq) = up_question update ->
  default "" (rq_job rq) = id it -> default "" (rq_from rq) = to it ->
  (up_state update = "open" -> declined_by it <> Some (to it)) ->
  Move (if bool_decide (up_state update = "open") then declined (to it) it else it) update now = Ok it1 ->
  let it' := if sempty n then it1 else set_note n it1 in
  same_job it it' /\ job_move (CUpdate rq) it it'.
Proof.
  intros Hs Hq Hi Hf Hd Hm. cbn zeta.
  assert (Hquestion : up_question update <> "" -> rq_question rq = Some (up_question update)).
  { destruct (rq_question rq); cbn in Hq; congruence. }
  case_bool_decide as Ho.
  - destruct it; unfold Move, declined in Hm; rewrite Ho in Hm. apply Ok_inj in Hm. subst it1.
    specialize (Hd Ho). cbn in *.
    destruct (sempty n); (split; [done|]); constructor; cbn; try done; by rewrite Hs, Ho.
  - assert (Hp : ParseJobState (up_state update) <> Some kOpen).
    { intros H%ParseJobState_name. naive_solver. }
    destruct it; unfold Move in Hm. rewrite <- Hs in Hm, Hp.
    repeat case_scrut_in Hm; try discriminate Hm; try done; apply Ok_inj in Hm; subst it1;
      destruct (sempty n); (split; [done|]); constructor; cbn; try done; try naive_solver;
      rewrite ?sempty_false in *; naive_solver.
Qed.

Definition outcome_of (it : Job) : option JobOutcome :=
  if Closed it then Some (mkOutcome (id it) (JobStateName (state it)) (result it)) else None.

(** The states a peer may name: one it can move a job to, with its question. *)
Definition move_accepts (name q : string) : Prop :=
  exists s, ParseJobState name = Some s /\ (s = kBlocked -> q <> "").

Lemma Move_verdict it update now :
  (exists it', Move it update now = Ok it' /\ move_accepts (up_state update) (up_question update))
  \/ exists e, Move it update now = Throw e /\ ~ move_accepts (up_state update) (up_question update).
Proof.
  unfold Move, move_accepts. destruct it, (ParseJobState (up_state update)) as [s|] eqn:Es.
  2:{ right. eexists. split; [done|]. naive_solver. }
  pose proof (ParseJobState_name _ _ Es) as [_ Hc].
  destruct s; try (left; eexists; split; [reflexivity|]; eexists; split; [reflexivity|]; done); [|done].
  destruct (sempty (up_question update)) eqn:Eq; [right|left]; (eexists; split; [done|]).
  - apply sempty_true in Eq. naive_solver.
  - apply sempty_false in Eq. by eexists.
Qed.

(** When [Update] takes what it is told. *)
Definition update_allowed (rq : JobRequest) (it : Job) : Prop :=
  default "" (rq_job rq) <> "" /\ default "" (rq_from rq) <> "" /\ to it = default "" (rq_from rq)
  /\ Closed it = false
  /\ (default "" (rq_state rq) = "open" -> declined_by it <> Some (to it))
  /\ move_accepts (default "" (rq_state rq)) (default "" (rq_question rq)).

(** The two ways [Update] goes. *)
Lemma Update_run rq clk b :
  (exists e, Update rq clk b = (b, Throw e)
     /\ forall k it, find_job (default "" (rq_job rq)) (jobs_ b) = Some (k, it) -> ~ update_allowed rq it)
  \/ exists k it it', find_job (default "" (rq_job rq)) (jobs_ b) = Some (k, it) /\ update_allowed rq it
     /\ same_job it it' /\ job_move (CUpdate rq) it it' /\ (job_ok it -> job_ok it')
     /\ jobs_ (Update rq clk b).1 = <[k := it']> (jobs_ b)
     /\ (Update rq clk b).2 = Ok (mkAction it' (outcome_of it')).
Proof.
  unfold Update. set (i := default "" (rq_job rq)) in *. set (peer := default "" (rq_from rq)) in *.
  destruct (sempty i) eqn:Ei.
  { left. eexists; split; [done|]. intros k it _ (H & _). by apply sempty_true in Ei. }
  destruct (sempty peer) eqn:Ep.
  { left. eexists; split; [done|]. intros k it _ (_ & H & _). by apply sempty_true in Ep. }
  destruct (find_job i (jobs_ b)) as [[k it]|] eqn:Ef; [|left; by eexists].
  assert (Hno : forall e, ~ update_allowed rq it -> (exists e', (b, Throw e) = (b, @Throw ActionResult e')
      /\ forall k' it', Some (k, it) = Some (k', it') -> ~ update_allowed rq it')).
  { intros e H. eexists; split; [done|]. by intros ? ? [= <- <-]. }
  case_bool_decide as Et; cbn [negb]; [|left; apply Hno; intros (_ & _ & H & _); done].
  destruct (Closed it) eqn:Ec; [left; apply Hno; intros (_ & _ & _ & H & _); congruence|].
  cbn [up_state]. set (update := mkUpdate _ _ _ _).
  destruct (bool_decide (default "" (rq_state rq) = "open") && _) eqn:Ed.
  { apply andb_true_iff in Ed as [Ho%bool_decide_eq_true Hd%bool_decide_eq_true].
    left; apply Hno. intros (_ & _ & _ & _ & H & _). by rewrite Hd, Et in H; apply H. }
  assert (Hnd : default "" (rq_state rq) = "open" -> declined_by it <> Some (to it)).
  { intros Ho. rewrite Et. apply andb_false_iff in Ed as [Ed|Ed]; by apply bool_decide_eq_false in Ed. }
  rewrite <- Et.
  destruct (Move_verdict (if bool_decide (default "" (rq_state rq) = "open") then declined (to it) it else it)
              update (NowStamp (clk 0%nat))) as [(it1 & Em & Ha)|(e & Em & Ha)]; rewrite Em.
  - right. set (n := default "" (rq_note rq)).
    destruct (Move_life it update (NowStamp (clk 0%nat)) it1 rq n) as [Hsame Hlife];
      try done; [by apply find_job_id in Ef|].
    exists k, it, (if sempty n then it1 else set_note n it1). split_and!; try done.
    + unfold update_allowed. fold i. fold peer. rewrite <- !sempty_false. by split_and!.
    + intros Hok. assert (job_ok it1) by (eapply Move_ok; [..|exact Em]; case_bool_decide; try done;
        [by apply declined_ok|by destruct it]).
      destruct (sempty n); [done|]. by apply set_note_ok.
  - left. assert (Hopen : bool_decide (default "" (rq_state rq) = "open") = false).
    { apply bool_decide_eq_false. intros Ho. apply Ha. exists kOpen. split; [|done]. cbn. by rewrite Ho. }
    rewrite Hopen, (set_job_same _ _ _ _ Ef). apply Hno. by intros (_ & _ & _ & _ & _ & H).
Qed.

(** The two ways [Answer], [Chase] and [Drop] go. *)
Lemma on_job_run i b act :
  (exists e, on_job i b act = (b, Throw e))
  \/ exists k it, find_job (id it) (jobs_ b) = Some (k, it) /\ id it = i /\ Closed it = false
     /\ on_job i b act = act k it.
Proof.
  unfold on_job. destruct (find_job i (jobs_ b)) as [[k it]|] eqn:Ef; [|left; by eexists].
  pose proof (find_job_id _ _ _ _ Ef) as ->.
  destruct (Closed it) eqn:Ec; [left; by eexists|right]. by exists k, it.
Qed.

Lemma Post_run uuid rq clk b :
  (exists r, Post uuid rq clk b = (b, r) /\ is_ok r = false)
  \/ exists job, job_posted uuid rq job /\ job_ok job /\ (unfinished (jobs_ b) < kMaxOpen)%nat
     /\ due_stamp (rq_due rq) (clk 1%nat) = Ok (due_at job)
     /\ jobs_ (Post uuid rq clk b).1 = push_job job (jobs_ b) /\ peers_ (Post uuid rq clk b).1 = peers_ b
     /\ (Post uuid rq clk b).2 = Ok (mkAction job None).
Proof.
  unfold Post. destruct (sempty (default "" (rq_to rq))) eqn:Et; [left; by eexists|].
  destruct (sempty (default "" (rq_intent rq))) eqn:Ei; [left; by eexists|].
  destruct (Nat.leb_spec kMaxOpen (unfinished (jobs_ b))) as [|Hlt]; [left; by eexists|].
  rewrite sempty_false in Et, Ei.
  destruct (due_stamp (rq_due rq) (clk 1%nat)) as [due|e|] eqn:Ed; [|left; by eexists..].
  right. exists (mkJob uuid (default "" (rq_from rq)) (default "" (rq_to rq)) (default "" (rq_intent rq)) kOpen due
    (NowStamp (clk 0%nat)) (NowStamp (clk 0%nat)) None None "" None 0 0).
  split; [|split; [|by split_and!]].
  - unfold job_posted; cbn. split_and!; try done.
    + destruct (rq_to rq); [done|]. by destruct Et.
    + destruct (rq_intent rq); [done|]. by destruct Ei.
    + unfold due_stamp in Ed. destruct (rq_due rq) as [text|]; [|by simplify_eq; rewrite <- !not_eq_None_Some].
      apply res_bind_Ok in Ed as ([span|] & _ & Ed); [|done].
      apply res_bind_Ok in Ed as (at' & _ & [= <-]). by split; eexists.
  - unfold job_ok; cbn. split_and!; try done; lia.
Qed.

Lemma perform_effect c clk b : jobs_effect c b (jobs_ (perform c clk b).1).
Proof.
  destruct c as [peer s|uuid rq|rq|i a|i n|i n]; cbn [perform fst].
  - assert (jobs_ (TouchPeer peer s clk b) = jobs_ b) as -> by (unfold TouchPeer; by repeat case_match).
    apply eff_none.
  - destruct (Post_run uuid rq clk b) as [(r & -> & _)|(job & Hp & Hok & Hlt & _ & -> & _ & _)];
      [apply eff_none|by eapply eff_post].
  - destruct (Update_run rq clk b) as [(e & -> & _)|(k & it & it' & Hf & (_ & _ & _ & Hc & _) & Hs & Hm & Hok & -> & _)];
      [apply eff_none|].
    pose proof (find_job_id _ _ _ _ Hf) as Hi. rewrite Hi in Hf. by apply (eff_move _ b k it).
  - unfold Answer. edestruct (on_job_run i b) as [(e & ->)|(k & it & Hf & <- & Hc & ->)]; [apply eff_none|].
    case_bool_decide as Hb; [|apply eff_none]. cbn.
    apply (eff_move _ b k it); try done; [by destruct it| |intros; by apply answered_ok].
    destruct it; by constructor.
  - unfold Chase. edestruct (on_job_run i b) as [(e & ->)|(k & it & Hf & <- & Hc & ->)]; [apply eff_none|]. cbn.
    apply (eff_move _ b k it); try done; [by destruct it| |intros; by apply chased_ok]. destruct it; by constructor.
  - unfold Drop. edestruct (on_job_run i b) as [(e & ->)|(k & it & Hf & <- & Hc & ->)]; [apply eff_none|]. cbn.
    apply (eff_move _ b k it); try done; [by destruct it| |intros; by apply dropped_ok]. destruct it; by constructor.
Qed.

(** ** Invariants of the parts a call changes *)

Lemma unfinished_insert k it it' jobs :
  jobs !! k = Some it -> Closed it = false -> (unfinished (<[k := it']> jobs) <= unfinished jobs)%nat.
Proof.
  intros Hk Hc. unfold unfinished. rewrite insert_take_drop by by eapply lookup_lt_Some.
  rewrite <- (take_drop_middle jobs k it) at 3 by done.
  rewrite !filter_app, !length_app, !filter_cons. rewrite (decide_True (P := Closed it = false)) by done.
  case_decide; cbn [length]; lia.
Qed.

Lemma unfinished_perm jobs jobs' : jobs ≡ₚ jobs' -> unfinished jobs = unfinished jobs'.
Proof. intros H. unfold unfinished. by rewrite H. Qed.

Lemma ids_insert k it it' jobs :
  jobs !! k = Some it -> id it' = id it -> map id (<[k := it']> jobs) = map id jobs.
Proof.
  intros Hk Hi. change (map id) with (fmap (M := list) id). rewrite list_fmap_insert, Hi.
  apply list_insert_id. by rewrite list_lookup_fmap, Hk.
Qed.

Lemma names_held peer i s ps : map pp_name (held peer i s <$> ps) = map pp_name ps.
Proof. rewrite <- list_fmap_compose. apply list_fmap_ext. intros _ p _. cbn. unfold held. by case_decide. Qed.

Definition peers_ok (ps : list PeerPresence) : Prop := NoDup (map pp_name ps) /\ "" ∉ map pp_name ps.

Lemma TouchPeer_peers peer s clk b : peers_ok (peers_ b) -> peers_ok (peers_ (TouchPeer peer s clk b)).
Proof.
  unfold peers_ok, TouchPeer. intros [Hnd Hne]. destruct (sempty peer) eqn:Ep; [done|].
  apply sempty_false in Ep.
  destruct (list_find _ _) as [[k p]|] eqn:Ef; cbn [peers_].
  - apply list_find_Some in Ef as (Hk & Hp & _).
    assert (map pp_name (<[k := mkPresence (pp_name p) (NowStamp (clk 0%nat)) (if sempty s then pp_state p else s) (pp_job p)]>
      (peers_ b)) = map pp_name (peers_ b)) as ->; [|done].
    change (map pp_name) with (fmap (M := list) pp_name). rewrite list_fmap_insert.
    apply list_insert_id. by rewrite list_lookup_fmap, Hk.
  - apply list_find_None in Ef. rewrite map_app. cbn [map pp_name].
    rewrite NoDup_app, not_elem_of_app. split_and!; try done.
    + intros n (p & -> & Hin)%list_elem_of_fmap Hn%list_elem_of_singleton.
      rewrite Forall_forall in Ef. by apply (Ef p).
    + apply NoDup_singleton.
    + intros H%list_elem_of_singleton. done.
Qed.

Lemma Record_audit k p j t now b : (length (audit_ (Record_ k p j t now b)) <= kMaxAudit)%nat.
Proof. unfold Record_; cbn [audit_]. rewrite length_drop. lia. Qed.

(** What a call does to the peers and the audit. *)
Lemma perform_rest c clk b :
  (length (audit_ b) <= kMaxAudit)%nat -> peers_ok (peers_ b) ->
  (length (audit_ (perform c clk b).1) <= kMaxAudit)%nat /\ peers_ok (peers_ (perform c clk b).1).
Proof.
  intros Ha Hp. destruct c as [peer s|uuid rq|rq|i a|i n|i n]; cbn [perform fst].
  - split; [|by apply TouchPeer_peers]. unfold TouchPeer. by repeat case_match.
  - unfold Post. repeat case_match; (split; [first [done|apply Record_audit]|done]).
  - unfold Update. repeat case_match; (split; [first [done|apply Record_audit]|]); try done;
      unfold peers_ok; cbn [fst peers_]; by rewrite names_held.
  - unfold Answer, on_job. repeat case_match; (split; [first [done|apply Record_audit]|done]).
  - unfold Chase, on_job. repeat case_match; (split; [first [done|apply Record_audit]|done]).
  - unfold Drop, on_job. repeat case_match; (split; [first [done|apply Record_audit]|done]).
Qed.

Lemma push_job_incl job jobs j :
  (length jobs <= kMaxOpen + kMaxClosedKept)%nat -> j ∈ push_job job jobs -> j ∈ jobs ++ [job].
Proof.
  intros Hlen Hj. destruct (push_job_spec job jobs Hlen) as [[_ H]|(_ & old & H & _)]; [by rewrite <- H|].
  rewrite <- H. by right.
Qed.

Lemma push_job_ok uuid rq job jobs :
  NoDup (map id jobs) -> uuid ∉ map id jobs -> (unfinished jobs < kMaxOpen)%nat ->
  (length jobs <= kMaxOpen + kMaxClosedKept)%nat -> job_posted uuid rq job ->
  NoDup (map id (push_job job jobs)) /\ (unfinished (push_job job jobs) <= kMaxOpen)%nat
  /\ (length (push_job job jobs) <= kMaxOpen + kMaxClosedKept)%nat.
Proof.
  intros Hnd Hfresh Hopen Hlen (Hid & _).
  assert (Hall : NoDup (map id (jobs ++ [job]))).
  { rewrite map_app. apply NoDup_app. split_and!; [done| |apply NoDup_singleton].
    intros i Hi ->%list_elem_of_singleton. by rewrite Hid in Hi. }
  assert (Hcount : (unfinished (jobs ++ [job]) <= kMaxOpen)%nat).
  { unfold unfinished in *. rewrite filter_app, length_app, filter_cons, filter_nil.
    case_decide; cbn [length]; lia. }
  destruct (push_job_spec job jobs Hlen) as [[Hlt ->]|(Heq & old & Hp & _)].
  - split_and!; [done..|]. rewrite length_app. cbn [length]. lia.
  - pose proof (Permutation_length Hp) as Hl. rewrite length_app in Hl. cbn [length] in Hl.
    rewrite <- Hp in Hall. rewrite <- (unfinished_perm _ _ Hp) in Hcount.
    cbn in Hall. apply NoDup_cons in Hall as [_ Hall]. split_and!; [done| |lia].
    unfold unfinished in *. rewrite filter_cons in Hcount. case_decide; cbn [length] in Hcount; lia.
Qed.

Lemma perform_ok c clk b : board_ok b -> fresh_call c b -> board_ok (perform c clk b).1.
Proof.
  intros [Hids Hopen Hsize Haudit Hpeers Hjobs] Hfresh.
  destruct (perform_rest c clk b Haudit Hpeers) as [Haudit' Hpeers'].
  pose proof (perform_effect c clk b) as Heff.
  enough (NoDup (map id (jobs_ (perform c clk b).1)) /\ (unfinished (jobs_ (perform c clk b).1) <= kMaxOpen)%nat
    /\ (length (jobs_ (perform c clk b).1) <= kMaxOpen + kMaxClosedKept)%nat
    /\ Forall job_ok (jobs_ (perform c clk b).1)) as (? & ? & ? & ?) by by constructor.
  destruct Heff as [|k it it' Hf Hc (Hi & _) _ Hok|uuid rq job -> Hp Hok Hlt].
  - done.
  - apply find_job_Some in Hf as (Hk & _). rewrite (ids_insert k it), length_insert by done.
    pose proof (unfinished_insert k it it' (jobs_ b) Hk Hc). split_and!; [done|lia|done|].
    apply Forall_insert; [done|]. apply Hok. by eapply Forall_lookup_1.
  - destruct (push_job_ok uuid rq job (jobs_ b)) as (? & ? & ?); try done. split_and!; [done..|].
    apply Forall_forall. intros j Hj%push_job_incl; [|done].
    rewrite Forall_forall in Hjobs. apply elem_of_app in Hj as [Hj| ->%list_elem_of_singleton]; auto.
Qed.

Lemma reachable_ok b : reachable b -> board_ok b.
Proof.
  induction 1 as [|b c clk _ IH Hfresh]; [|by apply perform_ok].
  constructor; cbn; try done; try lia; try constructor; try apply NoDup_nil_2; set_solver.
Qed.

Lemma Find_iff b i j : board_ok b -> Find i b = Some j <-> j ∈ jobs_ b /\ id j = i.
Proof. intros Hok. by apply find_job_NoDup, ok_ids. Qed.

(** ** What the board promises *)

Lemma Board_Find_None i b : Find i b = None <-> i ∉ map id (jobs_ b).
Proof.
  unfold Find. rewrite fmap_None. unfold find_job. rewrite list_find_None.
  change (map id) with (fmap (M := list) id). rewrite list_elem_of_fmap, Forall_forall. naive_solver.
Qed.

Lemma same_id jobs j j' : NoDup (map id jobs) -> j ∈ jobs -> j' ∈ jobs -> id j = id j' -> j = j'.
Proof.
  intros Hnd [k Hk]%list_elem_of_lookup [k' Hk']%list_elem_of_lookup Hi.
  assert (k = k') as ->; [|congruence].
  eapply NoDup_lookup; [done|..]; rewrite list_lookup_fmap; [by rewrite Hk|rewrite Hk'; cbn; by rewrite Hi].
Qed.

Lemma id_elem j jobs : j ∈ jobs -> id j ∈ map id jobs.
Proof. apply list_elem_of_fmap_2. Qed.

Lemma effect_moves c b jobs' j j' :
  board_ok b -> fresh_call c b -> jobs_effect c b jobs' -> j ∈ jobs_ b -> j' ∈ jobs' -> id j = id j' ->
  j' = j \/ (Closed j = false /\ same_job j j' /\ job_move c j j').
Proof.
  intros Hok Hfresh Heff Hj Hj' Hi. pose proof (ok_ids b Hok) as Hnd.
  destruct Heff as [|k it it' Hf Hc Hs Hm _|uuid rq job -> Hp _ _].
  - left. by eapply same_id.
  - apply find_job_Some in Hf as (Hk & _). apply list_elem_of_lookup in Hj' as [k' Hk'].
    rewrite list_lookup_insert in Hk'. case_decide as E.
    + right. injection Hk' as <-. assert (j = it) as ->; [|done].
      eapply same_id; [done..|by eapply list_elem_of_lookup_2|]. destruct Hs as (Hs & _). congruence.
    + left. eapply same_id; [done|by eapply list_elem_of_lookup_2|done|done].
  - apply push_job_incl in Hj'; [|apply Hok].
    apply elem_of_app in Hj' as [Hj'| ->%list_elem_of_singleton]; [left; by eapply same_id|].
    exfalso. apply Hfresh. destruct Hp as (<- & _). rewrite <- Hi. by apply id_elem.
Qed.

Lemma effect_ids c b jobs' i :
  board_ok b -> jobs_effect c b jobs' ->
  (i ∉ map id (jobs_ b) -> forall j', j' ∈ jobs' -> id j' = i -> exists uuid rq, c = CPost uuid rq /\ job_posted uuid rq j')
  /\ (i ∉ map id jobs' -> forall j, j ∈ jobs_ b -> id j = i ->
        (exists uuid rq, c = CPost uuid rq) /\ length (jobs_ b) = (kMaxOpen + kMaxClosedKept)%nat
        /\ Forall (fun other => String.le (updated_at j) (updated_at other)) (jobs_ b)).
Proof.
  intros Hok Heff. destruct Heff as [|k it it' Hf Hc (Hi & _) _ _|uuid rq job -> Hp _ _].
  - split; intros Hni j Hj <-; by destruct Hni; apply id_elem.
  - apply find_job_Some in Hf as (Hk & _).
    split; intros Hni j Hj <-; exfalso; apply Hni; [rewrite <- (ids_insert k it it') by done|
      rewrite (ids_insert k it it') by done]; by apply id_elem.
  - pose proof (ok_size b Hok) as Hlen. split; intros Hni j Hj <-.
    + apply push_job_incl in Hj; [|done].
      apply elem_of_app in Hj as [Hj| ->%list_elem_of_singleton]; [by destruct Hni; apply id_elem|]. by exists uuid, rq.
    + destruct (push_job_spec job (jobs_ b) Hlen) as [[_ H]|(Hl & old & H & Hold)].
      * destruct Hni. rewrite H. apply id_elem, elem_of_app. by left.
      * split; [by exists uuid, rq|]. split; [done|].
        assert (Hin : j ∈ jobs_ b ++ [job]) by (apply elem_of_app; by left).
        rewrite <- H in Hin. apply elem_of_cons in Hin as [->|Hin]; [|by destruct Hni; apply id_elem].
        by apply Forall_app in Hold as [Hold _].
Qed.

(** C10: every call keeps the board well formed, and what it does to a job is
    what the job's life allows: a job the call does not name, and one that has
    closed, stay as they are; one that moves does so by its holder's update or
    by a person's answer, chase or drop, keeping its id, its two peers, its
    intent and the moment it was made; a job appears only by a post, open; and
    one disappears only when a post finds the board full, and then it is one
    that no job was updated before. *)
Theorem Board_step b c clk :
  reachable b -> fresh_call c b ->
  let b' := (perform c clk b).1 in
  board_ok b'
  /\ (forall i j j', Find i b = Some j -> Find i b' = Some j' ->
        j' = j \/ (Closed j = false /\ same_job j j' /\ job_move c j j'))
  /\ (forall i j', Find i b = None -> Find i b' = Some j' ->
        exists uuid rq, c = CPost uuid rq /\ job_posted uuid rq j')
  /\ (forall i j, Find i b = Some j -> Find i b' = None ->
        (exists uuid rq, c = CPost uuid rq) /\ length (jobs_ b) = (kMaxOpen + kMaxClosedKept)%nat
        /\ Forall (fun other => String.le (updated_at j) (updated_at other)) (jobs_ b)).
Proof.
  intros Hr Hfresh b'. pose proof (reachable_ok b Hr) as Hok.
  pose proof (perform_ok c clk b Hok Hfresh) as Hok'. pose proof (perform_effect c clk b) as Heff.
  fold b' in Hok', Heff. split; [done|]. split_and!.
  - intros i j j' [Hj <-]%Find_iff [Hj' Hi]%Find_iff; try done. by apply (effect_moves c b (jobs_ b')).
  - intros i j' Hn%Board_Find_None [Hj' <-]%Find_iff; try done.
    by eapply (effect_ids c b (jobs_ b')).
  - intros i j [Hj <-]%Find_iff Hn%Board_Find_None; try done. by eapply (effect_ids c b (jobs_ b')).
Qed.

(** What a taken update answers is the job it left. *)
Lemma Update_found rq clk b r :
  (Update rq clk b).2 = Ok r ->
  Find (default "" (rq_job rq)) (Update rq clk b).1 = Some (ar_job r) /\ ar_outcome r = outcome_of (ar_job r)
  /\ exists k it, find_job (default "" (rq_job rq)) (jobs_ b) = Some (k, it) /\ update_allowed rq it /\ same_job it (ar_job r).
Proof.
  intros Hr. destruct (Update_run rq clk b) as [(e & He & _)|(k & it & it' & Hf & Ha & Hs & _ & _ & Hj & Ho)].
  - by rewrite He in Hr.
  - rewrite Hr in Ho. apply Ok_inj in Ho. subst r. cbn [ar_job ar_outcome].
    split; [|split; [done|by exists k, it]]. pose proof (proj1 Hs) as Hi.
    unfold Find. rewrite Hj. apply find_job_Some in Hf as (Hk & Hid & Hfirst).
    assert (find_job (default "" (rq_job rq)) (<[k := it']> (jobs_ b)) = Some (k, it')) as ->; [|done].
    apply find_job_Some. rewrite list_lookup_insert_eq by by eapply lookup_lt_Some.
    split_and!; [done|congruence|]. intros k' j' Hk' Hlt. rewrite list_lookup_insert_ne in Hk' by lia. by eapply Hfirst.
Qed.

(** A refused call leaves the board. *)
Lemma perform_refused c clk b : is_ok (perform c clk b).2 = false -> (perform c clk b).1 = b.
Proof.
  destruct c as [peer s|uuid rq'|rq'|i a|i n|i n]; cbn [perform fst snd].
  - done.
  - destruct (Post_run uuid rq' clk b) as [(r & -> & _)|(job & _ & _ & _ & _ & _ & _ & ->)]; done.
  - destruct (Update_run rq' clk b) as [(e & -> & _)|(k & it & it' & _ & _ & _ & _ & _ & _ & ->)]; done.
  - unfold Answer. edestruct (on_job_run i b) as [(e & ->)|(k & it & _ & _ & _ & ->)]; [done|]. by case_bool_decide.
  - unfold Chase. edestruct (on_job_run i b) as [(e & ->)|(k & it & _ & _ & _ & ->)]; done.
  - unfold Drop. edestruct (on_job_run i b) as [(e & ->)|(k & it & _ & _ & _ & ->)]; done.
Qed.

(** Only a touch notes a peer. *)
Lemma perform_names c clk b :
  (forall peer s, c <> CTouch peer s) -> map pp_name (peers_ (perform c clk b).1) = map pp_name (peers_ b).
Proof.
  intros Hc. destruct c as [peer s|uuid rq|rq|i a|i n|i n]; cbn [perform fst]; [by destruct (Hc peer s)|..].
  - unfold Post. by repeat case_match.
  - unfold Update. repeat case_match; try done; cbn [fst peers_]; by rewrite names_held.
  - unfold Answer, on_job. by repeat case_match.
  - unfold Chase, on_job. by repeat case_match.
  - unfold Drop, on_job. by repeat case_match.
Qed.

Lemma TouchPeer_names peer s clk b n :
  n ∈ map pp_name (peers_ (TouchPeer peer s clk b)) -> n ∈ map pp_name (peers_ b) \/ n = peer.
Proof.
  unfold TouchPeer. destruct (sempty peer); [by left|].
  destruct (list_find _ _) as [[k p]|] eqn:Ef; cbn [peers_].
  - apply list_find_Some in Ef as (Hk & Hp & _). change (map pp_name) with (fmap (M := list) pp_name).
    rewrite list_fmap_insert, list_insert_id by (by rewrite list_lookup_fmap, Hk). by left.
  - rewrite map_app. intros [Hn|Hn%list_elem_of_singleton]%elem_of_app; [by left|by right].
Qed.

Lemma TouchPeer_jobs peer s clk b : jobs_ (TouchPeer peer s clk b) = jobs_ b.
Proof. unfold TouchPeer. by repeat case_match. Qed.

(** An update is taken exactly when it names a job on the board that has not
    ended, comes from the peer that holds it, and asks for a state a peer may
    name, blocking only with a question and declining at most once while it
    is not taken up again; what it answers is then the job it left, with the outcome when
    that closed it.  A call that is refused leaves the board as it was. *)
Theorem Update_taken rq clk b :
  (is_ok (Update rq clk b).2 = true <->
     exists k it, find_job (default "" (rq_job rq)) (jobs_ b) = Some (k, it) /\ update_allowed rq it)
  /\ (forall r, (Update rq clk b).2 = Ok r ->
        Find (default "" (rq_job rq)) (Update rq clk b).1 = Some (ar_job r)
        /\ ar_outcome r = outcome_of (ar_job r))
  /\ (forall c, is_ok (perform c clk b).2 = false -> (perform c clk b).1 = b).
Proof.
  split_and!.
  - destruct (Update_run rq clk b) as [(e & -> & Hno)|(k & it & it' & Hf & Ha & _ & _ & _ & _ & ->)]; cbn.
    + split; [done|]. intros (k & it & Hf & Ha). by destruct (Hno k it Hf).
    + split; [|done]. by exists k, it.
  - intros r Hr. by destruct (Update_found rq clk b r Hr) as (? & ? & _).
  - intros c. apply perform_refused.
Qed.

(** ** Deadlines *)

Lemma to_time_t_span now span : 0 <= now -> 0 <= span -> to_time_t (now + span * kTicks) = to_time_t now + span.
Proof.
  intros Hn Hs. unfold to_time_t, kTicks. rewrite !Z.quot_div_nonneg by lia.
  by rewrite Z.div_add by lia.
Qed.

Lemma to_time_t_range now : 0 <= now < 2 ^ 63 -> 0 <= to_time_t now < kStampLimit.
Proof.
  intros Hn. unfold to_time_t, kTicks, kStampLimit. rewrite Z.quot_div_nonneg by lia.
  split; [apply Z.div_pos; lia|]. apply Z.div_lt_upper_bound; lia.
Qed.

Lemma ParseDuration_pos text span : ParseDuration text = Ok (Some span) -> 0 < span.
Proof.
  unfold ParseDuration. destruct (sempty text); [done|]. destruct (split_digits text) as [digits unit].
  destruct (sempty digits); [done|]. destruct (digits_value digits 0) as [count|]; [|done].
  destruct (_ || _) eqn:E; [done|]. apply orb_false_iff in E as [_ E%Z.leb_gt].
  destruct (unit_seconds unit) as [scale|] eqn:Eu; [|done].
  destruct (_ <? _); [|done]. intros [= <-]. unfold unit_seconds in Eu. repeat case_decide; simplify_eq; lia.
Qed.

Lemma Render_overdue job now : at_key (Render job now) "overdue" = Some (JBool (overdue job now)).
Proof.
  unfold Render, at_key, if_object. cbn [mbind option_bind]. set (o := opt_set "due_at" _ _).
  rewrite obj_find_set_ne by done.
  repeat (match goal with |- context [opt_set ?k ?v ?o'] => destruct v; cbn [opt_set] end;
          rewrite ?obj_find_set_ne by done).
  all: by rewrite obj_find_set_eq.
Qed.

(** A job posted with a deadline is shown overdue from the second after the
    deadline on: the moment it was posted and the duration that was asked for,
    both read back through the stamps the board keeps, add up to the second.
    The clock reads before the end of its range. *)
Theorem Posted_overdue uuid rq clk b text span r now :
  rq_due rq = Some text -> ParseDuration text = Ok (Some span) ->
  (Post uuid rq clk b).2 = Ok r -> 0 <= clk 1%nat -> 0 <= now < 2 ^ 63 ->
  at_key (Render (ar_job r) (NowStamp now)) "overdue"
  = Some (JBool (to_time_t (clk 1%nat) + span <? to_time_t now)).
Proof.
  intros Hdue Hspan Hr Hclk Hnow. rewrite Render_overdue. do 2 f_equal.
  destruct (Post_run uuid rq clk b) as [(r' & He & Hno)|(job & Hp & _ & _ & Hd & _ & _ & Ho)].
  { rewrite He in Hr. cbn in Hr. by rewrite Hr in Hno. }
  rewrite Hr in Ho. apply Ok_inj in Ho. subst r. cbn [ar_job].
  rewrite Hdue in Hd. unfold due_stamp in Hd. rewrite Hspan in Hd. cbn [res_bind] in Hd.
  unfold after_span in Hd. destruct (Z.ltb_spec (clk 1%nat + span * kTicks) (2 ^ 63)) as [Hlt|]; [|done].
  apply Ok_inj in Hd. pose proof (ParseDuration_pos _ _ Hspan).
  destruct Hp as (_ & _ & _ & _ & Hs & _). unfold overdue, Closed. rewrite <- Hd, Hs. cbn [negb andb].
  assert (Hk : 0 <= clk 1%nat + span * kTicks < 2 ^ 63) by (unfold kTicks in *; lia).
  unfold NowStamp. rewrite AgeSeconds_Stamp by by apply to_time_t_range.
  rewrite to_time_t_span by lia. destruct (Z.ltb_spec (to_time_t (clk 1%nat) + span) (to_time_t now));
    [apply Z.ltb_lt|apply Z.ltb_ge]; lia.
Qed.

(** ** What a peer is told *)

Lemma held_lines_nil peer now job : held_lines peer now job = [] <-> ~ (to job = peer /\ Closed job = false).
Proof.
  unfold held_lines. destruct (bool_decide (to job = peer) && negb (Closed job)) eqn:E.
  - apply andb_true_iff in E as [E1%bool_decide_eq_true E2%negb_true_iff]. split; [done|]. by intros [].
  - apply andb_false_iff in E as [E%bool_decide_eq_false|E%negb_false_iff]; split; try done; rewrite ?E; naive_solver.
Qed.

Lemma closed_lines_nil peer job : closed_lines peer job = [] <-> ~ (from job = peer /\ Closed job = true).
Proof.
  unfold closed_lines. destruct (Closed job); cbn [negb]; rewrite ?andb_false_r, ?andb_true_r.
  - case_bool_decide; naive_solver.
  - rewrite ?andb_false_r. case_bool_decide; naive_solver.
Qed.

Lemma concat_map_nil {A B} (f : A -> list B) l : concat (map f l) = [] <-> Forall (fun x => f x = []) l.
Proof.
  induction l as [|x l IH]; cbn; [done|]. rewrite app_nil, IH, Forall_cons. done.
Qed.

(** A peer is told nothing exactly when it holds no unfinished job and none
    it handed out has closed. *)
Theorem Digest_empty peer clk b :
  Digest peer clk b = "" <->
  peer = "" \/ Forall (fun job => ~ (to job = peer /\ Closed job = false)
                               /\ ~ (from job = peer /\ Closed job = true)) (jobs_ b).
Proof.
  unfold Digest. destruct (sempty peer) eqn:Ep; [apply sempty_true in Ep; naive_solver|apply sempty_false in Ep].
  set (now := NowStamp (clk 0%nat)).
  assert (Forall (fun job => ~ (to job = peer /\ Closed job = false) /\ ~ (from job = peer /\ Closed job = true)) (jobs_ b)
    <-> concat (map (held_lines peer now) (jobs_ b)) = [] /\ concat (map (closed_lines peer) (jobs_ b)) = []) as ->.
  { rewrite !concat_map_nil, <- Forall_and. apply Forall_iff. intros job. by rewrite held_lines_nil, closed_lines_nil. }
  destruct (concat _) as [|l ls], (concat (map (closed_lines peer) _)) as [|c cs]; naive_solver.
Qed.

(** ** A full board *)

#[export] Instance fresh_call_dec c b : Decision (fresh_call c b).
Proof. destruct c; cbn; apply _. Defined.

(** Calls one after the other, each with the second it is made in. *)
Fixpoint perform_all (calls : list (call * Z)) (b : Board) : option Board :=
  match calls with
  | [] => Some b
  | (c, second) :: calls =>
      if decide (fresh_call c b) then perform_all calls (perform c (fun _ => second * kTicks) b).1 else None
  end.

Lemma perform_all_reachable calls b b' : perform_all calls b = Some b' -> reachable b -> reachable b'.
Proof.
  revert b. induction calls as [|[c second] calls IH]; intros b; cbn; [by intros [= <-]|].
  case_decide; [|done]. intros H' Hb. eapply IH; [done|]. by constructor.
Qed.

Definition ask (to_ intent_ : string) : JobRequest :=
  mkJobRequest None None (Some to_) (Some intent_) None None None None None.

(** A job nobody takes up, and after it as many as the board keeps, each taken
    back as soon as it is posted. *)
Definition forgotten_calls : list (call * Z) :=
  (CPost "old" (ask "box" "tests"), 0)
  :: concat (map (fun n => [(CPost (decimal n) (ask "box" "again"), n); (CDrop (decimal n) "", n)]) (seqZ 1 159)).

Definition drops_old (o : option Board) (clk : nat -> Z) : option bool :=
  b ← o;
  j ← Find "old" b;
  Some (bool_decide (state j = kOpen /\ id j = "old" /\ fresh_call (CPost "new" (ask "box" "more")) b
    /\ unfinished (jobs_ b) = 1%nat
    /\ is_ok (Post "new" (ask "box" "more") clk b).2 = true
    /\ Find "old" (Post "new" (ask "box" "more") clk b).1 = None)).

Lemma drops_old_spec o clk :
  drops_old o clk = Some true ->
  exists b j, o = Some b /\ fresh_call (CPost "new" (ask "box" "more")) b /\ Find (id j) b = Some j
    /\ state j = kOpen /\ unfinished (jobs_ b) = 1%nat
    /\ is_ok (Post "new" (ask "box" "more") clk b).2 = true
    /\ Find (id j) (Post "new" (ask "box" "more") clk b).1 = None.
Proof.
  intros (b & Hb & (j & Hj & Hout)%bind_Some)%bind_Some. exists b, j.
  apply (inj Some), bool_decide_eq_true in Hout as (Hs & Hi & Hf & Hu & Ho & Hn). by rewrite Hi.
Qed.

(** The board can lose a job that has not closed: a job that nobody moves
    is the one updated longest ago when a post finds the board full of closed
    ones. *)
Theorem Post_drops_unfinished :
  exists b j uuid rq clk, reachable b /\ fresh_call (CPost uuid rq) b /\ Find (id j) b = Some j
    /\ state j = kOpen /\ unfinished (jobs_ b) = 1%nat
    /\ is_ok (Post uuid rq clk b).2 = true /\ Find (id j) (Post uuid rq clk b).1 = None.
Proof.
  destruct (drops_old_spec (perform_all forgotten_calls new_board) (fun _ => 160 * kTicks))
    as (b & j & Hb & H); [vm_compute; reflexivity|].
  exists b, j, "new", (ask "box" "more"), (fun _ => 160 * kTicks).
  split; [|exact H]. eapply perform_all_reachable; [exact Hb|constructor].
Qed.

(** ** Witnesses *)

Definition claim : JobRequest :=
  mkJobRequest (Some "j1") (Some "box") None None None (Some "claimed") None None None.

Definition demo_board : option Board := perform_all [(CPost "j1" (ask "box" "tests"), 0)] new_board.

Lemma demo_reachable b : demo_board = Some b -> reachable b.
Proof. intros H. eapply perform_all_reachable; [exact H|constructor]. Qed.

Lemma Board_step_witness :
  exists b, demo_board = Some b /\ map state (jobs_ b) = [kOpen]
    /\ map state (jobs_ (perform (CUpdate claim) (fun _ => 10 ^ 12) b).1) = [kClaimed]
    /\ board_ok (perform (CUpdate claim) (fun _ => 10 ^ 12) b).1.
Proof.
  eexists. split; [vm_compute; reflexivity|]. split; [reflexivity|]. split; [reflexivity|].
  match goal with |- board_ok (perform ?c ?clk ?b).1 =>
    exact (proj1 (Board_step b c clk (demo_reachable b eq_refl) I)) end.
Defined.

Definition due_soon : JobRequest :=
  mkJobRequest None None (Some "box") (Some "tests") (Some "30m") None None None None.

Lemma Posted_overdue_witness :
  exists r, (Post "j1" due_soon (fun _ => 5 * 10 ^ 9) new_board).2 = Ok r
    /\ due_at (ar_job r) = Some "1970-01-01T00:30:05Z"
    /\ at_key (Render (ar_job r) (NowStamp (1806 * 10 ^ 9))) "overdue" = Some (JBool true).
Proof.
  eexists. split; [vm_compute; reflexivity|]. split; [reflexivity|].
  rewrite (Posted_overdue "j1" due_soon (fun _ => 5 * 10 ^ 9) new_board "30m" 1800 _ (1806 * 10 ^ 9)); try reflexivity.
  - by vm_compute.
  - lia.
Defined.

End Board.
