(* ===== verification/Http.v ===== *)
(** * The HTTP client ([src/core/beast_http_client.cpp])

    [StreamRequest] and [Get] as one request each: the address is parsed, the
    network is asked, and the body is handed to the consumer piece by piece, or
    collected when the reply is an error.

    The network is a parameter: for a request it says how each operation ends
    and in which pieces the body arrives ([Network]).  The consumer
    ([write_cb]) and the two ways a request is called off work on the caller's
    state.  TLS, name resolution and the timers are operations of the network;
    what the client makes of a missed deadline is modelled. *)
From Stdlib Require Import Ascii.
From S2P Require Export Prelude Text Json.

(** [BearerHeader] *)
Definition BearerHeader (api_key : string) : string :=
  if sempty api_key then "" else "Authorization: Bearer " +:+ api_key.

Inductive HttpMethod := kGet | kPost.

Record Response := mkResponse { status : Z; body : string }.

(** [HttpError] is a kind of [GenericError]. *)
Definition HttpError {A} (msg : string) : res A := Throw (GenericError msg).

(** ** Addresses *)

Record UrlParts := mkUrl { scheme : string; url_host : string; port : string; target : string }.

Definition is_alpha (c : ascii) : bool :=
  ((65 <=? byte_z c) && (byte_z c <=? 90)) || ((97 <=? byte_z c) && (byte_z c <=? 122)).

(** [[^:/]] *)
Definition is_host_char (c : ascii) : bool := negb (bool_decide (c = ":"%char)) && negb (bool_decide (c = "/"%char)).

(** [.] of the expression, which no line end matches. *)
Definition is_dot (c : ascii) : bool := negb (bool_decide (c = nl)) && negb (bool_decide (c = cr)).

(** The longest prefix of characters [p], and the rest. *)
Fixpoint span_chars (p : ascii -> bool) (s : string) : string * string :=
  match s with
  | "" => ("", "")
  | String c rest =>
      if p c then let '(taken, later) := span_chars p rest in (String c taken, later) else ("", s)
  end.

(** The end of the expression: an optional path and nothing else. *)
Definition match_target (rest : string) : option (option string) :=
  match rest with
  | "" => Some None
  | String c path => if bool_decide (c = "/"%char) && all_chars is_dot path then Some (Some rest) else None
  end.

(** What follows the host: a port or none, then the end. *)
Definition match_rest (rest : string) : option (option string * option string) :=
  match rest with
  | String c after =>
      if bool_decide (c = ":"%char) then
        let '(digits, rest) := span_chars is_digit after in
        if sempty digits then None else path ← match_target rest; Some (Some digits, path)
      else path ← match_target rest; Some (None, path)
  | "" => Some (None, None)
  end.

(** The expression of [ParseUrl]: letters, [://], a host without a colon or a
    slash, an optional port and an optional path.  Its groups match in one way
    only. *)
Definition match_url (url : string) : option (string * string * option string * option string) :=
  let '(name, rest) := span_chars is_alpha url in
  if sempty name || negb (starts_with "://" rest) then None
  else
    let '(host, rest) := span_chars is_host_char (sdrop 3 rest) in
    if sempty host then None
    else '(digits, path) ← match_rest rest; Some (name, host, digits, path).

Definition ParseUrl (url : string) : res UrlParts :=
  match match_url url with
  | None => HttpError ("Invalid URL: " +:+ url)
  | Some (name, host, digits, path) =>
      Ok (mkUrl name host (default (if bool_decide (name = "https") then "443" else "80") digits)
            (default "/" path))
  end.

(** ** What is sent *)

(** The fields set on a request, in the order they are set. *)
Definition header_field (h : string) : option (string * string) :=
  match sfind ":" h with
  | Some pos => Some (Trim (stake pos h), Trim (sdrop (S pos) h))
  | None => None
  end.

Definition AddHeaders (headers : list string) : list (string * string) := omap header_field headers.

Definition ApplyHeaders (host body : string) (headers : list string) : list (string * string) :=
  [("Host", host); ("Content-Type", "application/json");
   ("Content-Length", decimal (Z.of_nat (slen body)))] ++ AddHeaders headers.

Record Request := mkRequest {
  rq_method : HttpMethod; rq_url : UrlParts; rq_fields : list (string * string); rq_body : string
}.

(** ** Deadlines *)

Definition kConnectBudget : Z := 10.
Definition kStreamIdleBudget : Z := 300.
Definition kReadIdleBudget : Z := 30.

(** Why an operation failed: its timer, or a reason of its own. *)
Inductive failure := TimedOut | Failure (message : string).

Definition ThrowDeadline {A} (ec : failure) (what : string) (budget : Z) : res A :=
  match ec with
  | TimedOut => HttpError ("HTTP " +:+ what +:+ " timed out after " +:+ decimal budget +:+ "s")
  | Failure message => HttpError ("HTTP " +:+ what +:+ " error: " +:+ message)
  end.

Definition within (ec : option failure) (what : string) (budget : Z) : res unit :=
  match ec with Some f => ThrowDeadline f what budget | None => Ok tt end.

(** What the network does with a request. *)
Record Network := mkNetwork {
  resolved : res unit;
  connected : option failure;
  handshaken : option failure;
  written : option failure;
  (** The status line, the pieces of the body, and how the body ended. *)
  header_ : failure + Z;
  pieces : list string;
  ended : option failure;
}.

(** ** Errors a gateway answers with *)

Definition kMaxErrorBody : nat := 64 * 1024.
Definition kMaxDetail : nat := 400.

(** [SummarizeErrorBody]; what [FromPipedOutput] makes of the body is its valid
    UTF-8, as outside Windows. *)
Definition SummarizeErrorBody `{JsonCodec} (body : string) : string :=
  if sempty body then ""
  else
    let text := SanitizeUtf8 body in
    let message := match parse text with Some parsed => UserFacingError parsed | None => "" end in
    let message := if sempty message then text else message in
    let one_line := CollapseWhitespace message in
    if (slen one_line <=? kMaxDetail)%nat then one_line else stake kMaxDetail one_line +:+ "...".

Definition refuse_status `{JsonCodec} (status : Z) (error_body : string) : res unit :=
  if 400 <=? status then
    let summary := SummarizeErrorBody error_body in
    HttpError ("HTTP error " +:+ decimal status +:+ (if sempty summary then "" else ": " +:+ summary))
  else Ok tt.

(** The collected part of an error body after one more piece. *)
Definition collect (collected piece : string) : string :=
  if (slen collected <? kMaxErrorBody)%nat
  then collected +:+ stake (slen piece `min` (kMaxErrorBody - slen collected)) piece
  else collected.

Section Client.
#[local] Set Default Proof Using "Type*".
Context `{codec : JsonCodec} {T : Type}.
(** The cancel token of the request, if it has one, and the signal flag. *)
Context (token : option (T -> T * bool)) (interrupted : T -> bool).
Context (dial : Request -> T -> T * Network).

Definition CheckCancel (s : T) : T * res unit :=
  let '(s, cancelled) := match token with Some load => load s | None => (s, false) end in
  (s, if cancelled then HttpError "Request cancelled"
      else if interrupted s then HttpError "Interrupted by signal" else Ok tt).

(** [BodyStream]: [OnPiece] over the pieces; the second answer is [refused_].
    A consumer that throws ends the request with what it threw. *)
Fixpoint read_pieces (write_cb : string -> T -> T * res nat) (is_error : bool) (ps : list string)
    (collected : string) (s : T) : T * res (string * bool) :=
  match ps with
  | [] => (s, Ok (collected, false))
  | piece :: ps =>
      if sempty piece then read_pieces write_cb is_error ps collected s
      else if is_error then read_pieces write_cb is_error ps (collect collected piece) s
      else
        let '(s, taken) := write_cb piece s in
        match taken with
        | Throw e => (s, Throw e)
        | Undef => (s, Undef)
        | Ok O => (s, Ok (collected, true))
        | Ok (S _) => read_pieces write_cb is_error ps collected s
        end
  end.

(** [BodyStream::Read]: the status, the body of an error, and [refused_]. *)
Definition Read (write_cb : string -> T -> T * res nat) (net : Network) (s : T) : T * res (Z * string * bool) :=
  match header_ net with
  | inl f => (s, ThrowDeadline f "read" kStreamIdleBudget)
  | inr status =>
      let '(s, out) := read_pieces write_cb (400 <=? status) (pieces net) "" s in
      (s, let? r := out in
          let '(collected, refused) := r in
          let? _ := (if refused : bool then Ok tt else within (ended net) "read" kStreamIdleBudget) in
          Ok (status, collected, refused))
  end.

(** A step that fails ends the request. *)
Definition and_then {A B} (m : T * res A) (k : A -> T -> T * res B) : T * res B :=
  let '(s, out) := m in
  match out with Ok a => k a s | Throw e => (s, Throw e) | Undef => (s, Undef) end.

Definition StreamRequest (method : HttpMethod) (url body : string) (headers : list string)
    (write_cb : string -> T -> T * res nat) (s : T) : T * res unit :=
  and_then (CheckCancel s) (fun _ s =>
  and_then (s, ParseUrl url) (fun parts s =>
  let '(s, net) := dial (mkRequest method parts (ApplyHeaders (url_host parts) body headers) body) s in
  and_then (s, resolved net) (fun _ s =>
  and_then (CheckCancel s) (fun _ s =>
  and_then (s, within (connected net) "connect" kConnectBudget) (fun _ s =>
  and_then (CheckCancel s) (fun _ s =>
  and_then (if bool_decide (scheme parts = "https") then
              and_then (s, within (handshaken net) "TLS handshake" kConnectBudget) (fun _ s => CheckCancel s)
            else (s, Ok tt)) (fun _ s =>
  and_then (s, within (written net) "write" kStreamIdleBudget) (fun _ s =>
  and_then (CheckCancel s) (fun _ s =>
  and_then (Read write_cb net s) (fun r s =>
  let '(status, error_body, refused) := r in
  if refused : bool then (s, HttpError "Streaming aborted by consumer")
  else (s, refuse_status status error_body)))))))))))%pu.

Definition PostStream (url body : string) (headers : list string)
    (write_cb : string -> T -> T * res nat) (s : T) : T * res unit :=
  StreamRequest kPost url body headers write_cb s.

(** A [Get] reads the whole body in one operation; it is never called off. *)
Definition Get (url : string) (headers : list string) (s : T) : T * res Response :=
  and_then (s, ParseUrl url) (fun parts s =>
  let '(s, net) := dial (mkRequest kGet parts (("Host", url_host parts) :: AddHeaders headers) "") s in
  (s, let? _ := resolved net in
      let? _ := within (connected net) "connect" kConnectBudget in
      let? _ := (if bool_decide (scheme parts = "https")
                 then within (handshaken net) "TLS handshake" kConnectBudget else Ok tt) in
      let? _ := within (written net) "write" kReadIdleBudget in
      match header_ net with
      | inl f => ThrowDeadline f "read" kReadIdleBudget
      | inr status =>
          let? _ := within (ended net) "read" kReadIdleBudget in
          let reply := foldr String.append "" (pieces net) in
          let? _ := refuse_status status reply in
          Ok (mkResponse status reply)
      end)).

End Client.

(** ** The expression's language *)

Definition write_url (name host : string) (digits path : option string) : string :=
  name +:+ "://" +:+ host +:+ match digits with Some d => ":" +:+ d | None => "" end +:+ default "" path.

Definition url_ok (name host : string) (digits path : option string) : Prop :=
  name <> "" /\ all_chars is_alpha name = true
  /\ host <> "" /\ all_chars is_host_char host = true
  /\ match digits with Some d => d <> "" /\ all_chars is_digit d = true | None => True end
  /\ match path with Some p => exists rest, p = String "/" rest /\ all_chars is_dot rest = true | None => True end.

(** The text does not go on with a character of [p]. *)
Definition stops (p : ascii -> bool) (s : string) : Prop :=
  match s with "" => True | String c _ => p c = false end.

Lemma span_chars_spec p s a b :
  span_chars p s = (a, b) <-> s = a +:+ b /\ all_chars p a = true /\ stops p b.
Proof.
  revert a b. induction s as [|c s IH]; intros a b; cbn [span_chars].
  - split; [by intros [= <- <-]|]. intros (Hs & _ & _). symmetry in Hs. apply sapp_eq_nil in Hs as [-> ->]. done.
  - destruct (p c) eqn:Hc.
    + destruct (span_chars p s) as [taken later] eqn:E. destruct (proj1 (IH taken later) eq_refl) as (-> & Ht & Hl).
      split.
      * intros [= <- <-]. cbn. by rewrite Hc.
      * intros (Hs & Ha & Hb). destruct a as [|c' a].
        { cbn in Hs. subst b. cbn in Hb. congruence. }
        injection Hs as <- Hs. cbn in Ha. rewrite Hc in Ha.
        assert (E' : (taken, later) = (a, b)) by (apply IH; by rewrite Hs). by injection E' as <- <-.
    + split.
      * intros [= <- <-]. cbn. by rewrite Hc.
      * intros (Hs & Ha & Hb). destruct a as [|c' a]; [cbn in Hs; by subst b|].
        injection Hs as <- Hs. cbn in Ha. by rewrite Hc in Ha.
Qed.

Lemma match_target_spec rest path :
  match_target rest = Some path <->
  rest = default "" path
  /\ match path with Some p => exists tail, p = String "/" tail /\ all_chars is_dot tail = true | None => True end.
Proof.
  unfold match_target. destruct rest as [|c tail].
  - split; [by intros [= <-]|]. destruct path as [p|]; [|done]. by intros [Hp (tail & -> & _)].
  - destruct (bool_decide (c = "/"%char)) eqn:Hc; cbn [andb].
    + apply bool_decide_eq_true in Hc as ->. destruct (all_chars is_dot tail) eqn:Hd.
      * split; [intros [= <-]; by eauto|]. destruct path as [p|]; [|by intros [? _]]. by intros [-> _].
      * split; [done|]. destruct path as [p|]; [|by intros [? _]]. intros [Hp (t & -> & Ht)].
        injection Hp as <-. congruence.
    + apply bool_decide_eq_false in Hc. split; [done|]. destruct path as [p|]; [|by intros [? _]].
      intros [Hp (t & -> & Ht)]. injection Hp as -> _. done.
Qed.

Lemma starts_with_app p s : starts_with p s = true <-> exists t, s = p +:+ t.
Proof.
  unfold starts_with. revert s. induction p as [|c p IH]; intros s.
  - split; [by exists s|]. intros _. by destruct s.
  - destruct s as [|d s]; [by split; [|intros [? ?]]|]. cbn. specialize (IH s). destruct (ascii_dec c d) as [->|Hne].
    + etrans; [exact IH|]. split; intros [t Ht]; exists t; cbn in *; congruence.
    + split; [done|]. intros [t [= -> _]]. done.
Qed.

Lemma stops_target path :
  match path with Some p => exists tail, p = String "/" tail /\ all_chars is_dot tail = true | None => True end ->
  stops is_host_char (default "" path) /\ stops is_digit (default "" path)
  /\ match default "" path with String ":" _ => False | _ => True end.
Proof. destruct path as [p|]; [|done]. by intros (tail & -> & _). Qed.

Definition rest_ok (digits path : option string) : Prop :=
  match digits with Some d => d <> "" /\ all_chars is_digit d = true | None => True end
  /\ match path with Some p => exists tail, p = String "/" tail /\ all_chars is_dot tail = true | None => True end.

Lemma match_rest_spec rest digits path :
  match_rest rest = Some (digits, path) <->
  rest = match digits with Some d => ":" +:+ d | None => "" end +:+ default "" path /\ rest_ok digits path.
Proof.
  unfold rest_ok, match_rest. split.
  - destruct rest as [|c after]; [by intros [= <- <-]|]. case_bool_decide as Hc.
    + destruct (span_chars is_digit after) as [ds later] eqn:E. apply span_chars_spec in E as (-> & Hd & _).
      destruct (sempty ds) eqn:Hs; [done|]. intros (p & Hp & [= <- <-])%bind_Some.
      apply match_target_spec in Hp as [-> Hp]. apply sempty_false in Hs. by subst c.
    + intros (p & Hp & [= <- <-])%bind_Some. by apply match_target_spec in Hp as [-> Hp].
  - intros (-> & Hd & Hp). destruct (stops_target path Hp) as (_ & Hst & Hc).
    pose proof (proj2 (match_target_spec (default "" path) path) (conj eq_refl Hp)) as Hm.
    destruct digits as [d|].
    + destruct Hd as [Hd Hdd]. cbn. rewrite (proj2 (span_chars_spec _ _ d (default "" path))) by done.
      apply sempty_false in Hd. rewrite Hd. by rewrite Hm.
    + change ("" +:+ default "" path) with (default "" path).
      destruct (default "" path) as [|c rest] eqn:Ep; [destruct path; [by destruct Hp as (? & -> & _)|done]|].
      rewrite bool_decide_eq_false_2 by (by intros ->). by rewrite Hm.
Qed.

Lemma match_url_spec url name host digits path :
  match_url url = Some (name, host, digits, path) <->
  url = write_url name host digits path /\ url_ok name host digits path.
Proof.
  unfold match_url, write_url, url_ok.
  destruct (span_chars is_alpha url) as [n rest] eqn:En. pose proof (proj1 (span_chars_spec _ _ _ _) En) as (Hu & Hn & Hst).
  split.
  - destruct (sempty n) eqn:Hne; [done|]. cbn [orb]. destruct (starts_with "://" rest) eqn:Hs; [|done]. cbn [negb].
    apply starts_with_app in Hs as [after ->]. change 3%nat with (slen "://"). rewrite sdrop_app_exact.
    destruct (span_chars is_host_char after) as [h later] eqn:Eh.
    apply span_chars_spec in Eh as (-> & Hh & _). destruct (sempty h) eqn:Hhe; [done|].
    intros ([d p] & (-> & Hd & Hp)%match_rest_spec & [= <- <- <- <-])%bind_Some.
    apply sempty_false in Hne, Hhe. done.
  - intros (Hurl & Hn1 & Hn2 & Hh1 & Hh2 & Hd & Hp).
    assert (E : (n, rest) = (name, "://" +:+ host +:+ match digits with Some d => ":" +:+ d | None => "" end +:+ default "" path)).
    { rewrite <- En. by apply span_chars_spec. }
    apply pair_equal_spec in E as [-> ->]. apply sempty_false in Hn1. rewrite Hn1. cbn [orb].
    rewrite (proj2 (starts_with_app _ _)) by eauto. cbn [negb].
    change 3%nat with (slen "://"). rewrite sdrop_app_exact.
    set (tail := match digits with Some d => ":" +:+ d | None => "" end +:+ default "" path).
    assert (span_chars is_host_char (host +:+ tail) = (host, tail)) as ->.
    { apply span_chars_spec. split_and!; [done|done|]. unfold tail. destruct digits as [d|]; [done|]. cbn.
      by apply stops_target. }
    apply sempty_false in Hh1. rewrite Hh1. by rewrite (proj2 (match_rest_spec tail digits path)).
Qed.

(** An address is taken exactly when it is written as letters, [://], a host
    without colon or slash, an optional port in digits and an optional path
    starting with a slash, and its parts are those; the port it lacks is 443 for
    https and 80 otherwise, the path it lacks is the root.  Every other text is
    refused as an invalid address. *)
Theorem ParseUrl_spec url :
  (forall parts, ParseUrl url = Ok parts <->
     exists digits path,
       url = write_url (scheme parts) (url_host parts) digits path
       /\ url_ok (scheme parts) (url_host parts) digits path
       /\ port parts = default (if bool_decide (scheme parts = "https") then "443" else "80") digits
       /\ target parts = default "/" path)
  /\ ((forall name host digits path, url = write_url name host digits path -> ~ url_ok name host digits path) ->
      ParseUrl url = HttpError ("Invalid URL: " +:+ url)).
Proof.
  unfold ParseUrl. split.
  - intros parts. split.
    + destruct (match_url url) as [[[[name host] digits] path]|] eqn:E; [|done]. intros [= <-].
      apply match_url_spec in E as [Hu Hok]. by exists digits, path.
    + intros (digits & path & Hu & Hok & Hp & Ht). destruct parts as [name host p t]. cbn [scheme url_host port target] in *.
      rewrite (proj2 (match_url_spec url name host digits path)) by done. by rewrite Hp, Ht.
  - intros Hno. destruct (match_url url) as [[[[name host] digits] path]|] eqn:E; [|done].
    apply match_url_spec in E as [Hu Hok]. by destruct (Hno name host digits path).
Qed.

Lemma CollapseWhitespace_len_detail `{JsonCodec} body : (slen (SummarizeErrorBody body) <= kMaxDetail + 3)%nat.
Proof.
  unfold SummarizeErrorBody. destruct (sempty body); [cbn; lia|]. cbv zeta.
  case_match eqn:E; [apply Nat.leb_le in E; lia|]. rewrite slen_app, slen_stake. cbn [slen String.length]. lia.
Qed.

Lemma collect_bound collected piece :
  (slen collected <= kMaxErrorBody)%nat -> (slen (collect collected piece) <= kMaxErrorBody)%nat.
Proof.
  intros H. unfold collect. case_match; [|done]. rewrite slen_app, slen_stake. apply Nat.ltb_lt in H0. lia.
Qed.

(** ** A request nobody calls off *)

(** A network that carries a request and answers it below 400; and one whose
    body ends well too. *)
Definition reached (net : Network) : Prop :=
  resolved net = Ok tt /\ connected net = None /\ handshaken net = None /\ written net = None
  /\ exists code, header_ net = inr code /\ code < 400.

Definition carried (net : Network) : Prop := reached net /\ ended net = None.

Section Quiet.
#[local] Set Default Proof Using "Type*".
Context `{codec : JsonCodec} {T : Type}.
Context (token : option (T -> T * bool)) (interrupted : T -> bool) (dial : Request -> T -> T * Network).
Context (write_cb : string -> T -> T * res nat).

(** Nobody calls a request off at [s]. *)
Definition quiet (s : T) : Prop := CheckCancel token interrupted s = (s, Ok tt).

(** What a request comes to that nobody calls off before its body: the pieces
    handed over, and how they and the body ended. *)
Lemma StreamRequest_quiet method url body headers parts s s1 net :
  quiet s -> quiet s1 -> ParseUrl url = Ok parts ->
  dial (mkRequest method parts (ApplyHeaders (url_host parts) body headers) body) s = (s1, net) -> reached net ->
  StreamRequest token interrupted dial method url body headers write_cb s
  = let '(s2, out) := read_pieces write_cb false (pieces net) "" s1 in
    (s2, let? r := out in
         if r.2 : bool then HttpError "Streaming aborted by consumer"
         else within (ended net) "read" kStreamIdleBudget)%pu.
Proof.
  unfold quiet. intros Hs Hs1 Hp Hd (H1 & H2 & H3 & H4 & (code & H5 & H6)). unfold StreamRequest.
  rewrite Hs. cbn [and_then]. rewrite Hp. cbn [and_then]. rewrite Hd, H1. cbn [and_then]. rewrite Hs1, H2.
  cbn [within and_then]. rewrite Hs1, H3. cbn [within and_then]. rewrite Hs1, if_same. cbn [and_then]. rewrite H4.
  cbn [within and_then]. rewrite Hs1. cbn [and_then]. unfold Read. rewrite H5.
  assert (400 <=? code = false) as Hc by (apply Z.leb_gt; lia). rewrite Hc.
  destruct (read_pieces _ _ _ _ _) as [s2 [[text refused]|e|]]; cbn [res_bind and_then snd]; [|done..].
  destruct refused; cbn [res_bind and_then]; [done|].
  destruct (within (ended net) "read" kStreamIdleBudget) as [[]|e|]; cbn [res_bind and_then]; [|done..].
  unfold refuse_status. by rewrite Hc.
Qed.

End Quiet.

(** ** What the consumer is handed *)

Section Handed.
#[local] Set Default Proof Using "Type*".
Context `{codec : JsonCodec} {T : Type}.
Context (token : option (T -> T * bool)) (interrupted : T -> bool) (dial : Request -> T -> T * Network).
Context (write_cb : string -> T -> T * res nat).

Definition nonempty_pieces (net : Network) : list string := List.filter (fun p => negb (sempty p)) (pieces net).

(** The consumer takes the pieces one after the other, up to the end or to the
    first it refuses or throws on; the answer is what it said last. *)
Inductive takes : list string -> T -> T -> res bool -> Prop :=
  | takes_all s : takes [] s s (Ok true)
  | takes_one piece ps s s1 s2 n out :
      write_cb piece s = (s1, Ok (S n)) -> takes ps s1 s2 out -> takes (piece :: ps) s s2 out
  | takes_refuses piece ps s s1 : write_cb piece s = (s1, Ok 0%nat) -> takes (piece :: ps) s s1 (Ok false)
  | takes_throws piece ps s s1 e : write_cb piece s = (s1, Throw e) -> takes (piece :: ps) s s1 (Throw e)
  | takes_undef piece ps s s1 : write_cb piece s = (s1, Undef) -> takes (piece :: ps) s s1 Undef.

Lemma read_pieces_takes ps collected s :
  exists s' out, takes (List.filter (fun p => negb (sempty p)) ps) s s' out
    /\ read_pieces write_cb false ps collected s
       = (s', let? all := out in Ok (collected, negb all))%pu.
Proof.
  revert s. induction ps as [|piece ps IH]; intros s.
  - exists s, (Ok true). split; [constructor|done].
  - cbn [read_pieces List.filter]. destruct (sempty piece); [apply IH|]. cbn [negb].
    destruct (write_cb piece s) as [s1 [[|n]|e|]] eqn:E.
    + eexists s1, (Ok false). split; [by constructor|done].
    + destruct (IH s1) as (s' & out & Ht & ->). eexists _, _. split; [by econstructor|done].
    + eexists s1, (Throw e). split; [by constructor|done].
    + eexists s1, Undef. split; [by constructor|done].
Qed.

Lemma read_pieces_error ps collected s :
  (slen collected <= kMaxErrorBody)%nat ->
  exists body, read_pieces write_cb true ps collected s = (s, Ok (body, false))
    /\ (slen body <= kMaxErrorBody)%nat.
Proof.
  revert collected. induction ps as [|piece ps IH]; intros collected H; cbn [read_pieces]; [by exists collected|].
  destruct (sempty piece); [by apply IH|]. by apply IH, collect_bound.
Qed.

Lemma and_then_Ok {A B} (m : T * res A) (k : A -> T -> T * res B) s b :
  and_then m k = (s, Ok b) -> exists s1 a, m = (s1, Ok a) /\ k a s1 = (s, Ok b).
Proof. destruct m as [s1 [a|e|]]; cbn; [by exists s1, a|done..]. Qed.

(** C38: a request that ends well was answered below 400, and the consumer was
    handed every piece of the body that was not empty, in order, and took each;
    the body did not end in a failure.  An answer of 400 or more reaches no
    consumer: its body is collected up to 64 KiB and the request fails with its
    code and at most 403 characters of what it says.  A token that is set before
    the request stops it before the network is asked. *)
Theorem StreamRequest_spec method url body headers s :
  (forall s', StreamRequest token interrupted dial method url body headers write_cb s = (s', Ok tt) ->
     exists parts s0 s1 s2 net code, ParseUrl url = Ok parts
       /\ dial (mkRequest method parts (ApplyHeaders (url_host parts) body headers) body) s0 = (s1, net)
       /\ header_ net = inr code /\ code < 400 /\ ended net = None
       /\ takes (nonempty_pieces net) s2 s' (Ok true))
  /\ (forall net code s1, header_ net = inr code -> 400 <= code -> ended net = None ->
      exists reply, Read write_cb net s1 = (s1, Ok (code, reply, false)) /\ (slen reply <= kMaxErrorBody)%nat
        /\ exists summary, refuse_status code reply = HttpError ("HTTP error " +:+ decimal code +:+ summary)
           /\ (slen summary <= kMaxDetail + 5)%nat)
  /\ (forall load s1, token = Some load -> load s = (s1, true) ->
      StreamRequest token interrupted dial method url body headers write_cb s
      = (s1, HttpError "Request cancelled")).
Proof.
  split_and!.
  - intros s' H. unfold StreamRequest in H.
    apply and_then_Ok in H as (s0 & [] & _ & H). apply and_then_Ok in H as (s0' & parts & [= -> Hp] & H).
    destruct (dial _ s0') as [s1 net] eqn:Ed. 
    do 7 (apply and_then_Ok in H as (? & [] & _ & H)).
    apply and_then_Ok in H as (s3 & [[code reply] refused] & Hr & H).
    destruct refused; [done|]. injection H as -> H.
    unfold refuse_status in H. destruct (400 <=? code) eqn:Hc; [done|]. apply Z.leb_gt in Hc.
    unfold Read in Hr. destruct (header_ net) as [f|code'] eqn:Eh; [by destruct f|].
    match type of Hr with (let '(_, _) := read_pieces _ _ _ _ ?x in _) = _ => rename x into s2 end.
    destruct (400 <=? code') eqn:Hc'.
    { exfalso. destruct (read_pieces write_cb true (pieces net) "" s2) as [? [[? []]|?|]]; cbn [res_bind] in Hr; try done;
        destruct (within (ended net) _ _); cbn [res_bind] in Hr; try done; simplify_eq; apply Z.leb_le in Hc'; lia. }
    destruct (read_pieces_takes (pieces net) "" s2) as (s4 & out & Ht & ->) in Hr.
    destruct out as [[]|e|]; cbn [res_bind negb] in Hr; [|done..].
    destruct (ended net) as [f|] eqn:Ee; cbn [within] in Hr; [by destruct f|]. cbn [res_bind] in Hr.
    injection Hr as -> <- _. eexists parts, s0', s1, s2, net, code'. by split_and!.
  - intros net code s1 Hh Hc He. unfold Read. rewrite Hh, (proj2 (Z.leb_le _ _) Hc).
    destruct (read_pieces_error (pieces net) "" s1) as (reply & -> & Hl); [apply Nat.le_0_l|].
    rewrite He. cbn [within res_bind]. exists reply. split; [done|]. split; [done|].
    unfold refuse_status. rewrite (proj2 (Z.leb_le _ _) Hc). eexists. split; [reflexivity|].
    pose proof (CollapseWhitespace_len_detail reply). destruct (sempty _); [cbn; lia|]. rewrite slen_app. cbn [slen String.length]. lia.
  - intros load s1 -> Hl. unfold StreamRequest, CheckCancel. by rewrite Hl.
Qed.

End Handed.

(** ** Witnesses *)

Lemma ParseUrl_spec_witness :
  ParseUrl "https://api.deepseek.com/v1" = Ok (mkUrl "https" "api.deepseek.com" "443" "/v1")
  /\ ParseUrl "localhost:11434" = HttpError "Invalid URL: localhost:11434".
Proof.
  split.
  - apply (proj1 (ParseUrl_spec "https://api.deepseek.com/v1")). exists None, (Some "/v1").
    split; [reflexivity|]. split; [|split; reflexivity].
    unfold url_ok. do 4 (split; [done|]). split; [done|]. by exists "v1".
  - apply (proj2 (ParseUrl_spec "localhost:11434")). intros name host digits path Hu Hok.
    assert (H : match_url "localhost:11434" = Some (name, host, digits, path)) by by apply match_url_spec.
    vm_compute in H. discriminate H.
Defined.

(** A network that answers every request with the same code and body. *)
Definition demo_net (code : Z) (body : list string) : Network :=
  mkNetwork (Ok tt) None None None (inr code) body None.

(** A consumer that keeps what it is handed and never refuses. *)
Definition keep (piece : string) (s : list string) : list string * res nat := (s ++ [piece], Ok (slen piece)).

Lemma StreamRequest_spec_witness :
  exists s', StreamRequest (codec := bit_codec) None (fun _ => false)
    (fun _ s => (s, demo_net 200 ["data: a"; ""; "data: b"])) kPost "http://localhost:11434/api/chat" "{}" [] keep []
    = (s', Ok tt)
  /\ exists net s2, pieces net = ["data: a"; ""; "data: b"] /\ takes keep (nonempty_pieces net) s2 s' (Ok true).
Proof.
  eexists. split; [vm_compute; reflexivity|].
  destruct (proj1 (StreamRequest_spec (codec := bit_codec) None (fun _ => false)
    (fun _ s => (s, demo_net 200 ["data: a"; ""; "data: b"])) keep kPost "http://localhost:11434/api/chat" "{}" [] [])
    _ ltac:(vm_compute; reflexivity)) as (parts & s0 & s1 & s2 & net & code & _ & Hd & _ & _ & _ & Ht).
  injection Hd as <- <-. exists (demo_net 200 ["data: a"; ""; "data: b"]), s2. split; [reflexivity|exact Ht].
Defined.
