(* ===== verification/Projection.v ===== *)
(** * What a request carries ([src/llm/projection.cpp], [include/pu/llm/projection.hpp])

    A conversation as a provider's API wants it: one JSON object for each
    message, with the fields the provider's capabilities ask for. *)
From Stdlib Require Import Ascii.
From S2P Require Export Prelude Text Json Message.

Inductive RoleNaming := kAsStored | kKnownRolesOnly.
Inductive ToolArgumentsEncoding := kJsonObject | kJsonString.
Inductive ReasoningCarriage := kText | kBlocks.

Record ProviderCapabilities := mkCapabilities {
  role_naming : RoleNaming;
  echoes_reasoning : bool;
  reasoning_field : string;
  reasoning_carriage : ReasoningCarriage;
  allows_content_with_tool_calls : bool;
  tool_arguments : ToolArgumentsEncoding;
  tool_calls_carry_type : bool;
  sends_tool_name : bool;
  omits_empty_tool_call_id : bool;
}.

#[export] Instance RoleNaming_eq_dec : EqDecision RoleNaming.
Proof. solve_decision. Defined.

Definition known_role (role : string) : bool :=
  bool_decide (role = kUserRole) || bool_decide (role = kAssistantRole)
  || bool_decide (role = kSystemRole) || bool_decide (role = kToolRole).

Definition ProjectRole (role : string) (naming : RoleNaming) : string :=
  if bool_decide (naming = kAsStored) then role
  else if known_role role then role else kUserRole.

(** The texts of the blocks, a line for each block that has one. *)
Definition ProjectReasoningText (blocks : list ReasoningBlock) : string :=
  foldl (fun text b => text +:+ (if negb (sempty text) && negb (sempty (r_text b)) then NL else "") +:+ r_text b)
    "" blocks.

Definition ProjectReasoning (blocks : list ReasoningBlock) : value :=
  JArray (map (fun block =>
    if negb (is_null (r_raw block)) then r_raw block
    else
      let out := [("text", JString (r_text block))] in
      JObject (if sempty (r_signature block) then out else obj_set "signature" (JString (r_signature block)) out))
    blocks).

Definition OllamaThinkValue (level : ThinkingLevel) : value :=
  if bool_decide (level = kNone) then JBool false else JString (ThinkingLevelName level).

Section Projection.
Context `{codec : JsonCodec}.

Definition ProjectArguments (arguments : value) (encoding : ToolArgumentsEncoding) : value :=
  match encoding with
  | kJsonString => if is_object arguments || is_array arguments then JString (serialize arguments) else arguments
  | kJsonObject =>
      match arguments with
      | JString s => match parse s with Some v => v | None => arguments end
      | _ => arguments
      end
  end.

Definition ProjectToolCall (capabilities : ProviderCapabilities) (call : value) : value :=
  match at_key call "function" with
  | Some function =>
      if is_object function then
        let record := ToolCallFromJson call in
        let entry := match at_key call "id" with Some id => [("id", id)] | None => [] end in
        let entry := if tool_calls_carry_type capabilities then obj_set "type" (JString "function") entry else entry in
        JObject (obj_set "function"
          (JObject [("name", JString (rec_name record));
                    ("arguments", ProjectArguments (rec_arguments record) (tool_arguments capabilities))]) entry)
      else call
  | None => call
  end.

(** [tool_calls] is an array here: it is called only where [HasToolCalls]. *)
Definition ProjectToolCalls (tool_calls : value) (capabilities : ProviderCapabilities) : value :=
  match tool_calls with
  | JArray calls => JArray (map (ProjectToolCall capabilities) calls)
  | _ => JArray []
  end.

Definition ProjectMessage (capabilities : ProviderCapabilities) (message : ChatMessage) : value :=
  let role := ProjectRole (m_role message) (role_naming capabilities) in
  let has_tool_calls := HasToolCalls message in
  let has_reasoning := match m_reasoning message with [] => false | _ => true end in
  let projected := [("role", JString role)] in
  let projected := obj_set "content"
    (if has_tool_calls && negb (allows_content_with_tool_calls capabilities) then JNull
     else JString (m_content message)) projected in
  let projected :=
    if has_reasoning && bool_decide (role = kAssistantRole) && echoes_reasoning capabilities then
      obj_set (reasoning_field capabilities)
        (match reasoning_carriage capabilities with
         | kText => JString (ProjectReasoningText (m_reasoning message))
         | kBlocks => ProjectReasoning (m_reasoning message)
         end) projected
    else projected in
  let projected :=
    if bool_decide (role = kToolRole) then
      let projected := if sends_tool_name capabilities
                       then obj_set "tool_name" (JString (m_tool_name message)) projected else projected in
      if negb (omits_empty_tool_call_id capabilities) || negb (sempty (m_tool_call_id message))
      then obj_set "tool_call_id" (JString (m_tool_call_id message)) projected else projected
    else projected in
  JObject (if has_tool_calls
           then obj_set "tool_calls" (ProjectToolCalls (m_tool_calls message) capabilities) projected
           else projected).

Definition ProjectMessages (history : list ChatMessage) (capabilities : ProviderCapabilities) : list value :=
  map (ProjectMessage capabilities) history.

End Projection.

(** A tool as both APIs are told of it. *)
Definition tool_json (tool : ToolDefinition) : value :=
  JObject [("type", JString "function");
           ("function", JObject [("name", JString (td_name tool));
                                 ("description", JString (td_description tool));
                                 ("parameters", Parameters tool)])].
