(* ===== verification/Provider.v ===== *)
(** * A streamed reply ([src/llm/streaming_provider.cpp])

    [Chat] asks a provider and reads its reply as it arrives: the body goes
    through the parser of server-sent events, and every payload to the protocol
    of the provider, which adds to the accumulators.

    A protocol ([Protocol]) is the class's virtual methods, with [E] the members
    a subclass adds; [ProtocolOk] is what [Chat] relies on.  The methods change
    the provider and call the request's callbacks, and may throw: [act] is that
    effect.  The network is the one of the HTTP client. *)
From Stdlib Require Import Ascii.
From S2P Require Export Prelude Text Json Sse Message Http Projection.

Record ChatResult := mkChat {
  cr_content : string; cr_reasoning : list ReasoningBlock; cr_tool_calls : list ToolCall;
  cr_usage : option TokenUsage; cr_raw_usage : value; cr_unread : list string; cr_seen : list string;
  cr_missing : list string; cr_finish_reason : string; cr_model : string
}.

(** The protected members of [StreamingProvider]. *)
Record accumulators := mkAccum {
  content_ : string; reasoning_ : list ReasoningBlock; tool_calls_ : list ToolCall;
  finish_reason_ : string; response_model_ : string; usage_ : option TokenUsage; raw_usage_ : value;
  unread_fields_ : list string; seen_fields_ : list string; missing_fields_ : list string;
  inspected_frame_ : bool
}.

Definition no_accum : accumulators := mkAccum "" [] [] "" "" None JNull [] [] [] false.

(** What the callbacks of a request are told. *)
Inductive told := TContent (text : string) | TReasoning (text : string) | TToolCall (call : ToolCall).

Record provider (E : Type) := mkProvider { acc : accumulators; ext : E; told_ : list told }.
Arguments mkProvider {E} _ _ _.
Arguments acc {E} _.
Arguments ext {E} _.
Arguments told_ {E} _.

(** ** Actions on a provider *)

Definition act (E A : Type) : Type := provider E -> provider E * res A.

Definition ret {E A} (a : A) : act E A := fun s => (s, Ok a).
Definition raise {E A} (e : exn) : act E A := fun s => (s, Throw e).
Definition act_bind {E A B} (m : act E A) (k : A -> act E B) : act E B := fun s => and_then (m s) k.
Definition change {E} (f : provider E -> provider E) : act E unit := fun s => (f s, Ok tt).

Notation "m ;; k" := (act_bind m (fun _ => k)) (at level 100, right associativity) : pu_scope.

Fixpoint each {E A} (f : A -> act E unit) (l : list A) : act E unit :=
  match l with
  | [] => ret tt
  | a :: l => (f a ;; each f l)%pu
  end.

(** Reads the state. *)
Definition with_state {E A} (k : provider E -> act E A) : act E A := fun s => k s s.

Section Accumulators.
Context {E : Type}.

Definition set_acc (a : accumulators) (s : provider E) : provider E := mkProvider a (ext s) (told_ s).
Definition set_ext (e : E) (s : provider E) : provider E := mkProvider (acc s) e (told_ s).
Definition tell (t : told) (s : provider E) : provider E := mkProvider (acc s) (ext s) (told_ s ++ [t]).

Definition set_content_ (c : string) (s : provider E) : provider E :=
  let a := acc s in
  set_acc (mkAccum c (reasoning_ a) (tool_calls_ a) (finish_reason_ a) (response_model_ a) (usage_ a)
             (raw_usage_ a) (unread_fields_ a) (seen_fields_ a) (missing_fields_ a) (inspected_frame_ a)) s.
Definition set_reasoning_ (r : list ReasoningBlock) (s : provider E) : provider E :=
  let a := acc s in
  set_acc (mkAccum (content_ a) r (tool_calls_ a) (finish_reason_ a) (response_model_ a) (usage_ a)
             (raw_usage_ a) (unread_fields_ a) (seen_fields_ a) (missing_fields_ a) (inspected_frame_ a)) s.
Definition set_tool_calls_ (c : list ToolCall) (s : provider E) : provider E :=
  let a := acc s in
  set_acc (mkAccum (content_ a) (reasoning_ a) c (finish_reason_ a) (response_model_ a) (usage_ a)
             (raw_usage_ a) (unread_fields_ a) (seen_fields_ a) (missing_fields_ a) (inspected_frame_ a)) s.
Definition set_finish_reason_ (f : string) (s : provider E) : provider E :=
  let a := acc s in
  set_acc (mkAccum (content_ a) (reasoning_ a) (tool_calls_ a) f (response_model_ a) (usage_ a)
             (raw_usage_ a) (unread_fields_ a) (seen_fields_ a) (missing_fields_ a) (inspected_frame_ a)) s.
Definition set_response_model_ (m : string) (s : provider E) : provider E :=
  let a := acc s in
  set_acc (mkAccum (content_ a) (reasoning_ a) (tool_calls_ a) (finish_reason_ a) m (usage_ a)
             (raw_usage_ a) (unread_fields_ a) (seen_fields_ a) (missing_fields_ a) (inspected_frame_ a)) s.
Definition set_usage_ (u : option TokenUsage) (raw : value) (s : provider E) : provider E :=
  let a := acc s in
  set_acc (mkAccum (content_ a) (reasoning_ a) (tool_calls_ a) (finish_reason_ a) (response_model_ a) u
             raw (unread_fields_ a) (seen_fields_ a) (missing_fields_ a) (inspected_frame_ a)) s.
Definition set_unread_ (u : list string) (inspected : bool) (s : provider E) : provider E :=
  let a := acc s in
  set_acc (mkAccum (content_ a) (reasoning_ a) (tool_calls_ a) (finish_reason_ a) (response_model_ a) (usage_ a)
             (raw_usage_ a) u (seen_fields_ a) (missing_fields_ a) inspected) s.
Definition set_seen_ (l : list string) (s : provider E) : provider E :=
  let a := acc s in
  set_acc (mkAccum (content_ a) (reasoning_ a) (tool_calls_ a) (finish_reason_ a) (response_model_ a) (usage_ a)
             (raw_usage_ a) (unread_fields_ a) l (missing_fields_ a) (inspected_frame_ a)) s.
Definition set_missing_ (l : list string) (s : provider E) : provider E :=
  let a := acc s in
  set_acc (mkAccum (content_ a) (reasoning_ a) (tool_calls_ a) (finish_reason_ a) (response_model_ a) (usage_ a)
             (raw_usage_ a) (unread_fields_ a) (seen_fields_ a) l (inspected_frame_ a)) s.

Definition AppendContent (text : string) : act E unit :=
  change (fun s => if sempty text then s else tell (TContent text) (set_content_ (content_ (acc s) +:+ text) s)).

(** [text] at the end of the last block. *)
Fixpoint extend_last (text : string) (blocks : list ReasoningBlock) : list ReasoningBlock :=
  match blocks with
  | [] => []
  | [b] => [mkReasoning (r_text b +:+ text) (r_signature b) (r_raw b)]
  | b :: blocks => b :: extend_last text blocks
  end.

Definition AppendReasoning (text signature : string) (raw : value) : act E unit :=
  change (fun s =>
    if sempty text then s
    else
      let starts_block := negb (sempty signature) || negb (is_null raw) in
      let blocks := reasoning_ (acc s) in
      let blocks := match blocks with
                    | [] => [mkReasoning "" signature raw]
                    | _ => if starts_block then blocks ++ [mkReasoning "" signature raw] else blocks
                    end in
      tell (TReasoning text) (set_reasoning_ (extend_last text blocks) s)).

Definition AppendToolCall (call : ToolCall) : act E unit :=
  change (fun s => tell (TToolCall call) (set_tool_calls_ (tool_calls_ (acc s) ++ [call]) s)).

Definition NoteUnreadFields (j : value) (read_keys : list string) : act E unit :=
  change (fun s =>
    if inspected_frame_ (acc s) then s
    else match if_object j with
         | None => s
         | Some obj =>
             set_unread_ (unread_fields_ (acc s)
                          ++ List.filter (fun key => negb (bool_decide (key ∈ read_keys))) (map fst obj)) true s
         end).

Definition NoteSeenField (key : string) : act E unit :=
  change (fun s => if bool_decide (key ∈ seen_fields_ (acc s)) then s
                   else set_seen_ (seen_fields_ (acc s) ++ [key]) s).

End Accumulators.

(** ** Protocols *)

(** The virtual methods; [BuildRequest] and the headers are of the configuration. *)
Record Protocol (E : Type) := mkProtocol {
  EndpointPath : string;
  FramesBareLines : bool;
  BuildRequest : list ChatMessage -> list ToolDefinition -> string;
  Headers : list string;
  ResetAccumulators : provider E -> provider E;
  ParseData : string -> act E unit;
  FinishStream : act E unit;
}.
Arguments EndpointPath {E} _.
Arguments FramesBareLines {E} _.
Arguments BuildRequest {E} _ _ _.
Arguments Headers {E} _.
Arguments ResetAccumulators {E} _ _.
Arguments ParseData {E} _ _.
Arguments FinishStream {E} _.

(** [StreamingProvider::Headers] *)
Definition BaseHeaders (api_key : string) : list string :=
  let bearer := BearerHeader api_key in
  "Content-Type: application/json" :: (if sempty bearer then [] else [bearer]).

Section Chat.
#[local] Set Default Proof Using "Type*".
Context `{codec : JsonCodec} {E W : Type} (protocol : Protocol E) (host_ : string).
(** The cancel token of the request, the signal flag and the network. *)
Context (token : option (W -> W * bool)) (interrupted : W -> bool) (dial : Http.Request -> W -> W * Network).

(** What goes on while a request is made. *)
Record chat := mkChatState { parser : SseParser; provider_ : provider E; world : W }.

Definition handle_out (o : out) : act E unit :=
  match o with
  | OnEvent e => if sempty (data e) || bool_decide (data e = "[DONE]") then ret tt
                 else ParseData protocol (data e)
  | OnRetry _ => ret tt
  end.

(** The events a call of the parser made, in order; one that throws is the last. *)
Definition deliver (fed : SseParser * list out) (c : chat) : chat * res unit :=
  let '(p, outs) := fed in
  let '(s, out) := each handle_out outs (provider_ c) in
  (mkChatState p s (world c), out).

Definition load_token (c : chat) : chat * bool :=
  match token with
  | Some load => let '(w, set) := load (world c) in (mkChatState (parser c) (provider_ c) w, set)
  | None => (c, false)
  end.

Definition write_cb (piece : string) (c : chat) : chat * res nat :=
  and_then (deliver (Feed (parser c) piece) c) (fun _ c =>
  let '(c, cancelled) := load_token c in
  (c, Ok (if cancelled then 0%nat else slen piece))).

(** The accumulators are moved out of: what is left of them is empty, but the
    usage and the two flags are copied. *)
Definition take_result (s : provider E) : provider E * ChatResult :=
  let a := acc s in
  (set_acc (mkAccum "" [] [] "" "" (usage_ a) JNull [] [] [] (inspected_frame_ a)) s,
   mkChat (content_ a) (reasoning_ a) (tool_calls_ a) (usage_ a) (raw_usage_ a) (unread_fields_ a)
     (seen_fields_ a) (missing_fields_ a) (finish_reason_ a) (response_model_ a)).

Definition Chat (history : list ChatMessage) (tools : list ToolDefinition) (s : provider E) (w : W)
    : provider E * W * res ChatResult :=
  let s := ResetAccumulators protocol s in
  let body := BuildRequest protocol history tools in
  let start := mkChatState (new_parser (FramesBareLines protocol) false) s w in
  let '(c, out) :=
    and_then (PostStream (match token with Some _ => Some load_token | None => None end)
                (fun c => interrupted (world c))
                (fun rq c => let '(w, net) := dial rq (world c) in (mkChatState (parser c) (provider_ c) w, net))
                (host_ +:+ EndpointPath protocol) body (Headers protocol) write_cb start)
      (fun _ c =>
       and_then (deliver (Finish (parser c)) c) (fun _ c =>
       let '(s, out) := FinishStream protocol (provider_ c) in (mkChatState (parser c) s (world c), out))) in
  match out with
  | Ok _ => let '(s, result) := take_result (provider_ c) in (s, world c, Ok result)
  | Throw e => (provider_ c, world c, Throw e)
  | Undef => (provider_ c, world c, Undef)
  end.

End Chat.

(** ** How actions compose *)

Lemma each_app {E A} (f : A -> act E unit) l1 l2 s :
  each f (l1 ++ l2) s = and_then (each f l1 s) (fun _ => each f l2).
Proof.
  revert s. induction l1 as [|a l1 IH]; intros s; [by destruct (each f l2 s)|].
  cbn [app each]. unfold act_bind. destruct (f a s) as [s1 [[]|e|]]; cbn [and_then]; [apply IH|done..].
Qed.

Lemma each_change {E A} (m : A -> act E unit) (f : A -> provider E -> provider E) l s :
  (forall a, m a = change (f a)) -> each m l s = (foldl (fun s a => f a s) s l, Ok tt).
Proof.
  intros Hm. revert s. induction l as [|a l IH]; intros s; [done|]. cbn [each foldl]. unfold act_bind.
  rewrite Hm. cbn [change and_then]. apply IH.
Qed.

(** Noting the fields of a frame changes nothing else. *)
Lemma each_NoteSeenField {E} names (s : provider E) :
  exists seen, each NoteSeenField names s = (set_seen_ seen s, Ok tt).
Proof.
  revert s. induction names as [|n names IH]; intros s.
  - exists (seen_fields_ (acc s)). by destruct s as [[] ? ?].
  - cbn [each]. unfold act_bind, NoteSeenField at 1, change. cbn [and_then].
    destruct (bool_decide _); [apply IH|]. destruct (IH (set_seen_ (seen_fields_ (acc s) ++ [n]) s)) as [l ->].
    by exists l.
Qed.

Lemma NoteUnreadFields_only {E} j keys (s : provider E) :
  exists unread inspected, NoteUnreadFields j keys s = (set_unread_ unread inspected s, Ok tt).
Proof.
  assert (Hs : s = set_unread_ (unread_fields_ (acc s)) (inspected_frame_ (acc s)) s) by by destruct s as [[] ? ?].
  unfold NoteUnreadFields, change. destruct (inspected_frame_ (acc s)); [by rewrite Hs; eexists _, _|].
  destruct (if_object j); [by eexists _, _|]. rewrite Hs. by eexists _, _.
Qed.

(** What [Chat] relies on: a reset forgets all a provider kept of earlier
    requests but the fields it saw, and no method reads the callbacks' log. *)
Class ProtocolOk {E} (protocol : Protocol E) : Prop := {
  reset_forgets s s' :
    seen_fields_ (acc s) = seen_fields_ (acc s') -> told_ s = told_ s' ->
    missing_fields_ (acc s) = missing_fields_ (acc s') ->
    ResetAccumulators protocol s = ResetAccumulators protocol s';
}.

Section ChatFacts.
#[local] Set Default Proof Using "Type*".
Context `{codec : JsonCodec} {E W : Type} (protocol : Protocol E) (host_ : string).
Context (token : option (W -> W * bool)) (interrupted : W -> bool) (dial : Http.Request -> W -> W * Network).

(** A reply that came whole, read in one go. *)
Definition read_reply (text : string) (s : provider E) : provider E * res ChatResult :=
  let '(p, outs) := Feed (new_parser (FramesBareLines protocol) false) text in
  let '(_, last) := Finish p in
  let '(s, out) := (each (handle_out protocol) (outs ++ last) ;; FinishStream protocol)%pu s in
  match out with
  | Ok _ => let '(s, result) := take_result s in (s, Ok result)
  | Throw e => (s, Throw e)
  | Undef => (s, Undef)
  end.

(** Nobody calls the request off. *)
Definition undisturbed : Prop :=
  match token with Some load => forall w, load w = (w, false) | None => True end
  /\ forall w, interrupted w = false.

Lemma load_token_quiet (c : @chat E W) : undisturbed -> load_token token c = (c, false).
Proof.
  intros [H _]. unfold load_token. destruct token as [load|]; [|done]. rewrite H. by destruct c.
Qed.

Lemma write_cb_quiet piece (c : @chat E W) :
  undisturbed -> write_cb protocol token piece c
  = and_then (deliver protocol (Feed (parser c) piece) c) (fun _ c => (c, Ok (slen piece))).
Proof.
  intros H. unfold write_cb. destruct (deliver _ _ c) as [c1 [[]|e|]]; cbn [and_then]; [|done..].
  by rewrite load_token_quiet.
Qed.

(** Reading the pieces of a body is parsing them all and delivering the events,
    up to the first that throws. *)
Lemma read_pieces_delivers ps p s w :
  undisturbed ->
  exists p',
    read_pieces (write_cb protocol token) false ps "" (mkChatState p s w)
    = (let '(p1, outs) := Feed_all p (List.filter (fun x => negb (sempty x)) ps) in
       let '(s1, out) := each (handle_out protocol) outs s in
       (mkChatState (if is_ok out then p1 else p') s1 w, res_map (fun _ => ("", false)) out)).
Proof.
  intros Hq. revert p s. induction ps as [|piece ps IH]; intros p s; [by exists p|].
  cbn [read_pieces List.filter]. destruct (sempty piece) eqn:He; cbn [negb]; [apply IH|].
  rewrite write_cb_quiet by done. cbn [parser]. cbn [Feed_all]. unfold deliver.
  destruct (Feed p piece) as [p1 outs]. cbn [provider_ world].
  destruct (each (handle_out protocol) outs s) as [s1 out] eqn:Ee.
  destruct out as [[]|e|]; cbn [and_then].
  - destruct (slen piece) as [|n] eqn:Hl; [apply slen_0 in Hl; by subst|].
    destruct (IH p1 s1) as [p' ->]. exists p'.
    destruct (Feed_all p1 _) as [p2 outs2]. by rewrite each_app, Ee.
  - exists p1. destruct (Feed_all p1 _) as [p2 outs2]. by rewrite each_app, Ee.
  - exists p1. destruct (Feed_all p1 _) as [p2 outs2]. by rewrite each_app, Ee.
Qed.

Lemma filter_nonempty_concat ps :
  foldr String.append "" (List.filter (fun x => negb (sempty x)) ps) = foldr String.append "" ps.
Proof.
  induction ps as [|p ps IH]; [done|]. cbn [List.filter foldr]. destruct (sempty p) eqn:He; cbn [negb foldr].
  - apply sempty_true in He as ->. done.
  - by rewrite IH.
Qed.

Lemma Feed_all_new bare ps :
  Feed_all (new_parser bare false) ps = Feed (new_parser bare false) (foldr String.append "" ps).
Proof. destruct ps as [|c ps]; [by rewrite Feed_nothing|]. apply Feed_all_concat. Qed.

(** A network that carries the request and answers with [pieces]. *)
Definition answers_with (rq : Http.Request) (w w' : W) (reply : list string) : Prop :=
  exists net code, dial rq w = (w', net) /\ resolved net = Ok tt /\ connected net = None
    /\ handshaken net = None /\ written net = None /\ header_ net = inr code /\ code < 400
    /\ ended net = None /\ pieces net = reply.

Abbreviation request_token := (match token with Some _ => Some (load_token token) | None => None end).

Lemma CheckCancel_quiet (c : @chat E W) :
  undisturbed -> CheckCancel request_token (fun c => interrupted (world c)) c = (c, Ok tt).
Proof.
  intros Hq. pose proof (load_token_quiet c Hq) as Hl. destruct Hq as [_ Hi]. unfold CheckCancel.
  destruct token as [load|]; [rewrite Hl|]; by rewrite Hi.
Qed.

Lemma PostStream_quiet url body headers parts s w w' reply p :
  undisturbed -> ParseUrl url = Ok parts ->
  answers_with (mkRequest kPost parts (ApplyHeaders (url_host parts) body headers) body) w w' reply ->
  PostStream request_token (fun c => interrupted (world c))
    (fun rq c => let '(w, net) := dial rq (world c) in (mkChatState (parser c) (provider_ c) w, net))
    url body headers (write_cb protocol token) (mkChatState p s w)
  = let '(c, out) := read_pieces (write_cb protocol token) false reply "" (mkChatState p s w') in
    (c, res_map (fun _ => tt) out).
Proof.
  intros Hq Hp (net & code & Hd & H1 & H2 & H3 & H4 & H5 & H6 & H7 & H8). unfold PostStream.
  rewrite (StreamRequest_quiet _ _ _ _ kPost url body headers parts _ (mkChatState p s w') net);
    [|by apply CheckCancel_quiet|by apply CheckCancel_quiet|done|cbn [world]; by rewrite Hd|].
  2: { unfold reached. split_and!; try done. by exists code. }
  rewrite H7.
  rewrite H8. destruct (read_pieces_delivers reply p s w' Hq) as [p' ->].
  destruct (Feed_all p _) as [p1 outs]. by destruct (each _ outs s) as [s1 [[]|e|]].
Qed.

Lemma Chat_reads history tools parts s w w' reply :
  undisturbed -> ParseUrl (host_ +:+ EndpointPath protocol) = Ok parts ->
  (let body := BuildRequest protocol history tools in
   answers_with (mkRequest kPost parts (ApplyHeaders (url_host parts) body (Headers protocol)) body) w w' reply) ->
  Chat protocol host_ token interrupted dial history tools s w
  = let '(s', out) := read_reply (foldr String.append "" reply) (ResetAccumulators protocol s) in (s', w', out).
Proof.
  intros Hq Hp Ha. unfold Chat. cbv zeta. rewrite (PostStream_quiet _ _ _ parts _ _ w' reply _ Hq Hp Ha).
  destruct (read_pieces_delivers reply (new_parser (FramesBareLines protocol) false) (ResetAccumulators protocol s) w' Hq)
    as [p' ->].
  rewrite Feed_all_new, filter_nonempty_concat. unfold read_reply.
  destruct (Feed _ (foldr String.append "" reply)) as [p1 outs]. destruct (Finish p1) as [p2 last] eqn:Ef.
  unfold act_bind. rewrite each_app. destruct (each _ outs _) as [s1 [[]|e|]] eqn:Ee; try done.
  cbn [res_map res_bind is_ok and_then parser provider_ world]. rewrite Ef. unfold deliver. cbn [provider_ world].
  destruct (each _ last s1) as [s2 [[]|e|]]; try done. cbn [and_then provider_ world parser].
  destruct (FinishStream protocol s2) as [s3 [[]|e|]]; cbn [provider_ world]; try done.
Qed.

(** C28: a reply is read as a whole, however the network cuts it up: a request
    that nobody calls off and that is answered without an error gives the result
    of parsing the joined body and handing its events to the protocol in order,
    ending with the end of the stream; the first event the protocol throws on
    ends it with what it threw. *)
Theorem Chat_spec history tools parts s w w' reply reply' :
  undisturbed -> ParseUrl (host_ +:+ EndpointPath protocol) = Ok parts ->
  (let body := BuildRequest protocol history tools in
   answers_with (mkRequest kPost parts (ApplyHeaders (url_host parts) body (Headers protocol)) body) w w' reply) ->
  foldr String.append "" reply = foldr String.append "" reply' ->
  Chat protocol host_ token interrupted dial history tools s w
  = let '(s', out) := read_reply (foldr String.append "" reply') (ResetAccumulators protocol s) in (s', w', out).
Proof. intros Hq Hp Ha <-. by apply (Chat_reads _ _ parts). Qed.

Lemma Chat_cancelled history tools s w w1 load :
  token = Some load -> load w = (w1, true) ->
  Chat protocol host_ token interrupted dial history tools s w
  = (ResetAccumulators protocol s, w1, HttpError "Request cancelled").
Proof.
  intros Ht Hl. unfold Chat, PostStream, StreamRequest, CheckCancel, load_token. cbv zeta. rewrite Ht. cbn [world].
  by rewrite Hl.
Qed.

(** What a provider answers does not depend on the requests it was asked
    before: two providers that differ in all they accumulated, but saw the same
    fields, answer alike.  A request whose token is already set never reaches
    the network and fails. *)
Theorem Chat_forgets `{!ProtocolOk protocol} history tools s s' w :
  (seen_fields_ (acc s) = seen_fields_ (acc s') -> told_ s = told_ s' ->
   missing_fields_ (acc s) = missing_fields_ (acc s') ->
   Chat protocol host_ token interrupted dial history tools s w
   = Chat protocol host_ token interrupted dial history tools s' w)
  /\ (forall load w1, token = Some load -> load w = (w1, true) ->
      Chat protocol host_ token interrupted dial history tools s w
      = (ResetAccumulators protocol s, w1, HttpError "Request cancelled")).
Proof.
  split.
  - intros H1 H2 H3. unfold Chat. by rewrite (reset_forgets s s' H1 H2 H3).
  - intros load w1 Ht Hl. by apply (Chat_cancelled _ _ _ _ _ load).
Qed.

End ChatFacts.

(** ** Witnesses *)

(** A protocol whose payloads are the content. *)
Definition plain_protocol : Protocol unit :=
  mkProtocol _ "/plain" false (fun _ _ => "{}") [] (fun s => mkProvider no_accum tt (told_ s))
    AppendContent (ret tt).

Definition split_net : Network :=
  mkNetwork (Ok tt) None None None (inr 200) ["da"; "ta: hel"; "lo" +:+ NL +:+ NL; "data: [DONE]" +:+ NL] None.

Definition demo_provider : provider unit := mkProvider no_accum tt [].

Lemma Chat_spec_witness :
  (Chat (codec := bit_codec) plain_protocol "http://localhost" None (fun _ => false) (fun _ w => (S w, split_net))
     [] [] demo_provider 0%nat).1.2 = 1%nat
  /\ exists s, Chat (codec := bit_codec) plain_protocol "http://localhost" None (fun _ => false)
       (fun _ w => (S w, split_net)) [] [] demo_provider 0%nat
     = (s, 1%nat, Ok (mkChat "hello" [] [] None JNull [] [] [] "" "")).
Proof.
  pose proof (Chat_spec (codec := bit_codec) plain_protocol "http://localhost" None (fun _ => false)
    (fun _ w => (S w, split_net)) [] [] (mkUrl "http" "localhost" "80" "/plain") demo_provider 0%nat 1%nat
    (pieces split_net) ["data: hello" +:+ NL +:+ NL +:+ "data: [DONE]" +:+ NL]
    ltac:(done) ltac:(vm_compute; reflexivity)) as H.
  rewrite H; [|exists split_net, 200; repeat split; reflexivity|reflexivity].
  split; [vm_compute; reflexivity|]. eexists. vm_compute. reflexivity.
Defined.

#[export] Instance plain_ok : ProtocolOk plain_protocol.
Proof. split. intros s s' _ H _. cbn. by rewrite H. Qed.

Lemma Chat_forgets_witness :
  Chat (codec := bit_codec) plain_protocol "http://localhost" None (fun _ => false) (fun _ w => (S w, split_net)) [] []
    (mkProvider (mkAccum "left" [] [] "length" "" None JNull ["x"] [] [] true) tt []) 0%nat
  = Chat (codec := bit_codec) plain_protocol "http://localhost" None (fun _ => false) (fun _ w => (S w, split_net)) [] []
      demo_provider 0%nat.
Proof.
  exact (proj1 (Chat_forgets (codec := bit_codec) plain_protocol "http://localhost" None (fun _ => false)
    (fun _ w => (S w, split_net)) [] [] (mkProvider (mkAccum "left" [] [] "length" "" None JNull ["x"] [] [] true) tt [])
    demo_provider 0%nat) eq_refl eq_refl eq_refl).
Defined.
