(* ===== verification/OpenAI.v ===== *)
(** * The OpenAI wire format ([src/llm/openai_protocol.cpp], [src/llm/openai_provider.cpp])

    The body a turn is asked in, and the stream it is answered with: a protocol
    of [Provider].  A call arrives in pieces, which [pending_tools_] collects
    until the stream ends. *)
From Stdlib Require Import Ascii.
From S2P Require Export Prelude Text Json Message Gateway Projection Provider.

Record ResponseShape := mkResponseShape {
  content_field : string;
  reasoning_field_ : string;
  refusal_field : string;
  usage_field : string;
  prompt_tokens_field : string;
  completion_tokens_field : string;
  total_tokens_field : string;
  cached_tokens_parent : string;
  cached_tokens_nested_field : string;
  cached_tokens_top_level_field : string;
  finish_reason_field : string;
}.

Definition default_shape : ResponseShape :=
  mkResponseShape "content" "reasoning_content" "refusal" "usage" "prompt_tokens" "completion_tokens"
    "total_tokens" "prompt_tokens_details" "cached_tokens" "prompt_cache_hit_tokens" "finish_reason".

(** [AbsentShapeFields] *)
Definition AbsentShapeFields (shape : ResponseShape) (seen : string -> bool) (required_only : bool) : list string :=
  let expect field := if negb (sempty field) && negb (seen field) then [field] else [] in
  (if required_only then []
   else expect (content_field shape) ++ expect (reasoning_field_ shape) ++ expect (refusal_field shape))
  ++ expect (usage_field shape) ++ expect (prompt_tokens_field shape) ++ expect (completion_tokens_field shape)
  ++ expect (total_tokens_field shape)
  ++ (if negb (sempty (cached_tokens_nested_field shape))
         && negb (seen (cached_tokens_nested_field shape)) && negb (seen (cached_tokens_top_level_field shape))
      then [cached_tokens_nested_field shape +:+ " (nor " +:+ cached_tokens_top_level_field shape +:+ ")"] else [])
  ++ expect (finish_reason_field shape).

(** [OpenAIProtocol::Config]: what a gateway states, the headers it adds, and its shape. *)
Record Config := mkConfig { oc_protocol : ProviderConfig; oc_extra_headers : list string; oc_shape : ResponseShape }.

Record ToolCallAccumulator := mkPiece { ta_id : string; ta_name : string; ta_arguments : string }.

Record OpenAIProtocol := mkOpenAI {
  pending_tools_ : list ToolCallAccumulator;
  reply_choice_index_ : Z;
  reported_extra_choice_ : bool;
  refusal_ : string;
}.

Definition new_openai : OpenAIProtocol := mkOpenAI [] (-1) false "".

Definition kCapabilities : ProviderCapabilities :=
  mkCapabilities kAsStored true "reasoning_content" kText false kJsonString true false false.

Abbreviation oact := (act OpenAIProtocol).

Definition set_pending_tools_ (l : list ToolCallAccumulator) (s : provider OpenAIProtocol) : provider OpenAIProtocol :=
  set_ext (mkOpenAI l (reply_choice_index_ (ext s)) (reported_extra_choice_ (ext s)) (refusal_ (ext s))) s.
Definition set_choice (index : Z) (reported : bool) (s : provider OpenAIProtocol) : provider OpenAIProtocol :=
  set_ext (mkOpenAI (pending_tools_ (ext s)) index reported (refusal_ (ext s))) s.
Definition set_refusal_ (r : string) (s : provider OpenAIProtocol) : provider OpenAIProtocol :=
  set_ext (mkOpenAI (pending_tools_ (ext s)) (reply_choice_index_ (ext s)) (reported_extra_choice_ (ext s)) r) s.

(** [ResetAccumulators]: all but the fields the provider saw. *)
Definition OpenAI_ResetAccumulators (s : provider OpenAIProtocol) : provider OpenAIProtocol :=
  mkProvider (mkAccum "" [] [] "" "" None JNull [] (seen_fields_ (acc s)) [] false) new_openai (told_ s).

(** One piece of a call: an id starts a call, and so does a piece that has none
    before it; the name replaces, the arguments extend. *)
Definition merge_piece (tc : value) (pending : list ToolCallAccumulator) : list ToolCallAccumulator :=
  if is_object tc then
    let id := string_or tc "id" "" in
    let pending := if negb (sempty id) || match pending with [] => true | _ => false end
                   then pending ++ [mkPiece "" "" ""] else pending in
    match rev pending with
    | [] => []
    | piece :: before =>
        let piece := if sempty id then piece else mkPiece id (ta_name piece) (ta_arguments piece) in
        let piece :=
          match at_key tc "function" with
          | Some function =>
              if is_object function then
                let name := string_or function "name" "" in
                mkPiece (ta_id piece) (if sempty name then ta_name piece else name)
                  (ta_arguments piece +:+ string_or function "arguments" "")
              else piece
          | None => piece
          end in
        rev before ++ [piece]
    end
  else pending.

Section OpenAI.
Context `{codec : JsonCodec} (config : Config).
Local Open Scope pu_scope.

Abbreviation shape := (oc_shape config).

Definition OpenAI_BuildRequest (history : list ChatMessage) (tools : list ToolDefinition) : string :=
  let c := oc_protocol config in
  let req := [("model", JString (pc_model c)); ("stream", JBool true);
              ("stream_options", JObject [("include_usage", JBool true)]);
              ("temperature", JDouble (double_of_float (pc_temperature c)))] in
  let req := match pc_max_tokens c with Some n => obj_set "max_tokens" (JInt64 n) req | None => req end in
  let req :=
    if bool_decide (pc_thinking c = kNone) then
      obj_set "extra_body" (JObject [("thinking", JObject [("type", JString "disabled")])]) req
    else if negb (bool_decide (pc_thinking c = kServerDefault)) then
      obj_set "reasoning_effort" (JString (ThinkingLevelName (pc_thinking c))) req
    else req in
  let req := obj_set "messages" (JArray (ProjectMessages history kCapabilities)) req in
  serialize (JObject (match tools with
                      | [] => req
                      | _ => obj_set "tools" (JArray (map tool_json tools)) req
                      end)).

Definition StreamErrorDetail (error : value) : string :=
  match error with
  | JString s => s
  | _ => let message := ErrorMessage error in if sempty message then serialize error else message
  end.

(** The names [HandleJsonToken] notes of a frame, in the order it does. *)
Definition seen_names (frame : object) : list string :=
  map fst frame
  ++ match obj_find "choices" frame with
     | Some (JArray (JObject choice :: _)) =>
         map fst choice
         ++ match obj_find "delta" choice with Some (JObject delta) => map fst delta | _ => [] end
     | _ => []
     end
  ++ match obj_find "usage" frame with
     | Some (JObject usage) =>
         concat (map (fun member : string * value =>
                        member.1 :: match member.2 with JObject nested => map fst nested | _ => [] end) usage)
     | _ => []
     end.

(** A piece of the reply: [delta] or [message] of a choice. *)
Definition handle_piece (piece : value) : oact unit :=
  AppendContent (string_or piece (content_field shape) "") ;;
  change (fun s => let refusal := string_or piece (refusal_field shape) "" in
                   if sempty refusal then s else set_refusal_ (refusal_ (ext s) +:+ refusal) s) ;;
  match (if sempty (reasoning_field_ shape) then None else at_key piece (reasoning_field_ shape)) with
  | Some (JString text) => AppendReasoning text "" JNull
  | _ => ret tt
  end ;;
  match at_key piece "tool_calls" with
  | Some (JArray calls) => each (fun tc => change (fun s => set_pending_tools_ (merge_piece tc (pending_tools_ (ext s))) s)) calls
  | _ => ret tt
  end.

Definition handle_choice (choice : value) : oact unit :=
  if negb (is_object choice) then ret tt
  else
    let index := ValueOrDefault to_int choice "index" 0 in
    change (fun s => if reply_choice_index_ (ext s) <? 0 then set_choice index (reported_extra_choice_ (ext s)) s else s) ;;
    with_state (fun s =>
      if negb (index =? reply_choice_index_ (ext s)) then
        change (fun s => set_choice (reply_choice_index_ (ext s)) true s)
      else
        match (match at_key choice "delta" with Some d => Some d | None => at_key choice "message" end) with
        | Some piece => if is_object piece then handle_piece piece else ret tt
        | None => ret tt
        end ;;
        match (if sempty (finish_reason_field shape) then None else at_key choice (finish_reason_field shape)) with
        | Some (JString reason) => change (set_finish_reason_ reason)
        | _ => ret tt
        end).

Definition read_usage (usage : value) : TokenUsage :=
  let read field := ValueOrDefault to_int usage field 0 in
  let nested :=
    if sempty (cached_tokens_parent shape) then 0
    else match at_key usage (cached_tokens_parent shape) with
         | Some details => ValueOrDefault to_int details (cached_tokens_nested_field shape) 0
         | None => 0
         end in
  let cached := if (nested =? 0) && negb (sempty (cached_tokens_top_level_field shape))
                then read (cached_tokens_top_level_field shape) else nested in
  let billing := pc_billing (oc_protocol config) in
  let cost :=
    match bl_kind billing with
    | kReported =>
        if sempty (bl_field billing) then None
        else price ← at_key usage (bl_field billing);
             amount ← to_double price;
             Some (mkCost amount (bl_unit billing))
    | kBillingNone => None
    end in
  mkTokenUsage (read (prompt_tokens_field shape)) (read (completion_tokens_field shape))
    (if sempty (total_tokens_field shape) then 0 else read (total_tokens_field shape)) cached cost.

(** A call as [FlushPendingToolCalls] reads it, when the reply ended for [reason]. *)
Definition finish_call (reason : string) (p : ToolCallAccumulator) : res ToolCall :=
  let? arguments :=
    if sempty (ta_arguments p) then Ok JNull
    else match parse (ta_arguments p) with
         | Some v => Ok v
         | None => if bool_decide (reason = "length") then
                     Throw (GenericError ("tool call '" +:+ ta_name p +:+ "' was cut off by the output token cap"))
                   else Ok (JString (ta_arguments p))
         end in
  Ok (mkToolCall (ta_id p) (ta_name p) arguments).

Definition flush_call (p : ToolCallAccumulator) : oact unit :=
  with_state (fun s => match finish_call (finish_reason_ (acc s)) p with
                       | Ok call => AppendToolCall call
                       | Throw e => raise e
                       | Undef => fun s => (s, Undef)
                       end).

Definition FlushPendingToolCalls : oact unit :=
  with_state (fun s => each flush_call (pending_tools_ (ext s))) ;; change (set_pending_tools_ []).

Definition HandleJsonToken (j : value) : oact unit :=
  NoteUnreadFields j ["error"; "choices"; "usage"; "model"; "done"] ;;
  each NoteSeenField (match if_object j with Some frame => seen_names frame | None => [] end) ;;
  match at_key j "error" with
  | Some error => raise (GenericError ("provider error: " +:+ StreamErrorDetail error))
  | None =>
      match at_key j "done" with
      | Some (JBool _) | None => ret tt
      | Some _ => raise (StdException "not a bool")
      end ;;
      match at_key j "choices" with
      | Some (JArray choices) => each handle_choice choices
      | _ => ret tt
      end ;;
      match (if sempty (usage_field shape) then None else at_key j (usage_field shape)) with
      | Some (JObject o) => change (set_usage_ (Some (read_usage (JObject o))) (JObject o))
      | _ => ret tt
      end ;;
      match at_key j "model" with
      | Some (JString model) => change (set_response_model_ model)
      | _ => ret tt
      end ;;
      match at_key j "done" with
      | Some (JBool true) => FlushPendingToolCalls
      | _ => ret tt
      end
  end.

(** A payload that is no JSON is skipped. *)
Definition OpenAI_ParseData (data : string) : oact unit :=
  if sempty data then ret tt
  else match parse data with Some j => HandleJsonToken j | None => ret tt end.

Definition OpenAI_FinishStream : oact unit :=
  FlushPendingToolCalls ;;
  change (fun s =>
    set_missing_ (AbsentShapeFields shape (fun field => bool_decide (field ∈ seen_fields_ (acc s))) true) s) ;;
  change (fun s =>
    if sempty (refusal_ (ext s)) then s
    else set_refusal_ "" (set_content_ (content_ (acc s) +:+ (if sempty (content_ (acc s)) then "" else NL)
                                        +:+ refusal_ (ext s)) s)).

(** [OpenAIProvider]: the protocol with the headers of a gateway. *)
Definition OpenAIProvider_ : Protocol OpenAIProtocol :=
  mkProtocol _ "/chat/completions" false OpenAI_BuildRequest
    (BaseHeaders (pc_api_key (oc_protocol config)) ++ oc_extra_headers config)
    OpenAI_ResetAccumulators OpenAI_ParseData OpenAI_FinishStream.

#[export] Instance OpenAI_ok : ProtocolOk OpenAIProvider_.
Proof.
  split. intros s s' H1 H2 _. cbn [ResetAccumulators OpenAIProvider_]. unfold OpenAI_ResetAccumulators. by rewrite H1, H2.
Qed.

End OpenAI.

(** ** Calls that arrive in pieces *)

(** A call as a gateway streams it: its id and name with the first part of the
    arguments, then the other parts alone. *)
Record streamed_call := mkStreamed { sc_id : string; sc_name : string; sc_first : string; sc_parts : list string }.

Definition streamed_arguments (c : streamed_call) : string := sc_first c +:+ foldr String.append "" (sc_parts c).

Definition streamed_piece (c : streamed_call) : ToolCallAccumulator :=
  mkPiece (sc_id c) (sc_name c) (streamed_arguments c).

(** Whatever else a piece holds, an [index] or a [type]. *)
Definition is_start (c : streamed_call) (tc : value) : Prop :=
  is_object tc = true /\ string_or tc "id" "" = sc_id c
  /\ exists f, at_key tc "function" = Some (JObject f)
     /\ string_or (JObject f) "name" "" = sc_name c /\ string_or (JObject f) "arguments" "" = sc_first c.

Definition is_next (part : string) (tc : value) : Prop :=
  is_object tc = true /\ string_or tc "id" "" = ""
  /\ exists f, at_key tc "function" = Some (JObject f)
     /\ string_or (JObject f) "name" "" = "" /\ string_or (JObject f) "arguments" "" = part.

Definition streams_as (c : streamed_call) (pieces : list value) : Prop :=
  sc_id c <> ""
  /\ match pieces with tc :: rest => is_start c tc /\ Forall2 is_next (sc_parts c) rest | [] => False end.

Lemma merge_start c tc pending : sc_id c <> "" -> is_start c tc ->
  merge_piece tc pending = pending ++ [mkPiece (sc_id c) (sc_name c) (sc_first c)].
Proof.
  intros Hid%sempty_false (Ho & Hi & f & Hf & Hn & Ha). unfold merge_piece. rewrite Ho, Hi, Hid. cbn [negb orb].
  rewrite rev_app_distr. cbn [rev app]. rewrite rev_involutive, Hf.
  cbn [is_object ta_id ta_name ta_arguments]. rewrite Hn, Ha.
  destruct (sempty (sc_name c)) eqn:Hs; [apply sempty_true in Hs as ->|]; done.
Qed.

Lemma merge_next part tc pending id name args :
  is_next part tc ->
  merge_piece tc (pending ++ [mkPiece id name args]) = pending ++ [mkPiece id name (args +:+ part)].
Proof.
  intros (Ho & Hi & f & Hf & Hn & Ha). unfold merge_piece. rewrite Ho, Hi. cbn [sempty negb orb].
  assert ((match pending ++ [mkPiece id name args] with [] => true | _ => false end) = false) as -> by by destruct pending.
  rewrite rev_app_distr. cbn [rev app]. rewrite rev_involutive, Hf.
  cbn [is_object ta_id ta_name ta_arguments]. by rewrite Hn, Ha.
Qed.

Lemma merge_nexts parts pieces pending id name args :
  Forall2 is_next parts pieces ->
  foldl (fun p tc => merge_piece tc p) (pending ++ [mkPiece id name args]) pieces
  = pending ++ [mkPiece id name (args +:+ foldr String.append "" parts)].
Proof.
  intros H. revert args. induction H as [|part tc parts pieces Hp _ IH]; intros args; cbn [foldl foldr].
  - by rewrite sapp_nil_r.
  - rewrite (merge_next part) by done. by rewrite IH, sapp_assoc.
Qed.

Lemma merge_calls calls streams pending :
  Forall2 streams_as calls streams ->
  foldl (fun p tc => merge_piece tc p) pending (concat streams) = pending ++ map streamed_piece calls.
Proof.
  intros H. revert pending. induction H as [|c pieces calls streams [Hid Hp] _ IH]; intros pending; cbn [map concat].
  - by rewrite app_nil_r.
  - destruct pieces as [|tc rest]; [done|]. destruct Hp as [Hs Hn].
    cbn [app foldl]. rewrite foldl_app, (merge_start c tc), (merge_nexts (sc_parts c)) by done.
    rewrite IH. by rewrite <- app_assoc.
Qed.

(** ** A stream of such frames *)

Section Frames.
#[local] Set Default Proof Using "Type*".
Context `{codec : JsonCodec} (config : Config).

(** A frame that carries pieces of calls. *)
Definition tool_frame (pieces : list value) : value :=
  JObject [("choices", JArray [JObject [("index", JInt64 0); ("delta", JObject [("tool_calls", JArray pieces)])]])].

(** Nothing but pieces of calls has come yet. *)
Definition streaming (pending : list ToolCallAccumulator) (s : provider OpenAIProtocol) : Prop :=
  pending_tools_ (ext s) = pending /\ reply_choice_index_ (ext s) <= 0
  /\ tool_calls_ (acc s) = [] /\ finish_reason_ (acc s) = "" /\ content_ (acc s) = "" /\ refusal_ (ext s) = "".

Lemma merge_each pieces s :
  each (fun tc => change (fun s => set_pending_tools_ (merge_piece tc (pending_tools_ (ext s))) s)) pieces s
  = (set_pending_tools_ (foldl (fun p tc => merge_piece tc p) (pending_tools_ (ext s)) pieces) s, Ok tt).
Proof.
  revert s. induction pieces as [|tc pieces IH]; intros s; [by destruct s as [? [] ?]|].
  cbn [each foldl]. unfold act_bind at 1, change at 1. cbn [and_then]. by rewrite IH.
Qed.

Lemma not_a_string field key v :
  is_string v = false ->
  match at_key (JObject [(key, v)]) field with Some (JString _) => False | _ => True end.
Proof. intros Hv. cbn. destruct (decide (key = field)); [|done]. by destruct v. Qed.

Lemma handle_piece_tools pieces s :
  handle_piece config (JObject [("tool_calls", JArray pieces)]) s
  = (set_pending_tools_ (foldl (fun p tc => merge_piece tc p) (pending_tools_ (ext s)) pieces) s, Ok tt).
Proof.
  unfold handle_piece.
  assert (Hs : forall field, string_or (JObject [("tool_calls", JArray pieces)]) field "" = "").
  { intros field. unfold ValueOrDefault. cbn. by destruct (decide ("tool_calls" = field)). }
  rewrite !Hs. unfold act_bind at 1, AppendContent, change at 1. cbn [sempty and_then].
  unfold act_bind at 1, change at 1. cbn [sempty and_then].
  pose proof (not_a_string (reasoning_field_ (oc_shape config)) "tool_calls" (JArray pieces) eq_refl) as Hr.
  unfold act_bind at 1. destruct (sempty (reasoning_field_ _)); [|destruct (at_key _ (reasoning_field_ _)) as [[]|]; try done].
  all: cbn [ret and_then]; change (at_key _ "tool_calls") with (Some (JArray pieces)); apply merge_each.
Qed.

Lemma handle_choice_tools pieces s :
  reply_choice_index_ (ext s) <= 0 ->
  handle_choice config (JObject [("index", JInt64 0); ("delta", JObject [("tool_calls", JArray pieces)])]) s
    = (set_pending_tools_ (foldl (fun p tc => merge_piece tc p) (pending_tools_ (ext s)) pieces)
         (set_choice 0 (reported_extra_choice_ (ext s)) s), Ok tt).
Proof.
  intros Hi. unfold handle_choice. cbn [is_object negb].
  change (ValueOrDefault to_int _ "index" 0) with 0. unfold act_bind at 1, change at 1. cbn [and_then].
  set (s1 := if _ <? 0 then _ else s).
  assert (Hs1 : s1 = set_choice 0 (reported_extra_choice_ (ext s)) s).
  { unfold s1. destruct (_ <? 0) eqn:Hlt; [done|]. apply Z.ltb_ge in Hlt.
    destruct s as [a [p i r f] t]. cbn in *. by replace i with 0 by lia. }
  rewrite Hs1. unfold with_state. cbn [set_choice set_ext ext reply_choice_index_ Z.eqb negb].
  change (at_key _ "delta") with (Some (JObject [("tool_calls", JArray pieces)])). cbn [is_object].
  unfold act_bind at 1. rewrite handle_piece_tools. cbn [and_then].
  destruct (sempty (finish_reason_field (oc_shape config))); [done|].
  cbn. destruct (decide ("index" = _)); [done|]. destruct (decide ("delta" = _)); done.
Qed.

Lemma tool_frame_handled pieces pending s :
  streaming pending s ->
  exists s', HandleJsonToken config (tool_frame pieces) s = (s', Ok tt)
    /\ streaming (foldl (fun p tc => merge_piece tc p) pending pieces) s'.
Proof.
  intros (<- & Hi & Ht & Hf & Hc & Hr). unfold HandleJsonToken. unfold act_bind at 1.
  destruct (NoteUnreadFields_only (tool_frame pieces) ["error"; "choices"; "usage"; "model"; "done"] s)
    as (unread & inspected & ->). cbn [and_then]. unfold act_bind at 1.
  destruct (each_NoteSeenField (match if_object (tool_frame pieces) with Some frame => seen_names frame | None => [] end)
    (set_unread_ unread inspected s)) as [seen ->]. cbn [and_then].
  set (s1 := set_seen_ seen (set_unread_ unread inspected s)).
  change (at_key (tool_frame pieces) "error") with (@None value).
  change (at_key (tool_frame pieces) "done") with (@None value).
  change (at_key (tool_frame pieces) "model") with (@None value).
  change (at_key (tool_frame pieces) "choices")
    with (Some (JArray [JObject [("index", JInt64 0); ("delta", JObject [("tool_calls", JArray pieces)])]])).
  unfold act_bind at 1. cbn [ret and_then each]. unfold act_bind at 1 2.
  rewrite (handle_choice_tools pieces s1 Hi). cbn [ret and_then].
  set (s2 := set_pending_tools_ _ _).
  assert (Hs2 : streaming (foldl (fun p tc => merge_piece tc p) (pending_tools_ (ext s)) pieces) s2) by done.
  exists s2. split; [|done]. unfold act_bind.
  destruct (sempty (usage_field (oc_shape config))); [done|].
  cbn. by destruct (decide ("choices" = _)).
Qed.

Lemma tool_frames_handled frames pending s :
  streaming pending s ->
  exists s', each (HandleJsonToken config) (map tool_frame frames) s = (s', Ok tt)
    /\ streaming (foldl (fun p tc => merge_piece tc p) pending (concat frames)) s'.
Proof.
  revert pending s. induction frames as [|pieces frames IH]; intros pending s Hs; [by exists s|].
  cbn [map concat each]. rewrite foldl_app. unfold act_bind.
  destruct (tool_frame_handled pieces pending s Hs) as (s1 & -> & Hs1). cbn [and_then]. by apply IH.
Qed.

(** ** The end of a stream *)

Lemma flush_calls ps s :
  let read := res_mapM (finish_call (finish_reason_ (acc s))) ps in
  exists s', each flush_call ps s = (s', res_map (fun _ => tt) read)
    /\ ext s' = ext s /\ content_ (acc s') = content_ (acc s) /\ seen_fields_ (acc s') = seen_fields_ (acc s)
    /\ finish_reason_ (acc s') = finish_reason_ (acc s)
    /\ (forall calls, read = Ok calls -> tool_calls_ (acc s') = tool_calls_ (acc s) ++ calls).
Proof.
  revert s. induction ps as [|p ps IH]; intros s; cbn [res_mapM each].
  - exists s. split_and!; try done. intros calls [= <-]. by rewrite app_nil_r.
  - unfold act_bind, flush_call at 1, with_state.
    destruct (finish_call (finish_reason_ (acc s)) p) as [call|e|] eqn:Ef; cbn [res_bind].
    + unfold AppendToolCall, change. cbn [and_then].
      destruct (IH (tell (TToolCall call) (set_tool_calls_ (tool_calls_ (acc s) ++ [call]) s)))
        as (s' & E & H1 & H2 & H3 & H4 & H5). cbn [tell set_tool_calls_ set_acc acc ext content_ seen_fields_
        finish_reason_ tool_calls_] in *.
      exists s'. rewrite E. split_and!; try done.
      * by destruct (res_mapM _ ps).
      * intros calls Hc. destruct (res_mapM _ ps) as [rest|e|]; try done. injection Hc as <-.
        rewrite (H5 rest eq_refl). by rewrite <- app_assoc.
    + by exists s.
    + by exists s.
Qed.

(** What the end of a stream adds to the content. *)
Definition refusal_text (s : provider OpenAIProtocol) : string :=
  if sempty (refusal_ (ext s)) then ""
  else (if sempty (content_ (acc s)) then "" else NL) +:+ refusal_ (ext s).

Lemma FinishStream_runs s :
  let read := res_mapM (finish_call (finish_reason_ (acc s))) (pending_tools_ (ext s)) in
  exists s', OpenAI_FinishStream config s = (s', res_map (fun _ => tt) read)
    /\ (forall calls, read = Ok calls ->
        tool_calls_ (acc s') = tool_calls_ (acc s) ++ calls
        /\ content_ (acc s') = content_ (acc s) +:+ refusal_text s
        /\ missing_fields_ (acc s')
           = AbsentShapeFields (oc_shape config) (fun field => bool_decide (field ∈ seen_fields_ (acc s))) true).
Proof.
  intros read. destruct (flush_calls (pending_tools_ (ext s)) s) as (s1 & E & He & Hc & Hseen & _ & Hcalls).
  fold read in E, Hcalls.
  assert (Hflush : FlushPendingToolCalls s
            = match read with Ok _ => (set_pending_tools_ [] s1, Ok tt) | _ => (s1, res_map (fun _ => tt) read) end).
  { unfold FlushPendingToolCalls, act_bind, with_state. rewrite E. by destruct read. }
  unfold OpenAI_FinishStream. unfold act_bind at 1. rewrite Hflush. destruct read as [calls|e|]; cbn [res_map res_bind and_then].
  - eexists. split; [reflexivity|]. intros ? [= <-].
    rewrite <- (Hcalls calls eq_refl). unfold refusal_text. cbn. rewrite Hseen, He, Hc.
    destruct (sempty (refusal_ (ext s))); cbn; rewrite ?Hc; [by rewrite sapp_nil_r|done].
  - by exists s1.
  - by exists s1.
Qed.

Definition end_of_stream (frames : list (list value)) : oact unit :=
  (each (HandleJsonToken config) (map tool_frame frames) ;; OpenAI_FinishStream config)%pu.

Lemma calls_assembled calls streams frames args s :
  Forall2 streams_as calls streams -> concat frames = concat streams ->
  Forall2 (fun c v => streamed_arguments c <> "" /\ parse (streamed_arguments c) = Some v) calls args ->
  exists s', end_of_stream frames (OpenAI_ResetAccumulators s) = (s', Ok tt)
    /\ tool_calls_ (acc s') = zip_with (fun c v => mkToolCall (sc_id c) (sc_name c) v) calls args
    /\ content_ (acc s') = "".
Proof.
  intros Hc Heq Ha. unfold end_of_stream, act_bind.
  destruct (tool_frames_handled frames [] (OpenAI_ResetAccumulators s)) as (s1 & -> & Hs1); [by repeat split|].
  rewrite Heq, (merge_calls calls streams) in Hs1 by done. destruct Hs1 as (Hp & _ & Ht & Hf & Hcon & Hr).
  cbn [and_then app] in *. destruct (FinishStream_runs s1) as (s2 & -> & Hfin). rewrite Hp, Hf in *.
  assert (Hm : res_mapM (finish_call "") (map streamed_piece calls)
               = Ok (zip_with (fun c v => mkToolCall (sc_id c) (sc_name c) v) calls args)).
  { clear -Ha. induction Ha as [|c v calls args [Hne Hpa] _ IH]; [done|]. cbn [map res_mapM zip_with].
    assert (finish_call "" (streamed_piece c) = Ok (mkToolCall (sc_id c) (sc_name c) v)) as ->.
    { unfold finish_call, streamed_piece. cbn [ta_arguments ta_id ta_name]. apply sempty_false in Hne. by rewrite Hne, Hpa. }
    cbn [res_bind]. by rewrite IH. }
  rewrite Hm in *. destruct (Hfin _ eq_refl) as (H1 & H2 & _). exists s2. split; [done|].
  unfold refusal_text in H2. rewrite Hr, Hcon in H2. by rewrite H1, H2, Ht.
Qed.
End Frames.

Section Calls.
#[local] Set Default Proof Using "Type*".
Context `{codec : JsonCodec} (config : Config).

(** Calls streamed in pieces are assembled whole: however a gateway cuts the
    arguments of its calls into pieces and spreads the pieces over frames, as
    long as the pieces of a call come together, the reply holds exactly those
    calls, in order, each with its id, its name and the value its joined
    arguments spell. *)
Theorem Calls_assembled calls streams frames args s :
  Forall2 streams_as calls streams -> concat frames = concat streams ->
  Forall2 (fun c v => streamed_arguments c <> "" /\ parse (streamed_arguments c) = Some v) calls args ->
  exists s', end_of_stream config frames (OpenAI_ResetAccumulators s) = (s', Ok tt)
    /\ tool_calls_ (acc s') = zip_with (fun c v => mkToolCall (sc_id c) (sc_name c) v) calls args
    /\ content_ (acc s') = "".
Proof. apply calls_assembled. Qed.

(** The value a call's text spells: nothing, JSON, or the text as it stands. *)
Definition call_arguments (text : string) : value :=
  if sempty text then JNull else default (JString text) (parse text).

Definition half_written (p : ToolCallAccumulator) : bool :=
  negb (sempty (ta_arguments p)) && match parse (ta_arguments p) with Some _ => false | None => true end.

Lemma finish_call_whole reason p :
  reason <> "length" \/ half_written p = false ->
  finish_call reason p = Ok (mkToolCall (ta_id p) (ta_name p) (call_arguments (ta_arguments p))).
Proof.
  unfold finish_call, half_written, call_arguments. intros H.
  destruct (sempty (ta_arguments p)); [done|]. destruct (parse (ta_arguments p)); [done|].
  destruct H as [H|H]; [|done]. by rewrite bool_decide_eq_false_2.
Qed.

Lemma finish_call_cut p :
  half_written p = true ->
  finish_call "length" p
  = Throw (GenericError ("tool call '" +:+ ta_name p +:+ "' was cut off by the output token cap")).
Proof.
  unfold finish_call, half_written. destruct (sempty (ta_arguments p)); [done|]. by destruct (parse (ta_arguments p)).
Qed.

Lemma finish_calls_whole reason ps :
  reason <> "length" \/ Forall (fun p => half_written p = false) ps ->
  res_mapM (finish_call reason) ps
  = Ok (map (fun p => mkToolCall (ta_id p) (ta_name p) (call_arguments (ta_arguments p))) ps).
Proof.
  induction ps as [|p ps IH]; [done|]. intros H. cbn [res_mapM map].
  rewrite finish_call_whole, IH; [done|..]; destruct H as [H|H]; try (by left); apply Forall_cons in H as [H1 H2]; by right.
Qed.

Lemma finish_calls_cut ps :
  Exists (fun p => half_written p = true) ps ->
  exists p, p ∈ ps /\ res_mapM (finish_call "length") ps
    = Throw (GenericError ("tool call '" +:+ ta_name p +:+ "' was cut off by the output token cap")).
Proof.
  induction ps as [|p ps IH]; [by intros ?%Exists_nil|]. cbn [res_mapM]. destruct (half_written p) eqn:Hp.
  - intros _. exists p. rewrite finish_call_cut by done. split; [by left|done].
  - intros [H|H]%Exists_cons; [congruence|]. destruct (IH H) as (q & Hq & E). exists q. split; [by right|].
    rewrite finish_call_whole by auto. cbn [res_bind]. by rewrite E.
Qed.

(** When the token cap ended the reply, a call whose arguments are half
    written fails the request, naming a call, and no tool can run on it.  In
    every other case the stream ends well: the reply gains the collected calls in
    order, with the JSON their arguments spell or their text as it stands, and
    the refusal follows the content. *)
Theorem Stream_end s :
  (finish_reason_ (acc s) = "length" -> Exists (fun p => half_written p = true) (pending_tools_ (ext s)) ->
   exists s' p, p ∈ pending_tools_ (ext s) /\ OpenAI_FinishStream config s
     = (s', Throw (GenericError ("tool call '" +:+ ta_name p +:+ "' was cut off by the output token cap"))))
  /\ (finish_reason_ (acc s) <> "length" \/ Forall (fun p => half_written p = false) (pending_tools_ (ext s)) ->
      exists s', OpenAI_FinishStream config s = (s', Ok tt)
        /\ tool_calls_ (acc s') = tool_calls_ (acc s)
           ++ map (fun p => mkToolCall (ta_id p) (ta_name p) (call_arguments (ta_arguments p))) (pending_tools_ (ext s))
        /\ content_ (acc s') = content_ (acc s) +:+ refusal_text s
        /\ missing_fields_ (acc s')
           = AbsentShapeFields (oc_shape config) (fun field => bool_decide (field ∈ seen_fields_ (acc s))) true).
Proof.
  destruct (FinishStream_runs config s) as (s' & E & H). split.
  - intros Hr Hx. destruct (finish_calls_cut _ Hx) as (p & Hp & Hm). rewrite Hr, Hm in E. by exists s', p.
  - intros Hx. pose proof (finish_calls_whole (finish_reason_ (acc s)) (pending_tools_ (ext s)) Hx) as Hm.
    rewrite Hm in E, H. destruct (H _ eq_refl) as (H1 & H2 & H3). by exists s'.
Qed.

(** A call of the conversation as its record is written. *)
Definition echo_ok (r : ToolCallRecord) : Prop :=
  rec_id r <> "" /\ is_object (rec_arguments r) = true /\ wire (rec_arguments r) = true.

Definition echo (r : ToolCallRecord) : streamed_call :=
  mkStreamed (rec_id r) (rec_name r) (serialize (rec_arguments r)) [].

Lemma ProjectToolCall_echo r :
  is_object (rec_arguments r) = true ->
  ProjectToolCall kCapabilities (ToolCallToJson r)
  = JObject [("id", JString (rec_id r)); ("type", JString "function");
             ("function", JObject [("name", JString (rec_name r));
                                   ("arguments", JString (serialize (rec_arguments r)))])].
Proof. destruct r as [id name [] st]; try done. Qed.

Lemma echo_streams r : echo_ok r -> streams_as (echo r) [ProjectToolCall kCapabilities (ToolCallToJson r)].
Proof.
  intros (Hid & Ho & _). split; [done|]. split; [|constructor]. rewrite ProjectToolCall_echo by done.
  split; [done|]. split; [done|]. eexists. split; [reflexivity|]. done.
Qed.

(** The calls a request carries back are spelled as the reader reads them:
    the calls of an answer, projected for the API and streamed back as they are,
    are the same calls, with their arguments as JSON reads them back. *)
Theorem Echoed_calls `{!JsonCodecOk codec} records s :
  Forall echo_ok records ->
  exists pieces s', ProjectToolCalls (JArray (map ToolCallToJson records)) kCapabilities = JArray pieces
    /\ end_of_stream config [pieces] (OpenAI_ResetAccumulators s) = (s', Ok tt)
    /\ tool_calls_ (acc s')
       = map (fun r => mkToolCall (rec_id r) (rec_name r) (normalize (rec_arguments r))) records.
Proof.
  intros H. unfold ProjectToolCalls. rewrite map_map.
  set (pieces := map (fun r => ProjectToolCall kCapabilities (ToolCallToJson r)) records).
  destruct (calls_assembled config (map echo records) (map (fun p => [p]) pieces) [pieces]
    (map (fun r => normalize (rec_arguments r)) records) s) as (s' & E & Hc & _).
  - unfold pieces. rewrite map_map. clear pieces. induction H; [constructor|]. cbn. constructor; [by apply echo_streams|done].
  - cbn. rewrite app_nil_r. clear. induction pieces as [|p ps IH]; [done|]. cbn. by f_equal.
  - clear pieces. induction H as [|r rs (_ & Ho & Hw) _ IH]; [constructor|]. cbn. constructor; [|done].
    unfold streamed_arguments. cbn. rewrite sapp_nil_r. split; [|by apply parse_serialize].
    destruct (rec_arguments r) as [| | | | | | |fields]; try done. destruct (serialize_object fields) as [rest ->]. done.
  - exists pieces, s'. split; [done|]. split; [done|]. rewrite Hc. clear.
    induction records as [|r rs IH]; [done|]. cbn. by rewrite IH.
Qed.

End Calls.

Definition indexed_start (index : Z) (id name : string) : value :=
  JObject [("index", JInt64 index); ("id", JString id);
           ("function", JObject [("name", JString name); ("arguments", JString "")])].

Definition indexed_next (index : Z) (part : string) : value :=
  JObject [("index", JInt64 index); ("function", JObject [("arguments", JString part)])].

(** The [index] of a piece is not read: when the pieces of two calls
    alternate, each under its index, all the arguments go to the call that
    started last, and the first has none. *)
Theorem Index_ignored a b name name' part part' :
  a <> "" -> b <> "" ->
  foldl (fun p tc => merge_piece tc p) []
    [indexed_start 0 a name; indexed_start 1 b name'; indexed_next 0 part; indexed_next 1 part']
  = [mkPiece a name ""; mkPiece b name' (part +:+ part')].
Proof.
  intros Ha Hb. cbn [foldl].
  rewrite (merge_start (mkStreamed a name "" []) (indexed_start 0 a name)) by (done || by repeat split; eexists).
  cbn [app sc_id sc_name sc_first].
  change [mkPiece a name ""] with ([] ++ [mkPiece a name ""]).
  rewrite (merge_start (mkStreamed b name' "" []) (indexed_start 1 b name')) by (done || by repeat split; eexists).
  cbn [app sc_id sc_name sc_first].
  change [mkPiece a name ""; mkPiece b name' ""] with ([mkPiece a name ""] ++ [mkPiece b name' ""]).
  rewrite (merge_next part (indexed_next 0 part)) by (by repeat split; eexists).
  by rewrite (merge_next part' (indexed_next 1 part')) by (by repeat split; eexists).
Qed.

(** ** Witnesses *)

Definition demo_config : Config :=
  mkConfig (mkProviderConfig "https://api.openai.com/v1" "m" default_temperature "k" kServerDefault None no_billing) []
    default_shape.

Definition empty_openai : provider OpenAIProtocol := mkProvider no_accum new_openai [].

Definition demo_text : string := serialize (JsonCodec := bit_codec) (JObject [("path", JString "a")]).

Definition demo_call : streamed_call :=
  mkStreamed "c1" "read" (stake 3 demo_text) [stake 2 (sdrop 3 demo_text); sdrop 5 demo_text].

Definition demo_pieces : list value :=
  [JObject [("index", JInt64 0); ("id", JString "c1"); ("type", JString "function");
            ("function", JObject [("name", JString "read"); ("arguments", JString (stake 3 demo_text))])];
   indexed_next 0 (stake 2 (sdrop 3 demo_text)); indexed_next 0 (sdrop 5 demo_text)].

Lemma Calls_assembled_witness :
  exists s', end_of_stream (codec := bit_codec) demo_config [take 2 demo_pieces; []; drop 2 demo_pieces]
      (OpenAI_ResetAccumulators empty_openai) = (s', Ok tt)
    /\ tool_calls_ (acc s') = [mkToolCall "c1" "read" (JObject [("path", JString "a")])].
Proof.
  destruct (Calls_assembled (codec := bit_codec) demo_config [demo_call] [demo_pieces]
    [take 2 demo_pieces; []; drop 2 demo_pieces] [JObject [("path", JString "a")]] empty_openai) as (s' & E & Ht & _).
  - constructor; [|constructor]. split; [discriminate|]. split.
    + split; [reflexivity|]. split; [reflexivity|]. eexists. split; [reflexivity|]. split; reflexivity.
    + repeat constructor; eexists; (split; [reflexivity|]); split; reflexivity.
  - reflexivity.
  - constructor; [|constructor]. split; [vm_compute; discriminate|vm_compute; reflexivity].
  - exists s'. split; [exact E|exact Ht].
Defined.

Definition cut_openai : provider OpenAIProtocol :=
  set_finish_reason_ "length" (mkProvider no_accum (mkOpenAI [mkPiece "c1" "write_file" (stake 9 demo_text)] 0 false "") []).

Lemma Stream_end_witness :
  half_written (codec := bit_codec) (mkPiece "c1" "write_file" (stake 9 demo_text)) = true
  /\ exists s', OpenAI_FinishStream (codec := bit_codec) demo_config cut_openai
    = (s', Throw (GenericError "tool call 'write_file' was cut off by the output token cap")).
Proof.
  split; [vm_compute; reflexivity|].
  destruct (proj1 (Stream_end (codec := bit_codec) demo_config cut_openai) eq_refl) as (s' & p & Hp & E).
  - constructor. vm_compute. reflexivity.
  - apply list_elem_of_singleton in Hp as ->. exists s'. exact E.
Defined.

Lemma Echoed_calls_witness :
  exists s', end_of_stream (codec := bit_codec) demo_config
      [[ProjectToolCall (codec := bit_codec) kCapabilities
          (ToolCallToJson (mkRecord "c1" "read" (JObject [("path", JString "a")]) kPending))]]
      (OpenAI_ResetAccumulators empty_openai) = (s', Ok tt)
    /\ tool_calls_ (acc s') = [mkToolCall "c1" "read" (JObject [("path", JString "a")])].
Proof.
  destruct (Echoed_calls (codec := bit_codec) demo_config
    [mkRecord "c1" "read" (JObject [("path", JString "a")]) kPending] empty_openai) as (pieces & s' & Hp & E & Ht).
  - constructor; [|constructor]. split; [discriminate|]. split; reflexivity.
  - injection Hp as <-. exists s'. split; [exact E|exact Ht].
Defined.

Lemma Index_ignored_witness :
  foldl (fun p tc => merge_piece tc p) []
    [indexed_start 0 "c1" "read"; indexed_start 1 "c2" "write"; indexed_next 0 "{'path':"; indexed_next 1 "{'to':"]
  = [mkPiece "c1" "read" ""; mkPiece "c2" "write" "{'path':{'to':"].
Proof. apply (Index_ignored "c1" "c2" "read" "write" "{'path':" "{'to':"); discriminate. Defined.
