(* ===== verification/Ollama.v ===== *)
(** * The Ollama wire format ([src/llm/ollama_provider.cpp])

    One JSON object per line, and one complete call per entry: a protocol of
    [Provider] without members of its own. *)
From Stdlib Require Import Ascii.
From S2P Require Export Prelude Text Json Message Gateway Projection Provider.

(** [OllamaProvider::Config] is what a gateway states; the time a model stays
    loaded keeps its default. *)
Definition keep_alive : string := "30m".

Definition kOllamaCapabilities : ProviderCapabilities :=
  mkCapabilities kKnownRolesOnly true "thinking" kText true kJsonObject false true true.

(** [ResetAccumulators]; what is seen or missing is not cleared. *)
Definition Ollama_ResetAccumulators (s : provider unit) : provider unit :=
  mkProvider (mkAccum "" [] [] "" "" None JNull [] (seen_fields_ (acc s)) (missing_fields_ (acc s)) false) tt (told_ s).

Section Ollama.
Context `{codec : JsonCodec} (config : ProviderConfig).
Local Open Scope pu_scope.

Definition Ollama_BuildRequest (history : list ChatMessage) (tools : list ToolDefinition) : string :=
  let req := [("model", JString (pc_model config)); ("stream", JBool true);
              ("options", JObject [("temperature", JDouble (double_of_float (pc_temperature config)))]);
              ("keep_alive", JString keep_alive)] in
  let req := if bool_decide (pc_thinking config = kServerDefault) then req
             else obj_set "think" (OllamaThinkValue (pc_thinking config)) req in
  let req := obj_set "messages" (JArray (ProjectMessages history kOllamaCapabilities)) req in
  serialize (JObject (match tools with
                      | [] => req
                      | _ => obj_set "tools" (JArray (map tool_json tools)) req
                      end)).

(** A call of a line; none where it has no function or no name. *)
Definition read_call (tc : value) : option ToolCall :=
  function ← at_key tc "function";
  let tool_name := string_or function "name" "" in
  if sempty tool_name then None
  else
    let id := match at_key tc "id" with Some (JString id) => id | _ => "" end in
    let arguments :=
      match at_key function "arguments" with
      | Some (JString s) => default (JString s) (parse s)
      | Some (JObject o) => JObject o
      | Some (JArray l) => JArray l
      | _ => JNull
      end in
    Some (mkToolCall id tool_name arguments).

Definition handle_message (msg : value) : act unit unit :=
  match at_key msg "content" with Some (JString text) => AppendContent text | _ => ret tt end ;;
  match at_key msg "thinking" with Some (JString text) => AppendReasoning text "" JNull | _ => ret tt end ;;
  match at_key msg "tool_calls" with
  | Some (JArray calls) => each (fun tc => match read_call tc with Some call => AppendToolCall call | None => ret tt end) calls
  | _ => ret tt
  end.

Definition counts (j : value) : TokenUsage :=
  mkTokenUsage (ValueOrDefault to_int j "prompt_eval_count" 0) (ValueOrDefault to_int j "eval_count" 0) 0
    (ValueOrDefault to_int j "prompt_eval_cached_count" 0) None.

Definition Ollama_HandleJsonToken (j : value) : act unit unit :=
  NoteUnreadFields j ["error"; "message"; "done"; "done_reason"; "model"; "prompt_eval_count"; "eval_count";
                      "prompt_eval_cached_count"] ;;
  (if HasKey j "error" && negb (sempty (ErrorMessage j))
   then raise (GenericError ("provider error: " +:+ ErrorMessage j)) else ret tt) ;;
  match at_key j "message" with Some msg => handle_message msg | None => ret tt end ;;
  (if HasKey j "prompt_eval_count" || HasKey j "eval_count" then change (set_usage_ (Some (counts j)) j) else ret tt) ;;
  match at_key j "done_reason" with Some (JString reason) => change (set_finish_reason_ reason) | _ => ret tt end ;;
  match at_key j "model" with Some (JString model) => change (set_response_model_ model) | _ => ret tt end.

Definition Ollama_ParseData (data : string) : act unit unit :=
  if sempty (Trim data) then ret tt
  else match parse data with Some j => Ollama_HandleJsonToken j | None => ret tt end.

Definition OllamaProvider_ : Protocol unit :=
  mkProtocol _ "/api/chat" true Ollama_BuildRequest (BaseHeaders (pc_api_key config))
    Ollama_ResetAccumulators Ollama_ParseData (ret tt).

#[export] Instance Ollama_ok : ProtocolOk OllamaProvider_.
Proof.
  split. intros s s' H1 H2 H3. cbn [ResetAccumulators OllamaProvider_]. unfold Ollama_ResetAccumulators.
  by rewrite H1, H2, H3.
Qed.

(** ** A reply of lines *)

(** A line of a reply as a daemon writes it. *)
Record line := mkLine { l_content : string; l_thinking : string; l_calls : list ToolCall }.

Definition call_json (c : ToolCall) : value :=
  JObject ((if sempty (tc_id c) then [] else [("id", JString (tc_id c))])
           ++ [("function", JObject [("name", JString (tc_name c)); ("arguments", tc_arguments c)])]).

Definition line_json (l : line) : value :=
  JObject [("model", JString "m");
           ("message", JObject [("role", JString "assistant"); ("content", JString (l_content l));
                                ("thinking", JString (l_thinking l));
                                ("tool_calls", JArray (map call_json (l_calls l)))]);
           ("done", JBool false)].

Definition call_named (c : ToolCall) : Prop := tc_name c <> "" /\ is_object (tc_arguments c) = true.

Lemma read_call_json c : call_named c -> read_call (call_json c) = Some c.
Proof.
  intros [Hn%sempty_false Ho]. destruct c as [id name args]. unfold read_call, call_json. cbn [tc_id tc_name tc_arguments] in *.
  destruct (sempty id) eqn:Hi; [apply sempty_true in Hi as ->|]; cbn [app];
    change (at_key _ "function") with (Some (JObject [("name", JString name); ("arguments", args)]));
    cbn [mbind option_bind]; change (string_or _ "name" "") with name; rewrite Hn;
    change (at_key (JObject [("name", _); _]) "arguments") with (Some args); by destruct args.
Qed.

Lemma each_calls calls (s : provider unit) :
  Forall call_named calls ->
  each (fun tc => match read_call tc with Some call => AppendToolCall call | None => ret tt end) (map call_json calls) s
  = (foldl (fun s call => tell (TToolCall call) (set_tool_calls_ (tool_calls_ (acc s) ++ [call]) s)) s calls, Ok tt).
Proof.
  intros H. revert s. induction H as [|c calls Hc _ IH]; intros s; [done|].
  cbn [map each foldl]. unfold act_bind. rewrite read_call_json by done. unfold AppendToolCall, change. cbn [and_then]. apply IH.
Qed.

(** What a line adds to a provider. *)
Definition add_reasoning (text : string) (blocks : list ReasoningBlock) : list ReasoningBlock :=
  if sempty text then blocks
  else extend_last text (match blocks with [] => [mkReasoning "" "" JNull] | _ => blocks end).

Lemma fold_calls calls (s : provider unit) :
  let s' := foldl (fun s call => tell (TToolCall call) (set_tool_calls_ (tool_calls_ (acc s) ++ [call]) s)) s calls in
  content_ (acc s') = content_ (acc s) /\ reasoning_ (acc s') = reasoning_ (acc s)
  /\ tool_calls_ (acc s') = tool_calls_ (acc s) ++ calls.
Proof.
  revert s. induction calls as [|c calls IH]; intros s; cbn [foldl]; [by rewrite app_nil_r|].
  destruct (IH (tell (TToolCall c) (set_tool_calls_ (tool_calls_ (acc s) ++ [c]) s))) as (-> & -> & ->).
  cbn. by rewrite <- app_assoc.
Qed.

Lemma line_handled l s :
  Forall call_named (l_calls l) ->
  exists s', Ollama_HandleJsonToken (line_json l) s = (s', Ok tt)
    /\ content_ (acc s') = content_ (acc s) +:+ l_content l
    /\ reasoning_ (acc s') = add_reasoning (l_thinking l) (reasoning_ (acc s))
    /\ tool_calls_ (acc s') = tool_calls_ (acc s) ++ l_calls l.
Proof.
  intros Hc. unfold Ollama_HandleJsonToken. unfold act_bind at 1.
  match goal with |- context [NoteUnreadFields ?j ?k s] => destruct (NoteUnreadFields_only j k s) as (u & i & ->) end.
  cbn [and_then]. set (s1 := set_unread_ u i s).
  change (HasKey (line_json l) "error") with false. cbn [andb]. unfold act_bind at 1. cbn [ret and_then].
  change (at_key (line_json l) "message") with (Some (JObject [("role", JString "assistant"); ("content", JString (l_content l));
    ("thinking", JString (l_thinking l)); ("tool_calls", JArray (map call_json (l_calls l)))])).
  unfold act_bind at 1, handle_message.
  change (at_key _ "content") with (Some (JString (l_content l))). change (at_key _ "thinking") with (Some (JString (l_thinking l))).
  change (at_key _ "tool_calls") with (Some (JArray (map call_json (l_calls l)))).
  unfold act_bind at 1, AppendContent, change at 1. cbn [and_then]. set (s2 := if sempty (l_content l) then s1 else _).
  unfold act_bind at 1, AppendReasoning, change at 1. cbn [and_then]. set (s3 := if sempty (l_thinking l) then s2 else _).
  rewrite each_calls by done. destruct (fold_calls (l_calls l) s3) as (H1 & H2 & H3). set (s4 := foldl _ s3 _) in *.
  cbn [and_then]. change (HasKey (line_json l) "prompt_eval_count") with false.
  change (HasKey (line_json l) "eval_count") with false. cbn [orb].
  change (at_key (line_json l) "done_reason") with (@None value). change (at_key (line_json l) "model") with (Some (JString "m")).
  unfold act_bind. cbn [ret and_then change]. eexists. split; [reflexivity|].
  cbn [set_response_model_ set_acc acc content_ reasoning_ tool_calls_]. rewrite H1, H2, H3.
  assert (Hs3 : content_ (acc s3) = content_ (acc s2) /\ tool_calls_ (acc s3) = tool_calls_ (acc s2)
    /\ reasoning_ (acc s3) = add_reasoning (l_thinking l) (reasoning_ (acc s2))).
  { unfold s3, add_reasoning. destruct (sempty (l_thinking l)); [done|]. cbn. by destruct (reasoning_ _). }
  destruct Hs3 as (-> & -> & ->). unfold s2. destruct (sempty (l_content l)) eqn:He; [|done].
  apply sempty_true in He as ->. by rewrite sapp_nil_r.
Qed.

Lemma lines_handled ls s :
  Forall (fun l => Forall call_named (l_calls l)) ls ->
  exists s', each Ollama_HandleJsonToken (map line_json ls) s = (s', Ok tt)
    /\ content_ (acc s') = content_ (acc s) +:+ foldr (fun l c => l_content l +:+ c) "" ls
    /\ reasoning_ (acc s') = foldl (fun blocks l => add_reasoning (l_thinking l) blocks) (reasoning_ (acc s)) ls
    /\ tool_calls_ (acc s') = tool_calls_ (acc s) ++ concat (map l_calls ls).
Proof.
  intros H. revert s. induction H as [|l ls Hl _ IH]; intros s; cbn [map each foldr foldl concat].
  - exists s. by rewrite sapp_nil_r, app_nil_r.
  - unfold act_bind. destruct (line_handled l s Hl) as (s1 & -> & H1 & H2 & H3). cbn [and_then].
    destruct (IH s1) as (s2 & -> & H4 & H5 & H6). exists s2. split; [done|].
    by rewrite H4, H5, H6, H1, H2, H3, <- sapp_assoc, <- app_assoc.
Qed.

(** A reply of lines holds the joined content of the lines, their thinking
    as one block, and every call of every line in order, whole. *)
Theorem Lines_collected ls s :
  Forall (fun l => Forall call_named (l_calls l)) ls ->
  exists s', (each Ollama_HandleJsonToken (map line_json ls) ;; FinishStream OllamaProvider_)
               (Ollama_ResetAccumulators s) = (s', Ok tt)
    /\ content_ (acc s') = foldr (fun l c => l_content l +:+ c) "" ls
    /\ tool_calls_ (acc s') = concat (map l_calls ls)
    /\ ProjectReasoningText (reasoning_ (acc s')) = foldr (fun l c => l_thinking l +:+ c) "" ls
    /\ (length (reasoning_ (acc s')) <= 1)%nat.
Proof.
  intros H. unfold act_bind. destruct (lines_handled ls (Ollama_ResetAccumulators s) H) as (s1 & -> & H1 & H2 & H3).
  cbn [and_then FinishStream OllamaProvider_ ret]. exists s1. split; [done|]. split; [exact H1|]. split; [exact H3|].
  rewrite H2. clear. cbn [Ollama_ResetAccumulators acc reasoning_].
  assert (Hgen : forall blocks, (blocks = [] \/ exists t, blocks = [mkReasoning t "" JNull]) ->
    let out := foldl (fun blocks l => add_reasoning (l_thinking l) blocks) blocks ls in
    ProjectReasoningText out = ProjectReasoningText blocks +:+ foldr (fun l c => l_thinking l +:+ c) "" ls
    /\ (length out <= 1)%nat).
  { induction ls as [|l ls IH]; intros blocks Hb; cbn [foldl foldr].
    - rewrite sapp_nil_r. destruct Hb as [->|[t ->]]; cbn; auto with lia.
    - destruct (sempty (l_thinking l)) eqn:He.
      + unfold add_reasoning. rewrite He. apply sempty_true in He as ->. by apply IH.
      + destruct Hb as [->|[t ->]]; unfold add_reasoning at 2 4; rewrite He; cbn [extend_last r_text r_signature r_raw].
        * change ("" +:+ l_thinking l) with (l_thinking l). destruct (IH [mkReasoning (l_thinking l) "" JNull]) as [-> Hl]; [by right; eexists|].
          split; [|done]. by cbn.
        * destruct (IH [mkReasoning (t +:+ l_thinking l) "" JNull]) as [-> Hl]; [by right; eexists|].
          split; [|done]. cbn. by rewrite sapp_assoc. }
  destruct (Hgen [] (or_introl eq_refl)) as [-> Hl]. done.
Qed.

End Ollama.

(** ** Witnesses *)

Definition demo_lines : list line :=
  [mkLine "" "think" []; mkLine "Hel" "ing" [mkToolCall "" "read" (JObject [])];
   mkLine "lo" "" [mkToolCall "x" "bash" (JObject [("command", JString "ls")])]].

Lemma Lines_collected_witness :
  exists s', (each (Ollama_HandleJsonToken (codec := bit_codec)) (map line_json demo_lines)
              ;; FinishStream (OllamaProvider_ (codec := bit_codec) (FillProtocolConfig default_backend)))%pu
               (Ollama_ResetAccumulators (mkProvider no_accum tt [])) = (s', Ok tt)
    /\ content_ (acc s') = "Hello" /\ length (tool_calls_ (acc s')) = 2%nat.
Proof.
  destruct (Lines_collected (codec := bit_codec) (FillProtocolConfig default_backend) demo_lines (mkProvider no_accum tt []))
    as (s' & E & Hc & Ht & _).
  - repeat constructor; discriminate.
  - exists s'. split; [exact E|]. split; [exact Hc|]. rewrite Ht. reflexivity.
Defined.
