(* ===== verification/Settings.v ===== *)
(** * Settings a session overrides ([src/session/settings.cpp])

    The table of the four settings: how a value is read from a request, what
    the agent supplies, and what an override does to the value in force.  The
    overrides of a session are a JSON object. *)
From Stdlib Require Import Ascii.
From S2P Require Export Prelude Json Message Gateway.

Abbreviation Overrides := object.

Definition kSourceSession : string := "session".
Definition kSourceAgent : string := "agent".

Record SettingView := mkView {
  v_name : string; v_type : string; v_value : value; v_source : string; v_agent_value : value
}.

Record InForce := mkInForce { if_backend : Backend; if_tool_budget : Z }.

Definition with_thinking (l : ThinkingLevel) (f : InForce) : InForce :=
  let b := if_backend f in
  mkInForce (mkBackend (gateway b) (host b) (model b) (api_key b) (temperature b) (system_prompt_ b)
               (max_tokens b) l (context_window b)) (if_tool_budget f).

Definition with_temperature (t : spec_float) (f : InForce) : InForce :=
  let b := if_backend f in
  mkInForce (mkBackend (gateway b) (host b) (model b) (api_key b) t (system_prompt_ b)
               (max_tokens b) (thinking b) (context_window b)) (if_tool_budget f).

Definition with_max_tokens (n : Z) (f : InForce) : InForce :=
  let b := if_backend f in
  mkInForce (mkBackend (gateway b) (host b) (model b) (api_key b) (temperature b) (system_prompt_ b)
               (Some n) (thinking b) (context_window b)) (if_tool_budget f).

Definition with_tool_budget (n : Z) (f : InForce) : InForce := mkInForce (if_backend f) n.

(** ** Reading a value *)

Definition ThinkingName (level : ThinkingLevel) : string :=
  if bool_decide (level = kServerDefault) then "auto" else ThinkingLevelName level.

Definition ReadThinking (raw : value) : res value :=
  let name := match raw with JString s => s | _ => "" end in
  if bool_decide (name = "auto") || bool_decide (name = "default") then Ok JNull
  else if negb (bool_decide (name = "none")) && bool_decide (ParseThinkingLevel name = kServerDefault) then
    Throw (RequestRefused ("Unknown thinking level: " +:+ name +:+ " (none, low, medium, high, auto)"))
  else Ok (JString name).

Definition ReadTemperature (raw : value) : res value :=
  let? v := match raw with
            | JDouble d => Ok d
            | JInt64 z => Ok (double_of_Z z)
            | _ => Throw (RequestRefused "temperature must be a number")
            end in
  if SFltb v (double_of_Z 0) || SFltb (double_of_Z 2) v then
    Throw (RequestRefused "temperature must be between 0 and 2")
  else Ok (JDouble v).

Definition ReadMaxTokens (raw : value) : res value :=
  match raw with
  | JInt64 v =>
      if (v <? 1) || (1000000 <? v) then Throw (RequestRefused "max_tokens must be between 1 and 1000000")
      else Ok (JInt64 v)
  | _ => Throw (RequestRefused "max_tokens must be a whole number")
  end.

Definition ReadToolBudget (raw : value) : res value :=
  match raw with
  | JInt64 v =>
      if (v <? 1) || (100000 <? v) then Throw (RequestRefused "tool_budget must be between 1 and 100000")
      else Ok (JInt64 v)
  | _ => Throw (RequestRefused "tool_budget must be a whole number")
  end.

(** ** Applying an override *)

(** [static_cast<int>] of an [int64_t]. *)
Definition int_of_int64 (z : Z) : Z := (z + 2 ^ 31) mod 2 ^ 32 - 2 ^ 31.

(** [static_cast<float>] of an [int64_t]. *)
Definition float_of_Z (z : Z) : spec_float := binary_normalize 24 128 z 0 false.

(** [value::as_int64]; it throws on another kind. *)
Definition as_int64 (v : value) : res Z :=
  match v with JInt64 z => Ok z | _ => Throw (StdException "as_int64") end.

Definition ApplyThinking (f : InForce) (v : value) : res InForce :=
  match v with
  | JString s => Ok (with_thinking (ParseThinkingLevel s) f)
  | _ => Throw (StdException "value_to")
  end.

Definition ApplyTemperature (f : InForce) (v : value) : res InForce :=
  match v with
  | JDouble d => Ok (with_temperature (to_float d) f)
  | _ => let? z := as_int64 v in Ok (with_temperature (float_of_Z z) f)
  end.

Definition ApplyMaxTokens (f : InForce) (v : value) : res InForce :=
  let? z := as_int64 v in Ok (with_max_tokens (int_of_int64 z) f).

Definition ApplyToolBudget (f : InForce) (v : value) : res InForce :=
  let? z := as_int64 v in Ok (with_tool_budget (int_of_int64 z) f).

Record Setting := mkSetting {
  s_name : string; s_type : string;
  s_read : value -> res value;
  s_agent_value : Backend -> Z -> value;
  s_apply : InForce -> value -> res InForce
}.

Definition Table : list Setting :=
  [mkSetting "thinking" "enum" ReadThinking (fun b _ => JString (ThinkingName (thinking b))) ApplyThinking;
   mkSetting "temperature" "float" ReadTemperature (fun b _ => JDouble (double_of_float (temperature b)))
     ApplyTemperature;
   mkSetting "max_tokens" "int" ReadMaxTokens
     (fun b _ => match max_tokens b with Some n => JInt64 n | None => JNull end) ApplyMaxTokens;
   mkSetting "tool_budget" "int" ReadToolBudget (fun _ budget => JInt64 budget) ApplyToolBudget].

Definition FindSetting (name : string) : option Setting :=
  snd <$> list_find (fun s => name = s_name s) Table.

Definition KnownNames : string := concat_sep ", " (map s_name Table).

Definition ParseSetting (name : string) (raw : value) : res value :=
  match FindSetting name with
  | None => Throw (RequestRefused ("Unknown setting '" +:+ name +:+ "': " +:+ KnownNames))
  | Some setting => if is_null raw then Ok JNull else s_read setting raw
  end.

(** The override of a setting, [None] when there is none or it is null. *)
Definition override_of (name : string) (overrides : Overrides) : option value :=
  match obj_find name overrides with Some JNull | None => None | Some v => Some v end.

Definition ViewSettings (agent : Backend) (budget : Z) (overrides : Overrides) : list SettingView :=
  map (fun s =>
    let agent_value := s_agent_value s agent budget in
    match override_of (s_name s) overrides with
    | Some v => mkView (s_name s) (s_type s) v kSourceSession agent_value
    | None => mkView (s_name s) (s_type s) agent_value kSourceAgent agent_value
    end) Table.

(** The loop of [Resolve] over the rows of the table. *)
Fixpoint apply_rows (rows : list Setting) (overrides : Overrides) (f : InForce) : res InForce :=
  match rows with
  | [] => Ok f
  | s :: rows =>
      let? f := match override_of (s_name s) overrides with
                | Some v => s_apply s f v
                | None => Ok f
                end in
      apply_rows rows overrides f
  end.

Definition Resolve (agent : Backend) (budget : Z) (overrides : Overrides) : res InForce :=
  apply_rows Table overrides (mkInForce agent budget).

(** What the session keeps when a setting is set: null clears the override. *)
Definition SetOverride (name : string) (v : value) (overrides : Overrides) : Overrides :=
  if is_null v then obj_erase name overrides else obj_set name v overrides.

(** ** What is accepted is what takes effect *)

(** Overrides that went through [ParseSetting]: what the table reads is left as
    it is when it is read again. *)
Definition accepted (o : Overrides) : Prop :=
  NoDup o.*1 /\ forall s v, s ∈ Table -> override_of (s_name s) o = Some v -> s_read s v = Ok v.

Lemma FindSetting_Some name s : FindSetting name = Some s -> s ∈ Table /\ s_name s = name.
Proof.
  unfold FindSetting. intros ([k s'] & Hf & [= ->])%fmap_Some.
  apply list_find_Some in Hf as (Hk & Hn & _). split; [by eapply list_elem_of_lookup_2|done].
Qed.

Lemma ReadThinking_again raw v : ReadThinking raw = Ok v -> v <> JNull -> ReadThinking v = Ok v.
Proof.
  unfold ReadThinking. set (name := match raw with JString s => s | _ => "" end). intros H Hv.
  destruct (_ || _) eqn:E1; [by apply Ok_inj in H|].
  destruct (_ && _) eqn:E2; [done|]. apply Ok_inj in H. subst v. by rewrite E1, E2.
Qed.

Lemma ReadTemperature_again raw v : ReadTemperature raw = Ok v -> ReadTemperature v = Ok v.
Proof.
  unfold ReadTemperature. intros (d & _ & H)%res_bind_Ok. destruct (_ || _) eqn:E; [done|].
  apply Ok_inj in H. subst v. cbn [res_bind]. by rewrite E.
Qed.

Lemma ReadMaxTokens_again raw v : ReadMaxTokens raw = Ok v -> ReadMaxTokens v = Ok v.
Proof. unfold ReadMaxTokens. destruct raw; try done. destruct (_ || _) eqn:E; [done|]. intros [= <-]. by rewrite E. Qed.

Lemma ReadToolBudget_again raw v : ReadToolBudget raw = Ok v -> ReadToolBudget v = Ok v.
Proof. unfold ReadToolBudget. destruct raw; try done. destruct (_ || _) eqn:E; [done|]. intros [= <-]. by rewrite E. Qed.

Lemma read_again s raw v : s ∈ Table -> s_read s raw = Ok v -> v <> JNull -> s_read s v = Ok v.
Proof.
  intros Hs H Hv. unfold Table in Hs. rewrite !elem_of_cons, elem_of_nil in Hs.
  destruct Hs as [->|[->|[->|[->|[]]]]]; cbn [s_read] in *;
    eauto using ReadThinking_again, ReadTemperature_again, ReadMaxTokens_again, ReadToolBudget_again.
Qed.

Lemma table_names s s' : s ∈ Table -> s' ∈ Table -> s_name s = s_name s' -> s = s'.
Proof.
  unfold Table. rewrite !elem_of_cons, !elem_of_nil.
  intros [->|[->|[->|[->|[]]]]] [->|[->|[->|[->|[]]]]]; by cbn.
Qed.

Lemma override_of_set name v o name' :
  NoDup o.*1 -> override_of name' (SetOverride name v o)
  = if decide (name' = name) then (if is_null v then None else Some v) else override_of name' o.
Proof.
  intros Hnd. unfold override_of, SetOverride. destruct (is_null v) eqn:E.
  - rewrite obj_find_erase by done. by case_decide.
  - case_decide; [subst; rewrite obj_find_set_eq; by destruct v|by rewrite obj_find_set_ne].
Qed.

Lemma SetOverride_keys name v o : NoDup o.*1 -> NoDup (SetOverride name v o).*1.
Proof.
  intros Hnd. unfold SetOverride. destruct (is_null v).
  - destruct (obj_find name o) as [w|] eqn:E.
    + pose proof (obj_erase_perm name o w E Hnd) as Hp. rewrite <- Hp in Hnd. cbn in Hnd.
      by apply NoDup_cons in Hnd as [_ Hnd].
    + unfold obj_erase. destruct (list_find _ o) as [[i kv]|] eqn:El; [|done].
      apply list_find_Some in El as (Hi & Hk & _). apply obj_find_None in E. destruct E.
      apply list_elem_of_fmap. exists kv. split; [done|]. by eapply list_elem_of_lookup_2.
  - rewrite obj_set_keys. case_decide; [done|]. rewrite NoDup_app. split_and!; [done| |apply NoDup_singleton].
    intros k Hk ->%list_elem_of_singleton. done.
Qed.

(** What a [float] keeps of a number a page shows. *)
Definition rounded (v : value) : value :=
  match v with JDouble d => JDouble (double_of_float (to_float d)) | _ => v end.

(** Every row read back from the value in force. *)
Definition in_force_values (f : InForce) : list value :=
  map (fun s => s_agent_value s (if_backend f) (if_tool_budget f)) Table.

Lemma thinking_read s : ReadThinking (JString s) = Ok (JString s) -> ThinkingName (ParseThinkingLevel s) = s.
Proof.
  unfold ReadThinking, ParseThinkingLevel. destruct (_ || _); [done|].
  repeat case_bool_decide; subst; try done; by vm_compute.
Qed.

Lemma int_of_int64_small z : 1 <= z <= 1000000 -> int_of_int64 z = z.
Proof. intros Hz. unfold int_of_int64. rewrite Z.mod_small; lia. Qed.

Lemma accepted_thinking v : ReadThinking v = Ok v -> v <> JNull -> exists s, v = JString s.
Proof.
  unfold ReadThinking. destruct v; try (intros [=]; fail); try (by eexists); intros H Hv; done.
Qed.

Lemma accepted_temperature v : ReadTemperature v = Ok v -> exists d, v = JDouble d.
Proof.
  unfold ReadTemperature. intros (d & _ & H)%res_bind_Ok. destruct (_ || _); [done|].
  apply Ok_inj in H. by exists d.
Qed.

Lemma accepted_whole v :
  ReadMaxTokens v = Ok v \/ ReadToolBudget v = Ok v -> exists z, v = JInt64 z /\ 1 <= z <= 1000000.
Proof.
  unfold ReadMaxTokens, ReadToolBudget. destruct v; try (by intros [?|?]).
  intros H. exists z. split; [done|].
  destruct H as [H|H]; destruct (_ || _) eqn:E in H; try done;
    apply orb_false_iff in E as [E1%Z.ltb_ge E2%Z.ltb_ge]; lia.
Qed.

Lemma override_not_null name o v : override_of name o = Some v -> v <> JNull.
Proof. unfold override_of. destruct (obj_find name o) as [[]|]; naive_solver. Qed.

(** Applying one row puts its override in force. *)
Lemma apply_row o s f :
  accepted o -> s ∈ Table ->
  exists f', match override_of (s_name s) o with Some v => s_apply s f v | None => Ok f end = Ok f'
    /\ (forall s', s' ∈ Table -> s_agent_value s' (if_backend f') (if_tool_budget f')
          = match override_of (s_name s) o with
            | Some v => if decide (s_name s' = s_name s) then rounded v
                        else s_agent_value s' (if_backend f) (if_tool_budget f)
            | None => s_agent_value s' (if_backend f) (if_tool_budget f)
            end)
    /\ gateway (if_backend f') = gateway (if_backend f) /\ host (if_backend f') = host (if_backend f)
    /\ model (if_backend f') = model (if_backend f) /\ api_key (if_backend f') = api_key (if_backend f)
    /\ system_prompt_ (if_backend f') = system_prompt_ (if_backend f)
    /\ context_window (if_backend f') = context_window (if_backend f).
Proof.
  intros [_ Hacc] Hs. specialize (Hacc s). destruct (override_of (s_name s) o) as [v|] eqn:Ev; [|by exists f].
  specialize (Hacc v Hs eq_refl). apply override_not_null in Ev.
  unfold Table in Hs. rewrite !elem_of_cons, elem_of_nil in Hs.
  destruct Hs as [->|[->|[->|[->|[]]]]]; cbn [s_read s_apply s_name] in *.
  - destruct (accepted_thinking v Hacc Ev) as [t ->]. eexists. split; [reflexivity|]. split; [|done].
    unfold Table. intros s'. rewrite !elem_of_cons, elem_of_nil.
    intros [->|[->|[->|[->|[]]]]]; try reflexivity. cbn. by rewrite thinking_read.
  - destruct (accepted_temperature v Hacc) as [d ->]. eexists. split; [reflexivity|]. split; [|done].
    unfold Table. intros s'. rewrite !elem_of_cons, elem_of_nil. by intros [->|[->|[->|[->|[]]]]].
  - destruct (accepted_whole v (or_introl Hacc)) as (z & -> & Hz). eexists. split; [reflexivity|]. split; [|done].
    unfold Table. intros s'. rewrite !elem_of_cons, elem_of_nil.
    intros [->|[->|[->|[->|[]]]]]; try reflexivity. cbn. by rewrite int_of_int64_small.
  - destruct (accepted_whole v (or_intror Hacc)) as (z & -> & Hz). eexists. split; [reflexivity|]. split; [|done].
    unfold Table. intros s'. rewrite !elem_of_cons, elem_of_nil.
    intros [->|[->|[->|[->|[]]]]]; try reflexivity. cbn. by rewrite int_of_int64_small.
Qed.

Definition same_backend (f f' : InForce) : Prop :=
  gateway (if_backend f') = gateway (if_backend f) /\ host (if_backend f') = host (if_backend f)
  /\ model (if_backend f') = model (if_backend f) /\ api_key (if_backend f') = api_key (if_backend f)
  /\ system_prompt_ (if_backend f') = system_prompt_ (if_backend f)
  /\ context_window (if_backend f') = context_window (if_backend f).

(** The rows of the table one after the other. *)
Lemma apply_rows_spec o rows f :
  accepted o -> NoDup (map s_name rows) -> Forall (fun s => s ∈ Table) rows ->
  exists f', apply_rows rows o f = Ok f' /\ same_backend f f'
    /\ forall s, s ∈ Table -> s_agent_value s (if_backend f') (if_tool_budget f')
         = match override_of (s_name s) o with
           | Some v => if decide (s_name s ∈ map s_name rows) then rounded v
                       else s_agent_value s (if_backend f) (if_tool_budget f)
           | None => s_agent_value s (if_backend f) (if_tool_budget f)
           end.
Proof.
  intros Hacc. revert f. induction rows as [|s rows IH]; intros f Hnd Hrows; cbn [apply_rows].
  - exists f. split_and!; try done. intros s _. by case_match.
  - cbn in Hnd. apply NoDup_cons in Hnd as [Hs Hnd]. apply Forall_cons in Hrows as [Hin Hrows].
    destruct (apply_row o s f Hacc Hin) as (f1 & -> & Hv1 & Hr1). cbn [res_bind].
    destruct (IH f1 Hnd Hrows) as (f2 & -> & Hr2 & Hv2). exists f2. split; [done|].
    split; [unfold same_backend in *; naive_solver congruence|].
    intros s' Hs'. rewrite (Hv2 s' Hs'). cbn [map].
    destruct (override_of (s_name s') o) as [v|] eqn:Ev.
    + destruct (decide (s_name s' = s_name s)) as [E|E].
      * rewrite (decide_True (P := s_name s' ∈ s_name s :: _)) by (rewrite E; by left).
        rewrite decide_False by by rewrite E. rewrite (Hv1 s' Hs').
        rewrite E in Ev. rewrite Ev. by rewrite decide_True.
      * rewrite (Hv1 s' Hs'). destruct (decide (s_name s' ∈ map s_name rows)).
        -- by rewrite decide_True by by right.
        -- rewrite (decide_False (P := s_name s' ∈ s_name s :: _)) by by intros [?|?]%elem_of_cons.
           case_match; [by rewrite decide_False|done].
    + rewrite (Hv1 s' Hs'). destruct (override_of (s_name s) o) as [v|] eqn:Ev'; [|done].
      rewrite decide_False; [done|]. intros E. congruence.
Qed.

Lemma rounded_agent s agent budget :
  s ∈ Table -> to_float (double_of_float (temperature agent)) = temperature agent ->
  rounded (s_agent_value s agent budget) = s_agent_value s agent budget.
Proof.
  intros Hs Hf. unfold Table in Hs. rewrite !elem_of_cons, elem_of_nil in Hs.
  destruct Hs as [->|[->|[->|[->|[]]]]]; cbn; [done|by rewrite Hf| |done]. by destruct (max_tokens agent).
Qed.

Lemma setting_taken name raw v agent budget o :
  accepted o -> ParseSetting name raw = Ok v -> to_float (double_of_float (temperature agent)) = temperature agent ->
  let o' := SetOverride name v o in
  accepted o' /\ is_Some (FindSetting name)
  /\ override_of name o' = (if is_null v then None else Some v)
  /\ exists f, Resolve agent budget o' = Ok f
     /\ in_force_values f = map (fun view => rounded (v_value view)) (ViewSettings agent budget o')
     /\ same_backend (mkInForce agent budget) f.
Proof.
  intros Hacc Hp Hfloat o'. pose proof Hacc as [Hnd Hread].
  unfold ParseSetting in Hp. destruct (FindSetting name) as [s|] eqn:Es; [|done].
  apply FindSetting_Some in Es as [Hs Hname].
  assert (Hacc' : accepted o').
  { split; [by apply SetOverride_keys|]. intros s' v' Hs' Hv'. unfold o' in Hv'.
    rewrite override_of_set in Hv' by done. case_decide as E; [|by apply Hread].
    destruct (is_null v) eqn:En; [done|]. injection Hv' as <-.
    assert (s' = s) as -> by (apply table_names; congruence).
    destruct (is_null raw) eqn:Er; [injection Hp as <-; done|].
    eapply read_again; [done|done|]. by intros ->. }
  split; [done|]. split; [done|]. split; [unfold o'; rewrite override_of_set by done; by case_decide|].
  destruct (apply_rows_spec o' Table (mkInForce agent budget) Hacc') as (f & Hf & Hb & Hv).
  { by apply (bool_decide_eq_true_1 _). }
  { by apply Forall_forall. }
  exists f. split; [done|]. split; [|done]. unfold in_force_values, ViewSettings. rewrite map_map.
  apply map_ext_in. intros s' Hs'%list_elem_of_In. rewrite (Hv s' Hs').
  destruct (override_of (s_name s') o') as [w|]; cbn [v_value].
  - rewrite decide_True; [done|]. by apply list_elem_of_fmap_2.
  - by rewrite rounded_agent.
Qed.

(** C35: a value that is accepted for a setting is the one that takes effect:
    the overrides stay acceptable, so a turn's configuration can be resolved,
    and in it every setting has the value the page is shown for it (a
    temperature to the precision of a [float]), and the rest of the agent's
    backend is untouched.  A name outside the table is refused. *)
Theorem Settings_in_force name raw v agent budget o :
  accepted o -> ParseSetting name raw = Ok v -> to_float (double_of_float (temperature agent)) = temperature agent ->
  let o' := SetOverride name v o in
  accepted o' /\ is_Some (FindSetting name)
  /\ override_of name o' = (if is_null v then None else Some v)
  /\ exists f, Resolve agent budget o' = Ok f
     /\ in_force_values f = map (fun view => rounded (v_value view)) (ViewSettings agent budget o')
     /\ same_backend (mkInForce agent budget) f.
Proof. apply setting_taken. Qed.

Lemma Settings_in_force_witness :
  is_Some (FindSetting "max_tokens")
  /\ exists f, Resolve default_backend 100 (SetOverride "max_tokens" (JInt64 500) [("thinking", JString "low")]) = Ok f
     /\ max_tokens (if_backend f) = Some 500.
Proof.
  destruct (Settings_in_force "max_tokens" (JInt64 500) (JInt64 500) default_backend 100 [("thinking", JString "low")])
    as (_ & Hs & _ & f & Hf & _).
  - split; [by apply (bool_decide_eq_true_1 _)|]. unfold Table. intros s v.
    rewrite !elem_of_cons, elem_of_nil. intros [->|[->|[->|[->|[]]]]] H; vm_compute in H; by simplify_eq.
  - reflexivity.
  - by vm_compute.
  - split; [exact Hs|]. exists f. split; [exact Hf|]. vm_compute in Hf. by simplify_eq.
Defined.
