(* ===== verification/Session.v ===== *)
(** * Conversations and sessions ([src/session/session.cpp])

    [Conversation] is a message graph; a message is made valid UTF-8 and turned
    into a payload before it is appended.  [Session] adds the agent, the
    overrides and the usage, and its stored form. *)
From Stdlib Require Import Ascii.
From S2P Require Export Prelude Text Json Paging Message Graph Request Usage Settings Clock.

Module Conversation.

Import MessageGraph.

(** [Conversation] holds one field, the graph. *)
Abbreviation conversation := MessageGraph.t.

Section Append.
#[local] Set Default Proof Using "Type*".
Context `{codec : JsonCodec}.

Definition ToPayload (msg : ChatMessage) : MessagePayload :=
  if bool_decide (m_role msg = kAssistantRole) then
    Assistant (mkAssistant (m_content msg) (m_reasoning msg)
      (match m_tool_calls msg with JArray calls => map ToolCallFromJson calls | _ => [] end))
  else if bool_decide (m_role msg = kToolRole) then
    Tool (mkTool (m_tool_call_id msg) (m_tool_name msg) (m_content msg) (OriginOf (m_content msg)))
  else if bool_decide (m_role msg = kSystemRole) then System (mkSystem (m_content msg))
  else User (mkUser (m_content msg) (m_from_peer msg)).

Definition sanitize_block (b : ReasoningBlock) : ReasoningBlock :=
  mkReasoning (SanitizeUtf8 (r_text b)) (r_signature b) (r_raw b).

Definition Normalized (msg : ChatMessage) : ChatMessage :=
  let valid := IsValidUtf8 (m_content msg) && IsValidUtf8 (m_tool_name msg)
               && IsValidUtf8 (m_tool_call_id msg)
               && forallb (fun b => IsValidUtf8 (r_text b)) (m_reasoning msg) in
  if valid then msg
  else
    mkMessage (m_id msg) (m_timestamp msg) (m_role msg) (SanitizeUtf8 (m_content msg))
      (SanitizeUtf8 (m_tool_name msg)) (m_tool_calls msg) (map sanitize_block (m_reasoning msg))
      (SanitizeUtf8 (m_tool_call_id msg)) (m_from_peer msg).

(** [id] is the fresh id the graph draws. *)
Definition Append (id : MessageId) (msg : ChatMessage) (c : conversation) : conversation :=
  AppendAfterLeaf id (ToPayload (Normalized msg)) (m_timestamp msg) c.

(** The message of a role and a text, stamped; [now] is the clock's second. *)
Definition text_message (now : Z) (role content : string) : ChatMessage :=
  mkMessage 0 (Stamp now) role content "" JNull [] "" "".

Definition AppendText (id : MessageId) (now : Z) (role content : string) (c : conversation) : conversation :=
  Append id (text_message now role content) c.

End Append.

(** ** The linear view *)

(** An earlier message carries the call [call_id]. *)
Definition carries_call (call_id : string) (earlier : ChatMessage) : bool :=
  match m_tool_calls earlier with
  | JArray calls => existsb (fun call => bool_decide (string_or call "id" "" = call_id)) calls
  | _ => false
  end.

Definition history_step (history : list ChatMessage) (node : MessageNode) : list ChatMessage :=
  let rendered := RenderMessage node (Z.of_nat (length history) + 1) in
  if bool_decide (m_role rendered = kToolRole) && negb (sempty (m_tool_call_id rendered))
     && negb (existsb (carries_call (m_tool_call_id rendered)) history)
  then history
  else history ++ [rendered].

Definition History (c : conversation) : list ChatMessage := foldl history_step [] (Chain c).

Definition TurnCameFromPeer (turn : nat) (c : conversation) : bool :=
  let chain := Chain c in
  if (turn <? 1)%nat || (length chain <? turn)%nat then false
  else
    match chain !! pred turn with
    | Some node => match n_payload node with User user => negb (sempty (u_from_peer user)) | _ => false end
    | None => false
    end.

Definition HasPendingToolCalls (c : conversation) : bool := LeafHasUnfinishedToolCalls c.

(** The answer of [RewindBefore] and the conversation it leaves. *)
Definition RewindBefore (turn : nat) (c : conversation) : res (bool * conversation) :=
  if TurnCameFromPeer turn c then
    Throw (RequestRefused ("This turn arrived from a peer, so it is not yours to rewind. Only a turn you asked "
                           +:+ "can be taken back"))
  else if HasPendingToolCalls c then
    Throw (RequestRefused ("Cannot rewind while tool calls are pending. "
                           +:+ "Please let the current tool finish or /clear."))
  else
    let chain := Chain c in
    if (turn <? 1)%nat || (length chain <? turn)%nat then Ok (false, c)
    else
      let target := if (turn =? 1)%nat then "" else
                      match chain !! pred (pred turn) with Some node => n_id node | None => "" end in
      match RewindTo target c with
      | Some c' => Ok (true, c')
      | None => Ok (false, c)
      end.

Definition ClearHistory (c : conversation) : conversation := empty.

Definition Serialize (c : conversation) : value := JObject [("history", MessageGraph.Serialize c)].

(** [None] where it returns null. *)
Definition Deserialize (j : value) : option conversation :=
  if HasKey j "history" then at_key j "history" ≫= MessageGraph.Deserialize else Some empty.

End Conversation.

(** ** Sessions *)

Record SessionSpec := mkSpec { agent_name : string; overrides : Overrides }.

Definition kSuffix : string := "_override".

Definition spec_to_json (spec : SessionSpec) : value :=
  JObject (foldl (fun out member =>
      if is_null member.2 then out else obj_set (member.1 +:+ kSuffix) member.2 out)
    [("agent_name", JString (agent_name spec))] (overrides spec)).

(** The name of an override from the name of its member. *)
Definition override_name (key : string) : option string :=
  if (slen key <=? slen kSuffix)%nat then None
  else
    let n := (slen key - slen kSuffix)%nat in
    if bool_decide (sdrop n key = kSuffix) then Some (stake n key) else None.

Definition spec_from_json (jv : value) : option SessionSpec :=
  match jv with
  | JObject fields =>
      Some (mkSpec (string_or jv "agent_name" "")
        (foldl (fun out member =>
           match override_name member.1 with Some name => obj_set name member.2 out | None => out end)
           [] fields))
  | _ => None
  end.

Definition kSessionSchemaVersion : Z := 9.

Module Session.

Record t := mk { conversation_ : MessageGraph.t; spec_ : SessionSpec; usage_ : UsageLedger.t }.

Definition new : t := mk MessageGraph.empty (mkSpec "" []) ∅.

Definition SetAgent (name : string) (s : t) : res t :=
  if Conversation.HasPendingToolCalls (conversation_ s) then
    Throw (RequestRefused ("Cannot switch agent while tool calls are pending. "
                           +:+ "Please let the current tool finish or /clear."))
  else Ok (mk (conversation_ s) (mkSpec name (overrides (spec_ s))) (usage_ s)).

(** The usage of the turns still in the chain. *)
Definition kept_usage (s : t) : UsageLedger.t :=
  let live := list_to_set (map n_id (MessageGraph.Chain (conversation_ s))) in
  let kept := UsageLedger.KeepOnly live (usage_ s) in
  foldl (fun pruned entry => UsageLedger.Record_ entry.2 pruned) ∅ (map_entries kept).

Definition Serialize (s : t) : value :=
  let j := [("schema_version", JInt64 kSessionSchemaVersion);
            ("conversation", Conversation.Serialize (conversation_ s));
            ("session_spec", spec_to_json (spec_ s))] in
  let live := list_to_set (map n_id (MessageGraph.Chain (conversation_ s))) in
  JObject (if bool_decide (UsageLedger.KeepOnly live (usage_ s) = ∅) then j
           else obj_set "usage" (UsageLedger.Serialize (kept_usage s)) j).

Definition Deserialize (j : value) : option t :=
  let version := ValueOrDefault to_int j "schema_version" 0 in
  if negb (HasKey j "schema_version") || negb (version =? kSessionSchemaVersion) then None
  else
    conversation ← at_key j "conversation";
    history ← at_key conversation "history";
    if negb (is_object history) then None
    else
      c ← Conversation.Deserialize conversation;
      spec_json ← at_key j "session_spec";
      spec ← (if is_object spec_json then spec_from_json spec_json else None);
      Some (mk c spec (match at_key j "usage" with Some u => UsageLedger.Deserialize u | None => ∅ end)).

End Session.

Import MessageGraph Conversation.

(** ** What is stored is valid text *)

(** The text of a payload that came from outside. *)
Definition payload_texts (p : MessagePayload) : list string :=
  match p with
  | User u => [u_content u]
  | Assistant a => a_content a :: map r_text (a_reasoning a)
  | System s => [s_content s]
  | Tool t => [t_content t; t_call_id t; t_name t]
  end.

Section Conversations.
#[local] Set Default Proof Using "Type*".
Context `{codec : JsonCodec}.

Lemma Normalized_valid msg :
  IsValidUtf8 (m_content (Normalized msg)) = true /\ IsValidUtf8 (m_tool_name (Normalized msg)) = true
  /\ IsValidUtf8 (m_tool_call_id (Normalized msg)) = true
  /\ Forall (fun b => IsValidUtf8 (r_text b) = true) (m_reasoning (Normalized msg)).
Proof.
  unfold Normalized. destruct (_ && _) eqn:E.
  - apply andb_true_iff in E as [E H4]. apply andb_true_iff in E as [E H3]. apply andb_true_iff in E as [H1 H2].
    split_and!; try done. by apply Forall_forall; intros b Hb%list_elem_of_In; rewrite forallb_forall in H4; apply H4.
  - cbn. split_and!; try apply SanitizeUtf8_is_valid.
    apply Forall_map, Forall_true. intros b. apply SanitizeUtf8_is_valid.
Qed.

Lemma ToPayload_valid msg : Forall (fun s => IsValidUtf8 s = true) (payload_texts (ToPayload (Normalized msg))).
Proof.
  destruct (Normalized_valid msg) as (H1 & H2 & H3 & H4). unfold ToPayload.
  repeat case_bool_decide; cbn [payload_texts a_content a_reasoning s_content u_content t_content t_call_id t_name];
    repeat constructor; try done. by apply Forall_map.
Qed.

(** Appending a message appends one turn to the chain and nothing else (a
    tool receipt also completes the call it answers), with every text in it
    valid UTF-8, so that the session can be written; text that was valid is
    stored as it came. *)
Theorem Append_spec id msg c :
  graph_ok c -> id <> "" -> nodes_ c !! id = None ->
  let c' := Append id msg c in
  graph_ok c'
  /\ Chain c' = list_append id (ToPayload (Normalized msg)) (m_timestamp msg) (Chain c)
  /\ Forall (fun s => IsValidUtf8 s = true) (payload_texts (ToPayload (Normalized msg)))
  /\ (Forall (fun s => IsValidUtf8 s = true)
        (m_content msg :: m_tool_name msg :: m_tool_call_id msg :: map r_text (m_reasoning msg)) ->
      Normalized msg = msg).
Proof.
  intros Hg Hid Hf c'. unfold c', Append.
  destruct (AppendAfterLeaf_refines id (ToPayload (Normalized msg)) (m_timestamp msg) c Hg Hid Hf) as (H1 & H2 & _).
  split_and!; [done|done|apply ToPayload_valid|].
  intros (Hc & (Hn & (Hi & Hr)%Forall_cons)%Forall_cons)%Forall_cons.
  unfold Normalized. rewrite Hc, Hn, Hi. cbn [andb].
  assert (forallb (fun b => IsValidUtf8 (r_text b)) (m_reasoning msg) = true) as ->; [|done].
  apply forallb_forall. intros b Hb%list_elem_of_In. apply Forall_map in Hr. rewrite Forall_forall in Hr. by apply Hr.
Qed.

End Conversations.

(** ** The linear view *)

(** The turns a page lists, of those after [before]: all but the receipts that
    no answer before them called. *)
Definition answers_call (call_id : string) (n : MessageNode) : bool :=
  match n_payload n with
  | Assistant a => existsb (fun r => bool_decide (rec_id r = call_id)) (a_tool_calls a)
  | _ => false
  end.

Definition listed (before : list MessageNode) (n : MessageNode) : bool :=
  match n_payload n with
  | Tool r => sempty (t_call_id r) || existsb (answers_call (t_call_id r)) before
  | _ => true
  end.

Fixpoint listed_turns (before chain : list MessageNode) : list MessageNode :=
  match chain with
  | [] => []
  | n :: chain => (if listed before n then [n] else []) ++ listed_turns (before ++ [n]) chain
  end.

Definition render_at (i : nat) (n : MessageNode) : ChatMessage := RenderMessage n (Z.of_nat i + 1).

Lemma carries_render call_id i n : carries_call call_id (RenderMessage n i) = answers_call call_id n.
Proof.
  unfold carries_call, answers_call, RenderMessage. destruct (n_payload n); try done. cbn [m_tool_calls].
  destruct (a_tool_calls p) as [|r rs]; [done|]. generalize (r :: rs). intros l. induction l as [|x l IH]; [done|].
  cbn [map existsb]. by rewrite IH.
Qed.

Lemma carries_imap call_id l k :
  existsb (carries_call call_id) (imap (fun i => render_at (k + i)) l) = existsb (answers_call call_id) l.
Proof.
  revert k. induction l as [|n l IH]; intros k; [done|]. cbn. unfold render_at at 1. rewrite carries_render.
  f_equal. rewrite <- (IH (S k)). f_equal. apply imap_ext. intros i x _. cbn. by rewrite Nat.add_succ_r.
Qed.

Lemma answers_listed call_id before chain :
  existsb (answers_call call_id) (listed_turns before chain) = existsb (answers_call call_id) chain.
Proof.
  revert before. induction chain as [|n chain IH]; intros before; [done|]. cbn [listed_turns existsb].
  rewrite existsb_app, IH. destruct (listed before n) eqn:E; cbn [existsb]; [by rewrite orb_false_r|].
  unfold listed in E. unfold answers_call at 2. by destruct (n_payload n).
Qed.

Lemma listed_turns_app before l1 l2 :
  listed_turns before (l1 ++ l2) = listed_turns before l1 ++ listed_turns (before ++ l1) l2.
Proof.
  revert before. induction l1 as [|n l1 IH]; intros before; cbn; [by rewrite app_nil_r|].
  by rewrite IH, <- !app_assoc.
Qed.

Lemma history_fold chain : foldl history_step [] chain = imap render_at (listed_turns [] chain).
Proof.
  induction chain as [|n chain IH] using rev_ind; [done|].
  rewrite foldl_app, IH, listed_turns_app. cbn [foldl listed_turns app]. rewrite app_nil_r.
  unfold history_step. rewrite length_imap. rewrite imap_app.
  set (l := listed_turns [] chain).
  assert (existsb (carries_call (m_tool_call_id (RenderMessage n (Z.of_nat (length l) + 1)))) (imap render_at l)
    = existsb (answers_call (m_tool_call_id (RenderMessage n (Z.of_nat (length l) + 1)))) chain) as ->.
  { rewrite (carries_imap _ _ 0). apply answers_listed. }
  assert (Hlast : imap (fun j => render_at (length l + j)) [n] = [RenderMessage n (Z.of_nat (length l) + 1)]).
  { cbn. unfold render_at. by rewrite Nat.add_0_r. }
  assert (Hrole : bool_decide (m_role (RenderMessage n (Z.of_nat (length l) + 1)) = kToolRole)
      && negb (sempty (m_tool_call_id (RenderMessage n (Z.of_nat (length l) + 1))))
      && negb (existsb (answers_call (m_tool_call_id (RenderMessage n (Z.of_nat (length l) + 1)))) chain)
    = negb (listed chain n)).
  { unfold listed, RenderMessage. destruct (n_payload n) as [u|a|s|r]; try done. cbn [m_role m_tool_call_id].
    rewrite bool_decide_eq_true_2 by done. by destruct (sempty _), (existsb _ _). }
  rewrite Hrole. destruct (listed chain n); cbn [negb]; [by rewrite <- Hlast|]. by rewrite app_nil_r.
Qed.

Lemma listed_called before chain k n r :
  listed_turns before chain !! k = Some n -> n_payload n = Tool r -> t_call_id r <> "" ->
  existsb (answers_call (t_call_id r)) before = true
  \/ exists j m, (j < k)%nat /\ listed_turns before chain !! j = Some m /\ answers_call (t_call_id r) m = true.
Proof.
  intros Hk Hn Hid. revert before k Hk. induction chain as [|n0 chain IH]; intros before k Hk; [done|].
  cbn [listed_turns] in *. destruct (listed before n0) eqn:El; cbn [app] in *.
  - destruct k as [|k].
    + injection Hk as ->. left. unfold listed in El. rewrite Hn in El.
      by rewrite (proj2 (sempty_false _) Hid) in El.
    + destruct (IH _ _ Hk) as [Hb|(j & m & Hj & Hm & Ha)].
      * rewrite existsb_app in Hb. apply orb_true_iff in Hb as [Hb|Hb]; [by left|right].
        cbn in Hb. rewrite orb_false_r in Hb. exists 0%nat, n0. split_and!; [lia|done|done].
      * right. exists (S j), m. split_and!; [lia|done|done].
  - destruct (IH _ _ Hk) as [Hb|Hj]; [|by right].
    rewrite existsb_app in Hb. apply orb_true_iff in Hb as [Hb|Hb]; [by left|].
    cbn in Hb. rewrite orb_false_r in Hb. unfold answers_call in Hb. unfold listed in El.
    by destruct (n_payload n0).
Qed.

(** The linear view lists the turns of the chain in order, numbered from
    one without a gap, and leaves out exactly the receipts whose call no
    earlier answer carries; so a receipt that is listed is drawn after the
    turn that called for it. *)
Theorem History_spec c :
  History c = imap render_at (listed_turns [] (Chain c))
  /\ (forall k m, History c !! k = Some m -> m_id m = Z.of_nat k + 1)
  /\ (forall k m, History c !! k = Some m -> m_role m = kToolRole -> m_tool_call_id m <> "" ->
        exists j earlier, (j < k)%nat /\ History c !! j = Some earlier /\ carries_call (m_tool_call_id m) earlier = true).
Proof.
  assert (Hh : History c = imap render_at (listed_turns [] (Chain c))) by apply history_fold.
  split; [done|]. rewrite Hh. split.
  - intros k m (n & _ & ->)%list_lookup_imap_Some. unfold render_at, RenderMessage. by destruct (n_payload n).
  - intros k m (n & Hk & ->)%list_lookup_imap_Some Hrole Hid.
    unfold render_at, RenderMessage in Hrole, Hid |- *. destruct (n_payload n) as [u|a|y|r] eqn:En; try done.
    cbn [m_tool_call_id] in Hid |- *.
    destruct (listed_called [] (Chain c) k n r Hk En Hid) as [|(j & m & Hj & Hm & Ha)]; [done|].
    exists j, (render_at j m). split; [done|]. rewrite list_lookup_imap, Hm. split; [done|].
    unfold render_at. by rewrite carries_render.
Qed.

(** ** Stepping back *)

Lemma TurnCameFromPeer_spec turn c :
  TurnCameFromPeer turn c = true <->
  (1 <= turn)%nat /\ exists n u, Chain c !! pred turn = Some n /\ n_payload n = User u /\ u_from_peer u <> "".
Proof.
  unfold TurnCameFromPeer. destruct (Nat.ltb_spec turn 1) as [H1|H1]; cbn [orb].
  { split; [done|]. intros [? _]. lia. }
  destruct (Nat.ltb_spec (length (Chain c)) turn) as [H2|H2].
  { split; [done|]. intros (_ & n & u & Hn & _). apply lookup_lt_Some in Hn. lia. }
  destruct (Chain c !! pred turn) as [n|] eqn:En; [|by split; [|intros (_ & n' & u' & [=] & _)]].
  destruct (n_payload n) as [u|a|y|r] eqn:Ep; [|by split; [|intros (_ & n' & u' & [= <-] & Hu & _); congruence]..].
  rewrite negb_true_iff, sempty_false. split; [intros H; split; [lia|by exists n, u]|].
  intros (_ & n' & u' & [= <-] & Hu & H). congruence.
Qed.

(** Stepping back forgets no message. *)
Lemma rewind_nodes turn c back c' : RewindBefore turn c = Ok (back, c') -> MessageGraph.nodes_ c' = MessageGraph.nodes_ c.
Proof.
  unfold RewindBefore. destruct (TurnCameFromPeer turn c); [done|]. destruct (HasPendingToolCalls c); [done|].
  destruct (_ || _); [by intros [= _ <-]|]. cbv zeta. unfold RewindTo. set (target := if (turn =? 1)%nat then _ else _).
  destruct (negb (sempty target) && _); by intros [= _ <-].
Qed.

Lemma rewind_before turn c :
  graph_ok c ->
  ((exists e, RewindBefore turn c = Throw e) <-> TurnCameFromPeer turn c = true \/ HasPendingToolCalls c = true)
  /\ (TurnCameFromPeer turn c = false -> HasPendingToolCalls c = false ->
      if decide (1 <= turn <= length (Chain c))%nat
      then exists c', RewindBefore turn c = Ok (true, c') /\ graph_ok c' /\ Chain c' = take (pred turn) (Chain c)
      else RewindBefore turn c = Ok (false, c)).
Proof.
  intros Hg. destruct (RewindTo_refines c Hg) as (Hto & (c0 & Hroot & Hg0 & Hc0) & _).
  assert (Hgo : TurnCameFromPeer turn c = false -> HasPendingToolCalls c = false ->
      if decide (1 <= turn <= length (Chain c))%nat
      then exists c', RewindBefore turn c = Ok (true, c') /\ graph_ok c' /\ Chain c' = take (pred turn) (Chain c)
      else RewindBefore turn c = Ok (false, c)).
  { intros Hp Hpend. unfold RewindBefore. rewrite Hp, Hpend.
    destruct (Nat.ltb_spec turn 1), (Nat.ltb_spec (length (Chain c)) turn); cbn [orb];
      case_decide; try lia; try done.
    destruct (Nat.eqb_spec turn 1) as [->|Hne].
    - rewrite Hroot. by exists c0.
    - destruct (lookup_lt_is_Some_2 (Chain c) (pred (pred turn))) as [n Hn]; [lia|]. rewrite Hn.
      destruct (Hto _ _ Hn) as (c' & -> & Hg' & Hc'). exists c'. split_and!; [done|done|].
      by replace (pred turn) with (S (pred (pred turn))) by lia. }
  split; [|done]. split.
  - intros [e He]. destruct (TurnCameFromPeer turn c) eqn:Hp; [by left|].
    destruct (HasPendingToolCalls c) eqn:Hpend; [by right|]. specialize (Hgo eq_refl eq_refl).
    case_decide; [|congruence]. destruct Hgo as (c' & Hc' & _). congruence.
  - unfold RewindBefore. destruct (TurnCameFromPeer turn c); [by eexists|].
    intros [|H]; [done|]. rewrite H. by eexists.
Qed.

(** Stepping back before a turn keeps exactly the turns before it.  It is
    refused exactly when a peer asked that turn or a call is still pending, and
    answers false, changing nothing, exactly when there is no such turn. *)
Theorem RewindBefore_spec turn c :
  graph_ok c ->
  ((exists e, RewindBefore turn c = Throw e) <-> TurnCameFromPeer turn c = true \/ HasPendingToolCalls c = true)
  /\ (TurnCameFromPeer turn c = false -> HasPendingToolCalls c = false ->
      if decide (1 <= turn <= length (Chain c))%nat
      then exists c', RewindBefore turn c = Ok (true, c') /\ graph_ok c' /\ Chain c' = take (pred turn) (Chain c)
      else RewindBefore turn c = Ok (false, c)).
Proof. apply rewind_before. Qed.

(** ** A session read back *)

Lemma override_name_suffix name : name <> "" -> override_name (name +:+ kSuffix) = Some name.
Proof.
  intros Hn. unfold override_name. rewrite slen_app.
  assert (slen name <> 0%nat) by by rewrite slen_0.
  rewrite (proj2 (Nat.leb_gt _ _)) by lia.
  replace (slen name + slen kSuffix - slen kSuffix)%nat with (slen name) by lia.
  by rewrite sdrop_app_exact, stake_app_exact, bool_decide_eq_true_2.
Qed.

Lemma override_suffix_inj n m : n +:+ kSuffix = m +:+ kSuffix -> n = m.
Proof.
  intros H. apply sapp_inj_len in H; [by destruct H|].
  apply (f_equal slen) in H. rewrite !slen_app in H. lia.
Qed.

Lemma agent_name_no_override name : name +:+ kSuffix <> "agent_name".
Proof.
  intros H. assert (slen name = 1%nat) as Hl by (apply (f_equal slen) in H; rewrite slen_app in H; cbn in H; lia).
  by destruct name as [|a [|b name]].
Qed.

Definition live_overrides (o : Overrides) : Overrides := filter (fun m => is_null m.2 = false) o.

Definition norm_overrides (o : Overrides) : Overrides := map (fun m => (m.1, normalize m.2)) (live_overrides o).

Lemma spec_fields o (out : object) :
  NoDup o.*1 -> (forall name, name ∈ o.*1 -> name +:+ kSuffix ∉ out.*1) ->
  foldl (fun out member => if is_null member.2 then out else obj_set (member.1 +:+ kSuffix) member.2 out) out o
  = out ++ map (fun m => (m.1 +:+ kSuffix, m.2)) (live_overrides o).
Proof.
  revert out. induction o as [|[k v] o IH]; intros out Hnd Hout; cbn [foldl fst snd]; [by rewrite app_nil_r|].
  cbn in Hnd. apply NoDup_cons in Hnd as [Hk Hnd]. unfold live_overrides. rewrite filter_cons. cbn [snd].
  destruct (is_null v) eqn:Ev; [rewrite decide_False by done|rewrite decide_True by done].
  - apply IH; [done|]. intros name Hname. apply Hout. by right.
  - rewrite obj_set_new by (apply Hout; by left). rewrite IH; [by rewrite <- app_assoc|done|].
    intros name Hname. rewrite fmap_app, not_elem_of_app. split; [apply Hout; by right|].
    cbn. intros H%list_elem_of_singleton%override_suffix_inj. by subst.
Qed.

Lemma read_overrides (o acc : Overrides) :
  NoDup o.*1 -> (forall name, name ∈ o.*1 -> name ∉ acc.*1) -> "" ∉ o.*1 ->
  foldl (fun out member =>
     match override_name member.1 with Some name => obj_set name member.2 out | None => out end)
    acc (map (fun m => (m.1 +:+ kSuffix, normalize m.2)) o)
  = acc ++ map (fun m => (m.1, normalize m.2)) o.
Proof.
  revert acc. induction o as [|[k v] o IH]; intros acc Hnd Hacc Hne; cbn [foldl map fst snd]; [by rewrite app_nil_r|].
  cbn in Hnd, Hne. apply NoDup_cons in Hnd as [Hk Hnd]. apply not_elem_of_cons in Hne as [Hkne Hne].
  rewrite override_name_suffix by congruence.
  rewrite obj_set_new by (apply Hacc; by left). rewrite IH; [by rewrite <- app_assoc|done| |done].
  intros name Hname. rewrite fmap_app, not_elem_of_app. split; [apply Hacc; by right|].
  cbn. intros H%list_elem_of_singleton. by subst.
Qed.

Lemma live_overrides_keys o name : name ∈ (live_overrides o).*1 -> name ∈ o.*1.
Proof.
  intros (m & -> & [_ Hm]%list_elem_of_filter)%list_elem_of_fmap. by apply list_elem_of_fmap_2.
Qed.

Lemma live_overrides_NoDup o : NoDup o.*1 -> NoDup (live_overrides o).*1.
Proof.
  induction o as [|[k v] o IH]; cbn [fmap list_fmap fst]; [done|]. intros [Hk Hnd]%NoDup_cons.
  unfold live_overrides. rewrite filter_cons. case_decide; [|by apply IH].
  cbn. apply NoDup_cons. split; [|by apply IH]. intros H'. by apply Hk, live_overrides_keys.
Qed.

(** The overrides of a session are one per name, and a name is not empty. *)
Definition spec_ok (spec : SessionSpec) : Prop := NoDup (overrides spec).*1 /\ "" ∉ (overrides spec).*1.

Lemma spec_json spec :
  spec_ok spec ->
  spec_to_json spec
  = JObject (("agent_name", JString (agent_name spec))
             :: map (fun m => (m.1 +:+ kSuffix, m.2)) (live_overrides (overrides spec))).
Proof.
  intros [Hnd _]. unfold spec_to_json. rewrite spec_fields; [done|done|].
  intros name _. cbn. intros H%list_elem_of_singleton. by eapply agent_name_no_override.
Qed.

Lemma spec_roundtrip spec :
  spec_ok spec ->
  spec_from_json (normalize (spec_to_json spec)) = Some (mkSpec (agent_name spec) (norm_overrides (overrides spec))).
Proof.
  intros Hok. rewrite spec_json by done. destruct Hok as [Hnd Hne].
  cbn [normalize map fst snd]. unfold spec_from_json. do 2 f_equal.
  rewrite map_map. cbn [foldl fst snd]. change (override_name "agent_name") with (@None string). cbn iota.
  apply read_overrides; [by apply live_overrides_NoDup| |].
  - intros name _. apply not_elem_of_nil.
  - by intros H%live_overrides_keys.
Qed.

Lemma record_all (l : list (string * TurnUsage)) (acc : UsageLedger.t) :
  NoDup l.*1 -> Forall (fun e => tu_node_id e.2 = e.1 /\ e.1 <> "") l ->
  foldl (fun pruned entry => UsageLedger.Record_ entry.2 pruned) acc l = list_to_map l ∪ acc.
Proof.
  revert acc. induction l as [|[k u] l IH]; intros acc Hnd Hl; cbn [foldl snd].
  { by rewrite list_to_map_nil, (left_id_L ∅ (∪)). }
  apply Forall_cons in Hl as [[Hk Hne] Hl]. cbn in Hnd, Hk, Hne. apply NoDup_cons in Hnd as [Hni Hnd].
  unfold UsageLedger.Record_ at 2. rewrite Hk, (proj2 (sempty_false _) Hne), IH by done.
  rewrite list_to_map_cons, <- insert_union_r; [by rewrite insert_union_l|].
  by apply not_elem_of_list_to_map_1.
Qed.

Definition live_ids (c : conversation) : gset string := list_to_set (map n_id (Chain c)).

Lemma live_ids_nonempty c id : graph_ok c -> id ∈ live_ids c -> id <> "".
Proof.
  intros Hg Hid ->. unfold live_ids in Hid. apply elem_of_list_to_set in Hid.
  apply list_elem_of_fmap in Hid as (n & Hn & Hin). apply Chain_elem in Hin; [|done].
  rewrite <- Hn in Hin. destruct (ok_node_ids _ Hg) as [H _]. congruence.
Qed.

Lemma kept_usage_keep s :
  graph_ok (Session.conversation_ s) -> map_Forall entry_ok (Session.usage_ s) ->
  Session.kept_usage s = UsageLedger.KeepOnly (live_ids (Session.conversation_ s)) (Session.usage_ s).
Proof.
  intros Hg Hu. unfold Session.kept_usage. fold (live_ids (Session.conversation_ s)).
  rewrite record_all, list_to_map_entries, (right_id_L ∅ (∪)); [done|apply NoDup_map_entries|].
  apply Forall_forall. intros [id u] H%elem_of_map_entries. unfold UsageLedger.KeepOnly in H.
  apply map_lookup_filter_Some in H as [H1 H2]. cbn in *. split; [|by eapply live_ids_nonempty].
  by destruct (Hu _ _ H1).
Qed.

Lemma Session_reads (fields sf : object) h c spec :
  obj_find "schema_version" fields = Some (JInt64 kSessionSchemaVersion) ->
  obj_find "conversation" fields = Some (JObject [("history", h)]) -> is_object h = true ->
  MessageGraph.Deserialize h = Some c ->
  obj_find "session_spec" fields = Some (JObject sf) -> spec_from_json (JObject sf) = Some spec ->
  Session.Deserialize (JObject fields)
  = Some (Session.mk c spec (match obj_find "usage" fields with
                             | Some u => UsageLedger.Deserialize u | None => ∅ end)).
Proof.
  intros Hv Hc Hh Hg Hs Hspec. unfold Session.Deserialize.
  assert (HasKey (JObject fields) "schema_version" = true) as -> by (unfold HasKey; cbn; by rewrite Hv).
  rewrite (ValueOrDefault_found to_int fields "schema_version" _ 9 0 Hv) by reflexivity.
  assert (Hat : forall k, at_key (JObject fields) k = obj_find k fields) by done. rewrite !Hat, Hc, Hs.
  cbn [negb orb Z.eqb Pos.eqb kSessionSchemaVersion mbind option_bind].
  assert (at_key (JObject [("history", h)]) "history" = Some h) as Hat' by done. rewrite Hat'.
  cbn [mbind option_bind is_object]. rewrite Hh. cbn [negb]. unfold Conversation.Deserialize.
  change (HasKey (JObject [("history", h)]) "history") with true. rewrite Hat'. cbn [mbind option_bind].
  rewrite Hg. cbn [mbind option_bind]. by rewrite Hspec.
Qed.

Lemma session_reads_back s :
  graph_ok (Session.conversation_ s) ->
  map_Forall (fun _ n => payload_ok (n_payload n)) (nodes_ (Session.conversation_ s)) ->
  spec_ok (Session.spec_ s) -> map_Forall entry_ok (Session.usage_ s) ->
  let c := Session.conversation_ s in
  Session.Deserialize (normalize (Session.Serialize s))
  = Some (Session.mk (norm_graph c)
            (mkSpec (agent_name (Session.spec_ s)) (norm_overrides (overrides (Session.spec_ s))))
            (UsageLedger.KeepOnly (live_ids c) (Session.usage_ s)))
  /\ Chain (norm_graph c) = map norm_node (Chain c).
Proof.
  intros Hg Hp Hs Hu c. destruct (Graph_reads_back c Hg Hp) as (Hback & _ & Hchain). split; [|done].
  unfold Session.Serialize. fold c. fold (live_ids c). rewrite kept_usage_keep by done. fold c.
  set (kept := UsageLedger.KeepOnly (live_ids c) (Session.usage_ s)).
  assert (Hkept : map_Forall entry_ok kept) by (intros k u [Hk _]%map_lookup_filter_Some; by apply Hu).
  assert (Hspec := spec_roundtrip (Session.spec_ s) Hs).
  rewrite spec_json in * by done. cbn [normalize map fst snd] in Hspec.
  pose proof (Ledger_reads_back kept Hkept) as Hledger.
  change (MessageGraph.Serialize c) with (MessageGraph.Serialize c) in Hback.
  assert (Hobj : is_object (normalize (MessageGraph.Serialize c)) = true) by done.
  case_bool_decide as Ek; [|cbn [obj_set String.eqb decide]; set (u := UsageLedger.Serialize kept) in *];
    cbn [normalize map fst snd];
    (erewrite Session_reads; [|reflexivity|reflexivity|exact Hobj|exact Hback|reflexivity|exact Hspec]).
  - by rewrite Ek.
  - by rewrite <- Hledger.
Qed.

(** A session written to its file and read back is the same session: its
    agent, the overrides that are set, every turn of the conversation with the
    same links, and the usage of the turns that are still in the chain. *)
Theorem Session_roundtrip s :
  graph_ok (Session.conversation_ s) ->
  map_Forall (fun _ n => payload_ok (n_payload n)) (nodes_ (Session.conversation_ s)) ->
  spec_ok (Session.spec_ s) -> map_Forall entry_ok (Session.usage_ s) ->
  let c := Session.conversation_ s in
  Session.Deserialize (normalize (Session.Serialize s))
  = Some (Session.mk (norm_graph c)
            (mkSpec (agent_name (Session.spec_ s)) (norm_overrides (overrides (Session.spec_ s))))
            (UsageLedger.KeepOnly (live_ids c) (Session.usage_ s)))
  /\ Chain (norm_graph c) = map norm_node (Chain c).
Proof. apply session_reads_back. Qed.

(** ** Witnesses *)

(** A message with a byte that is no UTF-8. *)
Definition broken_message : ChatMessage := text_message 0 kUserRole ("ok" +:+ String "255"%char "").

Lemma Append_spec_witness :
  graph_ok (Append (codec := bit_codec) "z" broken_message demo_graph)
  /\ m_content (Normalized broken_message) <> m_content broken_message.
Proof.
  split; [|by vm_compute].
  exact (proj1 (Append_spec (codec := bit_codec) "z" broken_message demo_graph demo_graph_ok
                  ltac:(discriminate) ltac:(reflexivity))).
Defined.

Definition sealed_demo : conversation := SealInterruptedToolCalls ["r"] demo_graph.

Lemma RewindBefore_spec_witness :
  HasPendingToolCalls demo_graph = true /\ exists e, RewindBefore 2 demo_graph = Throw e.
Proof.
  split; [reflexivity|].
  apply (proj2 (proj1 (RewindBefore_spec 2 demo_graph demo_graph_ok))). by right.
Defined.

Definition demo_session : Session.t :=
  Session.mk demo_graph (mkSpec "local" [("thinking", JString "low"); ("temperature", JNull)])
    (UsageLedger.Record_ (priced "b" "credits") (UsageLedger.Record_ (priced "gone" "credits") ∅)).

Lemma Session_roundtrip_witness :
  exists s, Session.Deserialize (normalize (Session.Serialize demo_session)) = Some s
    /\ agent_name (Session.spec_ s) = "local" /\ overrides (Session.spec_ s) = [("thinking", JString "low")].
Proof.
  destruct (Session_roundtrip demo_session demo_graph_ok) as [H _];
    [| | |eexists; split; [exact H|split; reflexivity]].
  - apply map_Forall_to_list. by vm_compute; repeat constructor.
  - split; by apply (bool_decide_eq_true_1 _).
  - repeat apply Record_ok; try apply priced_ok. apply map_Forall_empty.
Defined.
