(* ===== verification/Executor.v ===== *)
(** * One turn ([src/runtime/executor.cpp])

    [Execute] appends what was asked, lets the model answer and call tools
    round after round within a budget of tool calls, and appends the answer.

    What goes on outside is a world [W]: the provider and the tools are
    functions of it and change it, and the cancel token is a reading of it that
    may change between two readings.  The words a user leaves while a turn runs
    ([SetUserNote], called from another thread) are shared with it.  The ids the
    graph draws are a sequence. *)
From Stdlib Require Import Ascii.
From S2P Require Export Prelude Text Json Clock Message Graph Request Usage Agents Tools Bash Session Provider.

(** ** Data *)

Inductive TurnOutcome := kCompletedTurn | kFailedTurn | kToolBudgetReached.

Record ExecutionResult := mkExecution {
  x_content : string; x_was_streamed : bool; x_tool_call_count : Z; x_usage : option TokenUsage;
  x_rounds : Z; x_notice : string; x_shape_notes : list string; x_model : string;
  x_outcome : TurnOutcome; x_has_error : bool; x_error_message : string;
  x_blocked : Z; x_unaskable : Z; x_only_blocked : bool; x_only_unaskable : bool
}.

Definition no_execution : ExecutionResult :=
  mkExecution "" false 0 None 0 "" [] "" kCompletedTurn false "" 0 0 false false.

(** What the callbacks of a turn saw, and the tools that ran. *)
Inductive event :=
  | EContent (token : string)
  | EStart (id name : string) (args : value)
  | ERun (id name : string) (args : value)
  | EEnd (id name : string) (args : value) (output error : string).

Definition kDefaultToolCallBudget : Z := 100.

(** ** Text *)

Definition StopNotice (finish_reason : string) : string :=
  if bool_decide (finish_reason = "length") then
    "The reply stopped at a token limit, so it may be incomplete. Set " +:+
    "max_tokens for this backend to lengthen it, or leave it unset to use the " +:+
    "provider's own limit."
  else if bool_decide (finish_reason = "content_filter") then
    "The provider stopped the reply because its content filter matched."
  else "".

Record StaticEnvInfo := mkStaticEnv { os_name : string; kernel_version : string }.

(** [BuildStaticSystemContext]; [digest] is what [context_digest] answers. *)
Definition BuildStaticSystemContext (env : StaticEnvInfo) (policy : option SecurityPolicy) (digest : string)
    : string :=
  "=== Environment ===" +:+ NL
  +:+ "OS: " +:+ os_name env +:+ NL
  +:+ "Kernel: " +:+ kernel_version env +:+ NL
  +:+ "=== Security Policy ===" +:+ NL
  +:+ match policy with
      | Some p =>
          "Sandbox root: " +:+ sandbox_root p +:+ NL
          +:+ "Forbidden patterns: "
          +:+ match forbidden_patterns p with
              | [] => "(none)"
              | patterns => concat_sep ", " (map (fun s => "'" +:+ s +:+ "'") patterns)
              end +:+ NL
      | None => "(no security policy set)" +:+ NL
      end
  +:+ "=== Working Directory ===" +:+ NL
  +:+ (match policy with
       | Some p => if sempty (sandbox_root p) then "." else sandbox_root p
       | None => "."
       end) +:+ NL
  +:+ "=== Tool Use Guidelines ===" +:+ NL
  +:+ "1. Before calling any tool, output a concise step-by-step plan. Only execute tools after " +:+
      "stating the plan." +:+ NL
  +:+ "2. Read the end of what you want, not the whole of it: a file you are about to edit is " +:+
      "read from its head (the default), and a log, a build's output, or a failure is read " +:+
      "from its tail with at='tail'." +:+ NL
  +:+ "3. A command's output comes back one page at a time. When page.later or page.earlier is " +:+
      "set, pass that cursor back as `at` to read that page instead of running the command " +:+
      "again. Paging reads what is already stored; grep runs again and finds a needle in " +:+
      "what you have not stored." +:+ NL
  +:+ "4. Use parallel tool calls when possible to minimize round trips." +:+ NL
  +:+ digest.

(** ** What a turn cost *)

(** A price is kept only while the rounds agree on one. *)
Definition merge_cost (sum round : option Cost) : option Cost :=
  match round with
  | Some c =>
      match sum with
      | None => Some c
      | Some s => if bool_decide (unit_ s = unit_ c) then Some (mkCost (dadd (amount s) (amount c)) (unit_ s))
                  else Some s
      end
  | None => None
  end.

(** The counts are [int]s. *)
Definition merge_usage (sum : option TokenUsage) (round : TokenUsage) : res TokenUsage :=
  let sum := default no_usage sum in
  let? prompt := UsageLedger.add_int (prompt_tokens sum) (prompt_tokens round) in
  let? completion := UsageLedger.add_int (completion_tokens sum) (completion_tokens round) in
  let? total := UsageLedger.add_int (total_tokens sum) (total_tokens round) in
  let? cached := UsageLedger.add_int (cached_tokens sum) (cached_tokens round) in
  Ok (mkTokenUsage prompt completion total cached (merge_cost (cost sum) (cost round))).

(** ** The state of a turn *)

Definition set_x_content (c : string) (r : ExecutionResult) : ExecutionResult :=
  mkExecution c (x_was_streamed r) (x_tool_call_count r) (x_usage r) (x_rounds r) (x_notice r) (x_shape_notes r)
    (x_model r) (x_outcome r) (x_has_error r) (x_error_message r) (x_blocked r) (x_unaskable r)
    (x_only_blocked r) (x_only_unaskable r).

(** A token as [on_content] adds it. *)
Definition streamed (token : string) (r : ExecutionResult) : ExecutionResult :=
  mkExecution (x_content r +:+ token) true (x_tool_call_count r) (x_usage r) (x_rounds r) (x_notice r)
    (x_shape_notes r) (x_model r) (x_outcome r) (x_has_error r) (x_error_message r) (x_blocked r)
    (x_unaskable r) (x_only_blocked r) (x_only_unaskable r).

Definition with_usage (u : option TokenUsage) (notes : list string) (r : ExecutionResult) : ExecutionResult :=
  mkExecution (x_content r) (x_was_streamed r) (x_tool_call_count r) u (x_rounds r) (x_notice r)
    notes (x_model r) (x_outcome r) (x_has_error r) (x_error_message r) (x_blocked r)
    (x_unaskable r) (x_only_blocked r) (x_only_unaskable r).

Definition with_error (e : string) (r : ExecutionResult) : ExecutionResult :=
  mkExecution (x_content r) (x_was_streamed r) (x_tool_call_count r) (x_usage r) (x_rounds r) (x_notice r)
    (x_shape_notes r) (x_model r) (x_outcome r) true e (x_blocked r) (x_unaskable r)
    (x_only_blocked r) (x_only_unaskable r).

Definition next_round (r : ExecutionResult) : ExecutionResult :=
  mkExecution (x_content r) (x_was_streamed r) (x_tool_call_count r) (x_usage r) (x_rounds r + 1) (x_notice r)
    (x_shape_notes r) (x_model r) (x_outcome r) (x_has_error r) (x_error_message r) (x_blocked r)
    (x_unaskable r) (x_only_blocked r) (x_only_unaskable r).

(** One more call, and whether it was refused and nobody could be asked. *)
Definition counted_call (blocked unaskable : bool) (r : ExecutionResult) : ExecutionResult :=
  mkExecution (x_content r) (x_was_streamed r) (x_tool_call_count r + 1) (x_usage r) (x_rounds r) (x_notice r)
    (x_shape_notes r) (x_model r) (x_outcome r) (x_has_error r) (x_error_message r)
    (x_blocked r + if blocked then 1 else 0) (x_unaskable r + if unaskable then 1 else 0)
    (x_only_blocked r) (x_only_unaskable r).

Definition answered_with (response notice model_ : string) (r : ExecutionResult) : ExecutionResult :=
  mkExecution response (x_was_streamed r) (x_tool_call_count r) (x_usage r) (x_rounds r) notice
    (x_shape_notes r) (if sempty model_ then x_model r else model_) (x_outcome r) (x_has_error r)
    (x_error_message r) (x_blocked r) (x_unaskable r) (x_only_blocked r) (x_only_unaskable r).

Definition over_budget_result (r : ExecutionResult) : ExecutionResult :=
  mkExecution ("The tool-call budget for this turn was reached without a final answer. " +:+
               "Please rephrase your request or narrow the scope, or raise the budget with " +:+
               "the tool_call_budget agent setting.")
    (x_was_streamed r) (x_tool_call_count r) (x_usage r) (x_rounds r) (x_notice r) (x_shape_notes r) (x_model r)
    kToolBudgetReached true (x_error_message r) (x_blocked r) (x_unaskable r) (x_only_blocked r) (x_only_unaskable r).

Definition refused_result (r : ExecutionResult) : ExecutionResult :=
  let unaskable := x_unaskable r =? x_blocked r in
  mkExecution (x_content r) (x_was_streamed r) (x_tool_call_count r) (x_usage r) (x_rounds r) (x_notice r)
    (x_shape_notes r) (x_model r) (x_outcome r) true
    (if x_has_error r then x_error_message r
     else if unaskable then
       "Every tool call this turn made needed approval, and nothing here can ask: " +:+
       "give the agent a command that needs none, or take it off approval_patterns."
     else "Every tool call this turn made was refused by the sandbox; nothing ran.")
    (x_blocked r) (x_unaskable r) true unaskable.

Definition add_notes (r : ExecutionResult) : ExecutionResult :=
  let notice := foldl (fun notice note => notice +:+ (if sempty notice then "" else NL) +:+ note)
                  (x_notice r) (x_shape_notes r) in
  mkExecution (x_content r) (x_was_streamed r) (x_tool_call_count r) (x_usage r) (x_rounds r) notice
    (x_shape_notes r) (x_model r) (x_outcome r) (x_has_error r) (x_error_message r) (x_blocked r)
    (x_unaskable r) (x_only_blocked r) (x_only_unaskable r).

(** The end of [RunToolLoop], after the loop. *)
Definition settle_result (budget_reached : bool) (r : ExecutionResult) : ExecutionResult :=
  if budget_reached && sempty (x_content r) then over_budget_result r
  else if sempty (x_content r) && (0 <? x_blocked r) && (x_blocked r =? x_tool_call_count r) then refused_result r
  else if negb (x_has_error r) && sempty (x_content r) && (x_tool_call_count r =? 0) then
    with_error ("Model returned an empty response without any tool calls. " +:+
                "Please check the backend service or try again.") r
  else add_notes r.

Section Executor.
#[local] Set Default Proof Using "Type*".
Context `{codec : JsonCodec} {W : Type}.

(** What a turn shares with the rest: the words left for it, and the world. *)
Record Shared := mkShared { user_note_ : string; outside : W }.

Record exec := mkExec {
  e_conversation : MessageGraph.t;
  e_drawn : nat;
  e_shared : Shared;
  peer_origin_ : string;
  next_tool_call_id_ : Z;
  e_log : list event
}.

(** The provider, the tools, the clocks and the flags. *)
Context (Chat : list ChatMessage -> list ToolDefinition -> Shared -> Shared * (list string * res ChatResult)).
Context (toolbox : gmap string (Tools.Tool (ToolContext * Shared)%type)).
Context (cancelled : Shared -> Shared * bool) (ShutdownRequested : W -> bool).
Context (ticks : W -> Z) (seconds : W -> Z) (context_digest : W -> string).
Context (ids : nat -> MessageId).
(** Settings of the executor, and which tokens and callbacks the turn has. *)
Context (security_policy_ : option SecurityPolicy) (system_prompt_ : string) (static_env : StaticEnvInfo).
Context (tool_call_budget_ : Z) (approval_ : option (string -> bool * string)).
Context (has_cancel_token has_command_stop_token : bool).

Definition set_conversation (c : MessageGraph.t) (drawn : nat) (s : exec) : exec :=
  mkExec c (e_drawn s + drawn) (e_shared s) (peer_origin_ s) (next_tool_call_id_ s) (e_log s).
Definition set_shared (w : Shared) (s : exec) : exec :=
  mkExec (e_conversation s) (e_drawn s) w (peer_origin_ s) (next_tool_call_id_ s) (e_log s).
Definition set_note_ (n : string) (s : exec) : exec := set_shared (mkShared n (outside (e_shared s))) s.
Definition logged (events : list event) (s : exec) : exec :=
  mkExec (e_conversation s) (e_drawn s) (e_shared s) (peer_origin_ s) (next_tool_call_id_ s) (e_log s ++ events).

Definition append (msg : ChatMessage) (s : exec) : exec :=
  set_conversation (Conversation.Append (ids (e_drawn s)) msg (e_conversation s)) 1 s.

(** [Conversation::Append(role, content)] *)
Definition append_text (role content : string) (s : exec) : exec :=
  append (Conversation.text_message (seconds (outside (e_shared s))) role content) s.

(** Sealing draws an id for each call that is pending at the leaf. *)
Definition leaf_pending (g : MessageGraph.t) : nat :=
  match MessageGraph.Find (MessageGraph.leaf_ g) g with
  | Some node => match n_payload node with Assistant a => length (pending_calls a) | _ => 0%nat end
  | None => 0%nat
  end.

Definition seal (s : exec) : exec :=
  let n := leaf_pending (e_conversation s) in
  set_conversation (MessageGraph.SealInterruptedToolCalls (map ids (seq (e_drawn s) n)) (e_conversation s)) n s.

Definition is_cancelled (s : exec) : exec * bool :=
  if has_cancel_token then let '(w, c) := cancelled (e_shared s) in (set_shared w s, c) else (s, false).

(** A message with nothing but a role and a text, and no time. *)
Definition plain_message (role content : string) : ChatMessage :=
  mkMessage 0 "" role content "" JNull [] "" "".

(** ** A round's question *)

(** What came of asking the provider: the flags [failed], [stopped] and
    [abandoned], or an answer. *)
Inductive called := Answered (r : ChatResult) | Failed | Stopped | Abandoned.

Definition note_tokens (tokens : list string) (s : exec) (r : ExecutionResult) : exec * ExecutionResult :=
  let tokens := filter (fun t => sempty t = false) tokens in
  (logged (map EContent tokens) s, foldl (fun r t => streamed t r) r tokens).

Definition missing_note (missing : list string) : list string :=
  match missing with
  | [] => []
  | names => ["the reply never carried " +:+ QuoteJoin names
              +:+ "; this build reads a name the gateway no longer sends"]
  end.

Definition CallProvider (s : exec) (result : ExecutionResult) : exec * res (ExecutionResult * called) :=
  let environment := BuildStaticSystemContext static_env security_policy_ (context_digest (outside (e_shared s))) in
  match BuildRequestPath (e_conversation s) (mkInputs system_prompt_ environment) with
  | Throw e => (s, Throw e)
  | Undef => (s, Undef)
  | Ok history =>
      let '(w, (tokens, reply)) := Chat history (Toolbox.ToolDefinitions toolbox) (e_shared s) in
      let '(s, result) := note_tokens tokens (set_shared w s) result in
      match reply with
      | Undef => (s, Undef)
      | Ok chat =>
          (s,
           let? usage := match cr_usage chat with
                         | Some u => let? u := merge_usage (x_usage result) u in Ok (Some u)
                         | None => Ok (x_usage result)
                         end in
           Ok (with_usage usage (x_shape_notes result ++ missing_note (cr_missing chat)) result, Answered chat))
      | Throw e =>
          let '(s, stop) := is_cancelled s in
          (s, Ok (if stop then (result, Stopped)
                  else if ShutdownRequested (outside (e_shared s)) then (result, Abandoned)
                  else (with_error ("Request failed: " +:+ ReadableError (what e)) result, Failed)))
      end
  end.

(** ** A round's tool calls *)

(** Calls the provider did not name get an id. *)
Fixpoint name_calls (calls : list ToolCall) (s : exec) : exec * list ToolCall :=
  match calls with
  | [] => (s, [])
  | call :: calls =>
      let '(s, call) :=
        if sempty (tc_id call) then
          let n := next_tool_call_id_ s + 1 in
          (mkExec (e_conversation s) (e_drawn s) (e_shared s) (peer_origin_ s) n (e_log s),
           mkToolCall ("call_" +:+ signed_decimal (ticks (outside (e_shared s))) +:+ "_" +:+ signed_decimal n)
             (tc_name call) (tc_arguments call))
        else (s, call) in
      let '(s, calls) := name_calls calls s in (s, call :: calls)
  end.

Definition AppendAssistantTurn (content : string) (reasoning : list ReasoningBlock) (calls : list ToolCall)
    (s : exec) : exec :=
  let calls_json :=
    JArray (map (fun c => ToolCallToJson (mkRecord (tc_id c) (tc_name c) (tc_arguments c) kPending)) calls) in
  append (mkMessage 0 "" kAssistantRole content "" calls_json reasoning "" "") s.

Definition BuildToolContext (s : exec) : exec * ToolContext :=
  let policy := default default_policy security_policy_ in
  let control_ := mkControl has_command_stop_token (user_note_ (e_shared s)) false in
  let ctx := mkContext (Some policy) (if has_command_stop_token then Some control_ else None) approval_
               (peer_origin_ s) in
  (mkExec (e_conversation s) (e_drawn s) (mkShared "" (outside (e_shared s))) "" (next_tool_call_id_ s) (e_log s),
   ctx).

Definition receipt_message (call : ToolCall) (tool_result : string) : ChatMessage :=
  mkMessage 0 "" kToolRole tool_result (tc_name call) JNull [] (tc_id call) "".

(** One call of the loop: run, counted, reported and recorded. *)
Definition run_call (ctx : ToolContext) (call : ToolCall) (s : exec) (result : ExecutionResult)
    : exec * ToolContext * res ExecutionResult :=
  let s := logged [EStart (tc_id call) (tc_name call) (tc_arguments call);
                   ERun (tc_id call) (tc_name call) (tc_arguments call)] s in
  let '((ctx, w), out) := Toolbox.ExecuteTool (tc_name call) (tc_arguments call) toolbox (ctx, e_shared s) in
  let s := set_shared w s in
  match out with
  | Undef => (s, ctx, Undef)
  | _ =>
      let tool_result := match out with
                         | Ok text => text
                         | Throw e => MakeToolResultJson false "" ("Tool execution error: " +:+ what e) (-1)
                                        false kNoRefusal []
                         | Undef => ""
                         end in
      let parsed := ParseToolResult tool_result in
      let blocked := r_valid parsed && r_blocked parsed in
      let result := counted_call blocked (blocked && bool_decide (r_refusal parsed = kNobodyToAsk)) result in
      let '(output, error) := if r_valid parsed then (r_output parsed, r_error parsed) else (tool_result, "") in
      let s := logged [EEnd (tc_id call) (tc_name call) (tc_arguments call) output error] s in
      (append (receipt_message call tool_result) s, ctx, Ok result)
  end.

(** The loop over the calls; a cancelled turn runs no more of them. *)
Fixpoint run_calls (ctx : ToolContext) (calls : list ToolCall) (s : exec) (result : ExecutionResult)
    : exec * res ExecutionResult :=
  match calls with
  | [] => (s, Ok result)
  | call :: calls =>
      let '(s, stop) := is_cancelled s in
      if stop then (s, Ok result)
      else
        match run_call ctx call s result with
        | (s, ctx, Ok result) => run_calls ctx calls s result
        | (s, _, Throw e) => (s, Throw e)
        | (s, _, Undef) => (s, Undef)
        end
  end.

Definition add_user_note (s : exec) : exec :=
  let note := user_note_ (e_shared s) in
  if negb (sempty note) && has_cancel_token then
    set_note_ "" (append (plain_message kUserRole ("[user note during the turn] " +:+ note)) s)
  else s.

Definition RunToolCalls (calls : list ToolCall) (s : exec) (result : ExecutionResult)
    : exec * res ExecutionResult :=
  let '(s, ctx) := BuildToolContext s in
  match run_calls ctx calls s result with
  | (s, Ok result) =>
      let s := add_user_note s in
      let '(s, stop) := is_cancelled s in
      (if stop then seal s else s, Ok result)
  | other => other
  end.

(** ** The loop *)

Definition wrap_up_message : ChatMessage :=
  plain_message kUserRole
    ("[system] The tool-call budget for this turn is exhausted. Do not call any " +:+
     "more tools; answer now from what you have gathered so far.").

(** How the loop left: through its [break], or returning at once. *)
Inductive loop_exit := Broke | Returned.

(** [budget_reached] implies [wrap_up_asked] at the head of a round, so one flag
    stands for both; [None] where the fuel ran out. *)
Fixpoint rounds (fuel : nat) (wrapped : bool) (s : exec) (result : ExecutionResult)
    : option (exec * res (ExecutionResult * bool * loop_exit)) :=
  match fuel with
  | O => None
  | S fuel =>
      let budget_reached := wrapped || (tool_call_budget_ <=? x_tool_call_count result) in
      if wrapped then Some (s, Ok (result, true, Broke))
      else
        let s := if budget_reached then append wrap_up_message s else s in
        let '(s, asked) := CallProvider s (next_round result) in
        match asked with
        | Throw e => Some (s, Throw e)
        | Undef => Some (s, Undef)
        | Ok (result, Failed) => Some (s, Ok (result, budget_reached, Broke))
        | Ok (result, Stopped) => Some (seal s, Ok (result, budget_reached, Returned))
        | Ok (result, Abandoned) => Some (s, Ok (result, budget_reached, Returned))
        | Ok (result, Answered chat) =>
            match cr_tool_calls chat with
            | [] =>
                let reasoning := ProjectReasoningText (cr_reasoning chat) in
                let response := if sempty (cr_content chat) && negb (sempty reasoning) then reasoning
                                else cr_content chat in
                Some (s, Ok (answered_with response (StopNotice (cr_finish_reason chat)) (cr_model chat) result,
                             budget_reached, Broke))
            | calls =>
                let '(s, calls) := name_calls calls s in
                let s := AppendAssistantTurn (cr_content chat) (cr_reasoning chat) calls s in
                match RunToolCalls calls s result with
                | (s, Ok result) => rounds fuel budget_reached s result
                | (s, Throw e) => Some (s, Throw e)
                | (s, Undef) => Some (s, Undef)
                end
            end
        end
  end.

Definition RunToolLoop (fuel : nat) (s : exec) : option (exec * res ExecutionResult) :=
  '(s, ended) ← rounds fuel false s no_execution;
  Some (s, let? out := ended in
           let '(result, budget_reached, how) := out in
           Ok (match how with Broke => settle_result budget_reached result | Returned => result end)).

Definition Execute (fuel : nat) (input : string) (s : exec) : option (exec * res ExecutionResult) :=
  let user_turn := mkMessage 0 "" kUserRole input "" JNull [] "" (peer_origin_ s) in
  '(s, ended) ← RunToolLoop fuel (append user_turn s);
  Some (match ended with
        | Ok result =>
            if negb (x_has_error result) && negb (sempty (x_content result))
            then append_text kAssistantRole (x_content result) s else s
        | _ => s
        end, ended).

(** ** The conversation of a turn only grows *)

Context (ids_nonempty : forall n, ids n <> "") (ids_inj : forall n m, ids n = ids m -> n = m).

(** The conversation is well formed and the ids still to be drawn are new to it. *)
Definition exec_ok (s : exec) : Prop :=
  graph_ok (e_conversation s)
  /\ forall n, (e_drawn s <= n)%nat -> MessageGraph.nodes_ (e_conversation s) !! ids n = None.

Definition ids_of (s : exec) : list MessageId := map n_id (MessageGraph.Chain (e_conversation s)).

Definition grows (s s' : exec) : Prop := exec_ok s -> exec_ok s' /\ ids_of s `prefix_of` ids_of s'.

#[local] Instance grows_preorder : PreOrder grows.
Proof.
  split; [by intros s Hs|]. intros s1 s2 s3 H12 H23 H1. destruct (H12 H1) as [H2 Hp]. destruct (H23 H2) as [H3 Hq].
  split; [done|]. by etrans.
Qed.

(** A step that leaves the conversation alone. *)
Lemma grows_same s s' :
  e_conversation s' = e_conversation s -> e_drawn s' = e_drawn s -> grows s s'.
Proof. intros Hc Hd [Hg Hf]. unfold exec_ok, ids_of. rewrite Hc, Hd. by split. Qed.

Lemma AppendAfterLeaf_keys id payload ts g k :
  graph_ok g -> id <> "" -> MessageGraph.nodes_ g !! id = None -> k <> id ->
  MessageGraph.nodes_ g !! k = None -> MessageGraph.nodes_ (MessageGraph.AppendAfterLeaf id payload ts g) !! k = None.
Proof.
  intros Hg Hid Hf Hk Hn. destruct (AppendAfterLeaf_refines id payload ts g Hg Hid Hf) as (_ & Hc & _ & ->).
  apply nodes_of_None. rewrite Hc, list_append_ids, elem_of_app, list_elem_of_singleton.
  intros [(n & -> & Hin)%list_elem_of_fmap| ->]; [|done]. apply Chain_elem in Hin; [|done]. congruence.
Qed.

Lemma append_grows msg s : grows s (append msg s).
Proof.
  intros [Hg Hf]. unfold append, Conversation.Append.
  destruct (AppendAfterLeaf_refines (ids (e_drawn s)) (Conversation.ToPayload (Conversation.Normalized msg))
    (m_timestamp msg) (e_conversation s)) as (H1 & H2 & _); [done|done|by apply Hf|].
  split; [split; [exact H1|]|].
  - cbn [set_conversation e_drawn e_conversation]. intros n Hn. apply AppendAfterLeaf_keys; try done.
    + apply Hf. lia.
    + intros H%ids_inj. lia.
    + apply Hf. lia.
  - unfold ids_of. cbn [set_conversation e_conversation]. rewrite H2, list_append_ids. by eexists.
Qed.

Lemma append_receipts_keys l unrun g k :
  graph_ok g -> NoDup l -> Forall (fun id => id <> "" /\ MessageGraph.nodes_ g !! id = None) l -> k ∉ l ->
  MessageGraph.nodes_ g !! k = None -> MessageGraph.nodes_ (MessageGraph.append_receipts l unrun g) !! k = None.
Proof.
  revert l g. induction unrun as [|call unrun IH]; intros [|id l] g Hg Hnd Hf Hk Hn; try done.
  cbn [MessageGraph.append_receipts]. apply NoDup_cons in Hnd as [Hni Hnd]. apply Forall_cons in Hf as [[Hne Hf0] Hf].
  apply not_elem_of_cons in Hk as [Hk1 Hk]. apply IH; [by apply AppendAfterLeaf_keeps|done| |done|].
  - rewrite Forall_forall in Hf |- *. intros j Hj. destruct (Hf j Hj) as [Hj1 Hj2]. split; [done|].
    apply AppendAfterLeaf_keys; try done. by intros ->.
  - by apply AppendAfterLeaf_keys.
Qed.

Lemma receipts_prefix c n a leaf l unrun :
  map n_id (c ++ [n]) `prefix_of` map n_id (c ++ set_payload a n :: receipts leaf l unrun).
Proof. rewrite !map_app. cbn. exists (map n_id (receipts leaf l unrun)). by rewrite <- app_assoc. Qed.

Lemma seal_spec s :
  exec_ok s -> (exec_ok (seal s) /\ ids_of s `prefix_of` ids_of (seal s))
    /\ MessageGraph.LeafHasUnfinishedToolCalls (e_conversation (seal s)) = false.
Proof.
  intros [Hg Hf]. set (g := e_conversation s) in *.
  destruct (MessageGraph.Chain g) as [|n0 c0] eqn:Ec.
  - assert (Hl : MessageGraph.leaf_ g = "") by (rewrite <- (leaf_of_Chain g Hg), Ec; done).
    assert (Hno : MessageGraph.nodes_ g !! MessageGraph.leaf_ g = None) by (rewrite Hl; apply Hg).
    assert (seal s = set_conversation g 0 s) as ->.
    { unfold seal, leaf_pending, MessageGraph.Find, MessageGraph.SealInterruptedToolCalls. fold g. by rewrite Hno. }
    split; [apply (grows_same s); [done|cbn; lia|by split]|]. cbn [set_conversation e_conversation].
    unfold MessageGraph.LeafHasUnfinishedToolCalls, MessageGraph.Find. by rewrite Hno.
  - destruct (exists_last (l := n0 :: c0)) as (c & n & E); [done|]. rewrite E in Ec. clear E n0 c0.
    destruct (leaf_of_chain g c n Hg Ec) as [Hl Hn].
    destruct (n_payload n) as [u|a|y|r] eqn:Ep.
    2:{ assert (Hpend : leaf_pending g = length (pending_calls a)).
        { unfold leaf_pending, MessageGraph.Find. by rewrite Hn, Ep. }
        set (l := map ids (seq (e_drawn s) (length (pending_calls a)))).
        assert (Hnd : NoDup l) by (apply NoDup_fmap_2; [by intros x y Hxy; apply ids_inj|apply NoDup_seq]).
        assert (Hfl : Forall (fun id => id <> "" /\ MessageGraph.nodes_ g !! id = None) l).
        { apply Forall_map, Forall_forall. intros k [Hk _]%elem_of_seq. split; [done|]. by apply Hf. }
        destruct (Seal_refines l g c n a Hg Ec Ep Hnd Hfl) as (H1 & H2 & H3).
        { unfold l. by rewrite length_map, length_seq. }
        assert (Hs : e_conversation (seal s) = MessageGraph.SealInterruptedToolCalls l g).
        { unfold seal. fold g. by rewrite Hpend. }
        unfold exec_ok, ids_of. rewrite Hs. split_and!; try done.
        - unfold seal. fold g. rewrite Hpend. cbn [set_conversation e_drawn]. intros k Hk.
          unfold MessageGraph.SealInterruptedToolCalls. rewrite Hn, Ep.
          apply append_receipts_keys; [by apply (set_leaf_payload g c n (sealed a) Hg Ec)|done| | |].
          + rewrite Forall_forall in Hfl |- *. intros id Hid. destruct (Hfl id Hid) as [Hid1 Hid2]. split; [done|].
            cbn [MessageGraph.nodes_]. rewrite lookup_insert_ne; [done|]. intros <-. congruence.
          + unfold l. intros (j & Hj & [_ Hlt]%elem_of_seq)%list_elem_of_fmap. apply ids_inj in Hj. lia.
          + cbn [MessageGraph.nodes_]. rewrite lookup_insert_ne; [apply Hf; lia|].
            intros Hleaf. rewrite Hleaf, Hf in Hn by lia. done.
        - rewrite H2. fold g. rewrite Ec. apply receipts_prefix. }
    all: destruct (Seal_no_answer (map ids (seq (e_drawn s) (leaf_pending g))) g c n Hg Ec) as [H1 H2];
      [intros a; congruence|];
      assert (leaf_pending g = 0%nat) as Hz
        by (unfold leaf_pending, MessageGraph.Find; by rewrite Hn, Ep);
      assert (seal s = set_conversation g 0 s) as -> by (unfold seal; fold g; rewrite H1, Hz; done);
      (split; [apply (grows_same s); [done|cbn; lia|by split]|done]).
Qed.

Lemma seal_grows s : grows s (seal s).
Proof. intros Hs. by apply seal_spec. Qed.

(** ** Nothing is left pending at the end of a turn *)

Definition settled (s : exec) : Prop := Conversation.HasPendingToolCalls (e_conversation s) = false.

Lemma append_chain msg s :
  exec_ok s ->
  exists before, MessageGraph.Chain (e_conversation (append msg s))
    = before ++ [mkNode (ids (e_drawn s)) (m_timestamp msg) (Conversation.ToPayload (Conversation.Normalized msg))
                   (leaf_of (MessageGraph.Chain (e_conversation s)))].
Proof.
  intros [Hg Hf]. eexists. unfold append, Conversation.Append. cbn [set_conversation e_conversation].
  by eapply AppendAfterLeaf_refines; [|..|apply Hf].
Qed.

Lemma append_settled msg s :
  exec_ok s -> (m_role msg <> kAssistantRole \/ m_tool_calls msg = JNull) -> settled (append msg s).
Proof.
  intros Hs Hm. destruct (append_grows msg s Hs) as [[Hg _] _]. destruct (append_chain msg s Hs) as [before Hc].
  destruct (leaf_of_chain _ _ _ Hg Hc) as [_ Hl].
  unfold settled, Conversation.HasPendingToolCalls, MessageGraph.LeafHasUnfinishedToolCalls, MessageGraph.Find.
  rewrite Hl. unfold HasUnfinishedToolCalls, Conversation.ToPayload. cbn [n_payload].
  assert (m_role (Conversation.Normalized msg) = m_role msg /\ m_tool_calls (Conversation.Normalized msg) = m_tool_calls msg)
    as [-> ->] by (unfold Conversation.Normalized; by case_match).
  destruct Hm as [Hm|Hm]; [rewrite bool_decide_eq_false_2 by done; by repeat case_bool_decide|].
  rewrite Hm. by repeat case_bool_decide.
Qed.

(** A load that answers true is answered true again at once, whatever words
    were left meanwhile: the token is not taken back. *)
Definition latches : Prop :=
  forall w w' n, cancelled w = (w', true) -> (cancelled (mkShared n (outside w'))).2 = true.

Lemma is_cancelled_same s : grows s (is_cancelled s).1 /\ e_conversation (is_cancelled s).1 = e_conversation s.
Proof.
  unfold is_cancelled. destruct has_cancel_token; [|by split].
  destruct (cancelled (e_shared s)) as [w c]. split; [by apply grows_same|done].
Qed.

Lemma run_call_spec ctx call s result s' ctx' out :
  exec_ok s -> run_call ctx call s result = (s', ctx', out) ->
  grows s s' /\ (is_ok out = true -> settled s').
Proof.
  intros Hs. unfold run_call.
  destruct (Toolbox.ExecuteTool (tc_name call) (tc_arguments call) toolbox _) as [[ctx1 w] answer].
  set (s1 := set_shared w (logged _ s)).
  assert (Hs1 : grows s s1) by by apply grows_same.
  assert (Hend : forall l text, let s2 := append (receipt_message call text) (logged l s1) in grows s s2 /\ settled s2).
  { intros l text s2. assert (H1 : grows s (logged l s1)) by by apply grows_same. split.
    - etrans; [exact H1|apply append_grows].
    - apply append_settled; [by apply H1|]. by left. }
  destruct answer as [text|e|]; [| |intros [= <- <- <-]; by split].
  all: match goal with |- context [ParseToolResult ?t] => set (tool_result := t) end;
    destruct (r_valid (ParseToolResult tool_result)); intros [= <- <- <-]; split; intros; apply Hend.
Qed.

Lemma run_calls_spec ctx calls s result s' out :
  exec_ok s -> run_calls ctx calls s result = (s', out) ->
  grows s s'
  /\ (is_ok out = true -> calls <> [] ->
      settled s' \/ (has_cancel_token = true /\ exists w, cancelled w = (e_shared s', true)) ).
Proof.
  intros Hs Hrun. revert ctx s result Hs Hrun.
  induction calls as [|call calls IH]; intros ctx s result Hs; cbn [run_calls].
  { intros [= <- <-]. split; [done|]. by intros _ ?. }
  destruct (is_cancelled_same s) as [Hc _]. destruct (is_cancelled s) as [s1 stop] eqn:Ec. cbn [fst] in Hc.
  destruct stop.
  { intros [= <- <-]. split; [done|]. intros _ _. right. unfold is_cancelled in Ec.
    destruct has_cancel_token; [|done]. destruct (cancelled (e_shared s)) as [w c] eqn:Ew.
    injection Ec as <- ->. split; [done|]. by exists (e_shared s). }
  pose proof (proj1 (Hc Hs)) as Hs1.
  destruct (run_call ctx call s1 result) as [[s2 ctx2] out2] eqn:Er.
  destruct (run_call_spec _ _ _ _ _ _ _ Hs1 Er) as [Hg Hset].
  destruct out2 as [result2|e|].
  - intros Hrun. destruct (IH ctx2 s2 result2) as [Hg2 Hset2]; [by apply Hg|done|].
    split; [etrans; [exact Hc|]; by etrans|]. intros Hok _.
    destruct calls as [|call' calls]; [|by apply Hset2].
    cbn in Hrun. injection Hrun as <- <-. left. by apply Hset.
  - intros [= <- <-]. split; [by etrans|done].
  - intros [= <- <-]. split; [by etrans|done].
Qed.

Lemma add_user_note_grows s : grows s (add_user_note s).
Proof.
  unfold add_user_note. destruct (_ && _); [|done].
  etrans; [apply (append_grows (plain_message kUserRole ("[user note during the turn] " +:+ user_note_ (e_shared s))))|].
  by apply grows_same.
Qed.

Lemma add_user_note_settled s : exec_ok s -> settled s -> settled (add_user_note s).
Proof.
  intros Hs Hset. unfold add_user_note. destruct (_ && _); [|done].
  unfold settled. cbn [set_note_ set_shared e_conversation].
  apply (append_settled (plain_message kUserRole ("[user note during the turn] " +:+ user_note_ (e_shared s)))); [done|].
  by right.
Qed.

Lemma add_user_note_shared s : exists n, e_shared (add_user_note s) = mkShared n (outside (e_shared s)).
Proof.
  unfold add_user_note. destruct (_ && _); [by exists ""|].
  exists (user_note_ (e_shared s)). by destruct (e_shared s).
Qed.

Lemma RunToolCalls_settles calls s result s' out :
  latches -> exec_ok s -> calls <> [] -> RunToolCalls calls s result = (s', out) ->
  grows s s' /\ (is_ok out = true -> settled s').
Proof.
  intros Hlatch Hs Hne. unfold RunToolCalls.
  destruct (BuildToolContext s) as [s0 ctx] eqn:Eb.
  assert (Hg0 : grows s s0) by (unfold BuildToolContext in Eb; injection Eb as <- _; by apply grows_same).
  destruct (run_calls ctx calls s0 result) as [s1 out1] eqn:Er.
  destruct (run_calls_spec _ _ _ _ _ _ (proj1 (Hg0 Hs)) Er) as [Hg1 Hset1].
  assert (Hs1 : exec_ok s1) by (apply Hg1, Hg0, Hs).
  destruct out1 as [result1|e|]; [|intros [= <- <-]; split; [by etrans|done]..].
  pose proof (add_user_note_grows s1) as Hg2. set (s2 := add_user_note s1) in *.
  destruct (is_cancelled_same s2) as [Hg3 Hc3]. destruct (is_cancelled s2) as [s3 stop] eqn:Ec. cbn [fst] in *.
  intros [= <- <-].
  assert (Hs3 : grows s s3) by (etrans; [exact Hg0|]; etrans; [exact Hg1|]; by etrans).
  destruct stop.
  - split; [etrans; [exact Hs3|apply seal_grows]|]. intros _. apply seal_spec. by apply Hs3.
  - split; [done|]. intros _. destruct (Hset1 eq_refl Hne) as [Hset|(Htok & w & Hw)].
    + unfold settled. rewrite Hc3. by apply add_user_note_settled.
    + exfalso. destruct (add_user_note_shared s1) as [n Hn]. specialize (Hlatch _ _ n Hw).
      unfold is_cancelled in Ec. rewrite Htok in Ec. fold s2 in Hn. rewrite Hn in Ec.
      destruct (cancelled _) as [w3 c3]. cbn in Hlatch. by simplify_eq.
Qed.

Lemma name_calls_spec calls s :
  let '(s', named) := name_calls calls s in
  grows s s' /\ e_conversation s' = e_conversation s /\ length named = length calls.
Proof.
  revert s. induction calls as [|call calls IH]; intros s; cbn [name_calls]; [by split_and!|].
  set (step := if sempty (tc_id call) then _ else (s, call)).
  assert (Hstep : grows s step.1 /\ e_conversation step.1 = e_conversation s).
  { unfold step. destruct (sempty _); by split; [apply grows_same|]. }
  destruct step as [s1 call1]. cbn [fst] in Hstep. destruct Hstep as [Hg Hc].
  specialize (IH s1). destruct (name_calls calls s1) as [s2 named]. destruct IH as (Hg2 & Hc2 & Hl).
  split_and!; [by etrans|congruence|cbn; by rewrite Hl].
Qed.

(** Asking the provider leaves the conversation alone. *)
Lemma CallProvider_same s result s' out :
  CallProvider s result = (s', out) -> grows s s' /\ e_conversation s' = e_conversation s.
Proof.
  unfold CallProvider. destruct (BuildRequestPath _ _) as [history|e|]; [|by intros [= <- _]..].
  destruct (Chat _ _ _) as [w [tokens reply]]. unfold note_tokens.
  set (s1 := logged _ _). assert (Hs1 : grows s s1) by by apply grows_same.
  destruct reply as [chat|e|]; [by intros [= <- _]| |by intros [= <- _]].
  destruct (is_cancelled_same s1) as [Hg Hc]. destruct (is_cancelled s1) as [s2 stop]. cbn [fst] in *.
  intros [= <- _]. split; [by etrans|done].
Qed.

Lemma rounds_settle fuel wrapped s result s' out :
  latches -> exec_ok s -> settled s -> rounds fuel wrapped s result = Some (s', out) ->
  grows s s' /\ (is_ok out = true -> settled s').
Proof.
  intros Hlatch. revert wrapped s result. induction fuel as [|fuel IH]; intros wrapped s result Hs Hset; [done|].
  cbn [rounds]. set (reached := wrapped || _).
  destruct wrapped; [by intros [= <- <-]|].
  set (s1 := if reached then _ else s).
  assert (Hg1 : grows s s1) by (unfold s1; destruct reached; [apply append_grows|done]).
  assert (Hset1 : settled s1) by (unfold s1; destruct reached; [apply append_settled; [done|by right]|done]).
  destruct (CallProvider s1 (next_round result)) as [s2 asked] eqn:Ep.
  destruct (CallProvider_same _ _ _ _ Ep) as [Hg2 Hc2].
  assert (Hset2 : settled s2) by (unfold settled; by rewrite Hc2).
  assert (Hg : grows s s2) by by etrans.
  destruct asked as [[result2 [chat| | |]]|e|]; try (by intros [= <- <-]).
  - destruct (cr_tool_calls chat) as [|call calls]; [by intros [= <- <-]|].
    pose proof (name_calls_spec (call :: calls) s2) as Hn.
    destruct (name_calls (call :: calls) s2) as [s3 named]. destruct Hn as (Hg3 & _ & Hlen).
    set (s4 := AppendAssistantTurn _ _ _ s3).
    assert (Hg4 : grows s3 s4) by apply append_grows.
    assert (Hgall : grows s s4) by (etrans; [exact Hg|]; by etrans).
    destruct (RunToolCalls named s4 result2) as [s5 ran] eqn:Er.
    destruct (RunToolCalls_settles named s4 result2 s5 ran Hlatch) as [Hg5 Hset5];
      [by apply Hgall|by destruct named|done|].
    assert (Hg05 : grows s s5) by by etrans.
    destruct ran as [result5|e|]; [|by intros [= <- <-]..].
    intros Hr. destruct (IH reached s5 result5) as [Hg6 Hset6]; [by apply Hg05|by apply Hset5|done|].
    split; [by etrans|done].
  - intros [= <- <-]. split; [etrans; [exact Hg|apply seal_grows]|]. intros _. apply seal_spec. by apply Hg.
Qed.

Lemma execute_settles fuel input s s' out :
  latches -> exec_ok s -> Execute fuel input s = Some (s', out) ->
  exec_ok s' /\ ids_of s `prefix_of` ids_of s' /\ (is_ok out = true -> settled s').
Proof.
  intros Hlatch Hs. unfold Execute, RunToolLoop. intros H.
  apply bind_Some in H as ([s2 ended] & H2 & H). apply bind_Some in H2 as ([s1 ended1] & H1 & H2).
  injection H2 as <- <-.
  set (user_turn := mkMessage 0 "" kUserRole input "" JNull [] "" (peer_origin_ s)) in H1.
  pose proof (append_grows user_turn s) as Hg0.
  destruct (rounds_settle _ _ _ _ _ _ Hlatch (proj1 (Hg0 Hs)) (append_settled user_turn s Hs (or_intror eq_refl)) H1)
    as [Hg1 Hset1].
  assert (Hg : grows s s1) by by etrans.
  destruct ended1 as [[[result reached] how]|e|]; cbn [res_bind] in H.
  - set (result' := match how with Broke => _ | Returned => result end) in H.
    specialize (Hset1 eq_refl). destruct (negb (x_has_error result') && _).
    + injection H as <- <-. unfold append_text. set (msg := Conversation.text_message _ _ _).
      assert (Hg2 : grows s (append msg s1)) by (etrans; [exact Hg|apply append_grows]).
      destruct (Hg2 Hs) as [Hs2 Hp]. split_and!; [done|done|]. intros _.
      apply append_settled; [by apply Hg|by right].
    + injection H as <- <-. destruct (Hg Hs) as [Hs2 Hp]. by split_and!.
  - injection H as <- <-. destruct (Hg Hs) as [Hs2 Hp]. by split_and!.
  - injection H as <- <-. destruct (Hg Hs) as [Hs2 Hp]. by split_and!.
Qed.


(** ** A turn ends *)

(** A request made once the token was seen set is given up by the provider. *)
Definition chat_stops : Prop :=
  forall w w' history tools, cancelled w = (w', true) ->
  exists w2 tokens e, Chat history tools w' = (w2, (tokens, Throw e)).

Definition stopping (s : exec) : Prop := exists w, cancelled w = (e_shared s, true).

Lemma note_tokens_rounds tokens s result :
  x_rounds (note_tokens tokens s result).2 = x_rounds result
  /\ x_tool_call_count (note_tokens tokens s result).2 = x_tool_call_count result.
Proof.
  unfold note_tokens. cbn [snd]. generalize (filter (fun t => sempty t = false) tokens). intros l.
  revert result. induction l as [|t l IH]; intros result; [done|]. cbn [foldl]. by destruct (IH (streamed t result)) as [-> ->].
Qed.

Lemma CallProvider_counts s result s' result' how :
  CallProvider s result = (s', Ok (result', how)) ->
  x_rounds result' = x_rounds result /\ x_tool_call_count result' = x_tool_call_count result.
Proof.
  unfold CallProvider. destruct (BuildRequestPath _ _) as [history|e|]; [|done..].
  destruct (Chat _ _ _) as [w [tokens reply]].
  pose proof (note_tokens_rounds tokens (set_shared w s) result) as Hn.
  destruct (note_tokens tokens (set_shared w s) result) as [s1 result1]. cbn [snd] in Hn.
  destruct reply as [chat|e|]; [| |done].
  - intros [= _ H]. apply res_bind_Ok in H as (u & _ & H). injection H as <- _. cbn. done.
  - destruct (is_cancelled s1) as [s2 stop]. intros [= _ H]. destruct stop; [by injection H as <- _|].
    destruct (ShutdownRequested _); by injection H as <- _.
Qed.

Lemma CallProvider_stopping s result :
  chat_stops -> stopping s ->
  match (CallProvider s result).2 with Ok (_, Answered _) => False | _ => True end.
Proof.
  intros Hstop [w Hw]. unfold CallProvider. destruct (BuildRequestPath _ _) as [history|e|]; [|done..].
  destruct (Hstop _ _ history (Toolbox.ToolDefinitions toolbox) Hw) as (w2 & tokens & e & ->).
  destruct (note_tokens _ _ _) as [s1 result1]. destruct (is_cancelled s1) as [s2 []]; [done|]. cbn.
  by destruct (ShutdownRequested _).
Qed.

Lemma run_call_counts ctx call s result s' ctx' result' :
  run_call ctx call s result = (s', ctx', Ok result') ->
  x_rounds result' = x_rounds result /\ x_tool_call_count result' = x_tool_call_count result + 1.
Proof.
  unfold run_call. destruct (Toolbox.ExecuteTool _ _ _ _) as [[ctx1 w] answer].
  destruct answer as [text|e|]; [| |done].
  all: match goal with |- context [ParseToolResult ?t] => destruct (r_valid (ParseToolResult t)) end;
    intros [= _ _ <-]; done.
Qed.

Lemma run_calls_counts ctx calls s result s' result' :
  run_calls ctx calls s result = (s', Ok result') ->
  x_rounds result' = x_rounds result
  /\ x_tool_call_count result <= x_tool_call_count result' <= x_tool_call_count result + Z.of_nat (length calls)
  /\ (calls <> [] -> x_tool_call_count result < x_tool_call_count result'
        \/ has_cancel_token = true /\ stopping s').
Proof.
  revert ctx s result. induction calls as [|call calls IH]; intros ctx s result; cbn [run_calls].
  { intros [= <- <-]. split_and!; [done|lia|cbn; lia|done]. }
  destruct (is_cancelled s) as [s1 stop] eqn:Ec. destruct stop.
  { intros [= <- <-]. split_and!; [done|lia|lia|]. intros _. right.
    unfold is_cancelled in Ec. destruct has_cancel_token; [|done].
    destruct (cancelled (e_shared s)) as [w c] eqn:Ew. injection Ec as <- ->.
    split; [done|]. by exists (e_shared s). }
  destruct (run_call ctx call s1 result) as [[s2 ctx2] [result2|e|]] eqn:Er; [|done..].
  apply run_call_counts in Er as [H1 H2]. intros Hr. apply IH in Hr as (H3 & H4 & _).
  cbn [length]. split_and!; [congruence|lia|lia|]. intros _. left. lia.
Qed.

Lemma RunToolCalls_counts calls s result s' result' :
  latches -> calls <> [] -> RunToolCalls calls s result = (s', Ok result') ->
  x_rounds result' = x_rounds result
  /\ x_tool_call_count result <= x_tool_call_count result' <= x_tool_call_count result + Z.of_nat (length calls)
  /\ (x_tool_call_count result < x_tool_call_count result' \/ stopping s').
Proof.
  intros Hlatch Hne. unfold RunToolCalls. destruct (BuildToolContext s) as [s0 ctx].
  destruct (run_calls ctx calls s0 result) as [s1 [result1|e|]] eqn:Er; [|done..].
  apply run_calls_counts in Er as (H1 & H2 & H3).
  set (s2 := add_user_note s1). destruct (is_cancelled s2) as [s3 stop] eqn:Ec.
  intros [= <- <-]. split_and!; [done|lia|lia|].
  destruct (H3 Hne) as [Hlt|[Htok [w Hw]]]; [by left|right].
  destruct (add_user_note_shared s1) as [n Hn]. specialize (Hlatch _ _ n Hw). fold s2 in Hn.
  unfold is_cancelled in Ec. rewrite Htok, Hn in Ec.
  destruct (cancelled (mkShared n _)) as [w3 c3] eqn:Ew. cbn in Hlatch. subst c3. injection Ec as <- <-.
  by eexists.
Qed.

(** The rounds a turn may still make. *)
Definition rounds_left (wrapped : bool) (result : ExecutionResult) : Z :=
  if wrapped then 0 else Z.max 0 (tool_call_budget_ - x_tool_call_count result) + 1.

Lemma stopping_rounds fuel wrapped s result :
  chat_stops -> stopping s ->
  exists s' out, rounds (S fuel) wrapped s result = Some (s', out)
    /\ forall result' reached how, out = Ok (result', reached, how) -> x_rounds result' <= x_rounds result + 1.
Proof.
  intros Hstop Hs. cbn [rounds]. set (reached := wrapped || _).
  destruct wrapped; [eexists _, _; split; [done|]; intros ??? [= <- _ _]; lia|].
  set (s1 := if reached then _ else s).
  assert (Hs1 : stopping s1) by (unfold s1; by destruct reached).
  pose proof (CallProvider_stopping s1 (next_round result) Hstop Hs1) as Hc.
  destruct (CallProvider s1 (next_round result)) as [s2 asked] eqn:Ep. cbn [snd] in Hc.
  destruct asked as [[result2 how]|e|]; [|by eexists _, _..].
  apply CallProvider_counts in Ep as [Hr _]. cbn [next_round x_rounds] in Hr.
  destruct how; [done|eexists _, _; (split; [done|]); intros ??? [= <- _ _]; lia..].
Qed.

Lemma rounds_end fuel wrapped s result :
  latches -> chat_stops -> rounds_left wrapped result < Z.of_nat fuel ->
  exists s' out, rounds fuel wrapped s result = Some (s', out)
    /\ forall result' reached how, out = Ok (result', reached, how) ->
       x_rounds result' <= x_rounds result + rounds_left wrapped result.
Proof.
  intros Hlatch Hstop. revert wrapped s result.
  induction fuel as [|fuel IH]; intros wrapped s result Hfuel.
  { unfold rounds_left in Hfuel. destruct wrapped; lia. }
  cbn [rounds]. set (reached := wrapped || _).
  destruct wrapped; [eexists _, _; split; [done|]; intros ??? [= <- _ _]; cbn; lia|].
  set (s1 := if reached then _ else s). clearbody s1.
  destruct (CallProvider s1 (next_round result)) as [s2 asked] eqn:Ep.
  destruct asked as [[result2 how]|e|]; [|by eexists _, _..].
  apply CallProvider_counts in Ep as [Hr Hn]. cbn [next_round x_rounds x_tool_call_count] in Hr, Hn.
  destruct how as [chat| | |];
    try (eexists _, _; (split; [done|]); intros ??? [= <- _ _]; unfold rounds_left; lia).
  destruct (cr_tool_calls chat) as [|call calls].
  { eexists _, _; split; [done|]. intros ??? [= <- _ _]. cbn [answered_with x_rounds]. unfold rounds_left. lia. }
  pose proof (name_calls_spec (call :: calls) s2) as Hnc.
  destruct (name_calls (call :: calls) s2) as [s3 named]. destruct Hnc as (_ & _ & Hlen).
  set (s4 := AppendAssistantTurn _ _ _ s3). clearbody s4.
  destruct (RunToolCalls named s4 result2) as [s5 ran] eqn:Er.
  destruct ran as [result5|e|]; [|by eexists _, _..].
  apply RunToolCalls_counts in Er as (Hr5 & Hn5 & Hor); [|done|by destruct named].
  destruct (Z.leb_spec tool_call_budget_ (x_tool_call_count result)) as [Hle|Hgt].
  - assert (reached = true) as -> by done.
    destruct (IH true s5 result5) as (s' & out & Hrun & Hb).
    { unfold rounds_left in *. cbn in *. lia. }
    exists s', out. split; [done|]. intros ? ? ? Ho. specialize (Hb _ _ _ Ho). unfold rounds_left in *. lia.
  - assert (reached = false) as -> by done.
    destruct Hor as [Hlt|Hs5].
    + destruct (IH false s5 result5) as (s' & out & Hrun & Hb).
      { unfold rounds_left in *. lia. }
      exists s', out. split; [done|]. intros ? ? ? Ho. specialize (Hb _ _ _ Ho). unfold rounds_left in *. lia.
    + destruct fuel as [|fuel]; [unfold rounds_left in Hfuel; lia|].
      destruct (stopping_rounds fuel false s5 result5 Hstop Hs5) as (s' & out & Hrun & Hb).
      exists s', out. split; [done|]. intros ? ? ? Ho. specialize (Hb _ _ _ Ho). unfold rounds_left in *. lia.
Qed.

Lemma settle_rounds reached result : x_rounds (settle_result reached result) = x_rounds result.
Proof. unfold settle_result. by repeat case_match. Qed.

Lemma execute_ends input s :
  latches -> chat_stops ->
  exists s' out, Execute (Z.to_nat tool_call_budget_ + 2) input s = Some (s', out)
    /\ forall result, out = Ok result -> x_rounds result <= Z.max 0 tool_call_budget_ + 1.
Proof.
  intros Hlatch Hstop. unfold Execute, RunToolLoop. set (s0 := append _ s). clearbody s0.
  destruct (rounds_end (Z.to_nat tool_call_budget_ + 2) false s0 no_execution Hlatch Hstop)
    as (s1 & out & -> & Hb); [unfold rounds_left; cbn; lia|]. cbn [mbind option_bind].
  eexists _, _. split; [reflexivity|]. intros result Hr.
  apply res_bind_Ok in Hr as ([[result1 reached] how] & -> & Hr). apply Ok_inj in Hr. subst result.
  specialize (Hb _ _ _ eq_refl). unfold rounds_left in Hb. cbn [no_execution x_tool_call_count x_rounds] in Hb.
  destruct how; [rewrite settle_rounds|]; lia.
Qed.

(** A turn ends: the budget of tool calls bounds its rounds, whatever the
    model answers and the tools do, and whenever the user stops it, as long as
    a provider gives up a request once the token is set.  It asks the model at
    most once more than the budget, the last time to wrap up. *)
Theorem Execute_ends input s :
  latches -> chat_stops ->
  exists s' out, Execute (Z.to_nat tool_call_budget_ + 2) input s = Some (s', out)
    /\ forall result, out = Ok result -> x_rounds result <= Z.max 0 tool_call_budget_ + 1.
Proof. apply execute_ends. Qed.

(** ** Every call gets its receipt *)

Definition record_of (status : ToolCallStatus) (call : ToolCall) : ToolCallRecord :=
  mkRecord (tc_id call) (tc_name call) (tc_arguments call) status.

Definition receipt_payload (call : ToolCall) (text : string) : MessagePayload :=
  Conversation.ToPayload (Conversation.Normalized (receipt_message call text)).

(** The receipts of [calls], each after the one before, from the [n]-th id on. *)
Fixpoint receipt_nodes (leaf : MessageId) (n : nat) (calls : list ToolCall) (texts : list string)
    : list MessageNode :=
  match calls, texts with
  | call :: calls, text :: texts =>
      mkNode (ids n) "" (receipt_payload call text) leaf :: receipt_nodes (ids n) (S n) calls texts
  | _, _ => []
  end.

(** A call a provider names as it may: an id that is not empty, in UTF-8. *)
Definition call_ok (call : ToolCall) : Prop := tc_id call <> "" /\ IsValidUtf8 (tc_id call) = true.

Lemma receipt_payload_id call text :
  call_ok call -> exists r, receipt_payload call text = Tool r /\ t_call_id r = tc_id call.
Proof.
  intros [_ Hv]. unfold receipt_payload, Conversation.Normalized.
  case_match; eexists; (split; [reflexivity|]); cbn; [done|]. by apply SanitizeUtf8_valid_id.
Qed.

Lemma complete_record_next id l1 r l2 :
  id ∉ map rec_id l1 -> rec_id r = id -> rec_status r = kPending ->
  MessageGraph.complete_record id (l1 ++ r :: l2) = Some (l1 ++ set_status kCompleted r :: l2).
Proof.
  intros Hid Hr Hp. induction l1 as [|q l1 IH]; cbn.
  - rewrite bool_decide_eq_true_2 by done. unfold is_pending. by rewrite bool_decide_eq_true_2.
  - cbn in Hid. apply not_elem_of_cons in Hid as [Hq Hid]. rewrite bool_decide_eq_false_2 by congruence.
    by rewrite IH.
Qed.

Lemma answered_next call text c n rs content reasoning l1 l2 :
  call_ok call -> n_payload n = Assistant (mkAssistant content reasoning (l1 ++ record_of kPending call :: l2)) ->
  Forall is_receipt rs -> tc_id call ∉ map rec_id l1 ->
  answered (receipt_payload call text) (c ++ n :: rs)
  = c ++ set_payload (Assistant (mkAssistant content reasoning (l1 ++ record_of kCompleted call :: l2))) n :: rs.
Proof.
  intros Hok Hn Hrs Hid. destruct (receipt_payload_id call text Hok) as (r & -> & Hr).
  cbn [answered]. rewrite Hr. rewrite (proj2 (sempty_false _)) by apply Hok.
  rewrite reverse_app, reverse_cons, <- app_assoc. cbn [app].
  rewrite complete_path_receipts by (by rewrite reverse_Permutation).
  cbn [complete_path]. rewrite Hn. cbn [MessageGraph.complete_payload a_tool_calls a_content a_reasoning].
  rewrite complete_record_next by done. cbn [fmap option_fmap option_map].
  by rewrite reverse_app, reverse_cons, !reverse_involutive, <- app_assoc.
Qed.

Lemma run_call_chain ctx call s result s' ctx' result' :
  exec_ok s -> run_call ctx call s result = (s', ctx', Ok result') ->
  exists text, e_drawn s' = S (e_drawn s)
    /\ MessageGraph.Chain (e_conversation s')
       = list_append (ids (e_drawn s)) (receipt_payload call text) "" (MessageGraph.Chain (e_conversation s)).
Proof.
  intros [Hg Hf]. unfold run_call. destruct (Toolbox.ExecuteTool _ _ _ _) as [[ctx1 w] answer].
  assert (Happ : forall l text,
    let s2 := append (receipt_message call text) (logged l (set_shared w (logged [EStart (tc_id call) (tc_name call) (tc_arguments call);
                   ERun (tc_id call) (tc_name call) (tc_arguments call)] s))) in
    e_drawn s2 = S (e_drawn s)
    /\ MessageGraph.Chain (e_conversation s2)
       = list_append (ids (e_drawn s)) (receipt_payload call text) "" (MessageGraph.Chain (e_conversation s))).
  { intros l text. split; [cbn; lia|]. unfold append, Conversation.Append. cbn [set_conversation e_conversation logged set_shared e_drawn].
    by apply AppendAfterLeaf_refines; [|..|apply Hf]. }
  destruct answer as [text|e|]; [| |done].
  all: match goal with |- context [ParseToolResult ?t] => set (tool_result := t) end;
    destruct (r_valid (ParseToolResult tool_result)); intros [= <- _ _]; exists tool_result; apply Happ.
Qed.

Lemma run_calls_receipts ctx calls s result s' result' c n rs content reasoning l1 :
  exec_ok s -> MessageGraph.Chain (e_conversation s) = c ++ n :: rs ->
  n_payload n = Assistant (mkAssistant content reasoning (l1 ++ map (record_of kPending) calls)) ->
  Forall is_receipt rs -> NoDup (map rec_id l1 ++ map tc_id calls) -> Forall call_ok calls ->
  run_calls ctx calls s result = (s', Ok result') ->
  x_tool_call_count result' = x_tool_call_count result + Z.of_nat (length calls) ->
  exists texts, length texts = length calls
    /\ MessageGraph.Chain (e_conversation s')
       = c ++ set_payload (Assistant (mkAssistant content reasoning (l1 ++ map (record_of kCompleted) calls))) n
           :: rs ++ receipt_nodes (leaf_of (c ++ n :: rs)) (e_drawn s) calls texts.
Proof.
  revert ctx s result n rs l1. induction calls as [|call calls IH];
    intros ctx s result n rs l1 Hs Hc Hn Hrs Hnd Hok Hrun Hcount; cbn [run_calls] in Hrun.
  { injection Hrun as <- <-. exists []. cbn [map receipt_nodes] in Hn |- *. rewrite !app_nil_r in *. split; [done|].
    by rewrite <- Hn, set_payload_same. }
  destruct (is_cancelled_same s) as [Hg1 Hc1]. destruct (is_cancelled s) as [s1 stop] eqn:Ecancel. cbn [fst] in *.
  destruct stop; [injection Hrun as <- <-; cbn [length] in Hcount; lia|].
  assert (Hd1 : e_drawn s1 = e_drawn s).
  { unfold is_cancelled in Ecancel. destruct has_cancel_token; [|by injection Ecancel as <-].
    destruct (cancelled _). by injection Ecancel as <- _. }
  destruct (Hg1 Hs) as [Hs1 _].
  destruct (run_call ctx call s1 result) as [[s2 ctx2] [result2|e|]] eqn:Er; [|done..].
  destruct (run_call_spec _ _ _ _ _ _ _ Hs1 Er) as [Hg2 _]. destruct (Hg2 Hs1) as [Hs2 _].
  pose proof (run_call_counts _ _ _ _ _ _ _ Er) as [_ Hcount2].
  destruct (run_call_chain _ _ _ _ _ _ _ Hs1 Er) as (text & Hd2 & Hc2).
  apply Forall_cons in Hok as [Hcall Hok]. cbn [map] in Hn, Hnd.
  apply NoDup_app in Hnd as (Hnd1 & Hdis & Hnd2). apply NoDup_cons in Hnd2 as [Hni Hnd2].
  assert (Hid : tc_id call ∉ map rec_id l1) by (intros H; apply (Hdis _ H); by left).
  set (n' := set_payload (Assistant (mkAssistant content reasoning (l1 ++ record_of kCompleted call :: map (record_of kPending) calls))) n).
  set (node := mkNode (ids (e_drawn s)) "" (receipt_payload call text) (leaf_of (c ++ n :: rs))).
  assert (Hc2' : MessageGraph.Chain (e_conversation s2) = c ++ n' :: (rs ++ [node])).
  { rewrite Hc2, Hc1, Hc, Hd1. unfold list_append. rewrite (answered_next _ _ _ _ _ _ _ _ _ Hcall Hn Hrs Hid).
    by rewrite <- app_assoc. }
  destruct (receipt_payload_id call text Hcall) as (r & Hr & _).
  destruct (IH ctx2 s2 result2 n' (rs ++ [node]) (l1 ++ [record_of kCompleted call])) as (texts & Hl & Hend); try done.
  - unfold n'. cbn [set_payload n_payload]. by rewrite <- app_assoc.
  - apply Forall_app. split; [done|]. constructor; [|done]. by exists r.
  - rewrite map_app. cbn. rewrite <- app_assoc. cbn. apply NoDup_app. split_and!; [done| |by apply NoDup_cons].
    intros i Hi Hin. apply (Hdis i Hi). done.
  - cbn [length] in Hcount. lia.
  - exists (text :: texts). split; [cbn; by rewrite Hl|]. rewrite Hend. cbn [receipt_nodes map].
    assert (leaf_of (c ++ n' :: rs ++ [node]) = ids (e_drawn s)) as ->.
    { change (c ++ n' :: rs ++ [node]) with (c ++ (n' :: rs) ++ [node]). by rewrite app_assoc, leaf_of_snoc. }
    rewrite Hd2, Hd1, <- !app_assoc. cbn [app]. unfold n'. cbn [set_payload n_id n_timestamp n_parent]. done.
Qed.

Lemma append_other msg s :
  exec_ok s -> (forall r, Conversation.ToPayload (Conversation.Normalized msg) <> Tool r) ->
  MessageGraph.Chain (e_conversation (append msg s))
  = MessageGraph.Chain (e_conversation s)
    ++ [mkNode (ids (e_drawn s)) (m_timestamp msg) (Conversation.ToPayload (Conversation.Normalized msg))
          (leaf_of (MessageGraph.Chain (e_conversation s)))].
Proof.
  intros [Hg Hf] Hno. unfold append, Conversation.Append. cbn [set_conversation e_conversation].
  destruct (AppendAfterLeaf_refines (ids (e_drawn s)) (Conversation.ToPayload (Conversation.Normalized msg))
    (m_timestamp msg) (e_conversation s) Hg) as (_ & -> & _); [done|by apply Hf|].
  unfold list_append, answered. destruct (Conversation.ToPayload _) as [u|a|y|r] eqn:E; try done. by destruct (Hno r).
Qed.

Lemma AppendAssistantTurn_grows content reasoning calls s :
  grows s (AppendAssistantTurn content reasoning calls s)
  /\ e_drawn (AppendAssistantTurn content reasoning calls s) = S (e_drawn s).
Proof.
  unfold AppendAssistantTurn. split; [apply append_grows|]. unfold append. cbn [set_conversation e_drawn]. lia.
Qed.

(** The answer [AppendAssistantTurn] records, every call of it pending. *)
Lemma AppendAssistantTurn_payload content reasoning calls s :
  exec_ok s -> exists text blocks,
  MessageGraph.Chain (e_conversation (AppendAssistantTurn content reasoning calls s))
  = MessageGraph.Chain (e_conversation s)
    ++ [mkNode (ids (e_drawn s)) "" (Assistant (mkAssistant text blocks (map (record_of kPending) calls)))
          (leaf_of (MessageGraph.Chain (e_conversation s)))].
Proof.
  intros Hs. unfold AppendAssistantTurn. set (msg := mkMessage _ _ _ _ _ _ _ _ _).
  assert (Hp : exists text blocks, Conversation.ToPayload (Conversation.Normalized msg)
      = Assistant (mkAssistant text blocks (map (record_of kPending) calls))).
  { unfold Conversation.Normalized.
    case_match; eexists _, _; unfold Conversation.ToPayload; cbn [m_role m_content m_tool_calls m_reasoning msg];
      rewrite bool_decide_eq_true_2 by done; rewrite map_map; reflexivity. }
  destruct Hp as (text & blocks & Hp). exists text, blocks. rewrite <- Hp.
  apply append_other; [done|]. intros r. by rewrite Hp.
Qed.

(** Nothing of a turn after the receipts: a seal finds no answer at the leaf. *)
Lemma seal_no_answer s c n :
  exec_ok s -> MessageGraph.Chain (e_conversation s) = c ++ [n] -> (forall a, n_payload n <> Assistant a) ->
  e_conversation (seal s) = e_conversation s.
Proof.
  intros [Hg _] Hc Hn. unfold seal. cbn [set_conversation e_conversation]. by apply (Seal_no_answer _ _ c n).
Qed.

Lemma add_user_note_chain s :
  exec_ok s -> exists extra,
  MessageGraph.Chain (e_conversation (add_user_note s)) = MessageGraph.Chain (e_conversation s) ++ extra
  /\ (length extra <= 1)%nat /\ Forall (fun m => exists u, n_payload m = User u) extra.
Proof.
  intros Hs. unfold add_user_note. destruct (_ && _); [|by exists []; rewrite app_nil_r; split_and!; [|cbn; lia|]].
  cbn [set_note_ set_shared e_conversation]. set (msg := plain_message _ _).
  assert (Hp : exists u, Conversation.ToPayload (Conversation.Normalized msg) = User u).
  { unfold Conversation.Normalized. case_match; eexists; reflexivity. }
  destruct Hp as [u Hp]. rewrite (append_other msg s Hs) by (intros r; rewrite Hp; discriminate).
  rewrite Hp. eexists. split; [reflexivity|]. split; [cbn [length]; lia|]. constructor; [|constructor]. by exists u.
Qed.

Lemma receipt_nodes_receipts leaf n calls texts m :
  Forall call_ok calls -> m ∈ receipt_nodes leaf n calls texts -> is_receipt m.
Proof.
  revert leaf n texts. induction calls as [|call calls IH]; intros leaf n [|text texts] Hok; cbn;
    try by intros ?%elem_of_nil.
  apply Forall_cons in Hok as [Hc Hok]. intros [->|Hm]%elem_of_cons; [|by eapply IH].
  destruct (receipt_payload_id call text Hc) as (r & Hr & _). by exists r.
Qed.

(** C11: when the calls of an answer all run, the conversation gains the answer
    with every call completed, directly after it one receipt for each call, in
    the order of the calls and linked one after the other, and then at most one
    message, the words the user left meanwhile: nothing stands between an
    answer and its receipts, and nothing before it changes. *)
Theorem Round_receipts content reasoning calls s result s' result' :
  exec_ok s -> calls <> [] -> NoDup (map tc_id calls) -> Forall call_ok calls ->
  RunToolCalls calls (AppendAssistantTurn content reasoning calls s) result = (s', Ok result') ->
  x_tool_call_count result' = x_tool_call_count result + Z.of_nat (length calls) ->
  exists text blocks texts extra,
    let answer := mkNode (ids (e_drawn s)) ""
                    (Assistant (mkAssistant text blocks (map (record_of kCompleted) calls)))
                    (leaf_of (MessageGraph.Chain (e_conversation s))) in
    MessageGraph.Chain (e_conversation s')
    = MessageGraph.Chain (e_conversation s)
      ++ answer :: receipt_nodes (n_id answer) (S (e_drawn s)) calls texts ++ extra
    /\ length texts = length calls
    /\ (length extra <= 1)%nat /\ Forall (fun m => exists u, n_payload m = User u) extra.
Proof.
  intros Hs Hne Hnd Hok Hrun Hcount.
  destruct (AppendAssistantTurn_payload content reasoning calls s Hs) as (text & blocks & Hc0).
  set (s0 := AppendAssistantTurn content reasoning calls s) in *.
  destruct (AppendAssistantTurn_grows content reasoning calls s) as [Hg0 Hd0]. fold s0 in Hg0, Hd0.
  destruct (Hg0 Hs) as [Hs0 _].
  unfold RunToolCalls in Hrun. destruct (BuildToolContext s0) as [s1 ctx] eqn:Eb.
  injection Eb as Eb _.
  assert (Hs1 : exec_ok s1) by (rewrite <- Eb; by apply (grows_same s0)).
  destruct (run_calls ctx calls s1 result) as [s2 [result2|e|]] eqn:Er; [|done..].
  destruct (run_calls_spec _ _ _ _ _ _ Hs1 Er) as [Hg2 _]. destruct (Hg2 Hs1) as [Hs2 _].
  destruct (is_cancelled (add_user_note s2)) as [s3 stop] eqn:Ec. injection Hrun as <- <-.
  destruct (run_calls_receipts ctx calls s1 result s2 result2 (MessageGraph.Chain (e_conversation s))
    (mkNode (ids (e_drawn s)) "" (Assistant (mkAssistant text blocks (map (record_of kPending) calls)))
       (leaf_of (MessageGraph.Chain (e_conversation s)))) [] text blocks [])
    as (texts & Hl & Hc2); [exact Hs1|rewrite <- Eb; exact Hc0|reflexivity|constructor|exact Hnd|exact Hok|exact Er|exact Hcount|].
  cbn [app] in Hc2. rewrite leaf_of_snoc in Hc2. cbn [n_id] in Hc2.
  assert (Hd1 : e_drawn s1 = S (e_drawn s)) by (rewrite <- Eb; exact Hd0). rewrite Hd1 in Hc2.
  destruct (add_user_note_chain s2 Hs2) as (extra & Hc3 & Hx1 & Hx2).
  exists text, blocks, texts, extra. cbn zeta. split; [|by split_and!].
  assert (Hsame : e_conversation (if stop then seal s3 else s3) = e_conversation (add_user_note s2)).
  { destruct (is_cancelled_same (add_user_note s2)) as [Hg3 Hc3']. rewrite Ec in Hg3, Hc3'. cbn [fst] in *.
    destruct stop; [|done].
    assert (Hlast : exists c m, MessageGraph.Chain (e_conversation s3) = c ++ [m] /\ forall a, n_payload m <> Assistant a).
    { rewrite Hc3', Hc3, Hc2. destruct extra as [|m [|? ?]]; [|exists (MessageGraph.Chain (e_conversation s2)), m|cbn in Hx1; lia].
      - destruct (exists_last (l := receipt_nodes (ids (e_drawn s)) (S (e_drawn s)) calls texts)) as (l & m & E).
        { destruct calls; [done|]. by destruct texts. }
        rewrite E. eexists (_ ++ _ :: l), m. rewrite app_nil_r, <- app_assoc. split; [reflexivity|].
        assert (is_receipt m) as [r Hr]; [|congruence].
        eapply receipt_nodes_receipts; [exact Hok|]. rewrite E. apply elem_of_app. right. by left.
      - rewrite Hc2. split; [done|]. apply Forall_cons in Hx2 as [[u Hu] _]. congruence. }
    destruct Hlast as (c & m & Hlast & Hm). rewrite <- Hc3'.
    eapply seal_no_answer; [|exact Hlast|exact Hm]. apply Hg3. by apply add_user_note_grows. }
  rewrite Hsame, Hc3, Hc2, <- app_assoc. done.
Qed.

End Executor.

(** ** What a turn cost, over its rounds *)

(** The usage of the rounds that reported one, in order. *)
Definition turn_usage (us : list TokenUsage) : res (option TokenUsage) :=
  foldl (fun acc u => let? sum := acc in let? t := merge_usage sum u in Ok (Some t)) (Ok None) us.

Definition sum_tokens (f : TokenUsage -> Z) (us : list TokenUsage) : Z := foldr (fun u n => f u + n) 0 us.

Definition tokens_fit (us : list TokenUsage) : Prop :=
  Forall (fun u => 0 <= prompt_tokens u /\ 0 <= completion_tokens u /\ 0 <= total_tokens u /\ 0 <= cached_tokens u) us
  /\ sum_tokens prompt_tokens us <= int_max /\ sum_tokens completion_tokens us <= int_max
  /\ sum_tokens total_tokens us <= int_max /\ sum_tokens cached_tokens us <= int_max.

Lemma sum_tokens_app f us vs : sum_tokens f (us ++ vs) = sum_tokens f us + sum_tokens f vs.
Proof. unfold sum_tokens. induction us as [|u us IH]; cbn [app foldr]; [done|]. lia. Qed.

Lemma sum_tokens_snoc f us u : sum_tokens f (us ++ [u]) = sum_tokens f us + f u.
Proof. rewrite sum_tokens_app. unfold sum_tokens at 2. cbn [foldr]. lia. Qed.

Lemma sum_tokens_nonneg f us : Forall (fun u => 0 <= f u) us -> 0 <= sum_tokens f us.
Proof. unfold sum_tokens. induction 1 as [|u us Hu _ IH]; cbn [foldr]; [done|]. lia. Qed.

Lemma add_int_fits x y : 0 <= x -> 0 <= y -> x + y <= int_max -> UsageLedger.add_int x y = Ok (x + y).
Proof.
  intros Hx Hy Hs. unfold UsageLedger.add_int.
  rewrite (proj2 (Z.leb_le _ _)) by (unfold int_min; lia). by rewrite (proj2 (Z.leb_le _ _)).
Qed.

Lemma turn_usage_spec us :
  us <> [] -> tokens_fit us ->
  turn_usage us = Ok (Some (mkTokenUsage (sum_tokens prompt_tokens us) (sum_tokens completion_tokens us)
    (sum_tokens total_tokens us) (sum_tokens cached_tokens us) (foldl merge_cost None (map cost us)))).
Proof.
  induction us as [|u us IH] using rev_ind; [done|]. intros _ (Hall & H1 & H2 & H3 & H4).
  rewrite !sum_tokens_snoc in *. apply Forall_app in Hall as [Hall Hu].
  apply Forall_cons in Hu as [(Hu1 & Hu2 & Hu3 & Hu4) _].
  assert (Hn : 0 <= sum_tokens prompt_tokens us /\ 0 <= sum_tokens completion_tokens us
    /\ 0 <= sum_tokens total_tokens us /\ 0 <= sum_tokens cached_tokens us).
  { split_and!; apply sum_tokens_nonneg; (eapply Forall_impl; [exact Hall|]); cbn; intros; lia. }
  unfold turn_usage. rewrite foldl_app. cbn [foldl]. fold (turn_usage us).
  rewrite map_app, foldl_app. cbn [map foldl].
  destruct us as [|u0 us].
  - cbn [turn_usage foldl res_bind merge_usage]. unfold merge_usage. cbn [default no_usage prompt_tokens
      completion_tokens total_tokens cached_tokens cost].
    rewrite !add_int_fits by (unfold int_max in *; cbn in *; lia). cbn. done.
  - rewrite IH; [|done|split; [done|lia]]. cbn [res_bind]. unfold merge_usage.
    cbn [default from_option id prompt_tokens completion_tokens total_tokens cached_tokens cost].
    rewrite !add_int_fits by lia. done.
Qed.

Lemma merge_cost_unit c s : unit_ s = unit_ c ->
  merge_cost (Some s) (Some c) = Some (mkCost (dadd (amount s) (amount c)) (unit_ s)).
Proof. intros H. cbn. by rewrite bool_decide_eq_true_2. Qed.

Lemma merge_priced p ps :
  Forall (fun q => unit_ q = unit_ p) ps ->
  foldl merge_cost (Some p) (map Some ps)
  = Some (foldl (fun s q => mkCost (dadd (amount s) (amount q)) (unit_ s)) p ps).
Proof.
  revert p. induction ps as [|q ps IH]; intros p Hps; [done|]. apply Forall_cons in Hps as [Hq Hps].
  cbn [map foldl]. rewrite merge_cost_unit by done. apply IH. cbn. eapply Forall_impl; [exact Hps|]. done.
Qed.

(** The counts of a turn are the sums over its rounds.  Its price is the
    sum of the prices when every round has one, and none when the last round
    has none; but rounds before the last round without a price are forgotten,
    so a priced round after an unpriced one passes for the price of the turn. *)
Theorem Turn_usage_spec us before priced p :
  us <> [] -> tokens_fit us -> Forall (fun q => unit_ q = unit_ p) priced ->
  exists u, turn_usage us = Ok (Some u)
    /\ prompt_tokens u = sum_tokens prompt_tokens us /\ completion_tokens u = sum_tokens completion_tokens us
    /\ total_tokens u = sum_tokens total_tokens us /\ cached_tokens u = sum_tokens cached_tokens us
    /\ (map cost us = map Some (p :: priced) -> cost u = price_sum (p :: priced))
    /\ (map cost us = before ++ [None] -> cost u = None)
    /\ (map cost us = before ++ None :: map Some (p :: priced) -> cost u = price_sum (p :: priced)).
Proof.
  intros Hne Hfit Hp. rewrite turn_usage_spec by done. eexists. split; [done|]. cbn [prompt_tokens
    completion_tokens total_tokens cached_tokens cost]. split_and!; try done.
  - intros ->. cbn [map foldl]. change (merge_cost None (Some p)) with (Some p). by rewrite merge_priced.
  - intros ->. rewrite foldl_app. done.
  - intros ->. rewrite foldl_app. cbn [map foldl].
    change (merge_cost (merge_cost (foldl merge_cost None before) None) (Some p)) with (Some p).
    by rewrite merge_priced.
Qed.

(** ** Witnesses *)

(** A model that always asks for one more command: it streams a few words in its
    first round only.  The world counts the requests. *)
Definition demo_answer_chat : ChatResult :=
  mkChat "" [] [mkToolCall "" "echo" (JObject [])] None JNull [] [] [] "tool_calls" "m".

Definition restless_chat (history : list ChatMessage) (tools : list ToolDefinition) (sh : Shared (W := nat))
    : Shared * (list string * res ChatResult) :=
  (mkShared (user_note_ sh) (S (outside sh)),
   (match outside sh with O => ["Let me look"] | _ => [] end, Ok demo_answer_chat)).

(** The same, stopped by the user in its third request. *)
Definition stopped_chat (history : list ChatMessage) (tools : list ToolDefinition) (sh : Shared (W := nat))
    : Shared * (list string * res ChatResult) :=
  if (2 <=? outside sh)%nat then (sh, ([], Throw (GenericError "cancelled"))) else restless_chat history tools sh.

Definition stop_after_two (sh : Shared (W := nat)) : Shared * bool := (sh, (2 <=? outside sh)%nat).

Definition echo_tools : gmap string (Tools.Tool (ToolContext * Shared (W := nat))) :=
  {[ "echo" := mkToolImpl "echo" "" (JObject []) (fun _ s => (s, Ok "done")) ]}.

Definition demo_ids (n : nat) : MessageId := "m" +:+ pretty n.

Lemma demo_ids_nonempty n : demo_ids n <> "".
Proof. discriminate. Qed.

Lemma demo_ids_inj n m : demo_ids n = demo_ids m -> n = m.
Proof. intros [= H]. by apply (inj pretty). Qed.

Definition demo_exec : exec (W := nat) := mkExec MessageGraph.empty 0 (mkShared "" 0%nat) "" 0 [].

Lemma demo_exec_ok : exec_ok demo_ids demo_exec.
Proof. split; [apply empty_ok|done]. Qed.

Definition demo_run (chat : list ChatMessage -> list ToolDefinition -> Shared -> Shared * (list string * res ChatResult))
    (budget : Z) (cancel : bool) : option (exec (W := nat) * res ExecutionResult) :=
  Execute (codec := bit_codec) chat echo_tools stop_after_two (fun _ => false) (fun _ => 7) (fun _ => 0)
    (fun _ => "") demo_ids None "be brief" (mkStaticEnv "Linux" "6.1") budget None cancel false
    (Z.to_nat budget + 2) "look around" demo_exec.

Lemma stop_after_two_latches : latches stop_after_two.
Proof. intros w w' n. unfold stop_after_two. by intros [= <- H]. Qed.


Lemma Execute_ends_witness :
  exists s' out, demo_run stopped_chat 5 true = Some (s', out)
    /\ forall result, out = Ok result -> x_rounds result <= 6.
Proof.
  apply (Execute_ends (codec := bit_codec) stopped_chat echo_tools stop_after_two (fun _ => false)
    (fun _ => 7) (fun _ => 0) (fun _ => "") demo_ids None "be brief" (mkStaticEnv "Linux" "6.1") 5 None true
    false demo_ids_nonempty demo_ids_inj "look around" demo_exec stop_after_two_latches).
  intros w w' history tools H. assert (w' = w /\ (2 <=? outside w)%nat = true) as [-> Hw] by
    (split; [exact (eq_sym (f_equal fst H))|exact (f_equal snd H)]).
  unfold stopped_chat. rewrite Hw. by eexists _, _, _.
Defined.

Definition two_calls : list ToolCall := [mkToolCall "x" "echo" (JObject []); mkToolCall "y" "nothing" (JObject [])].

Lemma Round_receipts_witness :
  exists s' result' before answer r1 r2 note,
    RunToolCalls (codec := bit_codec) echo_tools stop_after_two demo_ids None None true false two_calls
      (AppendAssistantTurn (codec := bit_codec) demo_ids "on it" [] two_calls
         (set_note_ "hurry" demo_exec))
      no_execution = (s', Ok result')
    /\ MessageGraph.Chain (e_conversation s') = before ++ [answer; r1; r2] ++ note
    /\ n_parent r1 = n_id answer /\ n_parent r2 = n_id r1 /\ (length note <= 1)%nat.
Proof.
  destruct (RunToolCalls (codec := bit_codec) echo_tools stop_after_two demo_ids None None true false two_calls
      (AppendAssistantTurn (codec := bit_codec) demo_ids "on it" [] two_calls
         (set_note_ "hurry" demo_exec))
      no_execution) as [s' [result'|e|]] eqn:E; [|by exfalso; revert E; vm_compute..].
  destruct (Round_receipts (codec := bit_codec) restless_chat echo_tools stop_after_two (fun _ => false) (fun _ => 7)
    (fun _ => 0) (fun _ => "") demo_ids None None true false demo_ids_nonempty demo_ids_inj "on it" [] two_calls
    _ no_execution s' result'
    demo_exec_ok
    ltac:(discriminate) ltac:(by apply (bool_decide_eq_true_1 _)) ltac:(by repeat constructor) E
    ltac:(revert E; vm_compute; by intros [= _ <-])) as (text & blocks & texts & extra & Hc & Ht & Hx & _).
  destruct texts as [|t1 [|t2 [|]]]; [discriminate..| |discriminate].
  eexists s', result', _, _, _, _, extra. split; [reflexivity|]. split; [exact Hc|]. by split_and!.
Defined.

(** The rounds of a turn: the first has no price. *)
Definition priced_round (price : option Cost) : TokenUsage := mkTokenUsage 10 2 12 4 price.

Lemma Turn_usage_spec_witness :
  exists u, turn_usage [priced_round None; priced_round (Some (mkCost (double_of_Z 3) "credits"))] = Ok (Some u)
    /\ total_tokens u = 24 /\ cost u = Some (mkCost (double_of_Z 3) "credits").
Proof.
  destruct (Turn_usage_spec [priced_round None; priced_round (Some (mkCost (double_of_Z 3) "credits"))] []
    [] (mkCost (double_of_Z 3) "credits")) as (u & E & _ & _ & Ht & _ & _ & _ & Hc).
  - discriminate.
  - split; [by repeat constructor|by vm_compute].
  - constructor.
  - exists u. split; [exact E|]. split; [exact Ht|]. exact (Hc eq_refl).
Defined.

(** ** A wrap-up without an answer *)

(** A model that says a few words in its first round and only calls tools
    after: with a budget of one call the wrap-up round calls once more and its
    call runs too.  The turn then ends with the words of the first round as its
    answer: nothing marks that the budget was reached. *)
Example Wrap_up_stale :
  exists s result, demo_run restless_chat 1 false = Some (s, Ok result)
    /\ x_outcome result = kCompletedTurn /\ x_has_error result = false /\ x_content result = "Let me look"
    /\ x_tool_call_count result = 2
    /\ length (List.filter (fun e => match e with ERun _ _ _ => true | _ => false end) (e_log s)) = 2%nat.
Proof. eexists _, _. split; [vm_compute; reflexivity|]. by repeat split. Qed.
