(* ===== verification/Turn.v ===== *)
(** * A turn over the network

    The parts together: the executor of [src/runtime/executor.cpp] asking a
    provider of [src/llm/streaming_provider.cpp] through the HTTP client of
    [src/core/beast_http_client.cpp].  The world of the executor is the provider
    and what lies behind the network; its cancel token is the token of every
    request. *)
From Stdlib Require Import Ascii.
From S2P Require Export Executor OpenAI Ollama.

Section Turn.
#[local] Set Default Proof Using "Type*".
Context `{codec : JsonCodec} {E N : Type} (protocol : Protocol E) (host_ : string).
(** The token, which another thread may set, the signal flag and the network. *)
Context (flag : N -> N * bool) (interrupted : N -> bool) (dial : Http.Request -> N -> N * Network).

Abbreviation W := (provider E * N)%type.

Definition forget_told (s : provider E) : provider E := mkProvider (acc s) (ext s) [].

Definition content_tokens (l : list told) : list string :=
  omap (fun t => match t with TContent text => Some text | _ => None end) l.

(** [provider->Chat(request)] as the executor calls it. *)
Definition turn_chat (history : list ChatMessage) (tools : list ToolDefinition) (sh : Shared (W := W))
    : Shared * (list string * res ChatResult) :=
  let '(s, n) := outside sh in
  let '(s, n, out) := Chat protocol host_ (Some flag) interrupted dial history tools (forget_told s) n in
  (mkShared (user_note_ sh) (s, n), (content_tokens (told_ s), out)).

Definition turn_cancelled (sh : Shared (W := W)) : Shared * bool :=
  let '(s, n) := outside sh in
  let '(n, set) := flag n in (mkShared (user_note_ sh) (s, n), set).

(** A token that is set stays set. *)
Definition stays_set : Prop := forall n n', flag n = (n', true) -> (flag n').2 = true.

Lemma turn_latches : stays_set -> latches turn_cancelled.
Proof.
  intros H sh sh' note. unfold turn_cancelled. destruct (outside sh) as [s n].
  destruct (flag n) as [n1 c] eqn:Ef. intros [= <- ->]. cbn. apply H in Ef. by destruct (flag n1).
Qed.

Lemma turn_chat_stops : stays_set -> chat_stops turn_chat turn_cancelled.
Proof.
  intros H sh sh' history tools. unfold turn_cancelled. destruct (outside sh) as [s n].
  destruct (flag n) as [n1 c] eqn:Ef. intros [= <- ->]. apply H in Ef. destruct (flag n1) as [n2 c2] eqn:Ef2. cbn in Ef. subst c2.
  unfold turn_chat. cbn [outside user_note_].
  rewrite (Chat_cancelled protocol host_ (Some flag) interrupted dial history tools _ n1 n2 flag eq_refl Ef2).
  by eexists _, _, _.
Qed.

Context (toolbox : gmap string (Tools.Tool (ToolContext * Shared (W := W))%type)).
Context (ShutdownRequested : W -> bool) (ticks seconds : W -> Z) (context_digest : W -> string).
Context (ids : nat -> MessageId) (ids_nonempty : forall n, ids n <> "") (ids_inj : forall n m, ids n = ids m -> n = m).
Context (policy : option SecurityPolicy) (system_prompt : string) (env : StaticEnvInfo) (budget : Z)
  (approval : option (string -> bool * string)) (has_cancel has_command_stop : bool).

(** A turn over the network ends, whatever the gateway, the model and the
    tools do and whenever the user stops it: the HTTP client refuses a request
    whose token is set, so the executor's loop is bounded by its budget of tool
    calls and no provider can keep it going. *)
Theorem Turn_ends input s :
  stays_set ->
  exists s' out, Execute turn_chat toolbox turn_cancelled ShutdownRequested ticks seconds context_digest ids
      policy system_prompt env budget approval has_cancel has_command_stop (Z.to_nat budget + 2) input s = Some (s', out)
    /\ forall result, out = Ok result -> x_rounds result <= Z.max 0 budget + 1.
Proof.
  intros H. apply (execute_ends turn_chat toolbox turn_cancelled); try done; [by apply turn_latches|by apply turn_chat_stops].
Qed.

End Turn.

(** ** Witness *)

(** The third request finds the token set. *)
Definition third_stops (n : nat) : nat * bool := (n, (2 <=? n)%nat).

Lemma third_stays_set : stays_set third_stops.
Proof. intros n n'. unfold third_stops. by intros [= <- H]. Qed.

Definition no_net (rq : Http.Request) (n : nat) : nat * Network :=
  (S n, mkNetwork (Ok tt) (Some Http.TimedOut) None None (inl Http.TimedOut) [] None).

Definition openai_exec : exec (W := (provider OpenAIProtocol * nat)%type) :=
  mkExec MessageGraph.empty 0 (mkShared "" (empty_openai, 0%nat)) "" 0 [].

Lemma Turn_ends_witness :
  exists s' out,
    Execute (codec := bit_codec)
      (turn_chat (codec := bit_codec) (OpenAIProvider_ (codec := bit_codec) demo_config) "https://api.openai.com/v1"
         third_stops (fun _ => false) no_net)
      ∅ (turn_cancelled third_stops) (fun _ => false) (fun _ => 0) (fun _ => 0) (fun _ => "") demo_ids None ""
      (mkStaticEnv "Linux" "6.1") 3 None true false 5 "hello" openai_exec = Some (s', out)
    /\ forall result, out = Ok result -> x_rounds result <= 4.
Proof.
  exact (Turn_ends (codec := bit_codec) (OpenAIProvider_ (codec := bit_codec) demo_config) "https://api.openai.com/v1"
    third_stops (fun _ => false) no_net ∅ (fun _ => false) (fun _ => 0) (fun _ => 0) (fun _ => "") demo_ids
    demo_ids_nonempty demo_ids_inj None "" (mkStaticEnv "Linux" "6.1") 3 None true false "hello" openai_exec third_stays_set).
Defined.
