(* ===== verification/Mcp.v ===== *)
(** * MCP servers ([src/mcp/client.cpp], [src/mcp/http_transport.cpp], [src/mcp/stdio_transport.cpp])

    A server is reached through a [Transport]: lines are written to it and it
    hands lines back.  [JsonRpcClient] gives each request an id and settles the
    request whose id a line carries; [McpClient] asks the server for its tools
    and calls them.

    The two transports' readers turn the pieces that arrive into lines.  What
    arrives, and when, is the outside world's: a transport is an interface of
    functions on the state of the world.  Lines are taken up in two places, when a request
    is about to be sent and while its reply is awaited. *)
From Stdlib Require Import Ascii.
From S2P Require Export Prelude Text Json Message Http Agents Tools.

(** ** Lines of a stream *)

(** The loop of [ReaderLoop] over one chunk; [hear] is the callback.  Every turn
    takes a line end out of the chunk. *)
Fixpoint take_lines (fuel : nat) (leftover chunk : string) : list string * string :=
  match fuel, sfind nl chunk with
  | S fuel, Some pos =>
      let line := leftover +:+ stake pos chunk in
      let '(lines, leftover) := take_lines fuel "" (sdrop (S pos) chunk) in
      (if sempty line then lines else SanitizeUtf8 line :: lines, leftover)
  | _, _ => ([], leftover +:+ chunk)
  end.

(** [StdioTransport::ReaderLoop] on one chunk: the messages and the new leftover. *)
Definition ReadChunk (leftover chunk : string) : list string * string := take_lines (slen chunk) leftover chunk.

Fixpoint ReaderLoop (leftover : string) (chunks : list string) : list string * string :=
  match chunks with
  | [] => ([], leftover)
  | chunk :: chunks =>
      let '(lines, leftover) := ReadChunk leftover chunk in
      let '(more, leftover) := ReaderLoop leftover chunks in
      (lines ++ more, leftover)
  end.

(** [HttpTransport::EmitLine]: the message of a line, if it has one. *)
Definition EmitLine (line : string) : option string :=
  if sempty line then None
  else if starts_with "data:" line then
    let payload := sdrop 5 line in
    let payload := match payload with String " " rest => rest | _ => payload end in
    if bool_decide (payload = "[DONE]") then None else if sempty payload then None else Some payload
  else if starts_with "event:" line || starts_with "id:" line || starts_with "retry:" line then None
  else Some line.

Definition strip_cr (line : string) : string :=
  match sback line with Some c => if bool_decide (c = cr) then spop line else line | None => line end.

(** The loop of [DispatchChunk], the chunk already appended to [leftover]. *)
Fixpoint dispatch_lines (fuel : nat) (leftover : string) : list string * string :=
  match fuel, sfind nl leftover with
  | S fuel, Some pos =>
      let line := strip_cr (stake pos leftover) in
      let '(messages, rest) := dispatch_lines fuel (sdrop (S pos) leftover) in
      (match EmitLine line with Some m => m :: messages | None => messages end, rest)
  | _, _ => ([], leftover)
  end.

Definition DispatchChunk (leftover data : string) : list string * string :=
  dispatch_lines (slen (leftover +:+ data)) (leftover +:+ data).

Fixpoint DispatchChunks (leftover : string) (chunks : list string) : list string * string :=
  match chunks with
  | [] => ([], leftover)
  | chunk :: chunks =>
      let '(messages, leftover) := DispatchChunk leftover chunk in
      let '(more, leftover) := DispatchChunks leftover chunks in
      (messages ++ more, leftover)
  end.

(** ** Transports *)

(** What a client needs of a transport: [Heard] is what its reader has handed
    over since it was last asked. *)
Record Transport (W T : Type) := mkTransport {
  Create : McpServerConfig -> T;
  Start : T -> W -> T * W * bool;
  Stop : T -> W -> T * W;
  WriteLine : string -> T -> W -> T * W * bool;
  Heard : T -> W -> T * W * list string;
}.
Arguments mkTransport {W T} _ _ _ _ _.
Arguments Create {W T} _ _.
Arguments Start {W T} _ _ _.
Arguments Stop {W T} _ _ _.
Arguments WriteLine {W T} _ _ _ _.
Arguments Heard {W T} _ _ _.

Record HttpTransport := mkHttpTransport {
  ht_url : string; ht_headers : gmap string string; ht_leftover : string; ht_queue : list string;
  ht_running : bool; ht_stopping : bool
}.

Record StdioTransport := mkStdioTransport {
  st_command : string; st_args : list string; st_leftover : string;
  (** The descriptor of the child's input, and whether its output is still read. *)
  st_stdin : bool; st_running : bool
}.

Section Transports.
#[local] Set Default Proof Using "Type*".
Context `{codec : JsonCodec} {W : Type}.
(** The network, and how many of the queued requests the worker has finished. *)
Context (dial : Http.Request -> W -> W * Network) (served : W -> W * nat).
(** The child process: started, written to, read from (the chunks of its output
    and whether it ended) and stopped. *)
Context (spawn : string -> list string -> W -> W * bool) (write_child : string -> W -> W * bool)
  (child_output : W -> W * (list string * bool)) (stop_child : W -> W).

Definition BuildHeaders (t : HttpTransport) : list string :=
  ["Content-Type: application/json"; "Accept: application/json, text/event-stream"]
  ++ map (fun h => h.1 +:+ ": " +:+ h.2) (map_entries (ht_headers t)).

Definition set_leftover (l : string) (t : HttpTransport) : HttpTransport :=
  mkHttpTransport (ht_url t) (ht_headers t) l (ht_queue t) (ht_running t) (ht_stopping t).

(** What the worker holds while a request is in flight: the leftover, the
    messages handed over and the world. *)
Definition in_flight : Type := string * list string * W.

Definition http_cb (data : string) (s : in_flight) : in_flight * res nat :=
  let '(leftover, heard, w) := s in
  let '(messages, leftover) := DispatchChunk leftover data in
  ((leftover, heard ++ messages, w), Ok (slen data)).

(** One turn of [WorkerLoop], after it took [body] from the queue. *)
Definition serve_post (body : string) (t : HttpTransport) (w : W) : HttpTransport * W * list string :=
  let '((leftover, heard, w), out) :=
    PostStream None (fun _ => ht_stopping t)
      (fun rq s => let '(leftover, heard, w) := s in let '(w, net) := dial rq w in ((leftover, heard, w), net))
      (ht_url t) body (BuildHeaders t) http_cb (ht_leftover t, [], w) in
  match out with
  | Ok _ =>
      (set_leftover "" t, w,
       heard ++ match (if sempty leftover then None else EmitLine leftover) with Some m => [m] | None => [] end)
  | _ => (set_leftover leftover t, w, heard)
  end.

Definition pop_queue (t : HttpTransport) : HttpTransport :=
  mkHttpTransport (ht_url t) (ht_headers t) (ht_leftover t) (tail (ht_queue t)) (ht_running t) (ht_stopping t).

(** [n] turns of [WorkerLoop], as far as there is something to do. *)
Fixpoint WorkerLoop (n : nat) (t : HttpTransport) (w : W) : HttpTransport * W * list string :=
  match n, ht_queue t with
  | S n, body :: _ =>
      if ht_running t then
        let '(t, w, heard) := serve_post body (pop_queue t) w in
        let '(t, w, more) := WorkerLoop n t w in
        (t, w, heard ++ more)
      else (t, w, [])
  | _, _ => (t, w, [])
  end.

Definition HttpTransport_ : Transport W HttpTransport :=
  mkTransport
    (fun c => mkHttpTransport (srv_url c) (srv_headers c) "" [] false false)
    (fun t w => (if ht_running t then t
                 else mkHttpTransport (ht_url t) (ht_headers t) (ht_leftover t) (ht_queue t) true false, w, true))
    (fun t w => (mkHttpTransport (ht_url t) (ht_headers t) (ht_leftover t) (ht_queue t) false true, w))
    (fun line t w =>
       if ht_running t then
         (mkHttpTransport (ht_url t) (ht_headers t) (ht_leftover t) (ht_queue t ++ [line]) true (ht_stopping t), w, true)
       else (t, w, false))
    (fun t w => let '(w, n) := served w in WorkerLoop n t w).

Definition StdioTransport_ : Transport W StdioTransport :=
  mkTransport
    (fun c => mkStdioTransport (srv_command c) (srv_args c) "" false false)
    (fun t w =>
       if st_running t then (t, w, true)
       else let '(w, started) := spawn (st_command t) (st_args t) w in
            (if started : bool then mkStdioTransport (st_command t) (st_args t) "" true true else t, w, started))
    (fun t w => (mkStdioTransport (st_command t) (st_args t) (st_leftover t) false false, if st_stdin t then stop_child w else w))
    (fun line t w =>
       if st_stdin t then let '(w, written) := write_child (line +:+ NL) w in (t, w, written) else (t, w, false))
    (fun t w =>
       if st_running t then
         let '(w, (chunks, ended)) := child_output w in
         let '(lines, leftover) := ReaderLoop (st_leftover t) chunks in
         (mkStdioTransport (st_command t) (st_args t) leftover (st_stdin t) (negb ended), w, lines)
       else (t, w, [])).

(** The transport [Connect] makes: HTTP where the configuration has an address. *)
Definition transport_for : Transport W (HttpTransport + StdioTransport) :=
  mkTransport
    (fun c => if sempty (srv_url c) then inr (Create StdioTransport_ c) else inl (Create HttpTransport_ c))
    (fun t w => match t with
                | inl h => let '(h, w, ok) := Start HttpTransport_ h w in (inl h, w, ok)
                | inr s => let '(s, w, ok) := Start StdioTransport_ s w in (inr s, w, ok)
                end)
    (fun t w => match t with
                | inl h => let '(h, w) := Stop HttpTransport_ h w in (inl h, w)
                | inr s => let '(s, w) := Stop StdioTransport_ s w in (inr s, w)
                end)
    (fun line t w => match t with
                     | inl h => let '(h, w, ok) := WriteLine HttpTransport_ line h w in (inl h, w, ok)
                     | inr s => let '(s, w, ok) := WriteLine StdioTransport_ line s w in (inr s, w, ok)
                     end)
    (fun t w => match t with
                | inl h => let '(h, w, heard) := Heard HttpTransport_ h w in (inl h, w, heard)
                | inr s => let '(s, w, heard) := Heard StdioTransport_ s w in (inr s, w, heard)
                end).

End Transports.

(** ** JSON-RPC *)

(** [JsonRpcClient]: the next id, the requests with no reply yet, and what the
    futures of the others were settled with. *)
Record JsonRpcClient := mkRpc { next_id_ : Z; pending_ : gset Z; settled_ : gmap Z (res value) }.

Definition new_rpc : JsonRpcClient := mkRpc 1 ∅ ∅.

(** [set_value] or [set_exception] on a pending promise, which is then erased. *)
Definition settle (id : Z) (out : res value) (r : JsonRpcClient) : JsonRpcClient :=
  if bool_decide (id ∈ pending_ r) then mkRpc (next_id_ r) (pending_ r ∖ {[id]}) (<[id := out]> (settled_ r)) else r.

(** The config of a server, its transport, the connection and the tools it listed. *)
Record McpClient (T : Type) := mkMcpClient {
  config : McpServerConfig;
  transport : option T;
  rpc : option JsonRpcClient;
  connected : bool;
  cached_tools : list ToolDefinition;
}.
Arguments mkMcpClient {T} _ _ _ _ _.
Arguments config {T} _.
Arguments transport {T} _.
Arguments rpc {T} _.
Arguments connected {T} _.
Arguments cached_tools {T} _.

Section Client.
#[local] Set Default Proof Using "Type*".
Context `{codec : JsonCodec} {W T : Type} (tr : Transport W T) (PU_VERSION : string).

(** What a line settles: the id of a request, and with what. *)
Definition reply_of (line : string) : option (Z * res value) :=
  match parse line with
  | None => None
  | Some j =>
      match at_key j "id" with
      | Some (JInt64 n) =>
          id ← to_int (JInt64 n);
          Some (id, match at_key j "error" with
                    | Some error => Throw (StdException (serialize error))
                    | None => Ok j
                    end)
      | _ => None
      end
  end.

Definition OnMessage (line : string) (r : JsonRpcClient) : JsonRpcClient :=
  match reply_of line with Some (id, out) => settle id out r | None => r end.

Definition request_json (id : Z) (method : string) (params : value) : value :=
  let req := [("jsonrpc", JString "2.0"); ("id", JInt64 id); ("method", JString method)] in
  JObject (if is_null params then req else obj_set "params" params req).

(** [JsonRpcClient::SendRequest]: the id whose future it answers with.  The last
    [int] has no successor. *)
Definition Rpc_SendRequest (method : string) (params : value) (r : JsonRpcClient) (t : T) (w : W)
    : JsonRpcClient * T * W * res Z :=
  let id := next_id_ r in
  if id =? int_max then (r, t, w, Undef)
  else
    let r := mkRpc (id + 1) ({[id]} ∪ pending_ r) (settled_ r) in
    let '(t, w, written) := WriteLine tr (serialize (request_json id method params)) t w in
    (if written : bool then r else settle id (Throw (StdException "Write failed")) r, t, w, Ok id).

Abbreviation client := (McpClient T).

Definition set_line (t : T) (r : JsonRpcClient) (c : client) : client :=
  mkMcpClient (config c) (Some t) (Some r) (connected c) (cached_tools c).

(** What the reader handed over meanwhile. *)
Definition hear (t : T) (w : W) (r : JsonRpcClient) : T * W * JsonRpcClient :=
  let '(t, w, lines) := Heard tr t w in (t, w, foldl (fun r line => OnMessage line r) r lines).

(** [McpClient::SendRequest]: the wait ends with the reply, or without one. *)
Definition SendRequest (method : string) (params : value) (c : client) (w : W) : client * W * res value :=
  match rpc c, transport c with
  | Some r, Some t =>
      let '(t, w, r) := hear t w r in
      match Rpc_SendRequest method params r t w with
      | (r, t, w, Ok id) =>
          match settled_ r !! id with
          | Some out => (set_line t r c, w, out)
          | None =>
              let '(t, w, r) := hear t w r in
              (set_line t r c, w, default (Throw (GenericError "MCP request timeout")) (settled_ r !! id))
          end
      | (r, t, w, Throw e) => (set_line t r c, w, Throw e)
      | (r, t, w, Undef) => (set_line t r c, w, Undef)
      end
  | _, _ => (c, w, Throw (GenericError "MCP client not connected"))
  end.

Definition init_params : value :=
  JObject [("protocolVersion", JString "2024-11-05");
           ("clientInfo", JObject [("name", JString "pu-cli"); ("version", JString PU_VERSION)]);
           ("capabilities", JObject [("tools", JBool true)])].

(** What the handshake answers; an exception inside it is logged. *)
Definition Handshake (c : client) (w : W) : client * W * res bool :=
  let '(c, w, resp) := SendRequest "initialize" init_params c w in
  match resp with
  | Undef => (c, w, Undef)
  | Throw _ => (c, w, Ok false)
  | Ok resp =>
      if negb (HasKey resp "result") then (c, w, Ok false)
      else
        match transport c with
        | None => (c, w, Ok true)
        | Some t =>
            let '(t, w, _) := WriteLine tr (serialize (JObject [("jsonrpc", JString "2.0"); ("method", JString "initialized")]))
                                t w in
            (mkMcpClient (config c) (Some t) (rpc c) (connected c) (cached_tools c), w, Ok true)
        end
  end.

Definition Disconnect (c : client) (w : W) : client * W :=
  let w := match transport c with Some t => snd (Stop tr t w) | None => w end in
  (mkMcpClient (config c) None None false [], w).

Definition Connect (c : client) (w : W) : client * W * res bool :=
  if connected c then (c, w, Ok true)
  else
    let '(t, w, started) := Start tr (Create tr (config c)) w in
    let c := mkMcpClient (config c) (Some t) (rpc c) false (cached_tools c) in
    if negb started then (c, w, Ok false)
    else
      let '(c, w, shaken) := Handshake (mkMcpClient (config c) (Some t) (Some new_rpc) false (cached_tools c)) w in
      match shaken with
      | Ok true => (mkMcpClient (config c) (transport c) (rpc c) true (cached_tools c), w, Ok true)
      | Ok false => let '(c, w) := Disconnect c w in (c, w, Ok false)
      | Throw e => (c, w, Throw e)
      | Undef => (c, w, Undef)
      end.

Definition read_definition (t : value) : ToolDefinition :=
  mkToolDefinition (string_or t "name" "") (string_or t "description" "")
    (default (JObject []) (at_key t "inputSchema")).

Definition ListTools (c : client) (w : W) : client * W * res (list ToolDefinition) :=
  if negb (connected c) then (c, w, Ok [])
  else
    match cached_tools c with
    | _ :: _ => (c, w, Ok (cached_tools c))
    | [] =>
        let '(c, w, resp) := SendRequest "tools/list" JNull c w in
        match resp with
        | Undef => (c, w, Undef)
        | Throw e => (c, w, Throw e)
        | Ok resp =>
            match at_key resp "result" ≫= (fun result => at_key result "tools") with
            | Some (JArray tools) =>
                let defs := map read_definition tools in
                (mkMcpClient (config c) (transport c) (rpc c) (connected c) defs, w, Ok defs)
            | Some _ => (c, w, Throw (StdException "as_array"))
            | None =>
                (c, w, Throw (GenericError ("MCP server '" +:+ srv_name (config c)
                                            +:+ "' answered tools/list without a tool list")))
            end
        end
    end.

(** The text of the items of type [text], one line each. *)
Definition content_text (items : list value) : string :=
  foldr String.append ""
    (map (fun item => if bool_decide (at_key item "type" = Some (JString "text"))
                      then string_or item "text" "" +:+ NL else "") items).

(** What a reply to [tools/call] says. *)
Definition call_text (resp : value) : res string :=
  match at_key resp "result" with
  | Some result =>
      match at_key result "content" with
      | Some (JArray items) =>
          let output := content_text items in Ok (if sempty output then serialize result else output)
      | Some _ => Throw (StdException "as_array")
      | None => Ok (serialize resp)
      end
  | None => Ok (serialize resp)
  end.

Definition CallTool (name : string) (arguments : value) (c : client) (w : W) : client * W * res string :=
  if negb (connected c) then (c, w, Ok "Error: MCP client not connected")
  else
    let '(c, w, resp) :=
      SendRequest "tools/call" (JObject [("name", JString name); ("arguments", arguments)]) c w in
    (c, w, match res_bind resp call_text with
           | Throw e => Ok ("MCP call error: " +:+ what e)
           | other => other
           end).

(** [McpTool]: its name and what executing it does. *)
Definition McpTool_Name (server tool : string) : string := "mcp." +:+ server +:+ "." +:+ tool.

Definition McpTool_Execute (original_tool_name : string) (args : value) (c : client) (w : W)
    : client * W * res string :=
  if negb (connected c) then
    (c, w, Ok (MakeToolResultJson false "" "MCP client is not connected" (-1) false kNoRefusal []))
  else
    let '(c, w, out) := CallTool original_tool_name args c w in
    (c, w, let? raw := out in Ok (WrapResult raw)).

(** ** The servers of an agent *)

Definition new_client (config : McpServerConfig) : client := mkMcpClient config None None false [].

Definition ConnectMcpServer (config : McpServerConfig) (w : W) : W * res (option client) :=
  let '(c, w, ok) := Connect (new_client config) w in
  match ok with
  | Ok true => (w, Ok (Some c))
  | Ok false => (snd (Disconnect c w), Ok None)
  | Throw e => (snd (Disconnect c w), Throw e)
  | Undef => (w, Undef)
  end.

Fixpoint ConnectMcpServers (configs : list McpServerConfig) (w : W) : W * res (list client) :=
  match configs with
  | [] => (w, Ok [])
  | config :: configs =>
      match ConnectMcpServer config w with
      | (w, Ok connected) =>
          match ConnectMcpServers configs w with
          | (w, Ok clients) => (w, Ok (match connected with Some c => c :: clients | None => clients end))
          | other => other
          end
      | (w, Throw e) => (w, Throw e)
      | (w, Undef) => (w, Undef)
      end
  end.

Definition DisconnectMcpServers (clients : list client) (w : W) : W :=
  foldl (fun w c => snd (Disconnect c w)) w clients.

End Client.

(** ** The readers rejoin lines *)

(** The lines of a text, each without its end, and what follows the last end. *)
Fixpoint lines_of (s : string) : list string * string :=
  match s with
  | "" => ([], "")
  | String c s =>
      let '(lines, rest) := lines_of s in
      if bool_decide (c = nl) then ("" :: lines, rest)
      else match lines with
           | [] => ([], String c rest)
           | line :: lines => (String c line :: lines, rest)
           end
  end.

(** The messages the two readers make of lines. *)
Definition stdio_messages (lines : list string) : list string :=
  map SanitizeUtf8 (List.filter (fun line => negb (sempty line)) lines).
Definition http_messages (lines : list string) : list string := omap (fun line => EmitLine (strip_cr line)) lines.

Lemma lines_of_cut s :
  match sfind nl s with
  | None => lines_of s = ([], s)
  | Some pos => lines_of s = (stake pos s :: (lines_of (sdrop (S pos) s)).1, (lines_of (sdrop (S pos) s)).2)
  end.
Proof.
  induction s as [|c s IH]; [done|]. cbn [sfind lines_of]. destruct (decide (c = nl)) as [->|Hc].
  - rewrite bool_decide_eq_true_2 by done. cbn. by destruct (lines_of s).
  - rewrite bool_decide_eq_false_2 by done. destruct (sfind nl s) as [pos|]; cbn [fmap option_fmap option_map].
    + rewrite IH. done.
    + by rewrite IH.
Qed.

Lemma lines_of_rest s : count_char nl (lines_of s).2 = 0%nat.
Proof.
  induction s as [|c s IH]; [done|]. cbn [lines_of]. destruct (lines_of s) as [[|line lines] rest]; cbn in IH.
  all: case_bool_decide; cbn; try done. by rewrite decide_False.
Qed.

Lemma lines_of_app a b :
  lines_of (a +:+ b)
  = ((lines_of a).1 ++ (lines_of ((lines_of a).2 +:+ b)).1, (lines_of ((lines_of a).2 +:+ b)).2).
Proof.
  induction a as [|c a IH]; [cbn; by destruct (lines_of b)|]. cbn [String.append lines_of]. rewrite IH.
  destruct (lines_of a) as [[|line lines] rest]; cbn [fst snd app]; case_bool_decide as Hc; cbn [fst snd app].
  - done.
  - cbn [String.append lines_of]. destruct (lines_of (rest +:+ b)) as [[|l ls] r]; cbn [fst snd].
    all: by rewrite bool_decide_eq_false_2 by done.
  - done.
  - done.
Qed.

Lemma lines_of_none s : count_char nl s = 0%nat -> lines_of s = ([], s).
Proof. intros H%sfind_None. pose proof (lines_of_cut s) as Hc. by rewrite H in Hc. Qed.

Lemma lines_of_first a b :
  count_char nl a = 0%nat -> lines_of (a +:+ String nl b) = (a :: (lines_of b).1, (lines_of b).2).
Proof.
  intros H%sfind_None. pose proof (lines_of_cut (a +:+ String nl b)) as Hc.
  pose proof (sfind_app_None nl a b H) as Hf. rewrite Hf, stake_app_exact in Hc. rewrite Hc.
  apply sfind_Some in Hf as (Hs & _ & _). rewrite stake_app_exact in Hs. apply sapp_inj_r in Hs.
  assert (Hb : sdrop (S (slen a)) (a +:+ String nl b) = b) by congruence. by rewrite Hb.
Qed.

(** A text cut at its first line end. *)
Lemma cut_at_nl chunk pos :
  sfind nl chunk = Some pos ->
  count_char nl (stake pos chunk) = 0%nat /\ chunk = stake pos chunk +:+ String nl (sdrop (S pos) chunk)
  /\ (slen (sdrop (S pos) chunk) < slen chunk)%nat.
Proof.
  intros H. pose proof (sfind_ge _ _ _ H). apply sfind_Some in H as (H1 & H2%sfind_None & _).
  split_and!; [done|done|]. rewrite slen_sdrop. lia.
Qed.

Lemma stdio_messages_cons line lines :
  stdio_messages (line :: lines)
  = if sempty line then stdio_messages lines else SanitizeUtf8 line :: stdio_messages lines.
Proof. unfold stdio_messages. cbn. by destruct (sempty line). Qed.

Lemma take_lines_spec fuel leftover chunk :
  count_char nl leftover = 0%nat -> (slen chunk <= fuel)%nat ->
  take_lines fuel leftover chunk
  = (stdio_messages (lines_of (leftover +:+ chunk)).1, (lines_of (leftover +:+ chunk)).2).
Proof.
  revert leftover chunk. induction fuel as [|fuel IH]; intros leftover chunk Hl Hf; cbn [take_lines].
  - destruct chunk; [|cbn in Hf; lia]. by rewrite sapp_nil_r, lines_of_none.
  - destruct (sfind nl chunk) as [pos|] eqn:E.
    + destruct (cut_at_nl _ _ E) as (Hn & Hc & Hs). rewrite IH by (done || lia). cbn [String.append].
      assert (Ht : leftover +:+ chunk = (leftover +:+ stake pos chunk) +:+ String nl (sdrop (S pos) chunk))
        by (rewrite <- sapp_assoc; f_equal; exact Hc).
      rewrite Ht, lines_of_first by (rewrite count_char_app; lia). cbn [fst snd].
      by rewrite stdio_messages_cons.
    + rewrite lines_of_none; [done|]. apply sfind_None in E. rewrite count_char_app. lia.
Qed.

Lemma dispatch_lines_spec fuel leftover :
  (slen leftover <= fuel)%nat ->
  dispatch_lines fuel leftover = (http_messages (lines_of leftover).1, (lines_of leftover).2).
Proof.
  revert leftover. induction fuel as [|fuel IH]; intros leftover Hf; cbn [dispatch_lines].
  - by destruct leftover; [|cbn in Hf; lia].
  - pose proof (lines_of_cut leftover) as Hc. destruct (sfind nl leftover) as [pos|] eqn:E.
    + destruct (cut_at_nl _ _ E) as (_ & _ & Hs). rewrite IH by lia. rewrite Hc. done.
    + by rewrite Hc.
Qed.

(** Where the text of the lines so far ends, the next piece goes on. *)
Lemma lines_of_more leftover chunk rest :
  lines_of (leftover +:+ chunk +:+ rest)
  = ((lines_of (leftover +:+ chunk)).1 ++ (lines_of ((lines_of (leftover +:+ chunk)).2 +:+ rest)).1,
     (lines_of ((lines_of (leftover +:+ chunk)).2 +:+ rest)).2).
Proof. by rewrite sapp_assoc, lines_of_app. Qed.

Lemma ReaderLoop_spec leftover chunks :
  count_char nl leftover = 0%nat ->
  let text := leftover +:+ foldr String.append "" chunks in
  ReaderLoop leftover chunks = (stdio_messages (lines_of text).1, (lines_of text).2).
Proof.
  cbv zeta. revert leftover. induction chunks as [|chunk chunks IH]; intros leftover Hl; cbn [ReaderLoop foldr].
  - by rewrite sapp_nil_r, lines_of_none.
  - unfold ReadChunk. rewrite take_lines_spec by done. rewrite IH by apply lines_of_rest.
    rewrite lines_of_more. cbn [fst snd]. unfold stdio_messages. by rewrite List.filter_app, map_app.
Qed.

Lemma DispatchChunks_spec leftover chunks :
  count_char nl leftover = 0%nat ->
  let text := leftover +:+ foldr String.append "" chunks in
  DispatchChunks leftover chunks = (http_messages (lines_of text).1, (lines_of text).2).
Proof.
  cbv zeta. revert leftover. induction chunks as [|chunk chunks IH]; intros leftover Hl; cbn [DispatchChunks foldr].
  - by rewrite sapp_nil_r, lines_of_none.
  - unfold DispatchChunk. rewrite dispatch_lines_spec by done. rewrite IH by apply lines_of_rest.
    rewrite lines_of_more. cbn [fst snd]. unfold http_messages. by rewrite omap_app.
Qed.

(** C31: both readers of a server's output hand over the same messages however the
    output is cut into pieces on its way: the child's reader one message for
    every line that is not empty, made valid UTF-8, and the HTTP reader the
    payload of every line that has one; what follows the last line end is kept
    for the next piece. *)
Theorem Readers_rejoin leftover chunks chunks' :
  count_char nl leftover = 0%nat -> foldr String.append "" chunks = foldr String.append "" chunks' ->
  let text := leftover +:+ foldr String.append "" chunks' in
  ReaderLoop leftover chunks = (stdio_messages (lines_of text).1, (lines_of text).2)
  /\ DispatchChunks leftover chunks = (http_messages (lines_of text).1, (lines_of text).2).
Proof. intros Hl <-. split; [by apply ReaderLoop_spec|by apply DispatchChunks_spec]. Qed.

(** ** Replies find their requests *)

(** Ids are given out in order, and a request is pending or settled. *)
Record rpc_ok (r : JsonRpcClient) : Prop := {
  rpc_next : 1 <= next_id_ r <= int_max;
  rpc_pending : forall id, id ∈ pending_ r -> 1 <= id < next_id_ r;
  rpc_settled : forall id, is_Some (settled_ r !! id) -> 1 <= id < next_id_ r;
  rpc_apart : forall id, id ∈ pending_ r -> settled_ r !! id = None;
}.

Lemma new_rpc_ok : rpc_ok new_rpc.
Proof. split; cbn; [done|set_solver|by intros id [? ?]|done]. Qed.

Lemma settle_next id out r : next_id_ (settle id out r) = next_id_ r.
Proof. unfold settle. by case_bool_decide. Qed.

Lemma settle_ok id out r : rpc_ok r -> rpc_ok (settle id out r).
Proof.
  intros [H1 H2 H3 H4]. unfold settle. case_bool_decide as Hin; [|by split]. split; cbn.
  - done.
  - intros k Hk. apply H2. set_solver.
  - intros k [v Hv]. apply lookup_insert_Some in Hv as [[-> _]|[_ Hv]]; [by apply H2|by apply H3].
  - intros k Hk. rewrite lookup_insert_ne by set_solver. apply H4. set_solver.
Qed.

Section ClientFacts.
#[local] Set Default Proof Using "Type*".
Context `{codec : JsonCodec} {W T : Type} (tr : Transport W T) (PU_VERSION : string).

(** The first line that settles [id]. *)
Definition first_reply (id : Z) (lines : list string) : option (res value) :=
  head (omap (fun line => '(k, out) ← reply_of line; if decide (k = id) then Some out else None) lines).

Definition heard (lines : list string) (r : JsonRpcClient) : JsonRpcClient :=
  foldl (fun r line => OnMessage line r) r lines.

Lemma OnMessage_ok line r : rpc_ok r -> rpc_ok (OnMessage line r).
Proof. intros H. unfold OnMessage. destruct (reply_of line) as [[id out]|]; [by apply settle_ok|done]. Qed.

Lemma heard_ok lines r : rpc_ok r -> rpc_ok (heard lines r) /\ next_id_ (heard lines r) = next_id_ r.
Proof.
  revert r. induction lines as [|line lines IH]; intros r H; cbn; [done|].
  destruct (IH (OnMessage line r) (OnMessage_ok line r H)) as [H1 H2]. split; [exact H1|].
  etrans; [exact H2|]. unfold OnMessage. destruct (reply_of line) as [[id out]|]; [apply settle_next|done].
Qed.

(** A request that is settled stays as it is; one that is pending is settled by
    the first line that answers it, and by nothing else. *)
Lemma heard_settled lines r id :
  rpc_ok r ->
  settled_ (heard lines r) !! id
  = match settled_ r !! id with
    | Some out => Some out
    | None => if bool_decide (id ∈ pending_ r) then first_reply id lines else None
    end.
Proof.
  revert r. induction lines as [|line lines IH]; intros r H.
  - cbn. destruct (settled_ r !! id); [done|]. by rewrite if_same.
  - change (heard (line :: lines) r) with (heard lines (OnMessage line r)). rewrite IH by by apply OnMessage_ok.
    unfold OnMessage, first_reply. cbn [omap list_omap]. destruct (reply_of line) as [[k out]|]; [|done]. cbn [mbind option_bind].
    unfold settle. destruct (decide (k = id)) as [->|Hne].
    + case_bool_decide as Hin; cbn [settled_ pending_].
      * rewrite lookup_insert_eq. by rewrite (rpc_apart r H id Hin).
      * by rewrite bool_decide_eq_false_2.
    + case_bool_decide as Hin; cbn [settled_ pending_]; [|done]. rewrite lookup_insert_ne by done.
      destruct (settled_ r !! id); [done|]. case_bool_decide; case_bool_decide; set_solver.
Qed.

(** A client that asks for something has a line, whose ids are in order. *)
Definition line_ok (c : McpClient T) : Prop :=
  match rpc c with Some r => rpc_ok r /\ is_Some (transport c) | None => True end.

(** What a request over a line comes to. *)
Definition answered (id : Z) (written : bool) (lines : list string) : res value :=
  if written then default (Throw (GenericError "MCP request timeout")) (first_reply id lines)
  else Throw (StdException "Write failed").

Lemma SendRequest_answers method params c w r t :
  rpc c = Some r -> transport c = Some t -> rpc_ok r -> next_id_ r < int_max ->
  let '(t1, w1, before) := Heard tr t w in
  let '(t2, w2, written) := WriteLine tr (serialize (request_json (next_id_ r) method params)) t1 w1 in
  let '(t3, w3, lines) := if written : bool then Heard tr t2 w2 else (t2, w2, []) in
  exists r', rpc_ok r' /\ next_id_ r' = next_id_ r + 1
    /\ SendRequest tr method params c w = (set_line t3 r' c, w3, answered (next_id_ r) written lines).
Proof.
  intros Hr Ht Hok Hmax. unfold SendRequest, hear. rewrite Hr, Ht.
  destruct (Heard tr t w) as [[t1 w1] before]. fold (heard before r).
  destruct (heard_ok before r Hok) as [Hok1 Hn1]. set (r1 := heard before r) in *.
  unfold Rpc_SendRequest. rewrite Hn1. rewrite (proj2 (Z.eqb_neq _ _)) by lia.
  destruct (WriteLine tr _ t1 w1) as [[t2 w2] written].
  set (r2 := mkRpc (next_id_ r + 1) ({[next_id_ r]} ∪ pending_ r1) (settled_ r1)).
  assert (Hfree : settled_ r1 !! next_id_ r = None).
  { apply eq_None_not_Some. intros Hs%(rpc_settled r1 Hok1). lia. }
  assert (Hok2 : rpc_ok r2).
  { destruct Hok1 as [H1 H2 H3 H4]. pose proof (rpc_next r Hok). split; cbn.
    - lia.
    - intros k [->%elem_of_singleton|Hk%H2]%elem_of_union; lia.
    - intros k Hk%H3. lia.
    - intros k [->%elem_of_singleton|Hk]%elem_of_union; [done|by apply H4]. }
  destruct written.
  - cbn [settled_ r2]. rewrite Hfree. destruct (Heard tr t2 w2) as [[t3 w3] lines]. fold (heard lines r2).
    destruct (heard_ok lines r2 Hok2) as [Hok3 Hn3]. exists (heard lines r2). split_and!; [done|done|].
    rewrite heard_settled by done. cbn [r2 settled_]. rewrite Hfree. cbn [r2 pending_].
    rewrite bool_decide_eq_true_2 by set_solver. done.
  - exists (settle (next_id_ r) (Throw (StdException "Write failed")) r2).
    split_and!; [by apply settle_ok|by rewrite settle_next|]. unfold settle.
    rewrite bool_decide_eq_true_2 by (cbn; set_solver). cbn [settled_]. by rewrite lookup_insert_eq.
Qed.

(** A request is answered by its own reply: it is written under an id no request
    had, and what it comes to is told by the first line, of those that arrive
    while it is awaited, that carries this id: its error, or the whole reply.
    Lines that came before it was sent, lines for other requests and lines that
    are no replies change nothing; with no such line it times out, and a line
    that could not be written fails at once. *)
Theorem SendRequest_spec method params c w r t :
  rpc c = Some r -> transport c = Some t -> rpc_ok r -> next_id_ r < int_max ->
  let '(t1, w1, before) := Heard tr t w in
  let '(t2, w2, written) := WriteLine tr (serialize (request_json (next_id_ r) method params)) t1 w1 in
  let '(t3, w3, lines) := if written : bool then Heard tr t2 w2 else (t2, w2, []) in
  exists r', rpc_ok r' /\ next_id_ r' = next_id_ r + 1
    /\ SendRequest tr method params c w = (set_line t3 r' c, w3, answered (next_id_ r) written lines).
Proof. apply SendRequest_answers. Qed.

(** A client whose handshake succeeded. *)
Definition ready (c : McpClient T) : Prop :=
  connected c = true /\ exists r t, rpc c = Some r /\ transport c = Some t /\ rpc_ok r.

Lemma first_reply_defined id lines out : first_reply id lines = Some out -> out <> Undef.
Proof.
  unfold first_reply. intros H. apply head_Some_elem_of, list_elem_of_omap in H as (line & _ & H).
  apply bind_Some in H as ([k out'] & Hr & H). case_decide; [|done]. injection H as <-.
  unfold reply_of in Hr. destruct (parse line) as [j|]; [|done].
  destruct (at_key j "id") as [[| |n| | | | |]|]; try done. apply bind_Some in Hr as (id' & _ & [= _ <-]).
  by destruct (at_key j "error").
Qed.

Lemma answered_defined id written lines : answered id written lines <> Undef.
Proof.
  unfold answered. destruct written; [|done]. destruct (first_reply id lines) as [out|] eqn:E; [|done].
  by eapply first_reply_defined.
Qed.

Lemma call_text_defined resp : call_text resp <> Undef.
Proof. unfold call_text. by repeat case_match. Qed.

(** What a call says, whatever came of it. *)
Definition told_text (out : res value) : string :=
  match res_bind out call_text with Ok text => text | Throw e => "MCP call error: " +:+ what e | Undef => "" end.

Lemma CallTool_answers name args c w r t :
  connected c = true -> rpc c = Some r -> transport c = Some t -> rpc_ok r -> next_id_ r < int_max ->
  let '(t1, w1, before) := Heard tr t w in
  let params := JObject [("name", JString name); ("arguments", args)] in
  let '(t2, w2, written) := WriteLine tr (serialize (request_json (next_id_ r) "tools/call" params)) t1 w1 in
  let '(t3, w3, lines) := if written : bool then Heard tr t2 w2 else (t2, w2, []) in
  exists r', rpc_ok r' /\ next_id_ r' = next_id_ r + 1
    /\ CallTool tr name args c w = (set_line t3 r' c, w3, Ok (told_text (answered (next_id_ r) written lines))).
Proof.
  intros Hc Hr Ht Hok Hmax.
  pose proof (SendRequest_answers "tools/call" (JObject [("name", JString name); ("arguments", args)])
    c w r t Hr Ht Hok Hmax) as H. cbv zeta.
  destruct (Heard tr t w) as [[t1 w1] before]. destruct (WriteLine tr _ t1 w1) as [[t2 w2] written].
  destruct (if written then Heard tr t2 w2 else (t2, w2, [])) as [[t3 w3] lines].
  destruct H as (r' & Hr' & Hn & H). exists r'. split_and!; [done|done|]. unfold CallTool. rewrite Hc. cbn [negb].
  rewrite H. do 2 f_equal. unfold told_text. pose proof (answered_defined (next_id_ r) written lines).
  destruct (answered _ written lines) as [resp|e|]; cbn [res_bind]; [|done|done].
  pose proof (call_text_defined resp). by destruct (call_text resp).
Qed.

Definition looks_failed (text : string) : bool :=
  starts_with "Error:" text || starts_with "MCP error:" text || starts_with "MCP call error:" text.

(** A tool of a server reports what came of its call and never throws: a request
    that timed out, could not be written or was answered with an error is a
    failed result that says why; a reply is a result with the text of its
    content, or the reply itself where it has none, failed exactly when that
    text begins as an error does. *)
Theorem McpTool_reports `{!JsonCodecOk codec} name args c w r t :
  connected c = true -> rpc c = Some r -> transport c = Some t -> rpc_ok r -> next_id_ r < int_max ->
  let '(t1, w1, before) := Heard tr t w in
  let params := JObject [("name", JString name); ("arguments", args)] in
  let '(t2, w2, written) := WriteLine tr (serialize (request_json (next_id_ r) "tools/call" params)) t1 w1 in
  let '(t3, w3, lines) := if written : bool then Heard tr t2 w2 else (t2, w2, []) in
  let outcome := answered (next_id_ r) written lines in
  exists r' raw,
    McpTool_Execute tr name args c w = (set_line t3 r' c, w3, Ok raw)
    /\ ready (set_line t3 r' c)
    /\ ParseToolResult raw
       = (let text := told_text outcome in
          mkResult true (negb (looks_failed text)) false kNoRefusal (SanitizeUtf8 text)
            (if looks_failed text then SanitizeUtf8 text else "") (if looks_failed text then 1 else 0))
    /\ (forall e, outcome = Throw e -> looks_failed (told_text outcome) = true).
Proof.
  intros Hc Hr Ht Hok Hmax. pose proof (CallTool_answers name args c w r t Hc Hr Ht Hok Hmax) as H. cbv zeta in H |- *.
  destruct (Heard tr t w) as [[t1 w1] before]. destruct (WriteLine tr _ t1 w1) as [[t2 w2] written].
  destruct (if written then Heard tr t2 w2 else (t2, w2, [])) as [[t3 w3] lines].
  destruct H as (r' & Hr' & Hn & H). set (text := told_text _) in *.
  exists r', (WrapResult text). split_and!.
  - unfold McpTool_Execute. rewrite Hc. cbn [negb]. by rewrite H.
  - split; [done|]. by exists r', t3.
  - unfold WrapResult. fold (looks_failed text). destruct (looks_failed text); by rewrite ParseToolResult_flags.
  - intros e He. unfold text, told_text. by rewrite He.
Qed.

End ClientFacts.

(** ** Two things the code does *)

(** A server that hears everything and says what a script has for each time it
    is listened to. *)
Definition script_transport : Transport (list (list string)) unit :=
  mkTransport (fun _ => tt) (fun t w => (t, w, true)) (fun t w => (t, w)) (fun _ t w => (t, w, true))
    (fun t w => (t, tail w, default [] (head w))).

Definition demo_server : McpServerConfig := mkMcpServer "files" "files-mcp" [] "" ∅.

Definition demo_client (r : JsonRpcClient) : McpClient unit := mkMcpClient demo_server (Some tt) (Some r) true [].

Definition demo_reply (id : Z) (result : value) : string :=
  serialize (JsonCodec := bit_codec) (JObject [("jsonrpc", JString "2.0"); ("id", JInt64 id); ("result", result)]).

Definition demo_content (text : string) (extra : object) : value :=
  JObject ([("content", JArray [JObject [("type", JString "text"); ("text", JString text)]])] ++ extra).

(** A server that says its tool failed is not heard: [isError] is not read, so
    the tool reports a success. *)
Example Is_error_ignored :
  let lines := [[]; [demo_reply 1 (demo_content "no such file" [("isError", JBool true)])]] in
  let '(_, _, out) :=
    McpTool_Execute (codec := bit_codec) script_transport "read" (JObject []) (demo_client new_rpc) lines in
  res_map (ParseToolResult (codec := bit_codec)) out
  = Ok (mkResult true true false kNoRefusal ("no such file" +:+ NL) "" 0).
Proof. vm_compute. reflexivity. Qed.

(** The network for the requests of an HTTP transport, one after the other: the
    first reply breaks off within a line, the second is whole. *)
Definition breaking_dial (_ : Http.Request) (n : nat) : nat * Network :=
  (S n, if (n =? 0)%nat
        then mkNetwork (Ok tt) None None None (inr 200) ["one" +:+ NL +:+ "tw"] (Some Http.TimedOut)
        else mkNetwork (Ok tt) None None None (inr 200) ["three" +:+ NL] None).

(** A reply that breaks off spills into the next: what it left of a line is
    joined to the first line of the reply to the next request, so that reply is
    lost. *)
Example Broken_reply_spills :
  let t := mkHttpTransport "http://localhost:9" ∅ "" ["first"; "second"] true false in
  (WorkerLoop (codec := bit_codec) breaking_dial 2 t 0%nat).2 = ["one"; "twthree"].
Proof. vm_compute. reflexivity. Qed.

(** A request that timed out stays pending until its reply comes, and a reply
    that comes too late is nobody's: the request that is awaited then times out
    as well when it has none of its own. *)
Example Late_reply_dropped :
  let late := demo_reply 1 (demo_content "late" []) in
  let '(c, w, out) := CallTool (codec := bit_codec) script_transport "slow" JNull (demo_client new_rpc) [[]; []; [late]; []] in
  out = Ok "MCP call error: MCP request timeout"
  /\ (pending_ <$> rpc c) = Some {[1]}
  /\ let '(c, _, out) := CallTool (codec := bit_codec) script_transport "next" JNull c w in
     out = Ok "MCP call error: MCP request timeout" /\ (pending_ <$> rpc c) = Some {[2]}.
Proof. vm_compute. by repeat split. Qed.

(** ** Witnesses *)

Lemma Readers_rejoin_witness :
  ReaderLoop "ab" ["c" +:+ NL +:+ "data: "; "x" +:+ NL] = (["abc"; "data: x"], "")
  /\ DispatchChunks "ab" ["c" +:+ NL +:+ "data: "; "x" +:+ NL] = (["abc"; "x"], "").
Proof.
  exact (Readers_rejoin "ab" ["c" +:+ NL +:+ "data: "; "x" +:+ NL] ["c" +:+ NL; "data: x" +:+ NL] eq_refl eq_refl).
Defined.

Lemma SendRequest_spec_witness :
  let told := JObject [("tools", JArray [])] in
  exists r', SendRequest (codec := bit_codec) script_transport "tools/list" JNull (demo_client new_rpc)
      [[demo_reply 1 JNull]; [demo_reply 7 JNull; demo_reply 1 told; demo_reply 1 JNull]; []]
    = (set_line tt r' (demo_client new_rpc), [[]],
       Ok (JObject [("jsonrpc", JString "2.0"); ("id", JInt64 1); ("result", told)])).
Proof.
  destruct (SendRequest_spec (codec := bit_codec) script_transport "tools/list" JNull (demo_client new_rpc)
    [[demo_reply 1 JNull];
     [demo_reply 7 JNull; demo_reply 1 (JObject [("tools", JArray [])]); demo_reply 1 JNull]; []]
    new_rpc tt eq_refl eq_refl new_rpc_ok eq_refl) as (r' & _ & _ & E).
  exists r'. etrans; [exact E|]. vm_compute. reflexivity.
Defined.

Lemma McpTool_reports_witness :
  exists raw, (McpTool_Execute (codec := bit_codec) script_transport "read" JNull (demo_client new_rpc)
                 [[]; [demo_reply 1 (demo_content "hello" [])]]).2 = Ok raw
    /\ r_success (ParseToolResult (codec := bit_codec) raw) = true.
Proof.
  destruct (McpTool_reports (codec := bit_codec) script_transport "read" JNull (demo_client new_rpc)
    [[]; [demo_reply 1 (demo_content "hello" [])]] new_rpc tt eq_refl eq_refl eq_refl new_rpc_ok eq_refl)
    as (r' & raw & E & _ & P & _).
  exists raw. split; [exact (f_equal snd E)|]. etrans; [exact (f_equal r_success P)|]. vm_compute. reflexivity.
Defined.
