(* ===== verification/Stdio.v ===== *)
(** * The process behind a stdio server ([src/mcp/stdio_transport.cpp], its POSIX half)

    [Mcp.StdioTransport_] takes starting, writing to, hearing and stopping a
    child as given; here they are the system calls of the transport, made on any
    kernel.  The reader thread is a state machine whose steps interleave with the
    calls of the transport; what a call of the kernel answers is the kernel's.

    A transport accounts for every descriptor and every child it made, stopping
    one takes a bounded time whatever the child does, and the transport refines
    the one [Mcp] assumes. *)
From Stdlib Require Import Ascii.
From S2P Require Export Prelude Text Mcp.

(** ** The kernel *)

Inductive signal := SIGTERM | SIGKILL.
(** What [write], [waitpid] with [WNOHANG], [poll] and [read] answer.  A write to
    a pipe nobody reads raises [SIGPIPE]. *)
Inductive wrote := Wrote (n : nat) | WriteFailed | NobodyReads.
Inductive waited := StillRunning | Reaped | WaitInterrupted | WaitFailed.
Inductive polled := Readable | Quiet | PollInterrupted | PollFailed.
(** No bytes are the end of the stream. *)
Inductive got := Got (chunk : string) | ReadInterrupted | ReadFailed.

(** The calls as the parent makes them; a pipe is its read and its write end. *)
Record Kernel (W : Type) := mkKernel {
  k_pipe : W -> W * option (N * N);
  k_fork : W -> W * option positive;
  k_close : Z -> W -> W;
  k_write : Z -> string -> W -> W * wrote;
  k_poll : Z -> Z -> W -> W * polled;
  k_read : Z -> Z -> W -> W * got;
  k_kill : Z -> signal -> W -> W;
  k_waitpid : Z -> W -> W * waited;
  k_wait : Z -> W -> W;
  k_usleep : Z -> W -> W;
}.
Arguments mkKernel {W} _ _ _ _ _ _ _ _ _ _.
Arguments k_pipe {W} _ _.
Arguments k_fork {W} _ _.
Arguments k_close {W} _ _ _.
Arguments k_write {W} _ _ _ _.
Arguments k_poll {W} _ _ _ _.
Arguments k_read {W} _ _ _ _.
Arguments k_kill {W} _ _ _ _.
Arguments k_waitpid {W} _ _ _.
Arguments k_wait {W} _ _ _.
Arguments k_usleep {W} _ _ _.

(** ** The transport *)

Definition kReapAttempts : nat := 100.
Definition kReapWaitMs : Z := 20.
Definition kReadPollMs : Z := 100.
(** [sizeof(buffer) - 1] *)
Definition kReadSize : Z := 4095.

(** Where the reader thread is. *)
Inductive reader_at := AtTop | AtPoll | AtRead | Ended.

#[export] Instance reader_at_eq_dec : EqDecision reader_at.
Proof. solve_decision. Defined.

Record reader := mkReader { rd_at : reader_at; rd_fd : Z; rd_leftover : string }.

(** A thread that has not been joined is there even when it ended. *)
Record Stdio := mkStdio {
  sd_command : string; sd_args : list string; stdin_fd_ : Z; stdout_fd_ : Z; pid_ : Z;
  reader_thread_ : option reader; running_ : bool
}.

Definition new_stdio (command : string) (args : list string) : Stdio := mkStdio command args (-1) (-1) (-1) None false.

Definition set_process (stdin_fd stdout_fd pid : Z) (t : Stdio) : Stdio :=
  mkStdio (sd_command t) (sd_args t) stdin_fd stdout_fd pid (reader_thread_ t) (running_ t).
Definition set_thread (r : option reader) (t : Stdio) : Stdio :=
  mkStdio (sd_command t) (sd_args t) (stdin_fd_ t) (stdout_fd_ t) (pid_ t) r (running_ t).
Definition set_running (on : bool) (t : Stdio) : Stdio :=
  mkStdio (sd_command t) (sd_args t) (stdin_fd_ t) (stdout_fd_ t) (pid_ t) (reader_thread_ t) on.

(** Whether the program outlives a call: a signal nobody handles ends it, and so
    does the destruction of a thread that was not joined. *)
Inductive fate (A : Type) := Lives (a : A) | Dies.
Arguments Lives {A} a.
Arguments Dies {A}.

Section Transport.
#[local] Set Default Proof Using "Type*".
Context {W : Type} (k : Kernel W).

(** *** Starting *)

Definition SpawnProcess (t : Stdio) (w : W) : Stdio * W * bool :=
  let '(w, stdin_pipe) := k_pipe k w in
  match stdin_pipe with
  | None => (t, w, false)
  | Some (stdin_read, stdin_write) =>
      let '(w, stdout_pipe) := k_pipe k w in
      match stdout_pipe with
      | None => (t, w, false)
      | Some (stdout_read, stdout_write) =>
          let '(w, pid) := k_fork k w in
          match pid with
          | None =>
              let w := k_close k (Z.of_N stdin_read) w in
              let w := k_close k (Z.of_N stdin_write) w in
              let w := k_close k (Z.of_N stdout_read) w in
              let w := k_close k (Z.of_N stdout_write) w in
              (set_process (stdin_fd_ t) (stdout_fd_ t) (-1) t, w, false)
          | Some pid =>
              let w := k_close k (Z.of_N stdin_read) w in
              let w := k_close k (Z.of_N stdout_write) w in
              (set_process (Z.of_N stdin_write) (Z.of_N stdout_read) (Z.pos pid) t, w, true)
          end
      end
  end.

(** Assigning to a thread that was not joined ends the program. *)
Definition Start (t : Stdio) (w : W) : fate (Stdio * W * bool) :=
  if running_ t then Lives (t, w, true)
  else
    let '(t, w, started) := SpawnProcess t w in
    if started : bool then
      match reader_thread_ t with
      | Some _ => Dies
      | None => Lives (set_thread (Some (mkReader AtTop (stdout_fd_ t) "")) (set_running true t), w, true)
      end
    else Lives (t, w, false).

(** *** The reader *)

Definition ends_reader (r : reader) (t : Stdio) : Stdio :=
  set_thread (Some (mkReader Ended (rd_fd r) (rd_leftover r))) (set_running false t).

(** A step of [ReaderLoop], up to its next call, and the messages it hands over. *)
Definition reader_step (r : reader) (t : Stdio) (w : W) : Stdio * W * list string :=
  let goes to_ := set_thread (Some (mkReader to_ (rd_fd r) (rd_leftover r))) t in
  match rd_at r with
  | AtTop => if running_ t then (goes AtPoll, w, []) else (ends_reader r t, w, [])
  | AtPoll =>
      let '(w, ready) := k_poll k (rd_fd r) kReadPollMs w in
      match ready with
      | Readable => (goes AtRead, w, [])
      | Quiet | PollInterrupted => (goes AtTop, w, [])
      | PollFailed => (ends_reader r t, w, [])
      end
  | AtRead =>
      let '(w, n) := k_read k (rd_fd r) kReadSize w in
      match n with
      | ReadInterrupted => (goes AtTop, w, [])
      | ReadFailed => (ends_reader r t, w, [])
      | Got chunk =>
          if sempty chunk then (ends_reader r t, w, [])
          else
            let '(lines, leftover) := ReadChunk (rd_leftover r) chunk in
            (set_thread (Some (mkReader AtTop (rd_fd r) leftover)) t, w, lines)
      end
  | Ended => (t, w, [])
  end.

(** One step of the thread, where there is one. *)
Definition Reads (t : Stdio) (w : W) : Stdio * W * list string :=
  match reader_thread_ t with Some r => reader_step r t w | None => (t, w, []) end.

Fixpoint reads (n : nat) (t : Stdio) (w : W) : Stdio * W * list string :=
  match n with
  | O => (t, w, [])
  | S n =>
      let '(t, w, heard) := Reads t w in
      let '(t, w, more) := reads n t w in
      (t, w, heard ++ more)
  end.

(** *** Writing *)

Definition WriteLine (line : string) (t : Stdio) (w : W) : fate (Stdio * W * bool) :=
  if stdin_fd_ t =? -1 then Lives (t, w, false)
  else
    let out := line +:+ NL in
    let '(w, written) := k_write k (stdin_fd_ t) out w in
    match written with
    | Wrote n => Lives (t, w, bool_decide (n = slen out))
    | WriteFailed => Lives (t, w, false)
    | NobodyReads => Dies
    end.

(** *** Stopping *)

Definition close_stdin (t : Stdio) (w : W) : Stdio * W :=
  if stdin_fd_ t =? -1 then (t, w)
  else (set_process (-1) (stdout_fd_ t) (pid_ t) t, k_close k (stdin_fd_ t) w).

Definition close_stdout (t : Stdio) (w : W) : Stdio * W :=
  if stdout_fd_ t =? -1 then (t, w)
  else (set_process (stdin_fd_ t) (-1) (pid_ t) t, k_close k (stdout_fd_ t) w).

(** [join]: the thread goes on until it ended, and is gone.  With [running_]
    cleared it has at most a poll, a read and a look at the flag before it, so
    three steps are enough; one that had not ended would still be there. *)
Definition joined (t : Stdio) : Stdio :=
  match reader_thread_ t with
  | Some r => if bool_decide (rd_at r = Ended) then set_thread None t else t
  | None => t
  end.

Definition join_reader (t : Stdio) (w : W) : Stdio * W * list string :=
  let '(t, w, heard) := reads 3 t w in (joined t, w, heard).

Definition set_pid (pid : Z) (t : Stdio) : Stdio := set_process (stdin_fd_ t) (stdout_fd_ t) pid t.

Fixpoint reap (attempts : nat) (t : Stdio) (w : W) : Stdio * W :=
  match attempts with
  | O => (t, w)
  | S attempts =>
      let '(w, reaped) := k_waitpid k (pid_ t) w in
      match reaped with
      | Reaped | WaitFailed => (set_pid (-1) t, w)
      | StillRunning | WaitInterrupted => reap attempts t (k_usleep k (kReapWaitMs * 1000) w)
      end
  end.

Definition end_process (t : Stdio) (w : W) : Stdio * W :=
  if 0 <? pid_ t then
    let w := k_kill k (pid_ t) SIGTERM w in
    let '(t, w) := reap kReapAttempts t w in
    if 0 <? pid_ t then
      let w := k_kill k (pid_ t) SIGKILL w in
      let w := k_wait k (pid_ t) w in
      (set_pid (-1) t, w)
    else (t, w)
  else (t, w).

Definition Stop (t : Stdio) (w : W) : Stdio * W * list string :=
  let t := set_running false t in
  let '(t, w) := close_stdin t w in
  let '(t, w, heard) := join_reader t w in
  let '(t, w) := close_stdout t w in
  let '(t, w) := end_process t w in
  (t, w, heard).

(** *** Runs: the calls of the client and the steps of the reader, in any order *)

Inductive stdio_op := OpStart | OpWrite (line : string) | OpRead | OpStop.

Definition apply_op (op : stdio_op) (t : Stdio) (w : W) : fate (Stdio * W * list string) :=
  match op with
  | OpStart => match Start t w with Lives (t, w, _) => Lives (t, w, []) | Dies => Dies end
  | OpWrite line => match WriteLine line t w with Lives (t, w, _) => Lives (t, w, []) | Dies => Dies end
  | OpRead => Lives (Reads t w)
  | OpStop => Lives (Stop t w)
  end.

Fixpoint run (ops : list stdio_op) (t : Stdio) (w : W) : fate (Stdio * W * list string) :=
  match ops with
  | [] => Lives (t, w, [])
  | op :: ops =>
      match apply_op op t w with
      | Dies => Dies
      | Lives (t, w, heard) =>
          match run ops t w with
          | Dies => Dies
          | Lives (t, w, more) => Lives (t, w, heard ++ more)
          end
      end
  end.

End Transport.

(** ** The child's side of [fork] *)

Inductive child_call :=
  | Dup2 (from to_ : N) | CloseFd (fd : N) | Execvp (file : string) (argv : list string)
  | WriteErr (message : string) | Exit (code : Z).

(** What runs between [fork] and the server: [execvp] returns only with an error,
    here its words. *)
Definition child_main (command : string) (args : list string) (stdin_pipe stdout_pipe : N * N) (exec_error : option string)
    : list child_call :=
  [Dup2 stdin_pipe.1 0; Dup2 stdout_pipe.2 1; CloseFd stdin_pipe.2; CloseFd stdout_pipe.1; CloseFd stdin_pipe.1;
   CloseFd stdout_pipe.2; Execvp command (command :: args)]
  ++ match exec_error with
     | None => []
     | Some e => [WriteErr ("mcp: cannot run '" +:+ command +:+ "': " +:+ e +:+ NL); Exit 127]
     end.

(** What a descriptor is of: an end of one of the two pipes, or something the
    program had open. *)
Inductive file_end := StdinRead | StdinWrite | StdoutRead | StdoutWrite | Inherited (n : N).

Definition child_step (table : gmap N file_end) (c : child_call) : gmap N file_end :=
  match c with
  | Dup2 from to_ => match table !! from with Some f => <[to_ := f]> table | None => table end
  | CloseFd fd => delete fd table
  | _ => table
  end.

Definition child_table (table : gmap N file_end) (calls : list child_call) : gmap N file_end := foldl child_step table calls.

(** ** The calls a run made *)

Inductive call :=
  | CPipe (made : option (N * N)) | CFork (pid : option positive) | CClose (fd : Z) | CWrite (fd : Z) (text : string)
  | CPoll (fd ms : Z) | CRead (fd size : Z) | CKill (pid : Z) (sig : signal) | CWaitpid (pid : Z) (out : waited)
  | CWait (pid : Z) | CUsleep (us : Z).

(** A kernel that keeps the calls made to it. *)
Definition logged {W} (k : Kernel W) : Kernel (list call * W) :=
  mkKernel
    (fun w => let '(w', out) := k_pipe k w.2 in ((w.1 ++ [CPipe out], w'), out))
    (fun w => let '(w', out) := k_fork k w.2 in ((w.1 ++ [CFork out], w'), out))
    (fun fd w => (w.1 ++ [CClose fd], k_close k fd w.2))
    (fun fd text w => let '(w', out) := k_write k fd text w.2 in ((w.1 ++ [CWrite fd text], w'), out))
    (fun fd ms w => let '(w', out) := k_poll k fd ms w.2 in ((w.1 ++ [CPoll fd ms], w'), out))
    (fun fd size w => let '(w', out) := k_read k fd size w.2 in ((w.1 ++ [CRead fd size], w'), out))
    (fun pid sig w => (w.1 ++ [CKill pid sig], k_kill k pid sig w.2))
    (fun pid w => let '(w', out) := k_waitpid k pid w.2 in ((w.1 ++ [CWaitpid pid out], w'), out))
    (fun pid w => (w.1 ++ [CWait pid], k_wait k pid w.2))
    (fun us w => (w.1 ++ [CUsleep us], k_usleep k us w.2)).

(** The descriptors the pipes made, those closed, the children made and those
    waited for, and the pipes that could not be made. *)
Definition opened (l : list call) : list Z :=
  l ≫= (fun c => match c with CPipe (Some (r, w)) => [Z.of_N r; Z.of_N w] | _ => [] end).
Definition closed (l : list call) : list Z := l ≫= (fun c => match c with CClose fd => [fd] | _ => [] end).
Definition forked (l : list call) : list Z := l ≫= (fun c => match c with CFork (Some pid) => [Z.pos pid] | _ => [] end).
Definition waited_for (l : list call) : list Z :=
  l ≫= (fun c => match c with CWaitpid pid Reaped | CWaitpid pid WaitFailed | CWait pid => [pid] | _ => [] end).
Definition failed_pipes (l : list call) : nat :=
  length (List.filter (fun c => match c with CPipe None => true | _ => false end) l).

(** ** What a transport holds *)

Definition held (t : Stdio) : list Z :=
  (if stdin_fd_ t =? -1 then [] else [stdin_fd_ t]) ++ (if stdout_fd_ t =? -1 then [] else [stdout_fd_ t]).
Definition children (t : Stdio) : list Z := if 0 <? pid_ t then [pid_ t] else [].

(** A transport without a thread holds nothing; one with a thread, its child and
    the two ends, and the thread reads the child's output and runs on where the
    flag is set. *)
Definition stdio_ok (t : Stdio) : Prop :=
  match reader_thread_ t with
  | None => stdin_fd_ t = -1 /\ stdout_fd_ t = -1 /\ pid_ t = -1 /\ running_ t = false
  | Some r => 0 <= stdin_fd_ t /\ 0 <= stdout_fd_ t /\ 0 < pid_ t /\ rd_fd r = stdout_fd_ t
              /\ running_ t = negb (bool_decide (rd_at r = Ended))
  end.

(** The books of a stretch of calls: what was made and what was held is what was
    closed and what is held; what is stranded are the ends of pipes made before
    one that could not be. *)
Definition books (t : Stdio) (made : list call) (t' : Stdio) : Prop :=
  (exists stranded, opened made ++ held t ≡ₚ closed made ++ held t' ++ stranded
     /\ (length stranded <= 2 * failed_pipes made)%nat)
  /\ forked made ++ children t ≡ₚ waited_for made ++ children t'.

Lemma opened_app l1 l2 : opened (l1 ++ l2) = opened l1 ++ opened l2. Proof. apply bind_app. Qed.
Lemma closed_app l1 l2 : closed (l1 ++ l2) = closed l1 ++ closed l2. Proof. apply bind_app. Qed.
Lemma forked_app l1 l2 : forked (l1 ++ l2) = forked l1 ++ forked l2. Proof. apply bind_app. Qed.
Lemma waited_for_app l1 l2 : waited_for (l1 ++ l2) = waited_for l1 ++ waited_for l2. Proof. apply bind_app. Qed.
Lemma failed_pipes_app l1 l2 : failed_pipes (l1 ++ l2) = (failed_pipes l1 + failed_pipes l2)%nat.
Proof. unfold failed_pipes. by rewrite List.filter_app, length_app. Qed.

Lemma ledger_trans (o1 h c1 h1 s1 o2 c2 h2 s2 : list Z) :
  o1 ++ h ≡ₚ c1 ++ h1 ++ s1 -> o2 ++ h1 ≡ₚ c2 ++ h2 ++ s2 -> (o1 ++ o2) ++ h ≡ₚ (c1 ++ c2) ++ h2 ++ s1 ++ s2.
Proof.
  intros H1 H2. trans (o2 ++ o1 ++ h); [solve_Permutation|]. rewrite H1.
  trans ((o2 ++ h1) ++ c1 ++ s1); [solve_Permutation|]. rewrite H2. solve_Permutation.
Qed.

Lemma books_refl t : books t [] t.
Proof. split; [exists []; split; [by rewrite app_nil_r|done]|done]. Qed.

Lemma books_trans t made t1 made' t2 : books t made t1 -> books t1 made' t2 -> books t (made ++ made') t2.
Proof.
  intros [(s1 & H1 & L1) F1] [(s2 & H2 & L2) F2]. unfold books.
  rewrite opened_app, closed_app, forked_app, waited_for_app, failed_pipes_app. split.
  - exists (s1 ++ s2). rewrite length_app. split; [|lia]. by eapply ledger_trans.
  - rewrite <- (app_nil_r (children t2)). apply (ledger_trans _ _ _ (children t1) [] _ _ _ []); by rewrite app_nil_r.
Qed.

(** What a stretch of calls did to the log. *)
Definition made_by {W} (t : Stdio) (w : list call * W) (t' : Stdio) (w' : list call * W) : Prop :=
  exists made, w'.1 = w.1 ++ made /\ books t made t'.

Section Books.
#[local] Set Default Proof Using "Type*".
Context {W : Type} (k : Kernel W).
Abbreviation world := (list call * W)%type.
Implicit Types (w : world) (t : Stdio).

Lemma made_by_refl t w : made_by t w t w.
Proof. exists []. rewrite app_nil_r. split; [done|apply books_refl]. Qed.

Lemma made_by_trans t w t1 w1 t2 w2 : made_by t w t1 w1 -> made_by t1 w1 t2 w2 -> made_by t w t2 w2.
Proof.
  intros (m1 & E1 & B1) (m2 & E2 & B2). exists (m1 ++ m2). rewrite E2, E1, app_assoc. split; [done|].
  by eapply books_trans.
Qed.

(** A call that makes, closes and waits for nothing. *)
Lemma made_by_call t w t' w' c :
  w'.1 = w.1 ++ [c] -> opened [c] = [] -> closed [c] = [] -> forked [c] = [] -> waited_for [c] = [] ->
  held t' = held t -> children t' = children t -> made_by t w t' w'.
Proof.
  intros E Ho Hc Hf Hw Hh Hk. exists [c]. split; [done|]. unfold books. rewrite Ho, Hc, Hf, Hw, Hh, Hk.
  split; [exists []; rewrite app_nil_r; split; [done|cbn; lia]|done].
Qed.

(** A move of the thread alone. *)
Lemma made_by_none t w t' : held t' = held t -> children t' = children t -> made_by t w t' w.
Proof.
  intros Hh Hk. exists []. rewrite app_nil_r. split; [done|]. unfold books. rewrite Hh, Hk.
  split; [exists []; rewrite app_nil_r; split; [done|cbn; lia]|done].
Qed.

Lemma held_none t : stdin_fd_ t = -1 -> stdout_fd_ t = -1 -> held t = [].
Proof. intros H1 H2. unfold held. by rewrite H1, H2. Qed.

Lemma Spawn_books t w t' w' started :
  held t = [] -> children t = [] -> SpawnProcess (logged k) t w = (t', w', started) ->
  made_by t w t' w' /\ sd_command t' = sd_command t /\ sd_args t' = sd_args t
  /\ reader_thread_ t' = reader_thread_ t /\ running_ t' = running_ t
  /\ (if started then 0 <= stdin_fd_ t' /\ 0 <= stdout_fd_ t' /\ 0 < pid_ t'
      else stdin_fd_ t' = stdin_fd_ t /\ stdout_fd_ t' = stdout_fd_ t /\ (pid_ t' = pid_ t \/ pid_ t' = -1)).
Proof.
  intros Hh Hc. unfold SpawnProcess, logged. cbn [k_pipe k_fork k_close].
  destruct (k_pipe k w.2) as [w1 [[r0 w0]|]]; cbn [fst snd].
  2:{ intros [= <- <- <-]. split_and!; try done; [|by left]. exists [CPipe None]. split; [done|]. unfold books. rewrite Hh, Hc.
      split; [exists []; split; [done|cbn; lia]|done]. }
  destruct (k_pipe k w1) as [w2 [[r1 w1']|]]; cbn [fst snd].
  2:{ intros [= <- <- <-]. split_and!; try done; [|by left]. exists [CPipe (Some (r0, w0)); CPipe None]. cbn [fst].
      split; [by rewrite <- app_assoc|]. unfold books. rewrite Hh, Hc.
      split; [exists [Z.of_N r0; Z.of_N w0]; split; [done|cbn; lia]|done]. }
  destruct (k_fork k w2) as [w3 [pid|]]; cbn [fst snd]; intros [= <- <- <-]; split_and!; cbn; try lia; try done.
  - exists [CPipe (Some (r0, w0)); CPipe (Some (r1, w1')); CFork (Some pid); CClose (Z.of_N r0); CClose (Z.of_N w1')].
    cbn [fst]. split; [by rewrite <- !app_assoc|]. unfold books. rewrite Hh, Hc. split.
    + exists []. split; [|cbn; lia]. unfold held. cbn.
      rewrite !(proj2 (Z.eqb_neq _ _)) by lia. cbn. solve_Permutation.
    + by cbn.
  - exists [CPipe (Some (r0, w0)); CPipe (Some (r1, w1')); CFork None; CClose (Z.of_N r0); CClose (Z.of_N w0);
            CClose (Z.of_N r1); CClose (Z.of_N w1')].
    cbn [fst]. split; [by rewrite <- !app_assoc|]. unfold books. rewrite Hh, Hc.
    assert (Hh' : held (set_process (stdin_fd_ t) (stdout_fd_ t) (-1) t) = []) by exact Hh. rewrite Hh'.
    split; [exists []; split; [done|cbn; lia]|done].
Qed.

Lemma Spawn_thread {V} (k' : Kernel V) t (w w' : V) t' started : SpawnProcess k' t w = (t', w', started) -> reader_thread_ t' = reader_thread_ t.
Proof.
  unfold SpawnProcess. destruct (k_pipe k' w) as [w1 [[r0 w0]|]]; [|by intros [= <- _ _]].
  destruct (k_pipe k' w1) as [w2 [[r1 w1']|]]; [|by intros [= <- _ _]]. by destruct (k_fork k' w2) as [w3 [pid|]]; intros [= <- _ _].
Qed.

(** The reader makes and closes nothing, and touches neither the child nor the
    ends of its pipes. *)
Definition same_process t t' : Prop :=
  sd_command t' = sd_command t /\ sd_args t' = sd_args t /\ stdin_fd_ t' = stdin_fd_ t /\ stdout_fd_ t' = stdout_fd_ t
  /\ pid_ t' = pid_ t.

Lemma same_process_held t t' : same_process t t' -> held t' = held t /\ children t' = children t.
Proof. intros (_ & _ & H1 & H2 & H3). unfold held, children. by rewrite H1, H2, H3. Qed.

(** How far a thread is from its end once the flag is cleared. *)
Definition steps_left (p : reader_at) : nat := match p with AtTop => 1 | AtPoll => 3 | AtRead => 2 | Ended => 0 end.

Lemma Reads_spec t w t' w' heard :
  Reads (logged k) t w = (t', w', heard) ->
  made_by t w t' w' /\ same_process t t'
  /\ match reader_thread_ t, reader_thread_ t' with
     | None, None => t' = t
     | Some r, Some r' =>
         rd_fd r' = rd_fd r
         /\ (if bool_decide (rd_at r = Ended) then t' = t
             else running_ t' = (if bool_decide (rd_at r' = Ended) then false else running_ t))
         /\ (running_ t = false -> steps_left (rd_at r') <= pred (steps_left (rd_at r)))%nat
     | _, _ => False
     end.
Proof.
  unfold Reads. destruct (reader_thread_ t) as [r|] eqn:Er; [|intros [= <- <- <-]; rewrite Er; split; [apply made_by_refl|done]].
  assert (Hc : forall c t1 (w1 : world), w1.1 = w.1 ++ [c] ->
    match c with CPoll _ _ | CRead _ _ => True | _ => False end -> same_process t t1 -> made_by t w t1 w1).
  { intros c t1 w1 E Hk Hs. destruct (same_process_held t t1 Hs). destruct c; try done; by apply (made_by_call t w t1 w1 _ E). }
  unfold reader_step, logged. cbn [k_poll k_read].
  destruct r as [[| | |] fd leftover]; cbn [rd_at rd_fd rd_leftover].
  - destruct (running_ t) eqn:Hr; intros [= <- <- <-]; cbn; (split; [|by split_and!]); by apply made_by_none.
  - destruct (k_poll k fd kReadPollMs w.2) as [w1 ready].
    destruct ready; intros [= <- <- <-]; cbn; (split; [by apply (Hc (CPoll fd kReadPollMs))|]); split_and!; try done; intros; lia.
  - destruct (k_read k fd kReadSize w.2) as [w1 [chunk| |]]; [destruct (sempty chunk); [|destruct (ReadChunk leftover chunk)]| |];
      intros [= <- <- <-]; cbn; (split; [by apply (Hc (CRead fd kReadSize))|]); split_and!; try done; intros; lia.
  - intros [= <- <- <-]. rewrite Er. split; [apply made_by_refl|]. by cbn.
Qed.

Lemma Reads_ok t w t' w' heard :
  stdio_ok t -> Reads (logged k) t w = (t', w', heard) -> made_by t w t' w' /\ same_process t t' /\ stdio_ok t'.
Proof.
  intros Hok H. apply Reads_spec in H as (Hm & Hs & H). split; [done|]. split; [done|]. unfold stdio_ok in *.
  destruct Hs as (_ & _ & E1 & E2 & E3). rewrite E1, E2, E3.
  destruct (reader_thread_ t) as [r|] eqn:Er, (reader_thread_ t') as [r'|] eqn:Er'; try done.
  - destruct H as (Hfd & Hr & _), Hok as (? & ? & ? & Hf & Hrun). rewrite Hfd. split_and!; try done.
    destruct (decide (rd_at r = Ended)) as [Hend|Hend].
    + rewrite bool_decide_true in Hr by done. subst t'. rewrite Er in Er'. injection Er' as <-. done.
    + rewrite bool_decide_false in Hr by done. rewrite Hr. case_bool_decide; [done|].
      rewrite Hrun. by rewrite bool_decide_false.
  - by subst t'.
Qed.

(** A thread whose flag is cleared is at its end after three steps. *)
Lemma reads_end n t w t' w' heard r :
  running_ t = false -> reader_thread_ t = Some r -> reads (logged k) n t w = (t', w', heard) ->
  made_by t w t' w' /\ same_process t t' /\ running_ t' = false
  /\ exists r', reader_thread_ t' = Some r' /\ (steps_left (rd_at r') <= steps_left (rd_at r) - n)%nat.
Proof.
  revert t w r heard. induction n as [|n IH]; intros t w r heard Hrun Hr; cbn [reads].
  { intros [= <- <- <-]. split; [apply made_by_refl|]. split; [done|]. split; [done|]. exists r. split; [done|lia]. }
  destruct (Reads (logged k) t w) as [[t1 w1] h1] eqn:E1. apply Reads_spec in E1 as (M1 & S1 & H1).
  destruct (reads (logged k) n t1 w1) as [[t2 w2] h2] eqn:E2. intros [= <- <- <-].
  rewrite Hr in H1. destruct (reader_thread_ t1) as [r1|] eqn:Er1; [|done]. destruct H1 as (_ & Hflag & Hleft).
  assert (Hrun1 : running_ t1 = false).
  { destruct (bool_decide (rd_at r = Ended)); [by subst t1|]. by destruct (bool_decide (rd_at r1 = Ended)); rewrite Hflag. }
  destruct (IH t1 w1 r1 h2 Hrun1 Er1 E2) as (M2 & S2 & Hrun2 & r2 & Er2 & L2).
  split; [by eapply made_by_trans|]. split; [unfold same_process in *; intuition congruence|]. split; [done|].
  exists r2. split; [done|]. specialize (Hleft Hrun). lia.
Qed.

Lemma join_ends t w t' w' heard r :
  running_ t = false -> reader_thread_ t = Some r -> reads (logged k) 3 t w = (t', w', heard) ->
  exists r', reader_thread_ t' = Some r' /\ rd_at r' = Ended.
Proof.
  intros Hrun Hr H. destruct (reads_end 3 t w t' w' heard r Hrun Hr H) as (_ & _ & _ & r' & Er' & L).
  exists r'. split; [done|]. destruct (rd_at r), (rd_at r'); cbn in L; done || lia.
Qed.

Lemma reap_spec n t w t' w' :
  0 < pid_ t -> reap (logged k) n t w = (t', w') ->
  made_by t w t' w' /\ (t' = t \/ t' = set_pid (-1) t).
Proof.
  intros Hp. revert w. induction n as [|n IH]; intros w; cbn [reap]; [intros [= <- <-]; split; [apply made_by_refl|by left]|].
  unfold logged at 1. cbn [k_waitpid]. destruct (k_waitpid k (pid_ t) w.2) as [w1 out].
  assert (Hc : children t = [pid_ t]) by (unfold children; by rewrite (proj2 (Z.ltb_lt _ _) Hp)).
  assert (Hagain : reap (logged k) n t (k_usleep (logged k) (kReapWaitMs * 1000) (w.1 ++ [CWaitpid (pid_ t) out], w1)) = (t', w') ->
            out = StillRunning \/ out = WaitInterrupted -> made_by t w t' w' /\ (t' = t \/ t' = set_pid (-1) t)).
  { intros H Hout. apply IH in H as [M Ht]. split; [|done]. eapply made_by_trans; [|exact M].
    exists [CWaitpid (pid_ t) out; CUsleep (kReapWaitMs * 1000)]. unfold logged; cbn [k_usleep fst snd].
    rewrite <- app_assoc. split; [done|]. unfold books. split; [exists []; rewrite app_nil_r; split; [done|cbn; lia]|].
    by destruct Hout as [-> | ->]. }
  destruct out; intros H; [by apply Hagain; [|left]| |by apply Hagain; [|right]|];
    injection H as <- <-; (split; [|by right]); eexists; (split; [done|]); unfold books; rewrite Hc;
    (split; [exists []; rewrite app_nil_r; split; [done|cbn; lia]|done]).
Qed.

Lemma close_stdin_spec t w t' w' :
  close_stdin (logged k) t w = (t', w') -> made_by t w t' w' /\ t' = set_process (-1) (stdout_fd_ t) (pid_ t) t.
Proof.
  unfold close_stdin. destruct (Z.eqb_spec (stdin_fd_ t) (-1)) as [E|E]; intros [= <- <-].
  - split; [apply made_by_refl|]. destruct t; cbn in *. by subst.
  - split; [|done]. exists [CClose (stdin_fd_ t)]. split; [done|]. unfold books. split; [|done].
    exists []. split; [|cbn; lia]. unfold held. cbn. rewrite (proj2 (Z.eqb_neq _ _) E). cbn. by rewrite app_nil_r.
Qed.

Lemma close_stdout_spec t w t' w' :
  close_stdout (logged k) t w = (t', w') -> made_by t w t' w' /\ t' = set_process (stdin_fd_ t) (-1) (pid_ t) t.
Proof.
  unfold close_stdout. destruct (Z.eqb_spec (stdout_fd_ t) (-1)) as [E|E]; intros [= <- <-].
  - split; [apply made_by_refl|]. destruct t; cbn in *. by subst.
  - split; [|done]. exists [CClose (stdout_fd_ t)]. split; [done|]. unfold books. split; [|done].
    exists []. split; [|cbn; lia]. unfold held. cbn. rewrite (proj2 (Z.eqb_neq _ _) E). cbn. rewrite !app_nil_r.
    destruct (stdin_fd_ t =? -1); cbn; solve_Permutation.
Qed.

Lemma end_process_spec t w t' w' :
  0 < pid_ t \/ pid_ t = -1 -> end_process (logged k) t w = (t', w') -> made_by t w t' w' /\ t' = set_pid (-1) t.
Proof.
  intros Hp. unfold end_process. destruct (Z.ltb_spec 0 (pid_ t)) as [Hpos|Hneg].
  2:{ intros [= <- <-]. split; [apply made_by_refl|]. destruct t; cbn in *. destruct Hp; [lia|by subst]. }
  assert (Hk : children t = [pid_ t]) by (unfold children; by rewrite (proj2 (Z.ltb_lt _ _) Hpos)).
  destruct (reap _ _ _ _) as [t1 w1] eqn:E. apply reap_spec in E as [M Ht]; [|done].
  assert (M1 : made_by t w t1 w1) by (eapply made_by_trans; [|exact M]; by apply (made_by_call t w t _ (CKill (pid_ t) SIGTERM))).
  destruct Ht as [-> | ->]; [|cbn; by intros [= <- <-]].
  rewrite (proj2 (Z.ltb_lt _ _) Hpos). intros [= <- <-]. split; [|done]. eapply made_by_trans; [exact M1|].
  exists [CKill (pid_ t) SIGKILL; CWait (pid_ t)]. cbn. rewrite <- app_assoc. split; [done|]. unfold books. rewrite Hk.
  split; [exists []; rewrite app_nil_r; split; [done|cbn; lia]|done].
Qed.

Lemma join_spec t w t' w' heard :
  running_ t = false -> join_reader (logged k) t w = (t', w', heard) ->
  made_by t w t' w' /\ same_process t t' /\ running_ t' = false /\ reader_thread_ t' = None.
Proof.
  intros Hr. unfold join_reader. destruct (reads (logged k) 3 t w) as [[t1 w1] h] eqn:E. intros [= <- <- <-].
  destruct (reader_thread_ t) as [r|] eqn:Er.
  - destruct (reads_end 3 t w t1 w1 h r Hr Er E) as (M & S & R & _).
    destruct (join_ends t w t1 w1 h r Hr Er E) as (r1 & Er1 & He).
    unfold joined. rewrite Er1, bool_decide_true by done. split; [eapply made_by_trans; [exact M|]; by apply made_by_none|].
    by split_and!; try apply S.
  - assert (t1 = t /\ w1 = w) as [-> ->].
    { revert E. cbn [reads]. unfold Reads. rewrite !Er. by intros [= <- <- <-]. }
    unfold joined. rewrite Er. by split; [apply made_by_refl|].
Qed.

(** A transport that was stopped is as it was made. *)
Lemma Stop_spec t w t' w' heard :
  stdio_ok t -> Stop (logged k) t w = (t', w', heard) -> made_by t w t' w' /\ t' = new_stdio (sd_command t) (sd_args t).
Proof.
  intros Hok. unfold Stop. destruct (close_stdin _ _ _) as [t1 w1] eqn:E1. apply close_stdin_spec in E1 as [M1 ->].
  destruct (join_reader _ _ _) as [[t2 w2] h] eqn:E2.
  apply join_spec in E2 as (M2 & (C2 & A2 & I2 & O2 & P2) & R2 & T2); [|done]. cbn in C2, A2, I2, O2, P2.
  destruct (close_stdout _ _ _) as [t3 w3] eqn:E3. apply close_stdout_spec in E3 as [M3 ->].
  destruct (end_process _ _ _) as [t4 w4] eqn:E4. intros [= <- <- <-].
  assert (Hpid : 0 < pid_ t \/ pid_ t = -1).
  { unfold stdio_ok in Hok. destruct (reader_thread_ t); [left|right]; tauto. }
  apply end_process_spec in E4 as [M4 ->]; [|cbn; by rewrite P2]. split.
  - eapply made_by_trans; [apply (made_by_none t w (set_running false t)); done|].
    eapply made_by_trans; [exact M1|]. eapply made_by_trans; [exact M2|]. by eapply made_by_trans.
  - destruct t2; cbn in *. by subst.
Qed.

Lemma Start_spec t w t' w' started :
  stdio_ok t -> reader_thread_ t = None -> Start (logged k) t w = Lives (t', w', started) ->
  made_by t w t' w' /\ stdio_ok t' /\ sd_command t' = sd_command t /\ sd_args t' = sd_args t.
Proof.
  intros Hok Hn. unfold stdio_ok in Hok. rewrite Hn in Hok. destruct Hok as (Hi & Ho & Hp & Hr). unfold Start. rewrite Hr.
  destruct (SpawnProcess (logged k) t w) as [[t1 w1] s1] eqn:E.
  apply Spawn_books in E as (M & C & A & T & R & F); [|by apply held_none|unfold children; by rewrite Hp].
  destruct s1; [rewrite T, Hn|]; intros [= <- <- <-].
  - split; [eapply made_by_trans; [exact M|]; by apply made_by_none|]. split; [|done]. unfold stdio_ok. cbn. tauto.
  - split; [done|]. split; [|done]. unfold stdio_ok. rewrite T, Hn, R, Hr. destruct F as (-> & -> & F). by destruct F as [-> | ->].
Qed.

Lemma op_spec op t w t' w' heard :
  stdio_ok t -> (op = OpStart -> reader_thread_ t = None) -> apply_op (logged k) op t w = Lives (t', w', heard) ->
  made_by t w t' w' /\ stdio_ok t' /\ sd_command t' = sd_command t /\ sd_args t' = sd_args t
  /\ (op = OpStop -> t' = new_stdio (sd_command t) (sd_args t))
  /\ (op <> OpStart -> reader_thread_ t = None -> reader_thread_ t' = None).
Proof.
  intros Hok Hn. destruct op as [|line| |]; cbn [apply_op].
  - destruct (Start (logged k) t w) as [[[t1 w1] b]|] eqn:E; [|done]. intros [= <- <- <-].
    apply Start_spec in E as (M & O & C); [|done|by apply Hn].
    split_and!; try apply C; done.
  - unfold WriteLine. destruct (stdin_fd_ t =? -1); [intros [= <- <- <-]; by split_and!; try apply made_by_refl|].
    unfold logged. cbn [k_write]. destruct (k_write k _ _ w.2) as [w1 [n| |]]; try done; intros [= <- <- <-];
      (split_and!; [by eapply made_by_call|done..]).
  - intros H. injection H as H. apply Reads_ok in H as H'; [|done]. destruct H' as (M & S & O). split_and!; try apply S; try done.
    intros _ Ht. apply Reads_spec in H as (_ & _ & H). rewrite Ht in H. destruct (reader_thread_ t'); [done|done].
  - intros H. injection H as H. apply Stop_spec in H as [M ->]; [|done]. by split_and!.
Qed.

(** A transport is started when it is new or was stopped. *)
Fixpoint well_used (started : bool) (ops : list stdio_op) : bool :=
  match ops with
  | [] => true
  | OpStart :: ops => negb started && well_used true ops
  | OpStop :: ops => well_used false ops
  | _ :: ops => well_used started ops
  end.

Lemma run_spec ops started t w t' w' heard :
  stdio_ok t -> (started = false -> reader_thread_ t = None) -> well_used started ops = true ->
  run (logged k) ops t w = Lives (t', w', heard) ->
  made_by t w t' w' /\ stdio_ok t' /\ sd_command t' = sd_command t /\ sd_args t' = sd_args t.
Proof.
  revert started t w heard. induction ops as [|op ops IH]; intros started t w heard Hok Hn Hu; cbn [run].
  { intros [= <- <- <-]. by split; [apply made_by_refl|]. }
  destruct (apply_op (logged k) op t w) as [[[t1 w1] h1]|] eqn:E1; [|done].
  destruct (run (logged k) ops t1 w1) as [[[t2 w2] h2]|] eqn:E2; [|done]. intros [= <- <- <-].
  apply op_spec in E1 as (M1 & O1 & C1 & A1 & Hstop & Hkeep); [|done|intros ->; cbn in Hu; destruct started; [done|by apply Hn]].
  assert (exists started', well_used started' ops = true /\ (started' = false -> reader_thread_ t1 = None)) as (started' & Hu' & Hn').
  { destruct op; cbn in Hu.
    - apply andb_true_iff in Hu as [_ Hu]. by exists true.
    - exists started. split; [done|]. intros Hs. by apply Hkeep; [|apply Hn].
    - exists started. split; [done|]. intros Hs. by apply Hkeep; [|apply Hn].
    - exists false. split; [done|]. intros _. by rewrite (Hstop eq_refl). }
  destruct (IH started' t1 w1 h2 O1 Hn' Hu' E2) as (M2 & O2 & C2 & A2).
  split_and!; [by eapply made_by_trans|done|congruence..].
Qed.

End Books.


(** ** The books of a run *)

Definition books_balance (l : list call) (t : Stdio) : Prop :=
  (exists stranded, opened l ≡ₚ closed l ++ held t ++ stranded /\ (length stranded <= 2 * failed_pipes l)%nat)
  /\ forked l ≡ₚ waited_for l ++ children t.

Lemma balance_books command args l t : books (new_stdio command args) l t <-> books_balance l t.
Proof. unfold books, books_balance. cbn [held children new_stdio]. by rewrite !app_nil_r. Qed.

(** ** How long a stop takes *)

(** The milliseconds the calls may wait, and those that wait without a bound. *)
Definition patience (l : list call) : Z :=
  foldr (fun c total => match c with CPoll _ ms => ms | CUsleep us => us / 1000 | _ => 0 end + total) 0 l.
Definition unbounded (l : list call) : list Z := l ≫= (fun c => match c with CWait pid => [pid] | _ => [] end).

Lemma patience_app l1 l2 : patience (l1 ++ l2) = patience l1 + patience l2.
Proof. induction l1 as [|c l1 IH]; [done|]. cbn [app patience foldr]. fold (patience (l1 ++ l2)) (patience l1). lia. Qed.
Lemma unbounded_app l1 l2 : unbounded (l1 ++ l2) = unbounded l1 ++ unbounded l2. Proof. apply bind_app. Qed.

(** Calls added to a log that wait no longer than [ms]. *)
Definition waits {W} (ms : Z) (w w' : list call * W) : Prop :=
  exists made, w'.1 = w.1 ++ made /\ patience made <= ms /\ unbounded made = [].

Section Waits.
#[local] Set Default Proof Using "Type*".
Context {W : Type} (k : Kernel W).
Implicit Types (w : list call * W) (t : Stdio).

Lemma waits_0 ms w : 0 <= ms -> waits ms w w.
Proof. intros. exists []. by rewrite app_nil_r. Qed.

Lemma waits_trans m1 m2 w w1 w2 : waits m1 w w1 -> waits m2 w1 w2 -> waits (m1 + m2) w w2.
Proof.
  intros (l1 & E1 & P1 & U1) (l2 & E2 & P2 & U2). exists (l1 ++ l2).
  rewrite E2, E1, app_assoc, patience_app, unbounded_app, U1, U2. split_and!; [done|lia|done].
Qed.

Lemma waits_call ms w w' c :
  w'.1 = w.1 ++ [c] -> patience [c] <= ms -> unbounded [c] = [] -> waits ms w w'.
Proof. intros E P U. by exists [c]. Qed.

Definition poll_left (p : reader_at) : Z := match p with AtPoll => kReadPollMs | _ => 0 end.

Lemma reads_wait n t w t' w' heard r :
  running_ t = false -> reader_thread_ t = Some r -> reads (logged k) n t w = (t', w', heard) -> waits (poll_left (rd_at r)) w w'.
Proof.
  revert t w r heard. induction n as [|n IH]; intros t w r heard Hrun Hr; cbn [reads].
  { intros [= <- <- <-]. apply waits_0. by destruct (rd_at r). }
  destruct (Reads (logged k) t w) as [[t1 w1] h1] eqn:E1.
  destruct (reads (logged k) n t1 w1) as [[t2 w2] h2] eqn:E2. intros [= <- <- <-].
  assert (Hs : exists r1, reader_thread_ t1 = Some r1 /\ running_ t1 = false /\ waits (poll_left (rd_at r)) w w1 /\ poll_left (rd_at r1) = 0).
  { revert E1. unfold Reads, reader_step, logged. rewrite Hr, Hrun. cbn [k_poll k_read].
    destruct r as [[| | |] fd leftover]; cbn [rd_at rd_fd rd_leftover].
    - intros [= <- <- <-]. eexists. split_and!; [done..|by apply waits_0|done].
    - destruct (k_poll k fd kReadPollMs w.2) as [w3 ready].
      destruct ready; intros [= <- <- <-]; eexists; (split_and!; [done..|by eapply waits_call|done]).
    - destruct (k_read k fd kReadSize w.2) as [w3 [chunk| |]]; [destruct (sempty chunk); [|destruct (ReadChunk leftover chunk)]| |];
        intros [= <- <- <-]; eexists; (split_and!; [done..|by eapply waits_call|done]).
    - intros [= <- <- <-]. eexists. split_and!; [done..|by apply waits_0|done]. }
  destruct Hs as (r1 & Hr1 & Hrun1 & Hw & Hz). rewrite <- (Z.add_0_r (poll_left _)), <- Hz.
  eapply waits_trans; [exact Hw|]. by eapply IH.
Qed.

Lemma reap_wait n t w t' w' : reap (logged k) n t w = (t', w') -> waits (kReapWaitMs * Z.of_nat n) w w'.
Proof.
  revert w. induction n as [|n IH]; intros w; cbn [reap]; [intros [= <- <-]; by apply waits_0|].
  unfold logged at 1. cbn [k_waitpid]. destruct (k_waitpid k (pid_ t) w.2) as [w1 out].
  replace (kReapWaitMs * Z.of_nat (S n)) with (kReapWaitMs + kReapWaitMs * Z.of_nat n) by lia.
  destruct out; intros H.
  2,4: injection H as <- <-; eapply waits_trans; [|apply waits_0; unfold kReapWaitMs; lia];
       (eapply waits_call; [done|by cbn|done]).
  all: eapply waits_trans; [|by eapply IH]; eexists [_; _]; unfold logged; cbn [k_usleep fst snd];
       (split; [by rewrite <- app_assoc|by cbn]).
Qed.

Lemma close_waits t w :
  waits 0 w (close_stdin (logged k) t w).2 /\ waits 0 w (close_stdout (logged k) t w).2.
Proof.
  unfold close_stdin, close_stdout.
  split; (destruct (_ =? -1); [by apply waits_0|]); cbn [snd]; by eapply waits_call.
Qed.

Lemma join_waits t w t' w' heard :
  running_ t = false -> join_reader (logged k) t w = (t', w', heard) -> waits kReadPollMs w w'.
Proof.
  intros Hr. unfold join_reader. destruct (reads (logged k) 3 t w) as [[t1 w1] h] eqn:E. intros [= <- <- <-].
  destruct (reader_thread_ t) as [r|] eqn:Er.
  - apply reads_wait with (r := r) in E; [|done..]. destruct E as (made & E & P & U). exists made. split_and!; [done| |done].
    etrans; [exact P|]. by destruct (rd_at r).
  - revert E. cbn [reads]. unfold Reads. rewrite !Er. intros [= <- <- <-]. by apply waits_0.
Qed.

(** A child that is still there is killed, and then waited for. *)
Lemma end_process_waits t w t' w' :
  end_process (logged k) t w = (t', w') ->
  exists made killed, w'.1 = w.1 ++ made ++ killed /\ patience made <= 2000 /\ unbounded made = []
    /\ (killed = [] \/ killed = [CKill (pid_ t) SIGKILL; CWait (pid_ t)]).
Proof.
  unfold end_process. destruct (Z.ltb_spec 0 (pid_ t)) as [Hpos|Hneg].
  2:{ intros [= <- <-]. exists [], []. cbn. rewrite app_nil_r. split_and!; [done|lia|done|by left]. }
  destruct (reap _ _ _ _) as [t1 w1] eqn:E. pose proof E as E'. apply reap_wait in E as (made & E & P & U).
  apply reap_spec in E' as [_ Ht]; [|done]. unfold logged in E at 1. cbn [k_kill fst] in E.
  assert (P1 : patience (CKill (pid_ t) SIGTERM :: made) <= 2000).
  { change (0 + patience made <= 2000). unfold kReapWaitMs, kReapAttempts in P. lia. }
  destruct Ht as [-> | ->]; cbn [pid_ set_pid set_process]; [rewrite (proj2 (Z.ltb_lt _ _) Hpos)|]; intros [= <- <-].
  - exists (CKill (pid_ t) SIGTERM :: made), [CKill (pid_ t) SIGKILL; CWait (pid_ t)]. cbn [logged k_wait k_kill fst].
    rewrite E. split_and!; [by rewrite <- !app_assoc|done|done|by right].
  - exists (CKill (pid_ t) SIGTERM :: made), []. rewrite E, app_nil_r.
    split_and!; [by rewrite <- !app_assoc|done|done|by left].
Qed.

End Waits.

(** The transport's books balance: at any point of its use, on any kernel and
    however its reader is interleaved, the descriptors its pipes made are those
    it closed and those it holds, but for at most two for each pipe that could
    not be made, and the children it made are those it waited for and the one it
    has; stopped, it holds none and has none. *)
Theorem Stdio_books {W} (k : Kernel W) ops command args w l w' t heard :
  well_used false ops = true -> run (logged k) ops (new_stdio command args) ([], w) = Lives (t, (l, w'), heard) ->
  books_balance l t
  /\ let '(t', (l', _), _) := Stop (logged k) t (l, w') in t' = new_stdio command args /\ books_balance l' t'.
Proof.
  intros Hu H. assert (Hnew : stdio_ok (new_stdio command args)) by done.
  destruct (run_spec k ops false _ _ _ _ _ Hnew (fun _ => eq_refl) Hu H) as ((made & E & B) & Hok & C & A).
  cbn in E, C, A. subst made. split; [by apply balance_books in B|].
  destruct (Stop (logged k) t (l, w')) as [[t' [l' w'']] h] eqn:Es. apply Stop_spec in Es as [(made & E & B') ->]; [|done].
  cbn in E. subst l'. rewrite C, A in *. split; [done|].
  apply (proj1 (balance_books command args _ _)). by eapply books_trans.
Qed.

(** C18: stopping a server takes a bounded time whatever it does: its reader ends
    after at most one poll, the child is waited for without blocking for two
    seconds and a tenth in all, and only one that was killed is waited for
    without a bound.  What is left is the transport as it was made, and stopping
    it again makes no call. *)
Theorem Stop_bounded {W} (k : Kernel W) t l w :
  stdio_ok t ->
  let '(t', (l', w'), heard) := Stop (logged k) t (l, w) in
  t' = new_stdio (sd_command t) (sd_args t)
  /\ (exists made killed, l' = l ++ made ++ killed /\ patience made <= 2100 /\ unbounded made = []
       /\ (killed = [] \/ killed = [CKill (pid_ t) SIGKILL; CWait (pid_ t)]))
  /\ Stop (logged k) t' (l', w') = (t', (l', w'), []).
Proof.
  intros Hok. destruct (Stop (logged k) t (l, w)) as [[t' [l' w']] heard] eqn:Es.
  pose proof Es as Es'. apply Stop_spec in Es' as [_ ->]; [|done]. split; [done|]. split; [|done].
  unfold Stop in Es. destruct (close_waits k (set_running false t) (l, w)) as [W1 _].
  destruct (close_stdin _ _ _) as [t1 w1] eqn:E1. apply close_stdin_spec in E1 as [_ ->].
  destruct (join_reader _ _ _) as [[t2 w2] h] eqn:E2. pose proof E2 as W2. apply join_waits in W2; [|done].
  apply join_spec in E2 as (_ & S2 & _); [|done]. destruct S2 as (_ & _ & _ & _ & P2).
  destruct (close_waits k t2 w2) as [_ W3].
  destruct (close_stdout _ _ _) as [t3 w3] eqn:E3. apply close_stdout_spec in E3 as [_ ->].
  destruct (end_process _ _ _) as [t4 w4] eqn:E4. injection Es as _ -> _.
  apply end_process_waits in E4 as (made & killed & E & P & U & K). cbn [pid_ set_process] in K. rewrite P2 in K. cbn in K.
  cbn [snd] in W1, W3. destruct (waits_trans k _ _ _ _ _ (waits_trans k _ _ _ _ _ W1 W2) W3) as (first & E' & P' & U').
  exists (first ++ made), killed. cbn [fst snd] in E, E'. rewrite E, E', patience_app, unbounded_app, U, U', <- !app_assoc.
  unfold kReadPollMs in P'. split_and!; [done|lia|done|exact K].
Qed.

(** ** The transport [Mcp] assumes *)

Section Refines.
#[local] Set Default Proof Using "Type*".
Context {W : Type} (k : Kernel W).
(** How many steps the reader makes before it is listened to. *)
Context (turns : list call * W -> nat).
Abbreviation world := (list call * W)%type.
Implicit Types (w : world) (t : Stdio).

(** What the reader reads in [n] steps. *)
Fixpoint chunks (n : nat) t w : list string :=
  match n with
  | O => []
  | S n =>
      let read :=
        match reader_thread_ t with
        | Some r =>
            if bool_decide (rd_at r = AtRead) then
              match (k_read (logged k) (rd_fd r) kReadSize w).2 with Got chunk => [chunk] | _ => [] end
            else []
        | None => []
        end in
      let '(t, w, _) := Reads (logged k) t w in
      read ++ chunks n t w
  end.

(** The world of [Mcp.StdioTransport_]: the process and the kernel. *)
Definition spawned (_ : string) (_ : list string) (pw : Stdio * world) : (Stdio * world) * bool :=
  match Start (logged k) pw.1 pw.2 with
  | Lives (t, w, started) => ((t, w), started)
  | Dies => (pw, false)
  end.
Definition written_to (text : string) (pw : Stdio * world) : (Stdio * world) * bool :=
  let '(w, out) := k_write (logged k) (stdin_fd_ pw.1) text pw.2 in
  ((pw.1, w), match out with Wrote n => bool_decide (n = slen text) | _ => false end).
Definition output_of (pw : Stdio * world) : (Stdio * world) * (list string * bool) :=
  let '(t, w, _) := reads (logged k) (turns pw.2) pw.1 pw.2 in
  ((t, w), (chunks (turns pw.2) pw.1 pw.2, negb (running_ t))).
Definition stopped (pw : Stdio * world) : Stdio * world :=
  let '(t, w, _) := Stop (logged k) pw.1 pw.2 in (t, w).

Definition assumed : Mcp.Transport (Stdio * world) Mcp.StdioTransport :=
  StdioTransport_ spawned written_to output_of stopped.

(** What [Mcp] keeps of a transport. *)
Definition shows t (a : Mcp.StdioTransport) : Prop :=
  stdio_ok t /\ st_command a = sd_command t /\ st_args a = sd_args t
  /\ st_stdin a = negb (stdin_fd_ t =? -1) /\ st_running a = running_ t
  /\ match reader_thread_ t with Some r => st_leftover a = rd_leftover r | None => True end.

Lemma ReaderLoop_app leftover l1 l2 :
  Mcp.ReaderLoop leftover (l1 ++ l2)
  = let '(lines, rest) := Mcp.ReaderLoop leftover l1 in
    let '(more, rest) := Mcp.ReaderLoop rest l2 in (lines ++ more, rest).
Proof.
  revert leftover. induction l1 as [|c l1 IH]; intros leftover; cbn [app Mcp.ReaderLoop]; [by destruct (Mcp.ReaderLoop leftover l2)|].
  destruct (ReadChunk leftover c) as [lines rest]. rewrite IH.
  destruct (Mcp.ReaderLoop rest l1) as [lines1 rest1], (Mcp.ReaderLoop rest1 l2) as [more rest2]. by rewrite app_assoc.
Qed.

Lemma ReadChunk_empty leftover : ReadChunk leftover "" = ([], leftover).
Proof. unfold ReadChunk. cbn. by rewrite sapp_nil_r. Qed.

(** What the thread hands over is [Mcp.ReaderLoop] of what it read. *)
Lemma reads_lines n t w t' w' heard r :
  reader_thread_ t = Some r -> reads (logged k) n t w = (t', w', heard) ->
  exists r', reader_thread_ t' = Some r' /\ Mcp.ReaderLoop (rd_leftover r) (chunks n t w) = (heard, rd_leftover r').
Proof.
  revert t w r heard. induction n as [|n IH]; intros t w r heard Hr; cbn [reads chunks].
  { intros [= <- <- <-]. by exists r. }
  destruct (Reads (logged k) t w) as [[t1 w1] h1] eqn:E1.
  destruct (reads (logged k) n t1 w1) as [[t2 w2] h2] eqn:E2. intros [= <- <- <-]. rewrite Hr.
  assert (exists r1, reader_thread_ t1 = Some r1
    /\ Mcp.ReaderLoop (rd_leftover r)
         (if bool_decide (rd_at r = AtRead) then
            match (k_read (logged k) (rd_fd r) kReadSize w).2 with Got chunk => [chunk] | _ => [] end
          else []) = (h1, rd_leftover r1)) as (r1 & Hr1 & H1).
  { revert E1. unfold Reads, reader_step. rewrite Hr. destruct r as [[| | |] fd leftover]; cbn [rd_at rd_fd rd_leftover bool_decide decide_rel].
    - destruct (running_ t); intros [= <- <- <-]; by eexists.
    - destruct (k_poll _ _ _ _) as [w3 []]; intros [= <- <- <-]; by eexists.
    - rewrite bool_decide_true by done. destruct (k_read _ _ _ _) as [w3 [chunk| |]]; cbn [snd]; [|intros [= <- <- <-]; by eexists..].
      destruct chunk as [|c chunk]; cbn [sempty].
      + intros [= <- <- <-]. eexists. split; [done|]. cbn [Mcp.ReaderLoop]. by rewrite ReadChunk_empty.
      + destruct (ReadChunk leftover (String c chunk)) as [lines rest] eqn:Ec. intros [= <- <- <-].
        eexists. split; [done|]. cbn [Mcp.ReaderLoop]. rewrite Ec. by rewrite app_nil_r.
    - intros [= <- <- <-]. by eexists. }
  destruct (IH t1 w1 r1 h2 Hr1 E2) as (r2 & Hr2 & H2). exists r2. split; [done|]. by rewrite ReaderLoop_app, H1, H2.
Qed.

(** A thread that ended makes no step. *)
Lemma reads_over n t w : stdio_ok t -> running_ t = false -> reads (logged k) n t w = (t, w, []).
Proof.
  intros Hok Hr. assert (Hs : Reads (logged k) t w = (t, w, [])).
  { unfold Reads, stdio_ok in *. destruct (reader_thread_ t) as [r|]; [|done]. destruct Hok as (_ & _ & _ & _ & Hrun).
    rewrite Hr in Hrun. unfold reader_step. destruct (bool_decide_reflect (rd_at r = Ended)) as [->|]; done. }
  induction n as [|n IH]; [done|]. cbn [reads]. by rewrite Hs, IH.
Qed.

Lemma reads_ok n t w t' w' heard :
  stdio_ok t -> reads (logged k) n t w = (t', w', heard) -> stdio_ok t' /\ same_process t t'.
Proof.
  revert t w heard. induction n as [|n IH]; intros t w heard Hok; cbn [reads]; [by intros [= <- <- <-]|].
  destruct (Reads (logged k) t w) as [[t1 w1] h1] eqn:E1. apply Reads_ok in E1 as (_ & S1 & O1); [|done].
  destruct (reads (logged k) n t1 w1) as [[t2 w2] h2] eqn:E2. intros [= <- <- <-].
  apply IH in E2 as [O2 S2]; [|done]. split; [done|]. unfold same_process in *. intuition congruence.
Qed.

Lemma shows_start t a w t' w' started :
  shows t a -> reader_thread_ t = None \/ running_ t = true -> Start (logged k) t w = Lives (t', w', started) ->
  exists a', Mcp.Start assumed a (t, w) = (a', (t', w'), started) /\ shows t' a'.
Proof.
  intros (Hok & Hc & Ha & Hi & Hr & Hl) Hn H. cbn [Mcp.Start assumed StdioTransport_]. rewrite Hr.
  destruct (running_ t) eqn:Erun.
  { unfold Start in H. rewrite Erun in H. injection H as <- <- <-. exists a. by rewrite <- Hr in Erun. }
  destruct Hn as [Hn|]; [|done]. unfold spawned. cbn [fst snd]. rewrite H.
  apply Start_spec in H as H'; [|done..]. destruct H' as (_ & Hok' & Hc' & Ha').
  unfold Start in H. rewrite Erun in H. destruct (SpawnProcess (logged k) t w) as [[t1 w1] s1] eqn:E.
  unfold stdio_ok in Hok. rewrite Hn in Hok. destruct Hok as (Hi0 & Ho0 & Hp0 & _).
  apply Spawn_books in E as (_ & _ & _ & T & R & F); [|by apply held_none|unfold children; by rewrite Hp0].
  destruct s1; [rewrite T, Hn in H|]; injection H as <- <- <-.
  - eexists. split; [done|]. cbn in Hc', Ha'. destruct F as (F1 & F2 & F3). unfold shows. cbn. rewrite Hc, Ha, Hc', Ha'.
    split_and!; try done. symmetry. apply negb_true_iff, Z.eqb_neq. lia.
  - eexists. split; [done|]. destruct F as (F1 & _). unfold shows. by rewrite Hc, Ha, Hc', Ha', Hi, F1, Hr, R, T, Hn, Erun.
Qed.

Lemma shows_heard t a w t' w' heard :
  shows t a -> reads (logged k) (turns w) t w = (t', w', heard) ->
  exists a', Mcp.Heard assumed a (t, w) = (a', (t', w'), heard) /\ shows t' a'.
Proof.
  intros (Hok & Hc & Ha & Hi & Hr & Hl) H. cbn [Mcp.Heard assumed StdioTransport_]. rewrite Hr. destruct (running_ t) eqn:Erun.
  - pose proof Hok as Hok'. unfold stdio_ok in Hok'. destruct (reader_thread_ t) as [r|] eqn:Er; [|destruct Hok' as (_ & _ & _ & Hf); by rewrite Erun in Hf].
    unfold output_of. cbn [fst snd]. rewrite H. destruct (reads_lines _ _ _ _ _ _ _ Er H) as (r' & Er' & HL).
    rewrite Hl, HL. eexists. split; [done|]. apply reads_ok in H as [Hok1 (C & A & I & O & P)]; [|done].
    unfold shows. cbn. rewrite Er', negb_involutive, C, A, I. by split_and!.
  - rewrite reads_over in H by done. injection H as <- <- <-. exists a. split; [done|]. unfold shows. by rewrite Erun.
Qed.

(** C17: the transport over system calls is the one [Mcp] assumes, with the kernel as
    the world: it starts, is written to, is heard and is stopped alike, and what
    is heard of it is what its output was cut into, as long as the program
    lives; and it does unless a line is written to a server that is gone, or it
    is started before the thread of its last server was joined. *)
Theorem Stdio_refines t a w :
  shows t a ->
  (match Start (logged k) t w with
   | Lives (t', w', started) =>
       (reader_thread_ t = None \/ running_ t = true ->
        exists a', Mcp.Start assumed a (t, w) = (a', (t', w'), started) /\ shows t' a')
   | Dies => is_Some (reader_thread_ t) /\ running_ t = false
   end)
  /\ (forall line, match WriteLine (logged k) line t w with
      | Lives (t', w', written) => Mcp.WriteLine assumed line a (t, w) = (a, (t', w'), written) /\ shows t' a
      | Dies => stdin_fd_ t <> -1 /\ (k_write k (stdin_fd_ t) (line +:+ NL) w.2).2 = NobodyReads
      end)
  /\ (let '(t', w', heard) := reads (logged k) (turns w) t w in
      exists a', Mcp.Heard assumed a (t, w) = (a', (t', w'), heard) /\ shows t' a')
  /\ (let '(t', w', _) := Stop (logged k) t w in
      exists a', Mcp.Stop assumed a (t, w) = (a', (t', w')) /\ shows t' a').
Proof.
  intros Hs. pose proof Hs as (Hok & Hc & Ha & Hi & Hr & _). split; [|split; [|split]].
  - destruct (Start (logged k) t w) as [[[t' w'] started]|] eqn:E; [intros Hn; by apply shows_start|].
    revert E. unfold Start. destruct (running_ t); [done|]. destruct (SpawnProcess (logged k) t w) as [[t1 w1] s1] eqn:Es.
    apply Spawn_thread in Es. destruct s1; [|done]. rewrite Es. by destruct (reader_thread_ t).
  - intros line. unfold WriteLine. cbn [Mcp.WriteLine assumed StdioTransport_]. rewrite Hi.
    destruct (Z.eqb_spec (stdin_fd_ t) (-1)) as [Heq|Hne]; [done|]. cbn [negb]. unfold written_to. cbn [fst snd].
    unfold logged. cbn [k_write]. destruct (k_write k _ _ w.2) as [w1 [n| |]]; cbn [fst snd]; done.
  - destruct (reads (logged k) (turns w) t w) as [[t' w'] heard] eqn:E. by apply shows_heard.
  - destruct (Stop (logged k) t w) as [[t' w'] heard] eqn:E. cbn [Mcp.Stop assumed StdioTransport_]. rewrite Hi.
    unfold stopped. cbn [fst snd]. rewrite E. pose proof E as E'. apply Stop_spec in E' as [_ Ht]; [|done].
    assert (Hnone : stdin_fd_ t = -1 -> (t', w') = (t, w)).
    { intros Hn. unfold stdio_ok in Hok. clear Hs Hc Ha Hi Hr. destruct t as [c ar i o p r run]; cbn in Hok, Hn.
      destruct r; [lia|]. destruct Hok as (? & ? & ? & ?). subst. cbn in E. by injection E as <- _. }
    eexists. split.
    + destruct (Z.eqb_spec (stdin_fd_ t) (-1)) as [Heq|Hne]; cbn [negb]; [by rewrite (Hnone Heq)|done].
    + subst t'. unfold shows. cbn. by split_and!.
Qed.

End Refines.

(** ** The server's own descriptors *)

(** What the server finds when it runs: its standard input and output are the
    ends the transport keeps the other of, no end is left open beside them, and
    everything else the program had open is open in it too. *)
Theorem Child_stdio command args stdin_read stdin_write stdout_read stdout_write table e :
  NoDup [0; 1; stdin_read; stdin_write; stdout_read; stdout_write]%N ->
  table !! stdin_read = Some StdinRead -> table !! stdout_write = Some StdoutWrite ->
  child_table table (child_main command args (stdin_read, stdin_write) (stdout_read, stdout_write) e)
  = <[0%N := StdinRead]> (<[1%N := StdoutWrite]>
      (delete stdin_read (delete stdin_write (delete stdout_read (delete stdout_write table))))).
Proof.
  intros Hd Hin Hout. rewrite !NoDup_cons, !elem_of_cons in Hd.
  assert (Hne : (stdin_read <> 0 /\ stdin_write <> 0 /\ stdout_read <> 0 /\ stdout_write <> 0)%N) by (split_and!; intros E; subst; tauto).
  assert (Hne' : (stdin_read <> 1 /\ stdin_write <> 1 /\ stdout_read <> 1 /\ stdout_write <> 1)%N) by (split_and!; intros E; subst; tauto).
  destruct Hne as (? & ? & ? & ?), Hne' as (? & ? & ? & ?).
  assert (E : child_table table (child_main command args (stdin_read, stdin_write) (stdout_read, stdout_write) e)
              = delete stdout_write (delete stdin_read (delete stdout_read (delete stdin_write
                  (child_step (child_step table (Dup2 stdin_read 0)) (Dup2 stdout_write 1))))))
    by (by destruct e).
  rewrite E. cbn [child_step].
  rewrite Hin, lookup_insert_ne, Hout by done. apply map_eq. intros fd.
  destruct (decide (fd = 0%N)) as [->|Hz]; [rewrite lookup_insert_eq, !lookup_delete_ne, lookup_insert_ne, lookup_insert_eq by done; done|].
  rewrite (lookup_insert_ne _ 0%N) by done.
  destruct (decide (fd = 1%N)) as [->|Ho]; [rewrite lookup_insert_eq, !lookup_delete_ne, lookup_insert_eq by done; done|].
  rewrite (lookup_insert_ne _ 1%N) by done.
  rewrite !lookup_delete. repeat case_decide; try done. by rewrite !lookup_insert_ne.
Qed.

(** ** On a kernel of one server *)

(** Descriptors are numbered on; the server answers every poll with the next of
    its pieces of output, is silent after the last but one and then ends, and
    leaves when it is asked to. *)
Definition demo_kernel (pieces : list string) (second_pipe : bool) (reads_input : bool) : Kernel (N * list string) :=
  mkKernel
    (fun w => if second_pipe || bool_decide (w.1 = 3%N) then ((w.1 + 2, w.2)%N, Some (w.1, w.1 + 1)%N) else (w, None))
    (fun w => (w, Some 70%positive)) (fun _ w => w)
    (fun _ text w => (w, if reads_input then Wrote (slen text) else NobodyReads))
    (fun _ _ w => (w, Readable))
    (fun _ _ w => match w.2 with [] => (w, Got "") | piece :: rest => ((w.1, rest), Got piece) end)
    (fun _ _ w => w) (fun _ w => (w, Reaped)) (fun _ w => w) (fun _ w => w).

Definition demo_world : N * list string := (3%N, ["{}" +:+ NL +:+ "{"; "}" +:+ NL; "[]"]).

Definition demo_ops : list stdio_op := [OpStart; OpRead; OpRead; OpRead; OpRead; OpWrite "{}"; OpRead; OpRead].

Definition demo_run (second_pipe reads_input : bool) (ops : list stdio_op) : fate (Stdio * (list call * (N * list string)) * list string) :=
  run (logged (demo_kernel [] second_pipe reads_input)) ops (new_stdio "files-mcp" []) ([], demo_world).

Lemma Stdio_books_witness :
  exists t l w, demo_run true true (demo_ops ++ [OpStop]) = Lives (t, (l, w), ["{}"; "{}"])
    /\ books_balance l t /\ opened l = [3; 4; 5; 6].
Proof.
  unfold demo_run. destruct (run _ _ _ _) as [[[t [l w]] heard]|] eqn:E; [|vm_compute in E; discriminate E].
  destruct (Stdio_books (demo_kernel [] true true) (demo_ops ++ [OpStop]) "files-mcp" [] demo_world l w t heard eq_refl E)
    as [H _].
  exists t, l, w. vm_compute in E. injection E as <- <- <- <-. split; [reflexivity|]. split; [exact H|]. vm_compute. reflexivity.
Defined.

(** A server that is up, and whose reader waits. *)
Definition demo_up : Stdio := mkStdio "files-mcp" [] 4 5 70 (Some (mkReader AtPoll 5 "")) true.

Lemma Stop_bounded_witness :
  let '(t', (l', _), _) := Stop (logged (demo_kernel [] true true)) demo_up ([], demo_world) in
  t' = new_stdio "files-mcp" []
  /\ l' = [CClose 4; CPoll 5 100; CRead 5 4095; CClose 5; CKill 70 SIGTERM; CWaitpid 70 Reaped].
Proof.
  pose proof (Stop_bounded (demo_kernel [] true true) demo_up [] demo_world ltac:(by split_and!)) as H.
  destruct (Stop (logged (demo_kernel [] true true)) demo_up ([], demo_world)) as [[t' [l' w']] heard] eqn:E.
  split; [exact (proj1 H)|]. vm_compute in E. by injection E as _ <- _ _.
Defined.

Lemma Stdio_refines_witness :
  exists a' pw, Mcp.Start (assumed (demo_kernel [] true true) (fun _ => 4%nat))
      (mkStdioTransport "files-mcp" [] "" false false) (new_stdio "files-mcp" [], ([], demo_world)) = (a', pw, true)
    /\ st_running a' = true.
Proof.
  destruct (Stdio_refines (demo_kernel [] true true) (fun _ => 4%nat) (new_stdio "files-mcp" [])
    (mkStdioTransport "files-mcp" [] "" false false) ([], demo_world) ltac:(by split_and!)) as [H _].
  destruct (Start (logged (demo_kernel [] true true)) (new_stdio "files-mcp" []) ([], demo_world)) as [[[t' w'] started]|] eqn:E;
    [|vm_compute in E; discriminate E].
  destruct (H (or_introl eq_refl)) as (a' & Ha & Hs). vm_compute in E. injection E as <- <- <-.
  exists a'. eexists. split; [exact Ha|]. destruct Hs as (_ & _ & _ & _ & Hr & _). exact Hr.
Defined.

Lemma Child_stdio_witness :
  child_table {[0 := Inherited 0; 1 := Inherited 1; 3 := StdinRead; 4 := StdinWrite; 5 := StdoutRead; 6 := StdoutWrite]}%N
    (child_main "files-mcp" ["-v"] (3, 4)%N (5, 6)%N None)
  = {[0 := StdinRead; 1 := StdoutWrite]}%N.
Proof.
  rewrite (Child_stdio "files-mcp" ["-v"] 3 4 5 6); [vm_compute; reflexivity| |vm_compute; reflexivity..].
  repeat (apply NoDup_cons; split; [rewrite ?elem_of_cons, elem_of_nil; lia|]). by apply NoDup_nil_2.
Defined.

(** ** Where the transport falls short *)

(** The second pipe cannot be made: the first stays open. *)
Example Half_pipe_stranded :
  match demo_run false true [OpStart; OpStop] with Lives (_, (l, _), _) => l = [CPipe (Some (3, 4)%N); CPipe None] | Dies => False end.
Proof. vm_compute. reflexivity. Qed.

(** A request to a server that is gone ends the program. *)
Example Dead_server_kills : demo_run true false [OpStart; OpWrite "{}"] = Dies.
Proof. vm_compute. reflexivity. Qed.

(** A transport whose server left on its own cannot be started again before it
    is stopped, though [running_] says it may. *)
Example Restart_without_stop : demo_run true true (demo_ops ++ replicate 6 OpRead ++ [OpStart]) = Dies.
Proof. vm_compute. reflexivity. Qed.

(** A last line without its end is not handed over. *)
Example Last_line_lost :
  match demo_run true true (demo_ops ++ replicate 6 OpRead ++ [OpStop]) with
  | Lives (_, _, heard) => heard = ["{}"; "{}"]
  | Dies => False
  end.
Proof. vm_compute. reflexivity. Qed.

(** Started without a standard input, the program hands a server one that is closed. *)
Example Closed_stdin_lost :
  child_table {[1 := Inherited 1; 0 := StdinRead; 3 := StdinWrite; 4 := StdoutRead; 5 := StdoutWrite]}%N
    (child_main "files-mcp" [] (0, 3)%N (4, 5)%N None) !! 0%N = None.
Proof. vm_compute. reflexivity. Qed.
