(* ===== verification/Builtin.v ===== *)
(** * The tools of an agent ([src/tools/bash.cpp], [src/tools/write_file.cpp], [src/tools/peer_tool.cpp], [include/pu/tools/mcp_tool.hpp])

    The tools the runtime registers, as the toolbox holds them: name,
    description, schema and what executing one does to the state the tools
    share.  That state is the pager, the connected MCP clients and the outside
    world, whose operations are the interface [Outside]. *)
From Stdlib Require Import Ascii.
From S2P Require Export Prelude Text Json Exec Paging Message Agents Tools Bash PeerTool Executor Mcp.

(** What the tools ask of the outside world and do to it. *)
Class Outside (N : Type) := {
  os_shell : N -> string -> os_run;
  os_ran : string -> N -> N;
  os_files : N -> file_system;
  os_wrote : list string -> string -> N -> N;
  os_post : N -> list PeerTool.request -> PeerTool.request -> res string;
  os_posted : list PeerTool.request -> N -> N;
}.

(** What executing tools can change. *)
Record Outer (N T : Type) := mkOuter { o_pager : Pager; o_clients : list (McpClient T); o_net : N }.
Arguments mkOuter {N T} _ _ _.
Arguments o_pager {N T} _.
Arguments o_clients {N T} _.
Arguments o_net {N T} _.

Definition text_prop (kind description : string) : value :=
  JObject [("type", JString kind); ("description", JString description)].

Definition object_schema (properties : object) (required : list string) : value :=
  JObject ([("type", JString "object"); ("properties", JObject properties)]
           ++ match required with [] => [] | _ => [("required", JArray (map JString required))] end).

Definition Bash_Description : string :=
  "Run a shell command and read one page of its output." +:+ NL +:+
  "`at` says where to read. 'head' (the default) runs the command and starts at its " +:+
  "first line; 'tail' runs it and starts at its last, which is where a log or a " +:+
  "build's failure is; a cursor like 'o3:240' reads that page of output already " +:+
  "stored and runs nothing, so `command` is not needed with it." +:+ NL +:+
  "Every page carries page.earlier and page.later, the cursors that reach its " +:+
  "neighbours. page.first and page.last are lines of the command's whole output, and " +:+
  "extent says how much of that output the buffer kept: when extent.truncated is " +:+
  "true, the rest of the output cannot be paged to and the command has to be run " +:+
  "again." +:+ NL +:+
  "A page of a run the same command has since replaced comes back with an empty " +:+
  "output and superseded_by naming the newer run; read it again by its cursor if you " +:+
  "still need it.".

Definition Bash_ParametersSchema : value :=
  object_schema
    [("command", text_prop "string" "The shell command. Not needed when `at` names a cursor.");
     ("at", text_prop "string"
        ("Where to read: 'head' (default), 'tail', or a cursor taken from " +:+ "page.earlier or page.later."));
     ("limit", text_prop "integer" "Lines this page shows.")] [].

Definition WriteFile_ParametersSchema : value :=
  object_schema
    [("path", text_prop "string" "File path (relative to sandbox)"); ("content", text_prop "string" "Text to write")]
    ["path"; "content"].

Definition Peer_ParametersSchema (peers_ : PeerConfig) : value :=
  object_schema
    [("peer", JObject [("type", JString "string");
                       ("enum", JArray (map (fun p => JString (peer_name p)) (peers peers_)));
                       ("description", JString "The server to hand the work to")]);
     ("intent", text_prop "string" "One line naming the work, shown on the board until it closes");
     ("message", text_prop "string" "What to say to the peer, in full");
     ("due", text_prop "string"
        ("Optional deadline as a duration such as " +:+ quoted "30m" +:+ ", " +:+ quoted "2h" +:+ " or "
         +:+ quoted "1d" +:+ "; the board " +:+ "reports the job as overdue after it"))]
    ["peer"; "intent"; "message"].

Section Builtin.
#[local] Set Default Proof Using "Type*".
Context `{codec : JsonCodec} {P N T : Type} `{!Outside N} (tr : Transport (N : Type) T).
(** [std::regex] *)
Context (regex : string -> option (string -> bool)).

Abbreviation Wide := (P * Outer N T)%type.
Abbreviation tool_state := (ToolContext * Shared (W := Wide))%type.

Definition outer_of (s : tool_state) : Outer N T := (outside s.2).2.
Definition with_outer (o : Outer N T) (s : tool_state) : tool_state :=
  (s.1, mkShared (user_note_ s.2) ((outside s.2).1, o)).

Definition set_pager (p : Pager) (o : Outer N T) : Outer N T := mkOuter p (o_clients o) (o_net o).
Definition set_clients (c : list (McpClient T)) (o : Outer N T) : Outer N T := mkOuter (o_pager o) c (o_net o).
Definition set_net (n : N) (o : Outer N T) : Outer N T := mkOuter (o_pager o) (o_clients o) n.

(** A command that never ends has no result. *)
Definition BashTool (sandbox_root_ : string) : Tools.Tool tool_state :=
  mkToolImpl "execute_bash" Bash_Description Bash_ParametersSchema
    (fun args s =>
       let o := outer_of s in
       match Bash_Execute (os_shell (o_net o)) regex sandbox_root_ args s.1 (o_pager o) with
       | None => (s, Undef)
       | Some (p, did, out) =>
           let n := match ran_command did with Some command => os_ran command (o_net o) | None => o_net o end in
           (with_outer (set_net n (set_pager p o)) s, out)
       end).

Definition WriteFileTool : Tools.Tool tool_state :=
  mkToolImpl "write_file" "Write text to a file." WriteFile_ParametersSchema
    (fun args s =>
       let o := outer_of s in
       let '(answer, written) := WriteFile_Execute (os_files (o_net o)) (security s.1) args in
       let n := match written with Some (path, content) => os_wrote path content (o_net o) | None => o_net o end in
       (with_outer (set_net n o) s, Ok answer)).

Definition PeerTool_ (peers_ : PeerConfig) : Tools.Tool tool_state :=
  mkToolImpl "send_to_peer" "Hand work to another pu server, and watch it on that server's task board."
    (Peer_ParametersSchema peers_)
    (fun args s =>
       let o := outer_of s in
       let '(log, out) := Peer_Execute peers_ (os_post (o_net o)) true (peer_origin s.1) args in
       (with_outer (set_net (os_posted log (o_net o)) o) s, out)).

(** The tool of the client at [index], which the tool shares with the runtime. *)
Definition McpTool (index : nat) (server : string) (def : ToolDefinition) : Tools.Tool tool_state :=
  mkToolImpl (McpTool_Name server (td_name def)) (td_description def) (td_parameters def)
    (fun args s =>
       let o := outer_of s in
       match o_clients o !! index with
       | None => (s, Undef)
       | Some client =>
           let '(client, n, out) := McpTool_Execute tr (td_name def) args client (o_net o) in
           (with_outer (set_net n (set_clients (<[index := client]> (o_clients o)) o)) s, out)
       end).

End Builtin.
