(* ===== verification/Runtime.v ===== *)
(** * The runtime ([src/runtime/runtime.cpp], [include/pu/runtime/runtime.hpp])

    One workspace: the agents it may run as, the session and its file, the
    toolbox built for the active agent, the connected MCP servers and the
    executor's settings.  Every operation is a step of a state monad that keeps
    what was done before an exception.  The file system, the environment and
    the session file are the interface [World]. *)
From Stdlib Require Import Ascii.
From S2P Require Export Prelude Text Json Paging Message Graph Usage Gateway Agents Tools Settings Session Mcp.
From S2P Require Export Builtin.

(** ** Agents *)

Module AgentManager.

Record t := mk { active_agent_ : string; agent_configs_ : list AgentEntry; transient_agents_ : list AgentEntry }.

Definition find_agent (name : string) (l : list AgentEntry) : option AgentEntry :=
  snd <$> list_find (fun e => ag_name e = name) l.

Definition AgentConfig (name : string) (m : t) : option AgentEntry :=
  match find_agent name (agent_configs_ m) with
  | Some e => Some e
  | None => find_agent name (transient_agents_ m)
  end.

Definition Adopt (entry : AgentEntry) (m : t) : t :=
  mk (active_agent_ m) (agent_configs_ m)
    match list_find (fun e => ag_name e = ag_name entry) (transient_agents_ m) with
    | Some (k, _) => <[k := entry]> (transient_agents_ m)
    | None => transient_agents_ m ++ [entry]
    end.

Definition AgentNames (m : t) : list string := map ag_name (agent_configs_ m) ++ map ag_name (transient_agents_ m).

Definition SetActiveAgent (name : string) (m : t) : t := mk name (agent_configs_ m) (transient_agents_ m).

Definition LoadAgentConfigs (configs : list AgentEntry) (m : t) : t :=
  mk (active_agent_ m) configs (transient_agents_ m).

End AgentManager.

(** ** Paths *)

Definition ResolveWorkspacePath (root configured : string) : string :=
  path_join root (if sempty configured then "." else configured).

(** ** The outside of a runtime *)

(** What reading the session file comes to, and writing it. *)
Inductive file_state := NoFile | Unopened | Unparsable | Parsed (v : value).
Inductive saved := Saved | NotWritten | SaveThrew (msg : string).

Class World (N : Type) := {
  world_outside :: Outside N;
  w_getenv : N -> string -> option string;
  w_exists : N -> string -> bool;
  w_read : N -> string -> option string;
  w_session : N -> string -> file_state;
  w_set_aside : string -> N -> N;
  w_save : string -> value -> N -> N * saved;
}.

(** A step that may throw. *)
Definition step (S A : Type) : Type := S -> S * res A.
Definition done_with {S A} (a : A) : step S A := fun s => (s, Ok a).
Definition throws {S A} (e : exn) : step S A := fun s => (s, Throw e).
Definition of_res {S A} (m : res A) : step S A := fun s => (s, m).
Definition then_ {S A B} (m : step S A) (k : A -> step S B) : step S B :=
  fun s => match m s with
           | (s, Ok a) => k a s
           | (s, Throw e) => (s, Throw e)
           | (s, Undef) => (s, Undef)
           end.
Definition change_state {S} (f : S -> S) : step S unit := fun s => (f s, Ok tt).
Definition read_state {S A} (f : S -> A) : step S A := fun s => (s, Ok (f s)).
(** [catch (const std::exception&)] *)
Definition try_catch {S A} (m : step S A) (handler : exn -> step S A) : step S A :=
  fun s => match m s with (s, Throw e) => handler e s | other => other end.

Notation "'let!' x ':=' m 'in' k" := (then_ m (fun x => k))
  (at level 10, x pattern, m at level 100, k at level 200) : pu_scope.
Notation "m ;;! k" := (then_ m (fun _ => k)) (at level 100, right associativity) : pu_scope.

(** ** The state *)

(** [Executor], but for the approval gate and the probed environment. *)
Record executor_state := mkExecutor {
  xs_policy : option SecurityPolicy;
  xs_prompt : string;
  xs_budget : Z;
  xs_origin : string;
  xs_next_call : Z;
  xs_note : string;
}.

Definition new_executor : executor_state := mkExecutor None "" kDefaultToolCallBudget "" 0 "".

Section Runtime.
#[local] Set Default Proof Using "Type*".
Context `{codec : JsonCodec} {P N T : Type} `{!World N} (tr : Transport (N : Type) T).
Context (PU_VERSION : string) (regex : string -> option (string -> bool)).
(** The directory the runtime works in. *)
Context (workspace_root_ : string).

Abbreviation Wide := (P * Outer N T)%type.
Abbreviation tools_t := (gmap string (Tools.Tool (ToolContext * Shared (W := Wide))%type)).

Record runtime := mkRuntime {
  agent_manager_ : AgentManager.t;
  current_session_ : option Session.t;
  executor_ : executor_state;
  toolbox_ : tools_t;
  outer_ : Outer N T;
  peer_config_ : option PeerConfig;
  drawn_ : nat;
}.

Abbreviation rt := (step runtime).

Definition set_agents (m : AgentManager.t) (r : runtime) : runtime :=
  mkRuntime m (current_session_ r) (executor_ r) (toolbox_ r) (outer_ r) (peer_config_ r) (drawn_ r).
Definition set_session (s : option Session.t) (r : runtime) : runtime :=
  mkRuntime (agent_manager_ r) s (executor_ r) (toolbox_ r) (outer_ r) (peer_config_ r) (drawn_ r).
Definition set_executor (x : executor_state) (r : runtime) : runtime :=
  mkRuntime (agent_manager_ r) (current_session_ r) x (toolbox_ r) (outer_ r) (peer_config_ r) (drawn_ r).
Definition set_toolbox (t : tools_t) (r : runtime) : runtime :=
  mkRuntime (agent_manager_ r) (current_session_ r) (executor_ r) t (outer_ r) (peer_config_ r) (drawn_ r).
Definition set_outer (o : Outer N T) (r : runtime) : runtime :=
  mkRuntime (agent_manager_ r) (current_session_ r) (executor_ r) (toolbox_ r) o (peer_config_ r) (drawn_ r).
Definition set_peers (p : option PeerConfig) (r : runtime) : runtime :=
  mkRuntime (agent_manager_ r) (current_session_ r) (executor_ r) (toolbox_ r) (outer_ r) p (drawn_ r).

Definition net (r : runtime) : N := o_net (outer_ r).
Definition set_world (n : N) (r : runtime) : runtime := set_outer (set_net n (outer_ r)) r.

Definition set_policy (p : SecurityPolicy) (x : executor_state) : executor_state :=
  mkExecutor (Some p) (xs_prompt x) (xs_budget x) (xs_origin x) (xs_next_call x) (xs_note x).
Definition set_prompt (p : string) (x : executor_state) : executor_state :=
  mkExecutor (xs_policy x) p (xs_budget x) (xs_origin x) (xs_next_call x) (xs_note x).
Definition SetToolCallBudget (b : Z) (x : executor_state) : executor_state :=
  mkExecutor (xs_policy x) (xs_prompt x) b (xs_origin x) (xs_next_call x) (xs_note x).
Definition SetPeerOrigin (o : string) (x : executor_state) : executor_state :=
  mkExecutor (xs_policy x) (xs_prompt x) (xs_budget x) o (xs_next_call x) (xs_note x).
Definition SetUserNote (n : string) (x : executor_state) : executor_state :=
  mkExecutor (xs_policy x) (xs_prompt x) (xs_budget x) (xs_origin x) (xs_next_call x) n.

(** ** The session and its file *)

Definition session_path : string := path_join (path_join workspace_root_ ".pu") "session.json".

(** Without a session there is nothing to write; a file that does not open is a
    warning. *)
Definition SaveCurrentSession : rt unit :=
  fun r =>
    match current_session_ r with
    | None => (r, Ok tt)
    | Some s =>
        let '(n, out) := w_save session_path (Session.Serialize s) (net r) in
        (set_world n r, match out with SaveThrew msg => Throw (StdException msg) | _ => Ok tt end)
    end.

(** [LoadSessionFromFile]: a file this build cannot read is set aside. *)
Definition LoadSessionFromFile (n : N) : N * option Session.t :=
  match w_session n session_path with
  | NoFile | Unopened => (n, None)
  | Unparsable => (w_set_aside session_path n, None)
  | Parsed j =>
      match Session.Deserialize j with
      | Some s => (n, Some s)
      | None => (w_set_aside session_path n, None)
      end
  end.

Definition HighestRankIn (s : Session.t) : Z :=
  foldl (fun highest node =>
    match n_payload node with
    | Message.Tool receipt => match t_origin receipt with Some o => Z.max highest (o_rank o) | None => highest end
    | _ => highest
    end) 0 (MessageGraph.Chain (Session.conversation_ s)).

Definition DefaultSession : rt Session.t :=
  fun r =>
    match current_session_ r with
    | Some s => (r, Ok s)
    | None =>
        match Session.SetAgent (AgentManager.active_agent_ (agent_manager_ r)) Session.new with
        | Ok s => (set_session (Some s) r, Ok s)
        | Throw e => (r, Throw e)
        | Undef => (r, Undef)
        end
    end.

Definition put_session (s : Session.t) : rt unit := change_state (set_session (Some s)).

Definition RewindBefore (turn : nat) : rt bool :=
  let! s := DefaultSession in
  let! rewound := of_res (Conversation.RewindBefore turn (Session.conversation_ s)) in
  let '(taken_back, c) := rewound in
  put_session (Session.mk c (Session.spec_ s) (Session.usage_ s)) ;;!
  if negb taken_back then done_with false else SaveCurrentSession ;;! done_with true.

(** ** What is configured and what is in force *)

(** The active agent is looked up and not checked. *)
Definition ActiveAgent (r : runtime) : res AgentEntry :=
  match AgentManager.AgentConfig (AgentManager.active_agent_ (agent_manager_ r)) (agent_manager_ r) with
  | Some e => Ok e
  | None => Undef
  end.

Definition ConfiguredBackend (r : runtime) : res Backend :=
  match s ← current_session_ r; AgentManager.AgentConfig (agent_name (Session.spec_ s)) (agent_manager_ r) with
  | Some configured => Ok (ag_backend configured)
  | None => res_map ag_backend (ActiveAgent r)
  end.

Definition ConfiguredToolBudget (r : runtime) : res Z :=
  res_map (fun e => default kDefaultToolCallBudget (ag_tool_call_budget e)) (ActiveAgent r).

Definition Overrides_ (r : runtime) : Overrides :=
  match current_session_ r with Some s => overrides (Session.spec_ s) | None => [] end.

Definition in_force (r : runtime) : res InForce :=
  let? backend := ConfiguredBackend r in
  let? budget := ConfiguredToolBudget r in
  Resolve backend budget (Overrides_ r).

Definition CurrentBackend (r : runtime) : res Backend :=
  let? backend := ConfiguredBackend r in
  match current_session_ r with None => Ok backend | Some _ => res_map if_backend (in_force r) end.

Definition CurrentThinkingLevel (r : runtime) : res ThinkingLevel := res_map thinking (CurrentBackend r).

Definition ContextWindow (r : runtime) : res Z := res_map (fun b => default 0 (context_window b)) (ConfiguredBackend r).

Definition ThinkingOverride (r : runtime) : option ThinkingLevel :=
  match current_session_ r with
  | None => None
  | Some s => match obj_find "thinking" (overrides (Session.spec_ s)) with
              | Some (JString name) => Some (ParseThinkingLevel name)
              | _ => None
              end
  end.

Definition Settings_ (r : runtime) : res (list SettingView) :=
  let? backend := ConfiguredBackend r in
  let? budget := ConfiguredToolBudget r in
  Ok (ViewSettings backend budget (Overrides_ r)).

Definition ApplyToolBudget : rt unit :=
  let! f := (fun r => (r, in_force r)) in
  change_state (fun r => set_executor (SetToolCallBudget (if_tool_budget f) (executor_ r)) r).

Definition set_overrides (f : Overrides -> Overrides) : rt unit :=
  let! s := DefaultSession in
  put_session (Session.mk (Session.conversation_ s)
                 (mkSpec (agent_name (Session.spec_ s)) (f (overrides (Session.spec_ s)))) (Session.usage_ s)).

Definition SetSetting (name : string) (raw : value) : rt unit :=
  let! v := of_res (ParseSetting name raw) in
  set_overrides (SetOverride name v) ;;! ApplyToolBudget ;;! SaveCurrentSession.

Definition ClearSettings : rt unit := set_overrides (fun _ => []) ;;! ApplyToolBudget ;;! SaveCurrentSession.

Definition SetThinkingLevel (level : option ThinkingLevel) : rt unit :=
  SetSetting "thinking" (match level with Some l => JString (ThinkingLevelName l) | None => JNull end).

(** ** The toolbox *)

(** [RegisterTool]; its search for a name always ends. *)
Definition register (tool : Tools.Tool (ToolContext * Shared (W := Wide))%type) (tools : tools_t) : tools_t :=
  match Toolbox.RegisterTool tool tools with Some (_, tools) => tools | None => tools end.

Definition on_outer (f : Outer N T -> Outer N T) : rt unit := change_state (fun r => set_outer (f (outer_ r)) r).
Definition on_toolbox (f : tools_t -> tools_t) : rt unit := change_state (fun r => set_toolbox (f (toolbox_ r)) r).

Definition RegisterBuiltinTools (agent : AgentEntry) : rt unit :=
  on_outer (fun o => set_pager (SetBudget (ag_paging agent) (o_pager o)) o) ;;!
  on_toolbox (register (BashTool regex (ResolveWorkspacePath workspace_root_ (sandbox_root (ag_security agent))))) ;;!
  on_toolbox (register WriteFileTool) ;;!
  change_state (fun r =>
    match peer_config_ r with
    | Some c => match peers c with [] => r | _ => set_toolbox (register (PeerTool_ c) (toolbox_ r)) r end
    | None => r
    end).

(** A server that does not list its tools is skipped. *)
Definition register_server (index : nat) : rt unit :=
  fun r =>
    match o_clients (outer_ r) !! index with
    | None => (r, Ok tt)
    | Some client =>
        let '(client, n, listed) := ListTools tr client (net r) in
        let r := set_outer (set_net n (set_clients (<[index := client]> (o_clients (outer_ r))) (outer_ r))) r in
        match listed with
        | Undef => (r, Undef)
        | Throw _ => (r, Ok tt)
        | Ok defs =>
            (set_toolbox (foldl (fun tools def => register (McpTool tr index (srv_name (config client)) def) tools)
                            (toolbox_ r) defs) r, Ok tt)
        end
    end.

Fixpoint register_servers (indices : list nat) : rt unit :=
  match indices with
  | [] => done_with tt
  | i :: indices => register_server i ;;! register_servers indices
  end.

Definition RegisterMcpTools : rt unit :=
  fun r => register_servers (seq 0 (length (o_clients (outer_ r)))) r.

Definition connect_servers (configs : list McpServerConfig) : rt unit :=
  fun r =>
    let n := DisconnectMcpServers tr (o_clients (outer_ r)) (net r) in
    let '(n, connected) := ConnectMcpServers tr PU_VERSION configs n in
    match connected with
    | Ok clients => (set_outer (set_net n (set_clients clients (outer_ r))) r, Ok tt)
    | Throw e => (set_outer (set_net n (set_clients [] (outer_ r))) r, Throw e)
    | Undef => (r, Undef)
    end.

Definition resolved_policy (agent : AgentEntry) : SecurityPolicy :=
  let s := ag_security agent in
  mkPolicy (ResolveWorkspacePath workspace_root_ (sandbox_root s)) (max_command_length s) (forbidden_patterns s)
    (approval_patterns s).

Definition RebuildToolbox (agent : AgentEntry) : rt unit :=
  connect_servers (ag_mcp_servers agent) ;;!
  on_toolbox Toolbox.Clear ;;!
  RegisterBuiltinTools agent ;;!
  RegisterMcpTools ;;!
  change_state (fun r => set_executor (set_policy (resolved_policy agent) (executor_ r)) r) ;;!
  change_state (fun r => set_executor (set_prompt (default "" (system_prompt_ (ag_backend agent))) (executor_ r)) r) ;;!
  ApplyToolBudget ;;!
  change_state (fun r => set_agents (AgentManager.SetActiveAgent (ag_name agent) (agent_manager_ r)) r).

(** ** Switching *)

(** A session that cannot take the agent yet keeps its own. *)
Definition Activate (agent : AgentEntry) : rt unit :=
  RebuildToolbox agent ;;!
  fun r =>
    match current_session_ r with
    | None => (r, Ok tt)
    | Some s =>
        match Session.SetAgent (ag_name agent) s with
        | Ok s => (put_session s ;;! SaveCurrentSession) r
        | Throw _ => (r, Ok tt)
        | Undef => (r, Undef)
        end
    end.

Definition SwitchAgent (new_agent : AgentEntry) : rt unit :=
  fun r =>
    if bool_decide (AgentManager.active_agent_ (agent_manager_ r) = ag_name new_agent) then (r, Ok tt)
    else Activate new_agent r.

Definition SwitchBackend (backend : Backend) : rt unit :=
  let! active := (fun r => (r, ActiveAgent r)) in
  let! name := of_res (GatewayName (gateway backend)) in
  let transient := mkAgent name "" backend (ag_security active) (ag_paging active) (ag_mcp_servers active)
                     (ag_tool_call_budget active) in
  change_state (fun r => set_agents (AgentManager.Adopt transient (agent_manager_ r)) r) ;;!
  Activate transient.

(** ** Starting *)

Definition FindConfigPath (n : N) : string :=
  let project := "./.pu/agents.json" in
  if w_exists n project then project
  else match w_getenv n "HOME" with
       | Some home =>
           let user := path_join (path_join home ".pu") "agents.json" in if w_exists n user then user else ""
       | None => ""
       end.

Definition FindPeerConfig (n : N) : res (option PeerConfig) :=
  let load path := LoadPeerConfig (w_getenv n) path (w_read n path) in
  let project := "./.pu/peers.json" in
  if w_exists n project then load project
  else match w_getenv n "HOME" with
       | Some home =>
           let user := path_join (path_join home ".pu") "peers.json" in
           if w_exists n user then load user else Ok None
       | None => Ok None
       end.

(** The file [Initialize] loads. *)
Definition choose_config (config_path : string) (n : N) : res string :=
  let cfg_path := if sempty config_path then path_join (path_join workspace_root_ ".pu") "agents.json"
                  else config_path in
  let? cfg_path :=
    match w_getenv n "PU_AGENTS_CONFIG" with
    | Some explicit =>
        if sempty explicit then Ok (if w_exists n cfg_path then cfg_path else FindConfigPath n)
        else if w_exists n explicit then Ok explicit
        else Throw (GenericError ("PU_AGENTS_CONFIG points at a missing file: " +:+ explicit))
    | None => Ok (if w_exists n cfg_path then cfg_path else FindConfigPath n)
    end in
  if sempty cfg_path then
    Throw (GenericError "Configuration file not found. Place agents.json in ./.pu/ or ~/.pu/.")
  else Ok cfg_path.

Definition not_configured (active_agent : string) (entries : list AgentEntry) : exn :=
  let known := foldr String.append "" (map (fun e => " " +:+ ag_name e) entries) in
  GenericError ("Requested agent is not configured: " +:+ active_agent
                +:+ (if sempty known then " (no agents are configured)" else "; configured:" +:+ known)).

(** The session of the file, if it can be read; the pager goes on from the ranks
    its transcript carries. *)
Definition restore_session : rt unit :=
  change_state (fun r =>
    let '(n, loaded) := LoadSessionFromFile (net r) in
    let r := set_world n r in
    match loaded with
    | None => set_session None r
    | Some s =>
        set_session (Some s)
          (set_outer (set_pager (ContinueRankingFrom (HighestRankIn s) (o_pager (outer_ r))) (outer_ r)) r)
    end).

Definition with_agent_name (name : string) (s : Session.t) : Session.t :=
  Session.mk (Session.conversation_ s) (mkSpec name (overrides (Session.spec_ s))) (Session.usage_ s).

(** The agent the session remembers, unless one was chosen for this start. *)
Definition resume_agent (override active_agent : string) : rt unit :=
  fun r =>
    match current_session_ r with
    | None => (r, Ok tt)
    | Some s =>
        let remembered := if sempty override then agent_name (Session.spec_ s) else active_agent in
        match AgentManager.AgentConfig remembered (agent_manager_ r) with
        | None => put_session (with_agent_name active_agent s) r
        | Some stored =>
            (put_session (with_agent_name (ag_name stored) s) ;;!
             if bool_decide (ag_name stored = active_agent) then done_with tt else RebuildToolbox stored) r
        end
    end.

(** [default_agent_override_] is what [SetDefaultAgent] was given. *)
Definition Initialize (fuel : nat) (default_agent_override_ config_path : string) : rt unit :=
  let! cfg_path := (fun r => (r, choose_config config_path (net r))) in
  let! agents_cfg := (fun r => (r, LoadAgentsConfig (w_getenv (net r)) fuel cfg_path (w_read (net r) cfg_path))) in
  let active_agent := if sempty default_agent_override_ then default_agent agents_cfg
                      else default_agent_override_ in
  match AgentManager.find_agent active_agent (agents agents_cfg) with
  | None => throws (not_configured active_agent (agents agents_cfg))
  | Some default_entry =>
      change_state (set_agents (AgentManager.mk active_agent (agents agents_cfg) [])) ;;!
      change_state (set_executor new_executor) ;;!
      let! peer_config := (fun r => (r, FindPeerConfig (net r))) in
      change_state (set_peers peer_config) ;;!
      RebuildToolbox default_entry ;;!
      restore_session ;;!
      resume_agent default_agent_override_ active_agent
  end.

(** [Shutdown], but for the log. *)
Definition Shutdown : rt unit :=
  SaveCurrentSession ;;!
  change_state (fun r => set_outer (set_clients [] (set_net (DisconnectMcpServers tr (o_clients (outer_ r)) (net r)) (outer_ r))) r).

End Runtime.

(** ** Steps that end well *)

Lemma then_Ok {S A B} (m : step S A) (k : A -> step S B) s s' b :
  then_ m k s = (s', Ok b) <-> exists s1 a, m s = (s1, Ok a) /\ k a s1 = (s', Ok b).
Proof.
  unfold then_. destruct (m s) as [s1 [a|e|]]; (split; [|by intros (? & ? & [= <- <-] & ?)]); [|done..].
  intros H. by exists s1, a.
Qed.

Lemma then_ran {S A B} (m : step S A) (k : A -> step S B) s s1 a : m s = (s1, Ok a) -> then_ m k s = k a s1.
Proof. intros E. unfold then_. by rewrite E. Qed.

Section RuntimeFacts.
#[local] Set Default Proof Using "Type*".
Context `{codec : JsonCodec} {P N T : Type} `{!World N} (tr : Transport (N : Type) T).
Context (PU_VERSION : string) (regex : string -> option (string -> bool)) (workspace_root_ : string).

Abbreviation runtime := (@runtime P N T).
Abbreviation tool := (Tools.Tool (ToolContext * Shared (W := (P * Outer N T)%type))%type).
Implicit Types r : runtime.
Implicit Types tools : gmap string tool.

(** ** The toolbox keeps its built-in tools *)

Lemma register_grows (t : tool) tools : tools ⊆ register t tools.
Proof.
  unfold register, Toolbox.RegisterTool. destruct (sempty _); [done|].
  destruct (Toolbox.free_name _ _ _ _ _) as [n|] eqn:E; [|done]. cbn.
  apply free_name_Some in E as [Hn _]. by apply insert_subseteq.
Qed.

Lemma register_adds (t : tool) tools :
  Name t <> "" -> tools !! SanitizeToolName (Name t) = None ->
  register t tools = <[SanitizeToolName (Name t) := t]> tools.
Proof.
  intros Hn%sempty_false Hf. unfold register, Toolbox.RegisterTool. rewrite Hn. cbn [Toolbox.free_name].
  by rewrite Hf.
Qed.

(** What the servers of an agent change. *)
Definition same_but_servers (r r' : runtime) : Prop :=
  agent_manager_ r' = agent_manager_ r /\ current_session_ r' = current_session_ r /\ executor_ r' = executor_ r
  /\ peer_config_ r' = peer_config_ r /\ drawn_ r' = drawn_ r /\ o_pager (outer_ r') = o_pager (outer_ r)
  /\ toolbox_ r ⊆ toolbox_ r'.

#[local] Instance same_but_servers_preorder : PreOrder same_but_servers.
Proof.
  split; [by intros r|]. intros r1 r2 r3 (A1 & A2 & A3 & A4 & A5 & A6 & A7) (B1 & B2 & B3 & B4 & B5 & B6 & B7).
  split_and!; [congruence..|]. by etrans.
Qed.

Lemma register_server_same index r : same_but_servers r (register_server tr index r).1.
Proof.
  unfold register_server. destruct (o_clients (outer_ r) !! index) as [client|]; [|done].
  destruct (ListTools tr client (net r)) as [[client' n] [defs|e|]]; [|by split_and!..].
  split_and!; try done. cbn [fst set_toolbox toolbox_ set_outer].
  generalize (toolbox_ r). induction defs as [|def defs IH]; intros tools; [done|]. cbn [foldl].
  etrans; [|apply IH]. apply register_grows.
Qed.

Lemma register_servers_same indices r : same_but_servers r (register_servers tr indices r).1.
Proof.
  revert r. induction indices as [|i indices IH]; intros r; [done|]. cbn [register_servers]. unfold then_.
  pose proof (register_server_same i r) as H. destruct (register_server tr i r) as [r1 [[]|e|]]; [|done..].
  etrans; [exact H|apply IH].
Qed.

Lemma connect_servers_same configs r : same_but_servers r (connect_servers tr PU_VERSION configs r).1.
Proof.
  unfold connect_servers. destruct (ConnectMcpServers tr PU_VERSION configs _) as [n [clients|e|]]; by split_and!.
Qed.

Lemma in_force_same r r' :
  agent_manager_ r' = agent_manager_ r -> current_session_ r' = current_session_ r -> in_force r' = in_force r.
Proof.
  intros Ha Hs. unfold in_force, ConfiguredBackend, ConfiguredToolBudget, ActiveAgent, Overrides_. by rewrite Ha, Hs.
Qed.

(** The three built-in tools. *)
Definition builtins_of (agent : AgentEntry) (r : runtime) : gmap string tool :=
  let tools := <["write_file" := WriteFileTool]>
                 {["execute_bash" := BashTool regex
                     (ResolveWorkspacePath workspace_root_ (sandbox_root (ag_security agent)))]} in
  match peer_config_ r with
  | Some c => match peers c with [] => tools | _ => <["send_to_peer" := PeerTool_ c]> tools end
  | None => tools
  end.

Lemma RegisterBuiltinTools_runs agent r :
  toolbox_ r = ∅ ->
  RegisterBuiltinTools regex workspace_root_ agent r
  = (set_toolbox (builtins_of agent r)
       (set_outer (set_pager (SetBudget (ag_paging agent) (o_pager (outer_ r))) (outer_ r)) r), Ok tt).
Proof.
  intros Ht. unfold RegisterBuiltinTools, on_outer, on_toolbox, then_, change_state.
  cbn [set_outer set_toolbox toolbox_ peer_config_]. rewrite Ht.
  set (bash := BashTool regex _).
  rewrite (register_adds bash ∅) by done. rewrite (register_adds WriteFileTool) by done.
  change (SanitizeToolName (Name bash)) with "execute_bash". change (SanitizeToolName (Name WriteFileTool)) with "write_file".
  unfold builtins_of. rewrite <- insert_empty. fold bash.
  destruct (peer_config_ r) as [c|]; [|done]. destruct (peers c); [done|].
  rewrite (register_adds (PeerTool_ c)) by done. done.
Qed.

(** What [RebuildToolbox] does, when it ends well. *)
Lemma RebuildToolbox_runs agent r r' :
  RebuildToolbox tr PU_VERSION regex workspace_root_ agent r = (r', Ok tt) ->
  builtins_of agent r ⊆ toolbox_ r'
  /\ (exists f, in_force r = Ok f
      /\ executor_ r' = mkExecutor (Some (resolved_policy workspace_root_ agent))
           (default "" (system_prompt_ (ag_backend agent))) (if_tool_budget f) (xs_origin (executor_ r))
           (xs_next_call (executor_ r)) (xs_note (executor_ r)))
  /\ agent_manager_ r' = AgentManager.SetActiveAgent (ag_name agent) (agent_manager_ r)
  /\ current_session_ r' = current_session_ r /\ peer_config_ r' = peer_config_ r /\ drawn_ r' = drawn_ r
  /\ o_pager (outer_ r') = SetBudget (ag_paging agent) (o_pager (outer_ r)).
Proof.
  unfold RebuildToolbox. intros (r1 & [] & H1 & H)%then_Ok.
  pose proof (connect_servers_same (ag_mcp_servers agent) r) as S1. rewrite H1 in S1. cbn [fst] in S1.
  apply then_Ok in H as (r2 & [] & H2 & H). injection H2 as <-.
  rewrite (then_ran _ _ _ _ _ (RegisterBuiltinTools_runs agent (set_toolbox (Toolbox.Clear (toolbox_ r1)) r1) eq_refl)) in H.
  set (r3 := set_toolbox _ (set_outer _ _)) in H.
  apply then_Ok in H as (r4 & [] & H4 & H). unfold RegisterMcpTools in H4.
  pose proof (register_servers_same (seq 0 (length (o_clients (outer_ r3)))) r3) as S4. rewrite H4 in S4. cbn [fst] in S4.
  destruct S1 as (A1 & A2 & A3 & A4 & A5 & A6 & _). destruct S4 as (B1 & B2 & B3 & B4 & B5 & B6 & B7).
  cbn [r3 set_toolbox set_outer agent_manager_ current_session_ executor_ peer_config_ drawn_ outer_ o_pager set_pager toolbox_] in *.
  apply then_Ok in H as (r5 & [] & H5 & H). injection H5 as <-.
  apply then_Ok in H as (r6 & [] & H6 & H). injection H6 as <-.
  apply then_Ok in H as (r7 & [] & H7 & H). injection H as <-.
  unfold ApplyToolBudget in H7. apply then_Ok in H7 as (r8 & f & H8 & H7). injection H7 as <-.
  injection H8 as <- Hf. rewrite (in_force_same r) in Hf by (cbn [set_executor agent_manager_ current_session_]; congruence).
  cbn [set_executor set_agents agent_manager_ current_session_ executor_ peer_config_ drawn_ outer_ toolbox_].
  split_and!; try congruence.
  - unfold builtins_of in *. cbn [set_toolbox peer_config_] in B7. by rewrite A4 in B7.
  - exists f. split; [done|]. unfold SetToolCallBudget, set_prompt, set_policy.
    cbn [xs_policy xs_prompt xs_budget xs_origin xs_next_call xs_note]. by rewrite B3, A3.
Qed.

(** ** Switching agents *)

(** The session once it was asked to take an agent. *)
Definition retargeted (name : string) (r : runtime) : option Session.t :=
  s ← current_session_ r;
  Some (if Conversation.HasPendingToolCalls (Session.conversation_ s) then s else with_agent_name name s).

(** A switch that ends well leaves a runtime that works as the new agent: its
    sandbox, its prompt, its page sizes, and the built-in tools for it, none of
    which a tool of its servers can replace; the conversation and the overrides
    stay, and the session takes the agent's name unless calls are pending.  The
    budget of tool calls, though, is computed before the agent changes, from
    the agent that was active. *)
Theorem Switch_spec agent r r' :
  AgentManager.active_agent_ (agent_manager_ r) <> ag_name agent ->
  SwitchAgent tr PU_VERSION regex workspace_root_ agent r = (r', Ok tt) ->
  AgentManager.active_agent_ (agent_manager_ r') = ag_name agent
  /\ builtins_of agent r ⊆ toolbox_ r'
  /\ xs_policy (executor_ r') = Some (resolved_policy workspace_root_ agent)
  /\ xs_prompt (executor_ r') = default "" (system_prompt_ (ag_backend agent))
  /\ budget_ (o_pager (outer_ r')) = ag_paging agent
  /\ current_session_ r' = retargeted (ag_name agent) r
  /\ exists f, in_force r = Ok f /\ xs_budget (executor_ r') = if_tool_budget f.
Proof.
  intros Hne. unfold SwitchAgent. rewrite bool_decide_eq_false_2 by done. unfold Activate.
  intros (r1 & [] & H1 & H)%then_Ok.
  destruct (RebuildToolbox_runs _ _ _ H1) as (Hb & (f & Hf & Hx) & Ha & Hs & _ & _ & Hp).
  assert (Hrest : agent_manager_ r' = agent_manager_ r1 /\ toolbox_ r' = toolbox_ r1 /\ executor_ r' = executor_ r1
    /\ o_pager (outer_ r') = o_pager (outer_ r1) /\ current_session_ r' = retargeted (ag_name agent) r).
  { unfold retargeted. rewrite <- Hs. destruct (current_session_ r1) as [s|] eqn:Es; cbn [mbind option_bind];
      [|by injection H as <-]. unfold Session.SetAgent in H.
    destruct (Conversation.HasPendingToolCalls _); [by injection H as <-|].
    unfold put_session, change_state, then_, SaveCurrentSession in H. cbn [set_session current_session_] in H.
    destruct (w_save _ _ _) as [n [| |msg]]; by simplify_eq. }
  destruct Hrest as (-> & -> & -> & -> & ->). rewrite Ha, Hx, Hp. cbn. split_and!; try done. by exists f.
Qed.

(** ** Settings *)

Lemma in_force_views r b budget :
  ConfiguredBackend r = Ok b -> ConfiguredToolBudget r = Ok budget ->
  in_force r = Resolve b budget (Overrides_ r) /\ Settings_ r = Ok (ViewSettings b budget (Overrides_ r)).
Proof. intros Hb Hbudget. unfold in_force, Settings_. by rewrite Hb, Hbudget. Qed.

(** Setting one: a value its row does not read changes nothing and is refused
    with the row's words.  One that is read becomes the session's override, and
    from then on what is in force, what the executor obeys and what the page
    shows agree; the file is written last, so an exception it throws leaves the
    setting in force. *)
Theorem SetSetting_spec name raw r s b budget :
  current_session_ r = Some s -> accepted (Overrides_ r) -> ConfiguredBackend r = Ok b -> ConfiguredToolBudget r = Ok budget ->
  to_float (double_of_float (temperature b)) = temperature b ->
  let '(r', out) := SetSetting workspace_root_ name raw r in
  match ParseSetting name raw with
  | Ok v =>
      Overrides_ r' = SetOverride name v (Overrides_ r) /\ accepted (Overrides_ r')
      /\ (exists f views, in_force r' = Ok f /\ xs_budget (executor_ r') = if_tool_budget f
           /\ Settings_ r' = Ok views /\ in_force_values f = map (fun view => rounded (v_value view)) views)
      /\ (out = Ok tt \/ exists msg, out = Throw (StdException msg))
  | Throw e => r' = r /\ out = Throw e
  | Undef => False
  end.
Proof.
  intros Hs Hacc Hb Hbudget Hfloat. unfold SetSetting, then_ at 1, of_res.
  destruct (ParseSetting name raw) as [v|e|] eqn:Ev; [|done|].
  2:{ unfold ParseSetting in Ev. destruct (FindSetting name) as [row|] eqn:Er; [|done].
      apply FindSetting_Some in Er as [Er _]. destruct (is_null raw); [done|].
      unfold Table in Er. rewrite !elem_of_cons, elem_of_nil in Er.
      destruct Er as [->|[->|[->|[->|[]]]]]; cbn [s_read] in Ev;
        unfold ReadThinking, ReadTemperature, ReadMaxTokens, ReadToolBudget in Ev;
        cbn [s_read] in Ev; repeat (case_match || case_bool_decide); cbn in Ev; try done; by repeat case_match. }
  unfold set_overrides, DefaultSession, then_, put_session, change_state. rewrite Hs.
  set (o' := SetOverride name v _). set (r1 := set_session _ r).
  assert (Ho : Overrides_ r = overrides (Session.spec_ s)) by (unfold Overrides_; by rewrite Hs).
  rewrite Ho in Hacc. destruct (setting_taken name raw v b budget _ Hacc Ev Hfloat) as (Hacc' & _ & _ & f & Hf & Hv & _).
  fold o' in Hacc', Hf, Hv.
  assert (Hb1 : ConfiguredBackend r1 = Ok b) by (revert Hb; unfold ConfiguredBackend; cbn; by rewrite Hs).
  assert (Hbudget1 : ConfiguredToolBudget r1 = Ok budget) by exact Hbudget.
  destruct (in_force_views r1 b budget Hb1 Hbudget1) as [Hin Hviews]. change (Overrides_ r1) with o' in Hin, Hviews.
  rewrite Hf in Hin. unfold ApplyToolBudget, then_, change_state. rewrite Hin.
  set (r2 := set_executor _ r1). unfold SaveCurrentSession. cbn [r2 set_executor r1 set_session current_session_].
  destruct (w_save _ _ _) as [n out].
  assert (Hend : forall r', r' = set_world n r2 ->
    Overrides_ r' = SetOverride name v (Overrides_ r) /\ accepted (Overrides_ r')
    /\ exists f views, in_force r' = Ok f /\ xs_budget (executor_ r') = if_tool_budget f
         /\ Settings_ r' = Ok views /\ in_force_values f = map (fun view => rounded (v_value view)) views).
  { intros r' ->. rewrite Ho. split; [done|]. split; [exact Hacc'|].
    exists f, (ViewSettings b budget o'). split_and!; [exact Hin|done|exact Hviews|exact Hv]. }
  destruct (Hend _ eq_refl) as (H1 & H2 & H3). split_and!; [exact H1|exact H2|exact H3|].
  destruct out; [by left|by left|by right; exists msg].
Qed.

(** ** A restart *)

(** What a session has to be for its file to hold it. *)
Definition storable (s : Session.t) : Prop :=
  wire (Session.Serialize s) = true /\ graph_ok (Session.conversation_ s)
  /\ map_Forall (fun _ n => payload_ok (n_payload n)) (MessageGraph.nodes_ (Session.conversation_ s))
  /\ spec_ok (Session.spec_ s) /\ map_Forall entry_ok (Session.usage_ s).

(** The session as it is read back. *)
Definition stored_session (s : Session.t) : Session.t :=
  let c := Session.conversation_ s in
  Session.mk (norm_graph c) (mkSpec (agent_name (Session.spec_ s)) (norm_overrides (overrides (Session.spec_ s))))
    (UsageLedger.KeepOnly (live_ids c) (Session.usage_ s)).

(** A file that was written holds the value, in the number kinds the parser
    chooses: what is printed is parsed back. *)
Definition files_keep : Prop :=
  forall path v n n', wire v = true -> w_save path v n = (n', Saved) -> w_session n' path = Parsed (normalize v).

Lemma find_agent_name name l e : AgentManager.find_agent name l = Some e -> ag_name e = name.
Proof.
  unfold AgentManager.find_agent. intros ([k e'] & Hf & [= ->])%fmap_Some.
  by apply list_find_Some in Hf as (_ & ? & _).
Qed.

Lemma AgentConfig_name name m e : AgentManager.AgentConfig name m = Some e -> ag_name e = name.
Proof.
  unfold AgentManager.AgentConfig. destruct (AgentManager.find_agent name _) as [e'|] eqn:E;
    [intros [= <-]|intros E']; by eapply find_agent_name.
Qed.

(** Every page of the transcript ranks at most [HighestRankIn]. *)
Lemma HighestRankIn_spec s n t o :
  n ∈ MessageGraph.Chain (Session.conversation_ s) -> n_payload n = Message.Tool t -> t_origin t = Some o ->
  o_rank o <= HighestRankIn s.
Proof.
  unfold HighestRankIn. set (f := fun (highest : Z) node => _). generalize (MessageGraph.Chain (Session.conversation_ s)).
  assert (Hmono : forall l z, z <= foldl f z l).
  { induction l as [|m l IH]; intros z; [done|]. cbn. etrans; [|apply IH]. unfold f.
    destruct (n_payload m) as [| | |t']; try done. destruct (t_origin t'); lia. }
  intros l. generalize 0. induction l as [|m l IH]; intros z Hin Hp Ho; [by apply elem_of_nil in Hin|].
  apply elem_of_cons in Hin as [->|Hin]; cbn [foldl]; [|by apply IH].
  etrans; [|apply Hmono]. unfold f. rewrite Hp, Ho. lia.
Qed.


End RuntimeFacts.

(** ** A workspace on a disk *)

(** Some files, and the session file. *)
Record disk := mkDisk { dk_files : gmap string string; dk_session : option value }.

#[export] Instance disk_outside : Outside disk := {|
  os_shell := fun _ => quiet_shell; os_ran := fun _ n => n; os_files := fun _ => demo_fs; os_wrote := fun _ _ n => n;
  os_post := fun _ => PeerTool.demo_server; os_posted := fun _ n => n |}.

#[export] Instance disk_world : World disk := {|
  world_outside := disk_outside;
  w_getenv := fun _ _ => None;
  w_exists := fun n path => bool_decide (is_Some (dk_files n !! path));
  w_read := fun n path => dk_files n !! path;
  w_session := fun n _ => match dk_session n with Some v => Parsed v | None => NoFile end;
  w_set_aside := fun _ n => mkDisk (dk_files n) None;
  w_save := fun _ v n => (mkDisk (dk_files n) (Some (normalize v)), Saved) |}.

(** Servers nobody reaches. *)
Definition no_servers : Transport disk unit :=
  mkTransport (fun _ => tt) (fun t w => (t, w, false)) (fun t w => (t, w)) (fun _ t w => (t, w, false)) (fun t w => (t, w, [])).

Definition agent_with (name : string) (budget : option Z) : AgentEntry :=
  mkAgent name "" demo_backend default_policy default_budget [] budget.

Definition two_agents : AgentManager.t :=
  AgentManager.mk "small" [agent_with "small" (Some 7); agent_with "large" (Some 900)] [].

Definition runtime_on (m : AgentManager.t) (s : option Session.t) (budget : Z) (d : disk) : @runtime unit disk unit :=
  mkRuntime m s (SetToolCallBudget budget new_executor) ∅ (mkOuter (new_pager default_budget "g") [] d) None 0.

Definition empty_disk : disk := mkDisk ∅ None.

Definition tool_budget_shown (r : @runtime unit disk unit) : res (option value) :=
  res_map (fun views => v_value <$> (snd <$> list_find (fun view => v_name view = "tool_budget") views)) (Settings_ r).

(** Switching to another agent leaves the executor with the budget of the agent
    it switched from, while the settings show the new agent's. *)
Example Switch_keeps_budget :
  let '(r, out) := SwitchAgent (codec := bit_codec) no_servers "1" prefix_regex "/w" (agent_with "large" (Some 900))
                     (runtime_on two_agents None 7 empty_disk) in
  out = Ok tt /\ xs_budget (executor_ r) = 7 /\ tool_budget_shown r = Ok (Some (JInt64 900)).
Proof. vm_compute. done. Qed.

Definition agents_file : value :=
  JObject [("default_agent", JString "main");
           ("agents", JArray [JObject [("name", JString "main");
              ("backend", JObject [("gateway", JString "ollama"); ("model", JString "qwen3")])]])].

(** A session that was left with a tool budget of its own. *)
Definition budget_session : Session.t := Session.mk MessageGraph.empty (mkSpec "main" [("tool_budget", JInt64 5)]) ∅.

(** A start forgets the tool budget the session was left with: it is shown as in
    force, and the executor goes by the agent's. *)
Example Start_forgets_budget :
  let d := mkDisk {["/w/.pu/agents.json" := serialize (JsonCodec := bit_codec) agents_file]}
             (Some (normalize (Session.Serialize budget_session))) in
  let '(r, out) := Initialize (codec := bit_codec) no_servers "1" prefix_regex "/w" 100 "" ""
                     (runtime_on (AgentManager.mk "" [] []) None 100 d) in
  out = Ok tt /\ xs_budget (executor_ r) = 100 /\ tool_budget_shown r = Ok (Some (JInt64 5)).
Proof. vm_compute. done. Qed.

(** An agent activated while calls are pending gets its tools and its sandbox,
    and the session keeps the old agent, so its backend goes on answering. *)
Example Switch_while_pending :
  let s := Session.mk demo_graph (mkSpec "small" []) ∅ in
  let '(r, out) := SwitchAgent (codec := bit_codec) no_servers "1" prefix_regex "/w" (agent_with "large" (Some 900))
                     (runtime_on two_agents (Some s) 7 empty_disk) in
  out = Ok tt /\ AgentManager.active_agent_ (agent_manager_ r) = "large"
  /\ (agent_name ∘ Session.spec_ <$> current_session_ r) = Some "small".
Proof. vm_compute. done. Qed.

(** ** Witnesses *)

Lemma Switch_spec_witness :
  exists r', SwitchAgent (codec := bit_codec) no_servers "1" prefix_regex "/w" (agent_with "large" (Some 900))
               (runtime_on two_agents None 7 empty_disk) = (r', Ok tt)
    /\ AgentManager.active_agent_ (agent_manager_ r') = "large"
    /\ is_Some (toolbox_ r' !! "execute_bash").
Proof.
  destruct (SwitchAgent (codec := bit_codec) no_servers "1" prefix_regex "/w" (agent_with "large" (Some 900))
               (runtime_on two_agents None 7 empty_disk)) as [r' [[]|e|]] eqn:E;
    [|exfalso; apply (f_equal (is_ok ∘ snd)) in E; by vm_compute in E
     |exfalso; apply (f_equal (is_ok ∘ snd)) in E; by vm_compute in E].
  destruct (Switch_spec (codec := bit_codec) no_servers "1" prefix_regex "/w" (agent_with "large" (Some 900))
    (runtime_on two_agents None 7 empty_disk) r' ltac:(discriminate) E) as (Ha & Hb & _).
  exists r'. split; [reflexivity|]. split; [exact Ha|].
  eapply lookup_weaken_is_Some; [|exact Hb]. eexists. reflexivity.
Defined.

Definition low_thinking : Session.t := Session.mk MessageGraph.empty (mkSpec "small" [("thinking", JString "low")]) ∅.

Lemma SetSetting_spec_witness :
  exists f, in_force (SetSetting "/w" "tool_budget" (JInt64 12)
                        (runtime_on two_agents (Some low_thinking) 7 empty_disk)).1 = Ok f
    /\ xs_budget (executor_ (SetSetting "/w" "tool_budget" (JInt64 12)
                               (runtime_on two_agents (Some low_thinking) 7 empty_disk)).1) = if_tool_budget f
    /\ if_tool_budget f = 12.
Proof.
  pose proof (SetSetting_spec no_servers "/w" "tool_budget" (JInt64 12)
    (runtime_on two_agents (Some low_thinking) 7 empty_disk) low_thinking demo_backend 7 eq_refl) as H.
  destruct (SetSetting "/w" "tool_budget" (JInt64 12)
    (runtime_on two_agents (Some low_thinking) 7 empty_disk)) as [r' out] eqn:E.
  destruct H as (_ & _ & (f & views & Hf & Hx & _) & _).
  - split; [by apply (bool_decide_eq_true_1 _)|]. unfold Table. intros s v.
    rewrite !elem_of_cons, elem_of_nil. intros [->|[->|[->|[->|[]]]]] Hv; vm_compute in Hv; by simplify_eq.
  - reflexivity.
  - reflexivity.
  - by vm_compute.
  - exists f. cbn [fst]. split; [exact Hf|]. split; [exact Hx|]. rewrite <- Hx.
    apply (f_equal (fun o => xs_budget (executor_ o.1))) in E. cbn [fst] in E. rewrite <- E. vm_compute. reflexivity.
Defined.

(** A conversation of one question. *)
Definition asked_graph : MessageGraph.t :=
  MessageGraph.AppendAfterLeaf "a" (User (mkUser "hello" "")) "2026-01-01T00:00:00" MessageGraph.empty.

Definition asked_session : Session.t := Session.mk asked_graph (mkSpec "large" [("thinking", JString "low")]) ∅.

Lemma asked_session_storable : storable asked_session.
Proof.
  split_and!; [by vm_compute| | |split; by apply (bool_decide_eq_true_1 _)|apply map_Forall_empty].
  - apply (AppendAfterLeaf_refines "a" (User (mkUser "hello" "")) "2026-01-01T00:00:00" MessageGraph.empty);
      [apply empty_ok|done|done].
  - apply map_Forall_to_list. by vm_compute; repeat constructor.
Qed.

Lemma disk_files_keep : files_keep (World0 := disk_world).
Proof. intros path v n n' _ [= <-]. done. Qed.

