(* ===== verification/Router.v ===== *)
(** * Commands and inputs ([src/runtime/command_router.cpp], [src/config/agent_summary.cpp], [src/runtime/runtime.cpp])

    [Route] runs a slash command against the runtime; [ProcessInput] is the one
    entrance of a line of input: a command, or a turn of the executor whose
    usage is recorded and whose session is saved. *)
From Stdlib Require Import Ascii.
From S2P Require Export Prelude Text Json Message Usage Gateway Models Http Agents Settings Session Executor Mcp.
From S2P Require Export Builtin Runtime.

(** ** The agents a workspace offers *)

Record AgentSummary := mkSummary {
  as_name : string; as_description : string; as_gateway : string; as_model : string; as_active : bool
}.

Definition SummarizeAgent (m : AgentManager.t) (active name : string) : res AgentSummary :=
  match AgentManager.AgentConfig name m with
  | Some entry =>
      let? gateway := GatewayName (gateway (ag_backend entry)) in
      Ok (mkSummary name (ag_description entry) gateway (model (ag_backend entry)) (bool_decide (name = active)))
  | None => Ok (mkSummary name "" "" "" (bool_decide (name = active)))
  end.

Definition SummarizeAgents (m : AgentManager.t) (active : string) : res (list AgentSummary) :=
  res_mapM (SummarizeAgent m active) (AgentManager.AgentNames m).

Definition summary_json (a : AgentSummary) : value :=
  JObject [("name", JString (as_name a)); ("description", JString (as_description a));
           ("gateway", JString (as_gateway a)); ("model", JString (as_model a)); ("active", JBool (as_active a))].

Definition AgentsAsJson (agents : list AgentSummary) : value := JArray (map summary_json agents).

Definition agent_rows (width : nat) (a : AgentSummary) : string :=
  "  " +:+ as_name a +:+ (if as_active a then " (active)" else "") +:+ NL
  +:+ (if sempty (as_description a) then ""
       else "  " +:+ spaces width +:+ "   " +:+ as_description a +:+ NL)
  +:+ (if sempty (as_gateway a) then ""
       else "  " +:+ spaces width +:+ "   " +:+ as_gateway a
            +:+ (if sempty (as_model a) then "" else " / " +:+ as_model a) +:+ NL).

Definition FormatAgentTable (agents : list AgentSummary) : string :=
  match agents with
  | [] => "No agents are configured." +:+ NL
  | _ =>
      let width := foldl (fun w a => Nat.max w (slen (as_name a))) 0%nat agents in
      decimal (Z.of_nat (length agents)) +:+ " agent(s) configured:" +:+ NL
      +:+ foldr String.append "" (map (agent_rows width) agents)
  end.

(** ** Reading a command *)

(** The command and its arguments; [None] where [Route] refuses at once. *)
Definition split_command (input : string) : option (string * list string) :=
  let trimmed := Trim input in
  if negb (starts_with "/" trimmed) then None
  else match sfind " " trimmed with
       | None => Some (trimmed, [])
       | Some space => Some (stake space trimmed, words (sdrop (S space) trimmed))
       end.

Definition kBackendHelp : string :=
  "  /backend <agent_name>  Switch to a predefined agent" +:+ NL +:+
  "  /backend <type> <model> [host]  Adopt a backend as an agent of its type" +:+ NL.

(** The commands in the order of [CommandOrder], with their help. *)
Definition commands_ : list (string * string) :=
  [("/help", "  /help                  Show this help message" +:+ NL);
   ("/backend", kBackendHelp);
   ("/agents", "  /agents                List available agents" +:+ NL);
   ("/models", "  /models                List the models the active agent's backend reports" +:+ NL +:+
               "  /models <agent>        List the models a named agent's backend reports" +:+ NL);
   ("/clear", "  /clear                 Clear conversation history" +:+ NL);
   ("/rewind", "  /rewind <turn>         Step back to before a turn; the next message replaces it" +:+ NL);
   ("/thinking", "  /thinking              Show the thinking level this session asks for" +:+ NL +:+
                 "  /thinking <level>      none, low, medium, high, or default (the backend decides)" +:+ NL +:+
                 "  /thinking auto         Follow the agent's configuration again" +:+ NL)].

Definition Help : string :=
  "Available commands:" +:+ NL
  +:+ foldr String.append "" (map snd commands_) +:+ "  /exit, /quit           Exit the chat" +:+ NL.

Definition DescribeError (e : exn) : string := "Error: " +:+ what e.
Definition FormatUsage (cmd usage : string) : string := "Usage: " +:+ cmd +:+ " " +:+ usage.

Section Router.
#[local] Set Default Proof Using "Type*".
Context `{codec : JsonCodec} {P N T : Type} `{!World N} (tr : Transport (N : Type) T).
Context (PU_VERSION : string) (regex : string -> option (string -> bool)) (workspace_root_ : string).
(** The network, and the headers [CodeBuddyListingHeaders] draws for a listing. *)
Context (dial : Http.Request -> N -> N * Network) (listing_headers : list string).

Abbreviation runtime := (@runtime P N T).
Abbreviation rt := (step runtime).

(** ** Listings *)

Definition FetchListing (url api_key : string) (extra : list string) (n : N) : N * res string :=
  let all := extra ++ (if sempty api_key then [] else [BearerHeader api_key]) in
  let '(n, out) := Get dial url all n in (n, res_map Http.body out).

Definition ListModels (cfg : Backend) : rt (list ModelEntry) :=
  fun r =>
    match GateFor cfg with
    | Throw e => (r, Throw e)
    | Undef => (r, Undef)
    | Ok row =>
        let kind := gw_make_listing row in
        let url := match kind with
                   | OllamaModelLister => host cfg +:+ sh_path OllamaShape
                   | OpenAIModelLister => host cfg +:+ sh_path OpenAIShape
                   | CodeBuddyModelLister => CodeBuddyCatalogUrl (host cfg)
                   end in
        let '(n, body) := FetchListing url (default "" (api_key cfg))
                            (match kind with CodeBuddyModelLister => listing_headers | _ => [] end) (net r) in
        (set_world n r,
         let? body := body in
         match kind with
         | OllamaModelLister => FlatListModels OllamaShape (host cfg) body
         | OpenAIModelLister => FlatListModels OpenAIShape (host cfg) body
         | CodeBuddyModelLister => CodeBuddyListModels (host cfg) body
         end)
    end.

(** ** Handlers *)

Definition get {A} (f : runtime -> res A) : rt A := fun r => (r, f r).

Definition HandleBackend (args : list string) : rt string :=
  match args with
  | [] =>
      let! cfg := get CurrentBackend in
      let! name := of_res (GatewayName (gateway cfg)) in
      done_with ("Current backend: " +:+ name +:+ " (model: " +:+ model cfg +:+ ", host: " +:+ host cfg +:+ ")")
  | name :: rest =>
      fun r =>
        match AgentManager.AgentConfig name (agent_manager_ r) with
        | Some agent_config =>
            try_catch
              (SwitchAgent tr PU_VERSION regex workspace_root_ agent_config ;;!
               let! gw := of_res (GatewayName (gateway (ag_backend agent_config))) in
               done_with ("Switched to agent: " +:+ name +:+ " (" +:+ gw +:+ "/"
                          +:+ model (ag_backend agent_config) +:+ ")"))
              (fun e => done_with (DescribeError e)) r
        | None =>
            match rest with
            | [] => (r, Ok (FormatUsage "/backend" "<type> <model> [host]"))
            | model_ :: more =>
                if (1 <? length more)%nat then
                  (r, Ok "Usage: /backend <type> <model> [host]. A key is set in agents.json, not here.")
                else
                  match ParseGatewayId name with
                  | None => (r, Ok ("Unknown type: " +:+ name +:+ ". Use " +:+ GatewayNames +:+ "."))
                  | Some type_ =>
                      let given := default "" (head more) in
                      (let! host_ := of_res (if sempty given then DefaultHostFor type_ else Ok given) in
                       let new_cfg := mkBackend type_ host_ model_ None default_temperature None None kServerDefault None in
                       try_catch
                         (SwitchBackend tr PU_VERSION regex workspace_root_ new_cfg ;;!
                          done_with ("Switched backend to: " +:+ name +:+ " (model: " +:+ model_
                                     +:+ ", host: " +:+ host_ +:+ ")"))
                         (fun e => done_with (DescribeError e))) r
                  end
            end
        end
  end.

Definition ReportModels (cfg : Backend) : rt string :=
  try_catch
    (let! models := ListModels cfg in
     let! name := of_res (GatewayName (gateway cfg)) in
     done_with (FormatModelList models name (host cfg) (model cfg) kIds))
    (fun e => done_with (DescribeError e)).

Definition HandleModels (args : list string) : rt string :=
  match args with
  | [] => let! cfg := get CurrentBackend in ReportModels cfg
  | name :: _ =>
      fun r => match AgentManager.AgentConfig name (agent_manager_ r) with
               | None => (r, Ok ("Unknown agent: " +:+ name))
               | Some agent_config => ReportModels (ag_backend agent_config) r
               end
  end.

Definition HandleAgents : rt string :=
  let! s := DefaultSession in
  let! agents := get (fun r => SummarizeAgents (agent_manager_ r) (agent_name (Session.spec_ s))) in
  done_with (FormatAgentTable agents).

Definition set_conversation (c : MessageGraph.t) : rt unit :=
  let! s := DefaultSession in put_session (Session.mk c (Session.spec_ s) (Session.usage_ s)).

Definition HandleClear : rt string :=
  let! s := DefaultSession in
  set_conversation (Conversation.ClearHistory (Session.conversation_ s)) ;;!
  done_with "Conversation history cleared.".

Definition HandleRewind (args : list string) : rt string :=
  match args with
  | [] => done_with (FormatUsage "/rewind" "<turn>")
  | turn :: _ =>
      match stoul turn with
      | None => done_with "Usage: /rewind <turn> (a positive number)"
      | Some n =>
          try_catch
            (let! s := DefaultSession in
             let! rewound := of_res (Conversation.RewindBefore (Z.to_nat n) (Session.conversation_ s)) in
             let '(taken_back, c) := rewound in
             set_conversation c ;;!
             done_with (if negb taken_back then "There is no turn " +:+ turn +:+ " in this conversation."
                        else "Stepped back to before turn " +:+ turn +:+
                             ". The next message replaces it; the turns after it stay in the file until one does."))
            (fun e => done_with (DescribeError e))
      end
  end.

Definition HandleThinking (args : list string) : rt string :=
  match args with
  | [] =>
      let! level := get CurrentThinkingLevel in
      let! over := read_state ThinkingOverride in
      done_with ("Thinking: " +:+ ThinkingLevelName level
                 +:+ match over with
                     | Some _ => " (set for this session)"
                     | None => " (from the agent's configuration)"
                     end)
  | [arg] =>
      if bool_decide (arg = "auto") then
        SetThinkingLevel workspace_root_ None ;;!
        let! level := get CurrentThinkingLevel in
        done_with ("Thinking follows the agent's configuration again (" +:+ ThinkingLevelName level +:+ ").")
      else if negb (bool_decide (arg = "default")) && bool_decide (ParseThinkingLevel arg = kServerDefault) then
        done_with ("Unknown thinking level: " +:+ arg +:+ ". Use none, low, medium, high, default or auto.")
      else
        SetThinkingLevel workspace_root_ (Some (ParseThinkingLevel arg)) ;;!
        let! level := get CurrentThinkingLevel in
        done_with ("Thinking: " +:+ ThinkingLevelName level +:+ " for this session.")
  | _ => done_with (FormatUsage "/thinking" "[level|auto]")
  end.

(** The commands that run; none refuses. *)
Definition run_command (cmd : string) (args : list string) : option (rt string) :=
  if bool_decide (cmd = "/help") then Some (done_with Help)
  else if bool_decide (cmd = "/backend") then Some (HandleBackend args)
  else if bool_decide (cmd = "/agents") then Some HandleAgents
  else if bool_decide (cmd = "/models") then Some (HandleModels args)
  else if bool_decide (cmd = "/clear") then Some HandleClear
  else if bool_decide (cmd = "/rewind") then Some (HandleRewind args)
  else if bool_decide (cmd = "/thinking") then Some (HandleThinking args)
  else if bool_decide (cmd = "/exit") || bool_decide (cmd = "/quit") then Some (done_with "")
  else None.

(** What a command answers, or that it is none. *)
Definition Route (input : string) : rt (option string) :=
  match split_command input with
  | None => done_with None
  | Some (cmd, args) =>
      match run_command cmd args with
      | None => done_with None
      | Some run => let! output := run in done_with (Some output)
      end
  end.

(** ** A line of input *)

(** [Session::CreateProvider]: the state of a provider for a backend, and how it
    is asked. *)
Abbreviation Wide := (P * Outer N T)%type.
Context (CreateProvider : Backend -> res (P * (list ChatMessage -> list ToolDefinition -> Shared (W := Wide) ->
  Shared (W := Wide) * (list string * res ChatResult)))).
(** What a turn reads of the world, and the tokens and the approval it is given. *)
Context (cancelled : Shared (W := Wide) -> Shared (W := Wide) * bool) (ShutdownRequested : Wide -> bool).
Context (ticks seconds : Wide -> Z) (context_digest : Wide -> string) (ids : nat -> MessageId).
Context (static_env : StaticEnvInfo) (approval : option (string -> bool * string)).
Context (has_cancel_token has_command_stop_token : bool).

Definition command_result (ok : bool) (output : string) : ExecutionResult :=
  mkExecution output false 0 None 0 "" [] "" kCompletedTurn (negb ok) (if ok then "" else output) 0 0 false false.

(** The id of the last answer of the conversation. *)
Definition last_assistant (s : Session.t) : MessageId :=
  foldl (fun last node => match n_payload node with Assistant _ => n_id node | _ => last end) ""
    (MessageGraph.Chain (Session.conversation_ s)).

Definition turn_usage (node_id gateway : string) (result : ExecutionResult) (u : TokenUsage) : TurnUsage :=
  mkTurn node_id (x_rounds result) (prompt_tokens u) (completion_tokens u) (cached_tokens u) (cost u)
    (x_model result) gateway.

Definition RecordTurnUsage (result : ExecutionResult) (backend : Backend) (s : Session.t) : res Session.t :=
  match x_usage result with
  | None => Ok s
  | Some u =>
      let node := last_assistant s in
      if sempty node then Ok s
      else
        let? name := GatewayName (gateway backend) in
        Ok (Session.mk (Session.conversation_ s) (Session.spec_ s)
              (UsageLedger.Record_ (turn_usage node name result u) (Session.usage_ s)))
  end.

(** The executor at the start of a turn, and the runtime it leaves. *)
Definition turn_start (p : P) (s : Session.t) (r : runtime) : exec (W := Wide) :=
  let x := executor_ r in
  mkExec (Session.conversation_ s) (drawn_ r) (mkShared (xs_note x) (p, outer_ r)) (xs_origin x) (xs_next_call x) [].

Definition turn_end (s : Session.t) (e : exec (W := Wide)) (r : runtime) : runtime :=
  let x := executor_ r in
  let shared := e_shared e in
  mkRuntime (agent_manager_ r)
    (Some (Session.mk (e_conversation e) (Session.spec_ s) (Session.usage_ s)))
    (mkExecutor (xs_policy x) (xs_prompt x) (xs_budget x) (peer_origin_ e) (next_tool_call_id_ e) (user_note_ shared))
    (toolbox_ r) (outside shared).2 (peer_config_ r) (e_drawn e).

(** The turn, without what the catch makes of an exception: what came of it and
    the result so far. *)
Definition RunTurn (fuel : nat) (input : string) (r : runtime) : option (runtime * (ExecutionResult * res unit)) :=
  match DefaultSession r with
  | (r, Throw e) => Some (r, (no_execution, Throw e))
  | (r, Undef) => Some (r, (no_execution, Undef))
  | (r, Ok s) =>
      match (let? backend := CurrentBackend r in let? made := CreateProvider backend in Ok (backend, made)) with
      | Throw e => Some (r, (no_execution, Throw e))
      | Undef => Some (r, (no_execution, Undef))
      | Ok (backend, (p, Chat)) =>
          let x := executor_ r in
          '(e, ended) ← Executor.Execute Chat (toolbox_ r) cancelled ShutdownRequested ticks seconds context_digest ids
              (xs_policy x) (xs_prompt x) static_env (xs_budget x) approval has_cancel_token
              has_command_stop_token fuel input (turn_start p s r);
          let r := turn_end s e r in
          Some match ended with
               | Throw e => (r, (no_execution, Throw e))
               | Undef => (r, (no_execution, Undef))
               | Ok result =>
                   let '(r, filed) :=
                     (let! s := DefaultSession in
                      let! s := of_res (RecordTurnUsage result backend s) in
                      put_session s ;;! SaveCurrentSession workspace_root_) r in
                   (r, (result, filed))
               end
      end
  end.

(** The command, likewise. *)
Definition RunCommand (input : string) (r : runtime) : runtime * (ExecutionResult * res unit) :=
  match (let! _ := DefaultSession in Route input) r with
  | (r, Throw e) => (r, (no_execution, Throw e))
  | (r, Undef) => (r, (no_execution, Undef))
  | (r, Ok output) =>
      let result := match output with Some o => command_result true o | None => command_result false "" end in
      let '(r, kept) := SaveCurrentSession workspace_root_ r in
      (r, (result, kept))
  end.

(** The result and whether the input was a command. *)
Definition ProcessInput (fuel : nat) (input origin : string) (r : runtime)
    : option (runtime * res (ExecutionResult * bool)) :=
  let r := set_executor (SetPeerOrigin origin (executor_ r)) r in
  let is_command := starts_with "/" input in
  let ran := if is_command then Some (RunCommand input r) else RunTurn fuel input r in
  '(r, (result, ended)) ← ran;
  Some (r, match (ended : res unit) with
           | Ok _ => Ok (result, is_command)
           | Throw e => Ok (Executor.with_error (what e) result, is_command)
           | Undef => Undef
           end).

End Router.

(** ** What steps keep *)

(** A relation every outcome of a step is in with where it started, whether it
    ends well or throws. *)
Definition keeps {S A} (R : S -> S -> Prop) (m : step S A) : Prop := forall s, R s (m s).1.

Section Keeps.
#[local] Set Default Proof Using "Type*".
Context {S : Type} (R : S -> S -> Prop) `{!PreOrder R}.

Lemma keeps_then {A B} (m : step S A) (k : A -> step S B) : keeps R m -> (forall a, keeps R (k a)) -> keeps R (then_ m k).
Proof.
  intros Hm Hk s. specialize (Hm s). unfold then_. destruct (m s) as [s1 [a|e|]]; [|done..]. etrans; [exact Hm|apply Hk].
Qed.

Lemma keeps_try {A} (m : step S A) h : keeps R m -> (forall e, keeps R (h e)) -> keeps R (try_catch m h).
Proof.
  intros Hm Hh s. specialize (Hm s). unfold try_catch. destruct (m s) as [s1 [a|e|]]; [done| |done].
  etrans; [exact Hm|apply Hh].
Qed.

Lemma keeps_done {A} (a : A) : keeps R (done_with a). Proof. by intros s. Qed.
Lemma keeps_of_res {A} (m : res A) : keeps R (of_res m). Proof. by intros s. Qed.
Lemma keeps_read {A} (f : S -> res A) : keeps R (fun s => (s, f s)). Proof. by intros s. Qed.
Lemma keeps_read_state {A} (f : S -> A) : keeps R (read_state f). Proof. by intros s. Qed.
End Keeps.

(** Goes through a step by its parts. *)
Create HintDb keeps discriminated.
Ltac keep :=
  lazymatch goal with
  | |- keeps _ (then_ _ _) => apply keeps_then; [apply _|keep|intros ?; keep]
  | |- keeps _ (try_catch _ _) => apply keeps_try; [apply _|keep|intros ?; keep]
  | |- keeps _ (done_with _) => apply keeps_done, _
  | |- keeps _ (of_res _) => apply keeps_of_res, _
  | |- keeps _ (read_state _) => apply keeps_read_state, _
  | |- keeps _ (let '(_, _) := ?x in _) => destruct x; keep
  | |- keeps _ (match ?x with _ => _ end) => destruct x; keep
  | |- keeps _ (if ?x then _ else _) => destruct x; keep
  | |- _ => auto with keeps
  end.

(** ** What becomes of the conversation *)

Section ConversationFacts.
#[local] Set Default Proof Using "Type*".
Context `{codec : JsonCodec} {P N T : Type} `{!World N}.

Abbreviation runtime := (@runtime P N T).
Implicit Types r : runtime.

(** The conversation, which is empty before there is a session. *)
Definition conversation_of (r : runtime) : MessageGraph.t :=
  match current_session_ r with Some s => Session.conversation_ s | None => MessageGraph.empty end.

(** A step that leaves the conversation alone. *)
Definition same_conversation (r r' : runtime) : Prop :=
  drawn_ r' = drawn_ r /\ conversation_of r' = conversation_of r.

#[export] Instance same_conversation_preorder : PreOrder same_conversation.
Proof. split; [by intros r|]. intros r1 r2 r3 [A1 A2] [B1 B2]. split; congruence. Qed.

Lemma same_change (f : runtime -> runtime) :
  (forall r, same_conversation r (f r)) -> keeps same_conversation (change_state f).
Proof. intros H r. apply H. Qed.

Lemma same_save root : keeps same_conversation (SaveCurrentSession root).
Proof.
  intros r. unfold SaveCurrentSession. destruct (current_session_ r) as [s|] eqn:Es; [|done].
  destruct (w_save _ _ _) as [n out]. done.
Qed.

Lemma same_default : keeps same_conversation (@DefaultSession P N T).
Proof.
  intros r. unfold DefaultSession. destruct (current_session_ r) as [s|] eqn:Es; [done|].
  unfold Session.SetAgent. destruct (Conversation.HasPendingToolCalls _); [done|].
  split; [done|]. unfold conversation_of. cbn. by rewrite Es.
Qed.

(** The session a step that changes its settings works on. *)
Lemma DefaultSession_runs r :
  exists s, DefaultSession r = (set_session (Some s) r, Ok s) /\ Session.conversation_ s = conversation_of r.
Proof.
  unfold DefaultSession, conversation_of. destruct (current_session_ r) as [s|] eqn:Es.
  - exists s. split; [|done]. f_equal. destruct r. cbn in *. by subst.
  - unfold Session.SetAgent. change (Conversation.HasPendingToolCalls (Session.conversation_ Session.new)) with false.
    cbn iota. eexists. split; [reflexivity|done].
Qed.

Lemma same_overrides f : keeps same_conversation (@set_overrides P N T f).
Proof.
  intros r. unfold set_overrides. destruct (DefaultSession_runs r) as (s & E & Hc). rewrite (then_ran _ _ _ _ _ E).
  split; [done|exact Hc].
Qed.

Lemma same_budget : keeps same_conversation (@ApplyToolBudget P N T).
Proof. apply keeps_then; [apply _|apply keeps_read, _|]. intros f. by apply same_change. Qed.

Lemma same_get {A} (f : runtime -> res A) : keeps same_conversation (get f).
Proof. apply keeps_read, _. Qed.

Lemma same_on_toolbox f : keeps same_conversation (@on_toolbox P N T f).
Proof. by apply same_change. Qed.

Lemma same_servers r r' : same_but_servers r r' -> same_conversation r r'.
Proof. intros (_ & H2 & _ & _ & H5 & _). split; [done|]. unfold conversation_of. by rewrite H2. Qed.

End ConversationFacts.

#[export] Hint Resolve same_save same_default same_overrides same_budget same_get same_on_toolbox : keeps.

Section RouterFacts.
#[local] Set Default Proof Using "Type*".
Context `{codec : JsonCodec} {P N T : Type} `{!World N} (tr : Transport (N : Type) T).
Context (PU_VERSION : string) (regex : string -> option (string -> bool)) (workspace_root_ : string).
Context (dial : Http.Request -> N -> N * Network) (listing_headers : list string).

Abbreviation runtime := (@runtime P N T).
Implicit Types r : runtime.

#[local] Abbreviation same_conversation := (@same_conversation P N T).

Lemma same_rebuild agent : keeps same_conversation (RebuildToolbox tr PU_VERSION regex workspace_root_ agent).
Proof.
  unfold RebuildToolbox, RegisterBuiltinTools, on_outer. keep; try by apply same_change.
  - intros r. apply same_servers, connect_servers_same.
  - apply same_change. intros r. destruct (peer_config_ r) as [c|]; [|done]. by destruct (peers c).
  - intros r. apply same_servers, register_servers_same.
Qed.
#[local] Hint Resolve same_rebuild : keeps.

Lemma same_activate agent : keeps same_conversation (Activate tr PU_VERSION regex workspace_root_ agent).
Proof.
  unfold Activate. keep. intros r. destruct (current_session_ r) as [s|] eqn:Es; [|done].
  unfold Session.SetAgent. destruct (Conversation.HasPendingToolCalls _); [done|].
  unfold then_, put_session, change_state.
  pose proof (same_save workspace_root_ (set_session (Some (Session.mk (Session.conversation_ s)
    (mkSpec (ag_name agent) (overrides (Session.spec_ s))) (Session.usage_ s))) r)) as [H1 H2].
  split; [exact H1|]. etrans; [exact H2|]. unfold conversation_of. cbn. by rewrite Es.
Qed.
#[local] Hint Resolve same_activate : keeps.

Lemma same_switch agent : keeps same_conversation (SwitchAgent tr PU_VERSION regex workspace_root_ agent).
Proof. intros r. unfold SwitchAgent. case_bool_decide; [done|apply same_activate]. Qed.

Lemma same_switch_backend b : keeps same_conversation (SwitchBackend tr PU_VERSION regex workspace_root_ b).
Proof. unfold SwitchBackend. keep; [apply keeps_read, _|by apply same_change]. Qed.

Lemma same_thinking level : keeps same_conversation (@SetThinkingLevel P N T _ workspace_root_ level).
Proof. unfold SetThinkingLevel, SetSetting. keep. Qed.

Lemma same_list_models cfg : keeps same_conversation (@ListModels _ P N T dial listing_headers cfg).
Proof.
  intros r. unfold ListModels. destruct (GateFor cfg) as [row|e|]; [|done..]. cbv zeta.
  by destruct (FetchListing _ _ _ _ _) as [n body].
Qed.
#[local] Hint Resolve same_switch same_switch_backend same_thinking same_list_models : keeps.

Lemma same_report cfg : keeps same_conversation (@ReportModels _ P N T dial listing_headers cfg).
Proof. unfold ReportModels. keep. Qed.
#[local] Hint Resolve same_report : keeps.

Lemma same_models args : keeps same_conversation (@HandleModels _ P N T dial listing_headers args).
Proof.
  destruct args as [|name args]; cbn [HandleModels]; [keep|]. intros r.
  destruct (AgentManager.AgentConfig name _); [apply same_report|done].
Qed.

Lemma same_backend_command args :
  keeps same_conversation (HandleBackend tr PU_VERSION regex workspace_root_ args).
Proof.
  destruct args as [|name args]; cbn [HandleBackend]; [keep|]. intros r.
  destruct (AgentManager.AgentConfig name _) as [agent|].
  - assert (H : keeps same_conversation (try_catch (SwitchAgent tr PU_VERSION regex workspace_root_ agent ;;!
      let! gw := of_res (GatewayName (gateway (ag_backend agent))) in
      done_with ("Switched to agent: " +:+ name +:+ " (" +:+ gw +:+ "/" +:+ model (ag_backend agent) +:+ ")"))
      (fun e => done_with (DescribeError e)))) by keep. apply H.
  - destruct args as [|model_ more]; [done|]. destruct (1 <? length more)%nat; [done|].
    destruct (ParseGatewayId name) as [type_|]; [|done]. cbv zeta.
    set (m := then_ _ _). assert (H : keeps same_conversation m) by (unfold m; keep). apply H.
Qed.

(** ** Commands *)

(** What a line leaves of the conversation when it is a command. *)
Definition command_leaves (cmd : string) (args : list string) (c : MessageGraph.t) : MessageGraph.t :=
  if bool_decide (cmd = "/clear") then Conversation.ClearHistory c
  else if bool_decide (cmd = "/rewind") then
    match args with
    | turn :: _ =>
        match stoul turn with
        | Some n => match Conversation.RewindBefore (Z.to_nat n) c with Ok (_, rewound) => rewound | _ => c end
        | None => c
        end
    | [] => c
    end
  else c.

Definition line_leaves (input : string) (c : MessageGraph.t) : MessageGraph.t :=
  match split_command input with Some (cmd, args) => command_leaves cmd args c | None => c end.

(** A step whose effect on the conversation is [f]. *)
Definition works_by {A} (f : MessageGraph.t -> MessageGraph.t) (m : step runtime A) : Prop :=
  forall r, drawn_ (m r).1 = drawn_ r /\ conversation_of (m r).1 = f (conversation_of r).

Lemma same_works {A} (m : step runtime A) : keeps same_conversation m -> works_by (fun c => c) m.
Proof. intros H r. apply H. Qed.

Lemma set_conversation_runs c r :
  drawn_ (set_conversation c r).1 = drawn_ r /\ conversation_of (set_conversation c r).1 = c
  /\ (set_conversation c r).2 = Ok tt.
Proof.
  unfold set_conversation. destruct (DefaultSession_runs r) as (s & E & _). by rewrite (then_ran _ _ _ _ _ E).
Qed.

Lemma agents_work : works_by (fun c => c) (@HandleAgents P N T).
Proof. apply same_works. unfold HandleAgents. keep. Qed.

Lemma clear_works : works_by Conversation.ClearHistory (@HandleClear P N T).
Proof.
  intros r. unfold HandleClear. destruct (DefaultSession_runs r) as (s & E & Hc). rewrite (then_ran _ _ _ _ _ E).
  destruct (set_conversation_runs (Conversation.ClearHistory (Session.conversation_ s)) (set_session (Some s) r))
    as (H1 & H2 & H3).
  destruct (set_conversation _ _) as [r1 out] eqn:E1. cbn in H1, H2, H3. subst out.
  by rewrite (then_ran _ _ _ _ _ E1).
Qed.

Lemma thinking_works args : works_by (fun c => c) (@HandleThinking P N T _ workspace_root_ args).
Proof. apply same_works. unfold HandleThinking. keep. Qed.

Lemma rewind_works args : works_by (command_leaves "/rewind" args) (@HandleRewind P N T args).
Proof.
  intros r. unfold HandleRewind, command_leaves. cbn [bool_decide decide].
  destruct args as [|turn args]; [done|]. destruct (stoul turn) as [n|]; [|done]. unfold try_catch.
  destruct (DefaultSession_runs r) as (s & E & Hc). rewrite (then_ran _ _ _ _ _ E). rewrite Hc.
  by destruct (Conversation.RewindBefore (Z.to_nat n) (conversation_of r)) as [[back c]|e|].
Qed.

Lemma command_works cmd args run :
  run_command tr PU_VERSION regex workspace_root_ dial listing_headers cmd args = Some run ->
  works_by (command_leaves cmd args) run.
Proof.
  unfold run_command. intros H.
  repeat match type of H with
         | (if bool_decide (cmd = ?c) then _ else _) = _ =>
             destruct (decide (cmd = c)) as [->|]; [rewrite bool_decide_eq_true_2 in H by done; injection H as <-
                                                   |rewrite bool_decide_eq_false_2 in H by done]
         | (if _ || _ then _ else _) = _ => idtac
         end.
  - by intros r.
  - apply same_works, same_backend_command.
  - apply agents_work.
  - apply same_works, same_models.
  - apply clear_works.
  - apply rewind_works.
  - apply thinking_works.
  - destruct (bool_decide (cmd = "/exit")) eqn:E1; [|destruct (bool_decide (cmd = "/quit")) eqn:E2; [|done]];
      injection H as <-; intros r; unfold command_leaves;
      rewrite !bool_decide_eq_false_2 by done; done.
Qed.

Lemma unknown_leaves cmd args c :
  @run_command _ P N T _ tr PU_VERSION regex workspace_root_ dial listing_headers cmd args = None ->
  command_leaves cmd args c = c.
Proof. unfold run_command, command_leaves. by repeat case_bool_decide. Qed.

Lemma Route_works input :
  works_by (line_leaves input) (Route tr PU_VERSION regex workspace_root_ dial listing_headers input).
Proof.
  intros r. unfold Route, line_leaves. destruct (split_command input) as [[cmd args]|]; [|done].
  destruct (run_command _ _ _ _ _ _ cmd args) as [run|] eqn:E; [|by rewrite (unknown_leaves _ _ _ E)].
  pose proof (command_works _ _ _ E r) as H. unfold then_. by destruct (run r) as [r1 [o|e|]].
Qed.

(** What a rewind leaves of a conversation. *)
Definition rewound (turn : nat) (c : MessageGraph.t) : MessageGraph.t :=
  match Conversation.RewindBefore turn c with Ok (_, c') => c' | _ => c end.

Lemma rewound_prefix turn c :
  graph_ok c ->
  graph_ok (rewound turn c) /\ MessageGraph.Chain (rewound turn c) `prefix_of` MessageGraph.Chain c
  /\ (forall id, MessageGraph.nodes_ c !! id = None -> MessageGraph.nodes_ (rewound turn c) !! id = None).
Proof.
  intros Hg. unfold rewound. destruct (Conversation.RewindBefore turn c) as [[back c']|e|] eqn:Er; [|done..].
  destruct (rewind_before turn c Hg) as [Hthrow Hgo].
  destruct (Conversation.TurnCameFromPeer turn c) eqn:Hpeer.
  { destruct (proj2 Hthrow) as [e He]; [by left|congruence]. }
  destruct (Conversation.HasPendingToolCalls c) eqn:Hpend.
  { destruct (proj2 Hthrow) as [e He]; [by right|congruence]. }
  specialize (Hgo eq_refl eq_refl). case_decide; [|rewrite Hgo in Er; by injection Er as _ <-].
  destruct Hgo as (c2 & E2 & Hg2 & Hc2). rewrite E2 in Er. injection Er as _ <-.
  split_and!; [done|rewrite Hc2; apply prefix_take|].
  intros id Hid. rewrite (rewind_nodes _ _ _ _ E2). done.
Qed.

(** A command takes the conversation back, if it changes it at all. *)
Lemma command_leaves_prefix cmd args c :
  graph_ok c ->
  graph_ok (command_leaves cmd args c)
  /\ MessageGraph.Chain (command_leaves cmd args c) `prefix_of` MessageGraph.Chain c
  /\ (forall id, MessageGraph.nodes_ c !! id = None -> MessageGraph.nodes_ (command_leaves cmd args c) !! id = None).
Proof.
  intros Hg. unfold command_leaves. case_bool_decide; [|case_bool_decide; [|done]].
  - split_and!; [apply empty_ok|apply prefix_nil|intros id _; apply lookup_empty].
  - destruct args as [|turn args]; [done|]. destruct (stoul turn) as [n|]; [|done].
    by apply (rewound_prefix (Z.to_nat n)).
Qed.

End RouterFacts.
