(* ===== verification/Input.v ===== *)
(** * What a line of input does ([Runtime::ProcessInput] of [src/runtime/runtime.cpp])

    The theorems about a whole line: what a command may do to the conversation,
    what a turn leaves behind, that both end, and the invariant of a runtime
    over any lines. *)
From Stdlib Require Import Ascii.
From S2P Require Export Router.

Section Input.
#[local] Set Default Proof Using "Type*".
Context `{codec : JsonCodec} {P N T : Type} `{!World N} (tr : Transport (N : Type) T).
Context (PU_VERSION : string) (regex : string -> option (string -> bool)) (workspace_root_ : string).
Context (dial : Http.Request -> N -> N * Network) (listing_headers : list string).
Abbreviation runtime := (@runtime P N T).
Abbreviation Wide := (P * Outer N T)%type.
Context (CreateProvider : Backend -> res (P * (list ChatMessage -> list ToolDefinition -> Shared (W := Wide) ->
  Shared (W := Wide) * (list string * res ChatResult)))).
Context (cancelled : Shared (W := Wide) -> Shared (W := Wide) * bool) (ShutdownRequested : Wide -> bool).
Context (ticks seconds : Wide -> Z) (context_digest : Wide -> string) (ids : nat -> MessageId).
Context (static_env : StaticEnvInfo) (approval : option (string -> bool * string)).
Context (has_cancel_token has_command_stop_token : bool).
Context (ids_nonempty : forall n, ids n <> "") (ids_inj : forall n m, ids n = ids m -> n = m).
Implicit Types r : runtime.

#[local] Abbreviation Process := (ProcessInput tr PU_VERSION regex workspace_root_ dial listing_headers CreateProvider
  cancelled ShutdownRequested ticks seconds context_digest ids static_env approval has_cancel_token has_command_stop_token).
#[local] Abbreviation Turn := (RunTurn workspace_root_ CreateProvider
  cancelled ShutdownRequested ticks seconds context_digest ids static_env approval has_cancel_token has_command_stop_token).

(** The conversation is well formed and the ids still to be drawn are new to it. *)
Definition runtime_ok (r : runtime) : Prop :=
  graph_ok (conversation_of r)
  /\ forall n, (drawn_ r <= n)%nat -> MessageGraph.nodes_ (conversation_of r) !! ids n = None.

Definition chain_ids (r : runtime) : list MessageId := map n_id (MessageGraph.Chain (conversation_of r)).

(** ** Commands *)

Lemma same_runtime_ok r r' : same_conversation r r' -> runtime_ok r -> runtime_ok r'.
Proof. intros [H1 H2]. unfold runtime_ok. by rewrite H1, H2. Qed.

Lemma line_leaves_prefix input c :
  graph_ok c ->
  graph_ok (line_leaves input c) /\ MessageGraph.Chain (line_leaves input c) `prefix_of` MessageGraph.Chain c
  /\ (forall id, MessageGraph.nodes_ c !! id = None -> MessageGraph.nodes_ (line_leaves input c) !! id = None).
Proof.
  intros Hg. unfold line_leaves. destruct (split_command input) as [[cmd args]|]; [by apply command_leaves_prefix|done].
Qed.

Lemma RunCommand_works input r r' result ended :
  RunCommand tr PU_VERSION regex workspace_root_ dial listing_headers input r = (r', (result, ended)) ->
  drawn_ r' = drawn_ r /\ conversation_of r' = line_leaves input (conversation_of r)
  /\ x_rounds result = 0 /\ x_tool_call_count result = 0 /\ x_usage result = None.
Proof.
  unfold RunCommand. set (m := then_ _ _). destruct (DefaultSession_runs r) as (s & Es & Hc).
  assert (Hm : drawn_ (m r).1 = drawn_ r /\ conversation_of (m r).1 = line_leaves input (conversation_of r)).
  { unfold m. rewrite (then_ran _ _ _ _ _ Es).
    destruct (Route_works tr PU_VERSION regex workspace_root_ dial listing_headers input (set_session (Some s) r)) as [H1 H2].
    split; [exact H1|]. rewrite H2. by rewrite <- Hc. }
  destruct (m r) as [r1 [output|e|]]; cbn [fst] in Hm; destruct Hm as [H1 H2];
    [|by intros [= <- <- <-]; split_and!..].
  pose proof (same_save workspace_root_ r1) as [S1 S2]. destruct (SaveCurrentSession workspace_root_ r1) as [r2 kept].
  cbn [fst] in S1, S2. intros [= <- <- <-].
  split_and!; [congruence|congruence|by destruct output..].
Qed.

Lemma Process_command fuel input origin r :
  starts_with "/" input = true ->
  exists r' result ended,
    RunCommand tr PU_VERSION regex workspace_root_ dial listing_headers input
      (set_executor (SetPeerOrigin origin (executor_ r)) r) = (r', (result, ended))
    /\ Process fuel input origin r
       = Some (r', match ended with
                   | Ok _ => Ok (result, true)
                   | Throw e => Ok (Executor.with_error (what e) result, true)
                   | Undef => Undef
                   end).
Proof.
  intros Hc. unfold ProcessInput. rewrite Hc.
  destruct (RunCommand _ _ _ _ _ _ _ _) as [r' [result ended]]. by exists r', result, ended.
Qed.

Lemma command_effects fuel input origin r :
  starts_with "/" input = true ->
  exists r' out, Process fuel input origin r = Some (r', out)
    /\ conversation_of r' = line_leaves input (conversation_of r) /\ drawn_ r' = drawn_ r
    /\ (runtime_ok r -> runtime_ok r' /\ chain_ids r' `prefix_of` chain_ids r)
    /\ forall result is_command, out = Ok (result, is_command) ->
         is_command = true /\ x_rounds result = 0 /\ x_tool_call_count result = 0 /\ x_usage result = None.
Proof.
  intros Hc. destruct (Process_command fuel input origin r Hc) as (r' & result & ended & Hran & ->).
  destruct (RunCommand_works _ _ _ _ _ Hran) as (H1 & H2 & H3 & H4 & H5).
  eexists r', _. split; [done|]. split_and!; [exact H2|exact H1| |].
  - intros [Hg Hf]. destruct (line_leaves_prefix input (conversation_of r) Hg) as (P1 & [l Hl] & P3).
    unfold runtime_ok, chain_ids. rewrite H1, H2.
    change (conversation_of (set_executor _ r)) with (conversation_of r). split_and!; [done| |].
    + intros n Hn. by apply P3, Hf.
    + rewrite Hl, map_app. by apply prefix_app_r.
  - intros result' is_command. by destruct ended; intros [= <- <-].
Qed.

(** C12: a slash command never asks the model nor runs a tool, and it always
    answers.  It leaves the conversation alone but for two: [/clear] empties it
    and [/rewind] steps back, so what is left is always the start of what was
    there and as well formed. *)
Theorem Command_effects fuel input origin r :
  starts_with "/" input = true ->
  exists r' out, Process fuel input origin r = Some (r', out)
    /\ conversation_of r' = line_leaves input (conversation_of r) /\ drawn_ r' = drawn_ r
    /\ (runtime_ok r -> runtime_ok r' /\ chain_ids r' `prefix_of` chain_ids r)
    /\ forall result is_command, out = Ok (result, is_command) ->
         is_command = true /\ x_rounds result = 0 /\ x_tool_call_count result = 0 /\ x_usage result = None.
Proof. apply command_effects. Qed.

(** ** A turn *)

(** The agent of the session and its overrides; before there is a session, what
    it starts with. *)
Definition spec_of (r : runtime) : SessionSpec :=
  match DefaultSession r with (_, Ok s) => Session.spec_ s | _ => Session.spec_ Session.new end.
Definition usage_of (r : runtime) : UsageLedger.t :=
  match DefaultSession r with (_, Ok s) => Session.usage_ s | _ => ∅ end.

Definition executes (r : runtime) (p : P) Chat fuel input s :=
  Executor.Execute Chat (toolbox_ r) cancelled ShutdownRequested ticks seconds context_digest ids
    (xs_policy (executor_ r)) (xs_prompt (executor_ r)) static_env (xs_budget (executor_ r)) approval has_cancel_token
    has_command_stop_token fuel input (turn_start p s r).

(** What a turn leaves where its session was [s]. *)
Record turn_left (s : Session.t) (e : exec (W := Wide)) (r r' : runtime) (s' : Session.t) : Prop := {
  tl_session : current_session_ r' = Some s';
  tl_conversation : Session.conversation_ s' = e_conversation e;
  tl_spec : Session.spec_ s' = Session.spec_ s;
  tl_drawn : drawn_ r' = e_drawn e;
  tl_agents : agent_manager_ r' = agent_manager_ r;
  tl_tools : toolbox_ r' = toolbox_ r;
}.

Lemma save_left s e r r1 s' :
  turn_left s e r r1 s' -> turn_left s e r (SaveCurrentSession workspace_root_ r1).1 s'.
Proof.
  intros [H1 H2 H3 H4 H5 H6]. unfold SaveCurrentSession. rewrite H1. destruct (w_save _ _ _) as [n out]. by split.
Qed.

Lemma RecordTurnUsage_kept result backend s s' :
  RecordTurnUsage result backend s = Ok s' ->
  Session.conversation_ s' = Session.conversation_ s /\ Session.spec_ s' = Session.spec_ s.
Proof.
  unfold RecordTurnUsage. destruct (x_usage result) as [u|]; [|by intros [= <-]]. cbv zeta.
  destruct (sempty (last_assistant s)); [by intros [= <-]|]. intros (name & _ & [= <-])%res_bind_Ok. done.
Qed.

Lemma RunTurn_cases fuel input r r' result ended :
  Turn fuel input r = Some (r', (result, ended)) ->
  exists s, DefaultSession r = (set_session (Some s) r, Ok s)
    /\ (r' = set_session (Some s) r /\ result = no_execution /\ ended <> Ok tt
        \/ exists backend p Chat e out s',
             CreateProvider backend = Ok (p, Chat)
             /\ CurrentBackend (set_session (Some s) r) = Ok backend
             /\ executes (set_session (Some s) r) p Chat fuel input s = Some (e, out)
             /\ turn_left s e r r' s'
             /\ (is_ok out = false -> result = no_execution /\ ended <> Ok tt)
             /\ (ended = Ok tt -> out = Ok result
                 /\ RecordTurnUsage result backend (Session.mk (e_conversation e) (Session.spec_ s) (Session.usage_ s)) = Ok s')
             /\ (forall x, out = Ok x -> result = x)).
Proof.
  unfold RunTurn. destruct (DefaultSession_runs r) as (s & Es & _). rewrite Es. intros H. exists s. split; [done|].
  destruct (CurrentBackend (set_session (Some s) r)) as [backend|e|] eqn:Eb; cbn [res_bind] in H;
    [|left; by simplify_eq..].
  destruct (CreateProvider backend) as [[p Chat]|e|] eqn:Ep; cbn [res_bind] in H; [|left; by simplify_eq..].
  right. apply bind_Some in H as ([e out] & He & H). cbv beta iota zeta in H.
  set (s1 := Session.mk (e_conversation e) (Session.spec_ s) (Session.usage_ s)).
  set (r1 := turn_end s e (set_session (Some s) r)) in H.
  assert (H1 : turn_left s e r r1 s1) by by split.
  assert (Hd : DefaultSession r1 = (r1, Ok s1)) by done.
  destruct out as [x|x|].
  - rewrite (then_ran _ _ _ _ _ Hd) in H.
    destruct (RecordTurnUsage x backend s1) as [s2|x2|] eqn:Er.
    + destruct (RecordTurnUsage_kept _ _ _ _ Er) as [K1 K2].
      assert (H2 : turn_left s e r (set_session (Some s2) r1) s2) by by (destruct H1; split; [|by etrans..| | |]).
      apply save_left in H2. cbn [of_res then_ put_session change_state] in H.
      destruct (SaveCurrentSession workspace_root_ _) as [r2 kept]. cbn [fst] in H2. injection H as <- <- <-.
      exists backend, p, Chat, e, (Ok x), s2. split_and!; try done. by intros y [= ->].
    + exists backend, p, Chat, e, (Ok x), s1. injection H as <- <- <-. split_and!; try done. by intros y [= ->].
    + exists backend, p, Chat, e, (Ok x), s1. injection H as <- <- <-. split_and!; try done. by intros y [= ->].
  - exists backend, p, Chat, e, (Throw x), s1. by injection H as <- <- <-.
  - exists backend, p, Chat, e, Undef, s1. by injection H as <- <- <-.
Qed.

Definition pending (r : runtime) : bool := Conversation.HasPendingToolCalls (conversation_of r).

(** The usage of a turn, filed. *)
Definition filed_usage (r r' : runtime) (result : ExecutionResult) : Prop :=
  match x_usage result with
  | None => usage_of r' = usage_of r
  | Some u =>
      let node := foldl (fun last node => match n_payload node with Assistant _ => n_id node | _ => last end) ""
                    (MessageGraph.Chain (conversation_of r')) in
      if sempty node then usage_of r' = usage_of r
      else exists name, usage_of r' = <[node := turn_usage node name result u]> (usage_of r)
  end.

Lemma filed s e backend result s' r r' :
  DefaultSession r = (set_session (Some s) r, Ok s) -> turn_left s e r r' s' ->
  RecordTurnUsage result backend (Session.mk (e_conversation e) (Session.spec_ s) (Session.usage_ s)) = Ok s' ->
  filed_usage r r' result.
Proof.
  intros Hd Hl. unfold RecordTurnUsage, filed_usage, usage_of, conversation_of. rewrite Hd.
  unfold DefaultSession. rewrite (tl_session _ _ _ _ _ Hl). cbv iota.
  rewrite (tl_conversation _ _ _ _ _ Hl). unfold last_assistant. cbn [Session.conversation_ Session.spec_ Session.usage_].
  destruct (x_usage result) as [u|]; [|by intros [= <-]]. cbv zeta. set (node := foldl _ _ _).
  destruct (sempty node) eqn:En; [by intros [= <-]|]. intros (name & _ & [= <-])%res_bind_Ok. exists name.
  unfold UsageLedger.Record_. cbn [tu_node_id turn_usage Session.usage_]. by rewrite En.
Qed.

Lemma Turn_spec fuel input r r' result ended :
  latches cancelled -> runtime_ok r -> Turn fuel input r = Some (r', (result, ended)) ->
  runtime_ok r' /\ chain_ids r `prefix_of` chain_ids r'
  /\ agent_manager_ r' = agent_manager_ r /\ toolbox_ r' = toolbox_ r /\ spec_of r' = spec_of r
  /\ (ended = Ok tt -> pending r' = false /\ filed_usage r r' result)
  /\ (ended <> Ok tt -> is_ok ended = false).
Proof.
  intros Hl Hr H. destruct (RunTurn_cases _ _ _ _ _ _ H) as (s & Es & Hcase).
  destruct (DefaultSession_runs r) as (s0 & E0 & Hc). rewrite Es in E0. injection E0 as _ <-.
  assert (Hend : ended <> Ok tt -> is_ok ended = false) by by destruct ended as [[]| |].
  destruct Hcase as [(-> & -> & He)|(backend & p & Chat & e & out & s' & _ & _ & Hx & Hleft & _ & Hok & _)].
  - assert (Hsame : same_conversation r (set_session (Some s) r)) by by split.
    split_and!; [by eapply same_runtime_ok| |done|done| |done|done].
    + unfold chain_ids. by rewrite (proj2 Hsame).
    + unfold spec_of. rewrite Es. done.
  - assert (Hs : exec_ok ids (turn_start p s (set_session (Some s) r))).
    { destruct Hr as [Hg Hf]. unfold turn_start. split; cbn [e_conversation e_drawn]; [by rewrite Hc|].
      intros n Hn. rewrite Hc. by apply Hf. }
    destruct (execute_settles Chat (toolbox_ r) cancelled ShutdownRequested ticks seconds context_digest ids
      (xs_policy (executor_ r)) (xs_prompt (executor_ r)) static_env (xs_budget (executor_ r)) approval has_cancel_token
      has_command_stop_token ids_nonempty ids_inj fuel input _ _ _ Hl Hs Hx) as ([Hg Hf] & Hp & Hset).
    assert (Hc' : conversation_of r' = e_conversation e).
    { unfold conversation_of. rewrite (tl_session _ _ _ _ _ Hleft). apply Hleft. }
    split_and!; [|unfold chain_ids; rewrite Hc', <- Hc; exact Hp|apply Hleft|apply Hleft| | |done].
    + unfold runtime_ok. rewrite Hc', (tl_drawn _ _ _ _ _ Hleft). done.
    + unfold spec_of. rewrite Es. unfold DefaultSession. rewrite (tl_session _ _ _ _ _ Hleft). apply Hleft.
    + intros Ht. destruct (Hok Ht) as [-> Hrec]. split; [|by eapply filed].
      unfold pending. rewrite Hc'. by apply Hset.
Qed.

Lemma Process_turn fuel input origin r r' out :
  starts_with "/" input = false -> Process fuel input origin r = Some (r', out) ->
  exists result ended, Turn fuel input (set_executor (SetPeerOrigin origin (executor_ r)) r) = Some (r', (result, ended))
    /\ out = match ended with
             | Ok _ => Ok (result, false)
             | Throw e => Ok (Executor.with_error (what e) result, false)
             | Undef => Undef
             end.
Proof.
  intros Hc. unfold ProcessInput. rewrite Hc. intros ([r1 [result ended]] & Hran & [= <- <-])%bind_Some.
  by exists result, ended.
Qed.

Lemma input_settles fuel input origin r r' out :
  latches cancelled -> runtime_ok r -> starts_with "/" input = false -> Process fuel input origin r = Some (r', out) ->
  runtime_ok r' /\ chain_ids r `prefix_of` chain_ids r'
  /\ agent_manager_ r' = agent_manager_ r /\ toolbox_ r' = toolbox_ r /\ spec_of r' = spec_of r
  /\ forall result is_command, out = Ok (result, is_command) ->
       is_command = false /\ (x_has_error result = false -> pending r' = false /\ filed_usage r r' result).
Proof.
  intros Hl Hr Hn H. destruct (Process_turn _ _ _ _ _ _ Hn H) as (result & ended & Hran & ->).
  set (r0 := set_executor (SetPeerOrigin origin (executor_ r)) r) in Hran.
  destruct (Turn_spec _ _ _ _ _ _ Hl (Hr : runtime_ok r0) Hran) as (H1 & H2 & H3 & H4 & H5 & H6 & _).
  assert (Es : spec_of r0 = spec_of r /\ usage_of r0 = usage_of r).
  { unfold spec_of, usage_of, DefaultSession, r0. cbn [set_executor current_session_ agent_manager_].
    destruct (current_session_ r); [done|]. by destruct (Session.SetAgent _ _). }
  split_and!; [exact H1|exact H2|exact H3|exact H4|by rewrite H5; apply Es|].
  intros result' is_command Hout. destruct ended as [[]|e|]; [|injection Hout as <- <-; by split|done].
  injection Hout as <- <-. split; [done|]. intros _. destruct (H6 eq_refl) as [Hp Hf]. split; [done|].
  unfold filed_usage in *. by rewrite <- (proj2 Es).
Qed.


Lemma Turn_bounded input r :
  latches cancelled ->
  (forall backend p Chat, CreateProvider backend = Ok (p, Chat) -> chat_stops Chat cancelled) ->
  exists r' result ended, Turn (Z.to_nat (xs_budget (executor_ r)) + 2) input r = Some (r', (result, ended))
    /\ x_rounds result <= Z.max 0 (xs_budget (executor_ r)) + 1.
Proof.
  intros Hl Hstop. unfold RunTurn. destruct (DefaultSession_runs r) as (s & -> & _).
  change (executor_ r) with (executor_ (set_session (Some s) r)). set (r1 := set_session (Some s) r).
  destruct (CurrentBackend r1) as [backend|e|]; cbn [res_bind];
    [|eexists _, _, _; split; [reflexivity|cbn; lia]..].
  destruct (CreateProvider backend) as [[p Chat]|e|] eqn:Ep; cbn [res_bind];
    [|eexists _, _, _; split; [reflexivity|cbn; lia]..].
  destruct (execute_ends Chat (toolbox_ r1) cancelled ShutdownRequested ticks seconds context_digest ids
    (xs_policy (executor_ r1)) (xs_prompt (executor_ r1)) static_env (xs_budget (executor_ r1)) approval has_cancel_token
    has_command_stop_token ids_nonempty ids_inj input (turn_start p s r1) Hl (Hstop _ _ _ Ep)) as (e & out & Hx & Hb).
  cbv beta iota zeta. setoid_rewrite Hx. cbn [mbind option_bind].
  destruct out as [result|x|]; [|eexists _, _, _; split; [reflexivity|cbn; lia]..].
  specialize (Hb _ eq_refl). destruct (then_ _ _ _) as [r2 filed]. by eexists _, _, _.
Qed.

Lemma input_ends input origin r :
  latches cancelled ->
  (forall backend p Chat, CreateProvider backend = Ok (p, Chat) -> chat_stops Chat cancelled) ->
  exists r' out, Process (Z.to_nat (xs_budget (executor_ r)) + 2) input origin r = Some (r', out)
    /\ forall result is_command, out = Ok (result, is_command) ->
         x_rounds result <= Z.max 0 (xs_budget (executor_ r)) + 1.
Proof.
  intros Hl Hstop. set (r0 := set_executor (SetPeerOrigin origin (executor_ r)) r).
  assert (H : forall result ended (r' : runtime) (c : bool),
    x_rounds result <= Z.max 0 (xs_budget (executor_ r)) + 1 ->
    exists r'' out, Some (r', match ended : res unit with
                              | Ok _ => Ok (result, c)
                              | Throw e => Ok (Executor.with_error (what e) result, c)
                              | Undef => Undef
                              end) = Some (r'', out)
      /\ forall result' is_command, out = Ok (result', is_command) ->
           x_rounds result' <= Z.max 0 (xs_budget (executor_ r)) + 1).
  { intros result ended r' c Hb.
    destruct ended; eexists r', _; (split; [reflexivity|]); intros result' is_command; [..|done]; by intros [= <- <-]. }
  destruct (starts_with "/" input) eqn:Hc.
  - destruct (Process_command (Z.to_nat (xs_budget (executor_ r)) + 2) input origin r Hc) as (r' & result & ended & Hran & ->).
    destruct (RunCommand_works _ _ _ _ _ Hran) as (_ & _ & H3 & _). apply H. lia.
  - destruct (Turn_bounded input r0 Hl Hstop) as (r' & result & ended & Hran & Hb).
    change (xs_budget (executor_ r0)) with (xs_budget (executor_ r)) in Hran, Hb.
    unfold ProcessInput. rewrite Hc. cbv zeta. fold r0. rewrite Hran. cbn [mbind option_bind]. by apply H.
Qed.

(** Every line gets its answer: a command at once, a turn within the budget of
    tool calls in force, whatever the model and the tools do and whenever it is
    stopped. *)
Theorem Input_ends input origin r :
  latches cancelled ->
  (forall backend p Chat, CreateProvider backend = Ok (p, Chat) -> chat_stops Chat cancelled) ->
  exists r' out, Process (Z.to_nat (xs_budget (executor_ r)) + 2) input origin r = Some (r', out)
    /\ forall result is_command, out = Ok (result, is_command) ->
         x_rounds result <= Z.max 0 (xs_budget (executor_ r)) + 1.
Proof. apply input_ends. Qed.

(** ** Any lines *)

(** A runtime that some lines lead to, each with the fuel it takes. *)
Inductive leads (r : runtime) : runtime -> Prop :=
  | leads_here : leads r r
  | leads_line r1 r2 fuel input origin out :
      leads r r1 -> Process fuel input origin r1 = Some (r2, out) -> leads r r2.

Lemma leads_ok r r' : latches cancelled -> runtime_ok r -> leads r r' -> runtime_ok r'.
Proof.
  intros Hl Hr. induction 1 as [|r1 r2 fuel input origin out _ IH Hp]; [done|].
  destruct (starts_with "/" input) eqn:Hc.
  - destruct (Process_command fuel input origin r1 Hc) as (r3 & result & ended & Hran & E).
    rewrite E in Hp. injection Hp as <- _.
    destruct (RunCommand_works _ _ _ _ _ Hran) as (D & C & _). destruct IH as [Hg Hf].
    destruct (line_leaves_prefix input (conversation_of r1) Hg) as (P1 & _ & P3).
    unfold runtime_ok. rewrite D, C. split; [done|]. intros n Hn. by apply P3, Hf.
  - destruct (Process_turn _ _ _ _ _ _ Hc Hp) as (result & ended & Hran & _).
    by apply (Turn_spec _ _ _ _ _ _ Hl (IH : runtime_ok (set_executor (SetPeerOrigin origin (executor_ r1)) r1)) Hran).
Qed.

End Input.

(** ** A runtime on a disk *)

Abbreviation disk_wide := (unit * Outer disk unit)%type.

(** Nobody answers the network. *)
Definition silent (rq : Http.Request) (d : disk) : disk * Network :=
  (d, mkNetwork (Ok tt) (Some Http.TimedOut) None None (inl Http.TimedOut) [] None).

Definition reply (content : string) : ChatResult :=
  mkChat content [] [] (Some (mkTokenUsage 10 2 12 4 None)) JNull [] [] [] "stop" "m".

(** A model that always says the same. *)
Definition says (content : string) (history : list ChatMessage) (tools : list ToolDefinition)
    (sh : Shared (W := disk_wide)) : Shared (W := disk_wide) * (list string * res ChatResult) :=
  (sh, ([], Ok (reply content))).

(** A stop file: it is there once the session was saved. *)
Definition stop_file (sh : Shared (W := disk_wide)) : Shared (W := disk_wide) * bool :=
  (sh, bool_decide (is_Some (dk_session (o_net (outside sh).2)))).

(** A provider that gives up when it is there. *)
Definition heeds (content : string) (history : list ChatMessage) (tools : list ToolDefinition)
    (sh : Shared (W := disk_wide)) : Shared (W := disk_wide) * (list string * res ChatResult) :=
  if (stop_file sh).2 then (sh, ([], Throw (GenericError "cancelled"))) else says content history tools sh.

Lemma stop_file_latches : latches stop_file.
Proof. intros sh sh' note. unfold stop_file. by intros [= <- H]. Qed.

Lemma heeds_stops content : chat_stops (heeds content) stop_file.
Proof.
  intros sh sh' history tools H. assert (sh' = sh /\ (stop_file sh).2 = true) as [-> Hs]
    by (split; [exact (eq_sym (f_equal fst H))|exact (f_equal snd H)]).
  unfold heeds. rewrite Hs. by eexists _, _, _.
Qed.

Definition demo_process (content input : string) : @runtime unit disk unit ->
    option (@runtime unit disk unit * res (ExecutionResult * bool)) :=
  ProcessInput (codec := bit_codec) no_servers "1" prefix_regex "/w" silent [] (fun _ => Ok (tt, heeds content))
    stop_file (fun _ => false) (fun _ => 7) (fun _ => 0) (fun _ => "") demo_ids (mkStaticEnv "Linux" "6.1") None
    true false 9 input "".

(** A question that was answered, and what the answer used. *)
Definition answered_graph : MessageGraph.t :=
  MessageGraph.AppendAfterLeaf "b" (Assistant (mkAssistant "hi" [] [])) "2026-01-01T00:00:01" asked_graph.
Definition answered_runtime : @runtime unit disk unit :=
  runtime_on two_agents
    (Some (Session.mk answered_graph (mkSpec "small" []) (UsageLedger.Record_ (priced "b" "credits") ∅))) 7 empty_disk.

(** A turn whose answer is empty reports an error and adds no answer: what it
    used replaces what the answer of the turn before is filed with. *)
Example Empty_answer_overwrites :
  match demo_process "" "and now?" answered_runtime with
  | Some (r, Ok (result, _)) =>
      x_has_error result = true /\ Session.usage_ <$> current_session_ answered_runtime <> Session.usage_ <$> current_session_ r
      /\ (s ← current_session_ r; tu_prompt <$> Session.usage_ s !! "b") = Some 10
  | _ => False
  end.
Proof. vm_compute. done. Qed.

(** A command nobody knows is an error without a message. *)
Example Unknown_command :
  match demo_process "hi" "/help me" answered_runtime, demo_process "hi" "/hlep" answered_runtime with
  | Some (_, Ok (known, c1)), Some (_, Ok (unknown, c2)) =>
      x_has_error known = false /\ x_has_error unknown = true /\ x_error_message unknown = "" /\ x_content unknown = ""
      /\ c1 = true /\ c2 = true
  | _, _ => False
  end.
Proof. vm_compute. done. Qed.

Definition both (first second : string) : option (string * string * res string) :=
  '(r1, out1) ← demo_process "hi" first answered_runtime;
  '(r2, out2) ← demo_process "hi" second r1;
  Some (match out1 with Ok (x, _) => x_content x | _ => "" end, match out2 with Ok (x, _) => x_content x | _ => "" end,
        res_map model (CurrentBackend r2)).

(** A backend adopted under its type is an agent of that name from then on, so
    adopting another model of the same type only names the agent that is active
    already: the model stays. *)
Example Adopted_once :
  both "/backend ollama llama3" "/backend ollama qwen3"
  = Some ("Switched backend to: ollama (model: llama3, host: http://localhost:11434)",
          "Switched to agent: ollama (ollama/llama3)", Ok "llama3").
Proof. vm_compute. done. Qed.

Definition after (lines : list string) : option (@runtime unit disk unit) :=
  foldl (fun r line => r ← r; '(r, _) ← demo_process "hi" line r; Some r) (Some answered_runtime) lines.

(** [/thinking default] sets no level for the session: the override is gone and
    the agent's own level is in force again, whatever it is. *)
Example Thinking_default_is_auto :
  ThinkingOverride <$> after ["/thinking low"] = Some (Some kLow)
  /\ ThinkingOverride <$> after ["/thinking low"; "/thinking default"] = Some None
  /\ ThinkingOverride <$> after ["/thinking low"; "/thinking auto"] = Some None.
Proof. vm_compute. done. Qed.

(** ** Witnesses *)

Lemma answered_runtime_ok : runtime_ok demo_ids answered_runtime.
Proof.
  assert (Ha : graph_ok asked_graph) by apply asked_session_storable.
  split.
  - apply (AppendAfterLeaf_refines "b" (Assistant (mkAssistant "hi" [] [])) "2026-01-01T00:00:01" asked_graph Ha); done.
  - intros n _. apply not_elem_of_dom.
    assert (Hd : dom (MessageGraph.nodes_ (conversation_of answered_runtime)) = {["a"; "b"]}) by (by vm_compute).
    rewrite Hd. unfold demo_ids. set_solver.
Qed.

Lemma Command_effects_witness :
  exists r' out, demo_process "hi" "/rewind 2" answered_runtime = Some (r', out)
    /\ chain_ids r' = ["a"] /\ chain_ids answered_runtime = ["a"; "b"] /\ runtime_ok demo_ids r'.
Proof.
  destruct (Command_effects (codec := bit_codec) no_servers "1" prefix_regex "/w" silent []
    (fun _ => Ok (tt, heeds "hi")) stop_file (fun _ => false) (fun _ => 7) (fun _ => 0) (fun _ => "") demo_ids
    (mkStaticEnv "Linux" "6.1") None true false demo_ids_nonempty demo_ids_inj 9 "/rewind 2" "" answered_runtime eq_refl)
    as (r' & out & E & Hc & _ & Hok & _).
  exists r', out. split; [exact E|]. unfold chain_ids at 1. rewrite Hc.
  split; [vm_compute; reflexivity|]. split; [vm_compute; reflexivity|]. exact (proj1 (Hok answered_runtime_ok)).
Defined.


Lemma Input_ends_witness :
  exists r' out, demo_process "hi" "and now?" answered_runtime = Some (r', out)
    /\ forall result is_command, out = Ok (result, is_command) -> x_rounds result <= 8.
Proof.
  unfold demo_process.
  replace 9%nat with (Z.to_nat (xs_budget (executor_ answered_runtime)) + 2)%nat by (vm_compute; reflexivity).
  change 8 with (Z.max 0 (xs_budget (executor_ answered_runtime)) + 1).
  exact (Input_ends (codec := bit_codec) no_servers "1" prefix_regex "/w" silent []
    (fun _ => Ok (tt, heeds "hi")) stop_file (fun _ => false) (fun _ => 7) (fun _ => 0) (fun _ => "") demo_ids
    (mkStaticEnv "Linux" "6.1") None true false demo_ids_nonempty demo_ids_inj "and now?" "" answered_runtime
    stop_file_latches
    (fun backend p Chat H => eq_ind (heeds "hi") (fun C => chat_stops C stop_file) (heeds_stops "hi") Chat
       (f_equal (fun o => match o with Ok (_, C) => C | _ => heeds "hi" end) H))).
Defined.
