(* ===== verification/Workspace.v ===== *)
(** * A workspace over the network ([src/config/gateway.cpp], [src/session/session.cpp], [include/pu/core/base.hpp])

    The whole program of one workspace put together: the runtime of [Runtime],
    the commands and turns of [Router], and the providers [CreateBackend] makes,
    asking over the HTTP client of [Http] with the token of the turn. *)
From Stdlib Require Import Ascii.
From S2P Require Export Turn Input.

(** ** Ids *)

Section Uuid.
#[local] Set Default Proof Using "Type*".
(** [std::uniform_int_distribution<int>(0, 15)] over the generator. *)
Context {G : Type} (nibble : G -> G * Z).

Definition kHex (n : Z) : ascii := default "0"%char (String.get (Z.to_nat n) "0123456789abcdef").

Definition dash_at (i : nat) : bool := bool_decide (i ∈ [8; 13; 18; 23])%nat.

(** The loop of [Generate] from the [i]-th character on. *)
Fixpoint digits (i n : nat) (g : G) : G * list ascii :=
  match n with
  | O => (g, [])
  | S n =>
      if dash_at i then let '(g, l) := digits (S i) n g in (g, "-"%char :: l)
      else let '(g, d) := nibble g in
           let '(g, l) := digits (S i) n g in (g, kHex d :: l)
  end.

Definition Generate (g : G) : G * string :=
  let '(g, id) := digits 0 36 g in
  let '(g, d) := nibble g in
  (g, String.string_of_list_ascii (<[19%nat := kHex (Z.lor (Z.land d 3) 8)]> (<[14%nat := "4"%char]> id))).

(** [hex_id] *)
Definition without_dashes (id : string) : string :=
  String.string_of_list_ascii (List.filter (fun c => negb (bool_decide (c = "-"%char))) (String.list_ascii_of_string id)).

Definition hex_id (g : G) : G * string := let '(g, id) := Generate g in (g, without_dashes id).

Definition CodeBuddyHeaders (conversation_id : string) (g : G) : G * list string :=
  let version := "1.0.7" in
  let '(g, request) := hex_id g in
  let '(g, message) := hex_id g in
  let '(g, request_id) := hex_id g in
  let '(g, user) := Generate g in
  (g, ["X-Requested-With: XMLHttpRequest"; "X-Domain: www.codebuddy.ai"; "X-Product: SaaS"; "X-Agent-Intent: craft";
       "X-IDE-Type: CLI"; "X-IDE-Name: CLI"; "X-IDE-Version: " +:+ version;
       "User-Agent: CLI/" +:+ version +:+ " CodeBuddy/" +:+ version;
       "X-Conversation-ID: " +:+ conversation_id; "X-Conversation-Request-ID: " +:+ request;
       "X-Conversation-Message-ID: " +:+ message; "X-Request-ID: " +:+ request_id; "X-User-Id: " +:+ user;
       "x-stainless-lang: js"; "x-stainless-package-version: 5.10.1"; "x-stainless-runtime: node"]).

(** *** A version 4 id *)

Definition is_hex (c : ascii) : Prop := c ∈ String.list_ascii_of_string "0123456789abcdef".

Definition nibbles_ok : Prop := forall g, 0 <= (nibble g).2 < 16.

Lemma kHex_hex n : 0 <= n < 16 -> is_hex (kHex n).
Proof.
  intros H. assert (Hn : exists k, (k < 16)%nat /\ n = Z.of_nat k) by (exists (Z.to_nat n); lia).
  destruct Hn as (k & Hk & ->). unfold kHex, is_hex. rewrite Nat2Z.id.
  do 16 (destruct k as [|k]; [apply (bool_decide_eq_true_1 _); vm_compute; reflexivity|]). lia.
Qed.

Definition shaped (i : nat) (c : ascii) : Prop := if dash_at i then c = "-"%char else is_hex c.

Lemma digits_shape n : nibbles_ok -> forall i g,
  length (digits i n g).2 = n /\ forall k c, (digits i n g).2 !! k = Some c -> shaped (i + k) c.
Proof.
  intros Hok. induction n as [|n IH]; intros i g; [done|]. cbn [digits].
  destruct (dash_at i) eqn:Ei.
  - specialize (IH (S i) g). destruct (digits (S i) n g) as [g1 l]. destruct IH as [Hlen Hl]. cbn [snd] in *.
    split; [cbn; by rewrite Hlen|]. intros [|k] c; cbn [lookup list_lookup].
    + intros [= <-]. unfold shaped. by rewrite Nat.add_0_r, Ei.
    + intros Hk. replace (i + S k)%nat with (S i + k)%nat by lia. by apply Hl.
  - pose proof (Hok g) as Hd. destruct (nibble g) as [g0 d]. specialize (IH (S i) g0).
    destruct (digits (S i) n g0) as [g1 l]. destruct IH as [Hlen Hl]. cbn [snd] in *.
    split; [cbn; by rewrite Hlen|]. intros [|k] c; cbn [lookup list_lookup].
    + intros [= <-]. unfold shaped. rewrite Nat.add_0_r, Ei. by apply kHex_hex.
    + intros Hk. replace (i + S k)%nat with (S i + k)%nat by lia. by apply Hl.
Qed.

(** Every id is a version 4 UUID: 36 characters, dashes after the 8th, 12th,
    16th and 20th digit, the version digit 4 and the variant digit one of 8, 9,
    a and b. *)
Theorem Generate_v4 g :
  nibbles_ok ->
  let id := String.list_ascii_of_string (Generate g).2 in
  length id = 36%nat /\ (forall k c, id !! k = Some c -> shaped k c)
  /\ id !! 14%nat = Some "4"%char
  /\ exists c, id !! 19%nat = Some c /\ c ∈ ["8"; "9"; "a"; "b"]%char.
Proof.
  intros Hok. unfold Generate. destruct (digits_shape 36 Hok 0 g) as [Hlen Hl].
  destruct (digits 0 36 g) as [g1 l]. cbn [snd] in Hlen, Hl. pose proof (Hok g1) as Hd.
  destruct (nibble g1) as [g2 d]. cbn [snd] in *. cbv zeta. rewrite String.list_ascii_of_string_of_list_ascii.
  assert (Hv : kHex (Z.lor (Z.land d 3) 8) ∈ ["8"; "9"; "a"; "b"]%char).
  { assert (Hn : exists k, (k < 16)%nat /\ d = Z.of_nat k) by (exists (Z.to_nat d); lia).
    destruct Hn as (k & Hk & ->).
    do 16 (destruct k as [|k]; [apply (bool_decide_eq_true_1 _); vm_compute; reflexivity|]). lia. }
  split_and!.
  - by rewrite !length_insert.
  - intros k c. rewrite !list_lookup_insert_Some. intros [(<- & <- & _)|[_ [(<- & <- & _)|[_ H]]]].
    + unfold shaped. change (dash_at 19) with false. cbv iota. unfold is_hex. revert Hv. rewrite !elem_of_cons, elem_of_nil.
      intros [->|[->|[->|[->|[]]]]]; apply (bool_decide_eq_true_1 _); vm_compute; reflexivity.
    + change (is_hex "4"%char). apply (bool_decide_eq_true_1 _); vm_compute; reflexivity.
    + by apply Hl.
  - rewrite list_lookup_insert_ne by done. apply list_lookup_insert_eq. lia.
  - eexists. split; [apply list_lookup_insert_eq; rewrite length_insert; lia|done].
Qed.

End Uuid.

(** ** Providers *)

Section Workspace.
#[local] Set Default Proof Using "Type*".
Context `{codec : JsonCodec} {N T : Type} `{!World N} (tr : Transport (N : Type) T).
Context (PU_VERSION : string) (regex : string -> option (string -> bool)) (workspace_root_ : string).
(** The token of the turn, the signal flag, the network, and the source of ids. *)
Context (flag : N -> N * bool) (interrupted : N -> bool) (dial : Http.Request -> N -> N * Network).
Context (nibble : N -> N * Z).

(** The state of a provider of either protocol; a turn asks one of them. *)
Record providers := mkProviders { ollama_ : provider unit; openai_ : provider OpenAIProtocol }.
Abbreviation Wide := (providers * Outer N T)%type.

Definition new_providers : providers :=
  mkProviders (mkProvider no_accum tt []) (mkProvider no_accum new_openai []).

Definition chat_type : Type :=
  list ChatMessage -> list ToolDefinition -> Shared (W := Wide) -> Shared (W := Wide) * (list string * res ChatResult).

(** Asks by a protocol, in the world of a runtime. *)
Definition asks {E} (protocol : Protocol E) (host_ : string) (get : providers -> provider E)
    (put : provider E -> providers -> providers) : chat_type :=
  fun history tools sh =>
    let '(p, o) := outside sh in
    let '(sh1, answered) :=
      turn_chat protocol host_ flag interrupted dial history tools (mkShared (user_note_ sh) (get p, o_net o)) in
    let '(q, n) := outside sh1 in
    (mkShared (user_note_ sh1) (put q p, set_net n o), answered).

Definition asks_ollama (pc : ProviderConfig) : chat_type :=
  asks (OllamaProvider_ pc) (pc_host pc) ollama_ (fun q p => mkProviders q (openai_ p)).

Definition asks_openai (pc : ProviderConfig) (extra_headers : list string) : chat_type :=
  asks (OpenAIProvider_ (mkConfig pc extra_headers default_shape)) (pc_host pc) openai_
    (fun q p => mkProviders (ollama_ p) q).

(** [extra_headers] is asked at every request. *)
Definition asks_codebuddy (pc : ProviderConfig) (conversation_id : string) : chat_type :=
  fun history tools sh =>
    let '(p, o) := outside sh in
    let '(n, headers) := CodeBuddyHeaders nibble conversation_id (o_net o) in
    asks_openai pc headers history tools (mkShared (user_note_ sh) (p, set_net n o)).

(** [Session::CreateProvider]; [conversation_id] is what [CodeBuddyConversationId]
    drew for it. *)
Definition CreateProvider (conversation_id : string) (backend : Backend) : res (providers * chat_type) :=
  let? made := CreateBackend backend in
  let '(kind, pc) := made in
  Ok (new_providers,
      match kind with
      | OllamaProvider => asks_ollama pc
      | OpenAIProvider => asks_openai pc []
      | CodeBuddyProvider => asks_codebuddy pc conversation_id
      end).

Definition cancelled (sh : Shared (W := Wide)) : Shared (W := Wide) * bool :=
  let '(p, o) := outside sh in
  let '(n, set) := flag (o_net o) in (mkShared (user_note_ sh) (p, set_net n o), set).

(** *** The token reaches every provider *)

Lemma cancelled_latches : stays_set flag -> latches cancelled.
Proof.
  intros H sh sh' note. unfold cancelled. destruct (outside sh) as [p o].
  destruct (flag (o_net o)) as [n c] eqn:Ef. intros [= <- ->]. cbn. apply H in Ef. by destruct (flag n).
Qed.

Lemma asks_stops {E} (protocol : Protocol E) host_ get put p o note history tools :
  (flag (o_net o)).2 = true ->
  exists sh2 tokens e, asks protocol host_ get put history tools (mkShared note (p, o)) = (sh2, (tokens, Throw e)).
Proof.
  intros Hf. unfold asks, turn_chat. cbn [outside user_note_].
  destruct (flag (o_net o)) as [n2 c2] eqn:Ef. cbn [snd] in Hf. subst c2.
  rewrite (Chat_cancelled protocol host_ (Some flag) interrupted dial history tools _ (o_net o) n2 flag eq_refl Ef).
  by eexists _, _, _.
Qed.

(** Drawing an id does not clear the token. *)
Definition draws_keep_set : Prop :=
  forall n, (flag n).2 = true -> (flag (nibble n).1).2 = true.

Lemma digits_keep_set k i n : draws_keep_set -> (flag n).2 = true -> (flag (digits nibble i k n).1).2 = true.
Proof.
  intros Hd. revert i n. induction k as [|k IH]; intros i n Hn; [done|]. cbn [digits]. destruct (dash_at i).
  - specialize (IH (S i) n Hn). by destruct (digits nibble (S i) k n).
  - apply Hd in Hn. destruct (nibble n) as [n1 d]. specialize (IH (S i) n1 Hn). by destruct (digits nibble (S i) k n1).
Qed.

Lemma Generate_keep_set n : draws_keep_set -> (flag n).2 = true -> (flag (Generate nibble n).1).2 = true.
Proof.
  intros Hd Hn. unfold Generate. apply (digits_keep_set 36 0) in Hn; [|done]. destruct (digits nibble 0 36 n) as [n1 l].
  apply Hd in Hn. cbn [fst] in Hn. by destruct (nibble n1).
Qed.

Lemma headers_keep_set id n :
  draws_keep_set -> (flag n).2 = true -> (flag (CodeBuddyHeaders nibble id n).1).2 = true.
Proof.
  intros Hd Hn. unfold CodeBuddyHeaders, hex_id. cbv zeta.
  repeat match goal with
         | |- context [Generate nibble ?m] =>
             let H := fresh in pose proof (Generate_keep_set m Hd) as H; destruct (Generate nibble m); cbn [fst] in H
         end.
  cbn [fst]. auto.
Qed.

Lemma provider_stops id backend p Chat :
  stays_set flag -> draws_keep_set -> CreateProvider id backend = Ok (p, Chat) -> chat_stops Chat cancelled.
Proof.
  intros Hs Hd H sh sh' history tools Hc. apply res_bind_Ok in H as ([kind pc] & _ & [= _ <-]).
  unfold cancelled in Hc. destruct (outside sh) as [q o]. destruct (flag (o_net o)) as [n c] eqn:Ef.
  injection Hc as <- ->. apply Hs in Ef.
  destruct kind; [by apply asks_stops..|]. unfold asks_codebuddy. cbn [outside user_note_ o_net set_net].
  pose proof (headers_keep_set id n Hd Ef) as Hn. destruct (CodeBuddyHeaders nibble id n) as [n1 headers].
  by apply asks_stops.
Qed.

Context (ShutdownRequested : Wide -> bool) (ticks seconds : Wide -> Z) (context_digest : Wide -> string).
Context (ids : nat -> MessageId) (ids_nonempty : forall n, ids n <> "") (ids_inj : forall n m, ids n = ids m -> n = m).
Context (static_env : StaticEnvInfo) (approval : option (string -> bool * string)).
Context (has_cancel_token has_command_stop_token : bool) (listing_headers : list string).

Definition Line (conversation_id : string) :=
  ProcessInput tr PU_VERSION regex workspace_root_ dial listing_headers (CreateProvider conversation_id) cancelled
    ShutdownRequested ticks seconds context_digest ids static_env approval has_cancel_token has_command_stop_token.


End Workspace.

(** ** Witnesses *)

(** A die that always falls on the same side. *)
Definition seven (g : nat) : nat * Z := (S g, 7).

Lemma Generate_v4_witness :
  exists c, String.list_ascii_of_string (Generate seven 0%nat).2 !! 19%nat = Some c
    /\ (Generate seven 0%nat).2 = "77777777-7777-4777-b777-777777777777".
Proof.
  destruct (Generate_v4 seven 0%nat ltac:(intros g; cbn; lia)) as (_ & _ & _ & c & Hc & _).
  exists c. split; [exact Hc|]. vm_compute. reflexivity.
Defined.

Definition file_flag (d : disk) : disk * bool := (d, bool_decide (is_Some (dk_session d))).
Definition same_side (d : disk) : disk * Z := (d, 7).

Lemma file_flag_stays : stays_set file_flag.
Proof. intros d d' [= <- H]. exact H. Qed.

Lemma same_side_keeps : draws_keep_set file_flag same_side.
Proof. by intros d H. Qed.

(** A conversation that was answered, on a disk, with the providers of the network. *)
Definition workspace_runtime : @runtime providers disk unit :=
  mkRuntime two_agents (Some (Session.mk answered_graph (mkSpec "small" []) ∅)) (SetToolCallBudget 7 new_executor) ∅
    (mkOuter (new_pager default_budget "g") [] empty_disk) None 0.

Lemma workspace_runtime_ok : runtime_ok demo_ids workspace_runtime.
Proof. exact answered_runtime_ok. Qed.

Definition demo_line (input : string) : option (@runtime providers disk unit * res (ExecutionResult * bool)) :=
  Line (codec := bit_codec) no_servers "1" prefix_regex "/w" file_flag (fun _ => false) silent same_side
    (fun _ => false) (fun _ => 7) (fun _ => 0) (fun _ => "") demo_ids (mkStaticEnv "Linux" "6.1") None true false
    [] "c" (Z.to_nat (xs_budget (executor_ workspace_runtime)) + 2) input "" workspace_runtime.


(** What the line leaves: the question, and the failure of the network. *)
Example Line_over_a_silent_network :
  match demo_line "and now?" with
  | Some (r, Ok (result, _)) => chain_ids r = ["a"; "b"; "m0"] /\ x_has_error result = true /\ x_rounds result = 1
  | _ => False
  end.
Proof. vm_compute. done. Qed.
