(* ===== verification/PeerRead.v ===== *)
(** * Reading the boards of the peers ([src/serve/peer_read.cpp], [src/app/serve.cpp])

    [BoardReader] pulls the board of every configured peer and tells the model
    what is on it; [ContextDigest] is the digest a serving executor asks for
    before every round. *)
From Stdlib Require Import Ascii.
From S2P Require Export Prelude Json Agents Http Board.

Record PeerSnapshot := mkSnapshot { sn_peer : string; sn_board : value; sn_error : string }.

Definition StringField (j : value) (key : string) : string := string_or j key "".

(** [HasKey] and [is_string], then the string. *)
Definition optional_string (j : value) (key : string) : option string :=
  match at_key j key with Some (JString s) => Some s | _ => None end.

Definition AppendJob (self : string) (job : value) : string :=
  let to_ := StringField job "to" in
  let from_ := StringField job "from" in
  "  - " +:+ StringField job "id" +:+ " "
  +:+ (if bool_decide (to_ = self) then "you hold" else "held by " +:+ to_) +:+ ", "
  +:+ (if bool_decide (from_ = self) then "you posted"
       else "posted by " +:+ (if sempty from_ then "a person" else from_))
  +:+ ": " +:+ StringField job "intent" +:+ " [" +:+ StringField job "state"
  +:+ match at_key job "overdue" with Some (JBool true) => ", overdue" | _ => "" end
  +:+ match optional_string job "question" with Some q => ", asking: " +:+ q | None => "" end
  +:+ match optional_string job "result" with Some r => ", result: " +:+ r | None => "" end
  +:+ "]" +:+ NL.

(** How long ago the peer says it read this server's board. *)
Definition seen_by (board : value) : string :=
  match at_key board "self" with
  | Some (JObject presence) =>
      if HasKey (JObject presence) "seen_seconds"
      then decimal (ValueOrDefault to_int64 (JObject presence) "seen_seconds" 0) else ""
  | _ => ""
  end.

(** What a snapshot adds; [None] where it adds nothing. *)
Definition describe_one (self : string) (snapshot : PeerSnapshot) : option string :=
  if negb (sempty (sn_error snapshot)) then
    Some ("  - " +:+ sn_peer snapshot +:+ " could not be read: " +:+ sn_error snapshot +:+ NL)
  else if negb (is_object (sn_board snapshot)) then None
  else
    let seen := seen_by (sn_board snapshot) in
    Some ("  - " +:+ sn_peer snapshot +:+ ":"
          +:+ (if sempty seen then "" else " your board was last read by it " +:+ seen +:+ "s ago;") +:+ NL
          +:+ match at_key (sn_board snapshot) "jobs" with
              | Some (JArray jobs) =>
                  String.concat "" (map (fun job => if is_object job then AppendJob self job else "") jobs)
              | _ => ""
              end).

Definition Describe (peers_ : PeerConfig) (snapshots : list PeerSnapshot) : string :=
  match omap (describe_one (self_name peers_)) snapshots with
  | [] => ""
  | parts => "=== Peer boards ===" +:+ NL +:+ String.concat "" parts
  end.

Section PeerRead.
#[local] Set Default Proof Using "Type*".
Context `{codec : JsonCodec} {N : Type} (peers_ : PeerConfig).
(** The network, and what the message of a body that does not parse says. *)
Context (dial : Http.Request -> N -> N * Network) (parse_message : string -> string).

Definition read_headers : list string :=
  "Accept: application/json"
  :: (if sempty (token peers_) then [] else ["Authorization: Bearer " +:+ token peers_]).

(** A peer that cannot be read is kept with its error. *)
Definition PullOne (peer : PeerEntry) (n : N) : N * res PeerSnapshot :=
  let '(n, out) := Get dial (peer_url peer +:+ "/api/jobs") read_headers n in
  (n, match out with
      | Undef => Undef
      | Throw e => Ok (mkSnapshot (peer_name peer) JNull (what e))
      | Ok response =>
          match parse (Http.body response) with
          | Some board => Ok (mkSnapshot (peer_name peer) board "")
          | None => Ok (mkSnapshot (peer_name peer) JNull (parse_message (Http.body response)))
          end
      end).

Fixpoint pull_peers (l : list PeerEntry) (n : N) : N * res (list PeerSnapshot) :=
  match l with
  | [] => (n, Ok [])
  | peer :: l =>
      let '(n, one) := PullOne peer n in
      match one with
      | Throw e => (n, Throw e)
      | Undef => (n, Undef)
      | Ok snapshot => let '(n, rest) := pull_peers l n in (n, res_map (cons snapshot) rest)
      end
  end.

Definition PullAll (n : N) : N * res (list PeerSnapshot) := pull_peers (peers peers_) n.

(** The digest of a serving executor: its own board, then those of the peers. *)
Definition ContextDigest (own : string) (n : N) : N * res string :=
  let '(n, pulled) := PullAll n in
  (n, let? snapshots := pulled in
      let theirs := Describe peers_ snapshots in
      Ok (if sempty own then theirs else if sempty theirs then own else own +:+ NL +:+ theirs)).

(** ** Every peer is told of *)

Definition answered_ (p : PeerEntry) (s : PeerSnapshot) : Prop :=
  sn_peer s = peer_name p /\ (sn_error s = "" \/ sn_board s = JNull).

(** Reading the boards never throws, and answers for every configured peer, in
    order: with its board, or with why it could not be read. *)
Theorem PullAll_answers n n' out :
  PullAll n = (n', out) ->
  (forall e, out <> Throw e) /\ forall l, out = Ok l -> Forall2 answered_ (peers peers_) l.
Proof.
  unfold PullAll. revert n n' out. induction (peers peers_) as [|p ps IH]; intros n n' out; cbn [pull_peers].
  { intros [= <- <-]. split; [done|]. intros l [= <-]. constructor. }
  assert (Hone : forall n1 one, PullOne p n = (n1, one) ->
    (forall e, one <> Throw e) /\ forall s, one = Ok s -> answered_ p s).
  { unfold PullOne. destruct (Get _ _ _ n) as [n0 [response|e|]]; intros n1 one [= <- <-]; [| |by split].
    - destruct (parse _); (split; [done|]); intros s [= <-]; (split; [done|]); [by left|by right].
    - split; [done|]. intros s [= <-]. split; [done|by right]. }
  destruct (PullOne p n) as [n1 one] eqn:E. destruct (Hone n1 one eq_refl) as [Ht Ha].
  destruct one as [s|e|]; [|by destruct (Ht e)|by intros [= <- <-]].
  destruct (pull_peers ps n1) as [n2 rest] eqn:Er. destruct (IH _ _ _ Er) as [Hr Hl].
  intros [= <- <-]. destruct rest as [l|e|]; cbn [res_map]; [|by destruct (Hr e)|done].
  split; [done|]. intros l' [= <-]. constructor; auto.
Qed.

End PeerRead.

(** ** A peer's board, read over the network *)

(** The line of a job as another server tells its model of it. *)
Definition job_line (self now : string) (job : Board.Job) : string :=
  "  - " +:+ Board.id job +:+ " "
  +:+ (if bool_decide (Board.to job = self) then "you hold" else "held by " +:+ Board.to job) +:+ ", "
  +:+ (if bool_decide (Board.from job = self) then "you posted"
       else "posted by " +:+ (if sempty (Board.from job) then "a person" else Board.from job))
  +:+ ": " +:+ Board.intent job +:+ " [" +:+ Board.JobStateName (Board.state job)
  +:+ (if Board.overdue job now then ", overdue" else "")
  +:+ match Board.question job with Some q => ", asking: " +:+ q | None => "" end
  +:+ match Board.result job with Some r => ", result: " +:+ r | None => "" end
  +:+ "]" +:+ NL.

Lemma obj_find_opt_set key key' v (o : object) :
  obj_find key' (Board.opt_set key v o)
  = if decide (key = key') then match v with Some v => Some v | None => obj_find key' o end else obj_find key' o.
Proof.
  destruct v as [v|]; cbn [Board.opt_set]; [|by case_decide].
  case_decide as Hk; [subst; apply obj_find_set_eq|by apply obj_find_set_ne].
Qed.

Lemma opt_set_ne key key' v (o : object) :
  key <> key' -> obj_find key' (Board.opt_set key v o) = obj_find key' o.
Proof. intros H. by rewrite obj_find_opt_set, decide_False. Qed.

Lemma opt_set_eq key v (o : object) :
  obj_find key o = None -> obj_find key (Board.opt_set key v o) = v.
Proof. intros H. rewrite obj_find_opt_set, decide_True by done. by destruct v. Qed.

(** Reads a field of a rendered job. *)
Ltac skip_fields := repeat first [rewrite obj_find_set_ne by discriminate | rewrite opt_set_ne by discriminate].
Ltac read_field :=
  unfold at_key, Board.Render; cbn [normalize if_object mbind option_bind]; rewrite obj_find_normalize; cbv zeta;
  skip_fields.

Lemma rendered_strings job now :
  let j := normalize (Board.Render job now) in
  at_key j "id" = Some (JString (Board.id job)) /\ at_key j "from" = Some (JString (Board.from job))
  /\ at_key j "to" = Some (JString (Board.to job)) /\ at_key j "intent" = Some (JString (Board.intent job))
  /\ at_key j "state" = Some (JString (Board.JobStateName (Board.state job))).
Proof. cbv zeta. split_and!; read_field; reflexivity. Qed.

Lemma rendered_optional job now :
  let j := normalize (Board.Render job now) in
  at_key j "overdue" = Some (JBool (Board.overdue job now))
  /\ at_key j "question" = JString <$> Board.question job /\ at_key j "result" = JString <$> Board.result job.
Proof.
  cbv zeta. split_and!; read_field.
  - by rewrite obj_find_set_eq.
  - rewrite opt_set_eq by (skip_fields; reflexivity). by destruct (Board.question job).
  - rewrite opt_set_eq by (skip_fields; reflexivity). by destruct (Board.result job).
Qed.

Lemma StringField_at j key s : at_key j key = Some (JString s) -> StringField j key = s.
Proof. destruct j; try done. unfold at_key, StringField. cbn. by intros ->. Qed.

Lemma AppendJob_line self job now : AppendJob self (normalize (Board.Render job now)) = job_line self now job.
Proof.
  destruct (rendered_strings job now) as (H1 & H2 & H3 & H4 & H5).
  destruct (rendered_optional job now) as (H6 & H7 & H8).
  unfold AppendJob, job_line, optional_string. rewrite H6, H7, H8.
  rewrite (StringField_at _ _ _ H1), (StringField_at _ _ _ H2), (StringField_at _ _ _ H3), (StringField_at _ _ _ H4),
    (StringField_at _ _ _ H5).
  by destruct (Board.overdue job now), (Board.question job), (Board.result job).
Qed.

(** A server tells its model of every job on a peer's board, with its holder,
    its poster, its state, its question and its result, and of nothing else.
    Nothing is said of when the peer read this server's board, since no board
    carries what that is looked for in. *)
Theorem Describe_board peers_ name off clk b :
  Describe peers_ [mkSnapshot name (normalize (Board.Snapshot off clk b)) ""]
  = "=== Peer boards ===" +:+ NL +:+ "  - " +:+ name +:+ ":" +:+ NL
    +:+ String.concat "" (map (job_line (self_name peers_) (Board.NowStamp (clk 0%nat))) (Board.jobs_ b)).
Proof.
  unfold Describe. cbn [omap list_omap describe_one sn_error sn_board sn_peer sempty negb].
  assert (Hseen : seen_by (normalize (Board.Snapshot off clk b)) = "") by done.
  rewrite Hseen. unfold Board.Snapshot. cbn [normalize map is_object negb]. unfold at_key. cbn [if_object mbind option_bind].
  cbn [obj_find]. rewrite decide_False by done. rewrite decide_True by done. cbn [fst snd].
  cbn [normalize sempty String.concat]. rewrite !map_map.
  set (now := Board.NowStamp (clk 0%nat)).
  assert (Hmap : map (fun job => if is_object (normalize (Board.Render job now))
                                 then AppendJob (self_name peers_) (normalize (Board.Render job now)) else "")
                   (Board.jobs_ b) = map (job_line (self_name peers_) now) (Board.jobs_ b)).
  { apply map_ext. intros job. by rewrite <- AppendJob_line. }
  setoid_rewrite Hmap. clear Hmap. generalize (String.concat "" (map (job_line (self_name peers_) now) (Board.jobs_ b))). intros lines.
  generalize "=== Peer boards ===" NL "  - " ":". intros t1 t2 t3 t4. by rewrite !sapp_assoc, sapp_nil_r.
Qed.
