(* ===== verification/Registry.v ===== *)
(** * The servers of a machine ([src/config/serve_registry.cpp], [src/core/platform.cpp])

    Every server writes a record of itself into one file and removes it when it
    ends; readers list the records whose process still runs.  The file and the
    process table are the interface [Machine].  Each operation holds the lock of
    the file while it reads and writes it, so it is one step. *)
From Stdlib Require Import Ascii.
From S2P Require Export Prelude Json.

(** ** A workspace's name *)

(** The parts of a path between its separators. *)
Fixpoint path_parts_from (s current : string) : list string :=
  match s with
  | "" => if sempty current then [] else [current]
  | String c s =>
      if bool_decide (c = "/"%char) then
        (if sempty current then path_parts_from s "" else current :: path_parts_from s "")
      else path_parts_from s (current +:+ String c "")
  end.

Definition path_parts (s : string) : list string := path_parts_from s "".

(** [lexically_normal]: dots go, and a name followed by two dots goes with them;
    two dots under the root go. *)
Definition normal_step (absolute : bool) (stack : list string) (part : string) : list string :=
  if bool_decide (part = ".") then stack
  else if bool_decide (part = "..") then
    match stack with
    | top :: rest => if bool_decide (top = "..") then part :: stack else rest
    | [] => if absolute then [] else [part]
    end
  else part :: stack.

Definition lexically_normal (path : string) : list string :=
  rev (foldl (normal_step (starts_with "/" path)) [] (path_parts path)).

Definition Segments (directory : string) : list string :=
  List.filter (fun part => negb (bool_decide (part = ".."))) (lexically_normal directory).

Definition WorkspaceLabel (directory : string) : string :=
  match rev (Segments directory) with
  | [] => directory
  | [part] => part
  | last_ :: before :: _ => before +:+ "/" +:+ last_
  end.

(** ** Records *)

Record ServeRecord := mkRecord_ {
  sr_directory : string; sr_bind : string; sr_port : Z; sr_pid : Z; sr_started : string
}.

Definition RecordFromJson (item : value) : ServeRecord :=
  mkRecord_ (string_or item "directory" "") (string_or item "bind" "")
    (ValueOrDefault to_int item "port" 0 mod 2 ^ 16) (ValueOrDefault to_int item "pid" 0) (string_or item "started" "").

Definition RecordToJson (r : ServeRecord) : value :=
  JObject [("directory", JString (sr_directory r)); ("bind", JString (sr_bind r)); ("port", JUint64 (sr_port r));
           ("pid", JInt64 (sr_pid r)); ("started", JString (sr_started r))].

(** What the machine answers, and what writing the file does to it.  A write may
    fail, and then the old file stays. *)
Class Machine (N : Type) := {
  mc_home : N -> option string;
  mc_running : N -> Z -> bool;
  mc_stat : N -> Z -> option string;
  mc_file : N -> string -> option string;
  mc_replace : string -> string -> N -> N;
}.

(** Past the last [')'] of the line, [starttime] is the twentieth field. *)
Definition StartedAtTicks (stat_line : string) : string :=
  match srfind ")" stat_line with
  | None => ""
  | Some close => default "" (words (sdrop (S close) stat_line) !! 19%nat)
  end.

(** [a.port > b.port], and equals keep their order. *)
Fixpoint insert_port (r : ServeRecord) (sorted : list ServeRecord) : list ServeRecord :=
  match sorted with
  | [] => [r]
  | other :: rest => if sr_port r <? sr_port other then other :: insert_port r rest else r :: sorted
  end.

Definition sort_ports (l : list ServeRecord) : list ServeRecord := foldr insert_port [] l.

Definition OthersAmong (records : list ServeRecord) (pid : Z) : list ServeRecord :=
  List.filter (fun r => negb (sr_pid r =? pid)) records.

Section Registry.
#[local] Set Default Proof Using "Type*".
Context `{codec : JsonCodec} {N : Type} `{!Machine N}.
Implicit Types n : N.

Definition ProcessStartToken (pid : Z) n : string :=
  if pid <=? 0 then "" else match mc_stat n pid with Some line => StartedAtTicks line | None => "" end.

Definition ProcessRunning (pid : Z) n : bool := if pid <=? 0 then false else mc_running n pid.

Definition StillRunning (r : ServeRecord) n : bool :=
  let now := ProcessStartToken (sr_pid r) n in
  if negb (ProcessRunning (sr_pid r) n) then false
  else if sempty (sr_started r) || sempty now then true
  else bool_decide (sr_started r = now).

Definition ServeRegistryPath n : string :=
  match mc_home n with
  | Some home => if sempty home then "" else path_join (path_join home ".pu") "serve.json"
  | None => ""
  end.

Definition ReadRecords (path : string) n : list value :=
  match mc_file n path with
  | None => []
  | Some text =>
      match parse text with
      | None => []
      | Some parsed => match at_key parsed "servers" with Some (JArray records) => records | _ => [] end
      end
  end.

Definition WriteRecords (path : string) (records : list value) n : N :=
  if sempty path then n else mc_replace path (serialize (JObject [("servers", JArray records)])) n.

Definition LiveServeRecords n : N * list ServeRecord :=
  let path := ServeRegistryPath n in
  if sempty path then (n, [])
  else
    let stored := ReadRecords path n in
    let kept := List.filter (fun item => StillRunning (RecordFromJson item) n) stored in
    (if (length kept =? length stored)%nat then n else WriteRecords path kept n,
     sort_ports (map RecordFromJson kept)).

Definition RegisterServeRecord (r : ServeRecord) n : N * string :=
  let path := ServeRegistryPath n in
  if sempty path then (n, "")
  else
    let records := List.filter (fun item =>
      let existing := RecordFromJson item in
      negb (sr_pid existing =? sr_pid r) && ProcessRunning (sr_pid existing) n) (ReadRecords path n) in
    (WriteRecords path (records ++ [RecordToJson r]) n, path).

Definition UnregisterServeRecord (pid : Z) n : N :=
  let path := ServeRegistryPath n in
  if sempty path then n
  else WriteRecords path (List.filter (fun item => negb (sr_pid (RecordFromJson item) =? pid)) (ReadRecords path n)) n.

(** ** The file holds a list of records *)

Definition record_ok (r : ServeRecord) : Prop :=
  0 <= sr_port r < 2 ^ 16 /\ int_min <= sr_pid r <= int_max
  /\ IsValidUtf8 (sr_directory r) = true /\ IsValidUtf8 (sr_bind r) = true /\ IsValidUtf8 (sr_started r) = true.

Lemma RecordToJson_plain r : record_ok r -> plain (RecordToJson r) = true /\ depth (RecordToJson r) = 1%nat.
Proof.
  intros ([Hp1 Hp2] & [Hi1 Hi2] & Hd & Hb & Hs). split; [|done]. apply (proj2 (plain_JObject _)). split.
  { apply (bool_decide_eq_true_1 _). reflexivity. }
  repeat constructor; cbn [fst snd plain]; try done; apply andb_true_intro; split; apply Z.leb_le;
    unfold int_min, int_max, int64_min, int64_max, uint64_max in *; lia.
Qed.

Lemma RecordFromJson_back r : record_ok r -> RecordFromJson (RecordToJson r) = r.
Proof.
  intros ([Hp1 Hp2] & Hi & _). destruct r as [d b p i st]. cbn [sr_port sr_pid] in *.
  change (RecordFromJson (RecordToJson (mkRecord_ d b p i st)))
    with (mkRecord_ d b (default 0 (in_range int_min int_max p) mod 2 ^ 16) (default 0 (in_range int_min int_max i)) st).
  rewrite !in_range_Some by (unfold int_min, int_max in *; lia). cbn [default]. by rewrite Z.mod_small.
Qed.

Lemma RecordFromJson_normalize j : RecordFromJson (normalize j) = RecordFromJson j.
Proof.
  unfold RecordFromJson. by rewrite !(ValueOrDefault_normalize to_string), !(ValueOrDefault_normalize to_int) by auto with pu.
Qed.

(** The records as the file has them. *)
Definition stored (rs : list ServeRecord) : list value := map (fun r => normalize (RecordToJson r)) rs.

Definition holds (rs : list ServeRecord) n : Prop :=
  ReadRecords (ServeRegistryPath n) n = stored rs /\ Forall record_ok rs.

Lemma filter_stored (f : ServeRecord -> bool) rs :
  Forall record_ok rs -> List.filter (fun item => f (RecordFromJson item)) (stored rs) = stored (List.filter f rs).
Proof.
  induction 1 as [|r rs Hr _ IH]; [done|]. unfold stored in *. cbn [map List.filter].
  rewrite RecordFromJson_normalize, RecordFromJson_back by done. destruct (f r); cbn [map]; by rewrite IH.
Qed.

Lemma read_stored rs : Forall record_ok rs -> map RecordFromJson (stored rs) = rs.
Proof.
  induction 1 as [|r rs Hr _ IH]; [done|]. unfold stored in *. cbn [map].
  by rewrite IH, RecordFromJson_normalize, RecordFromJson_back.
Qed.

Lemma Forall_filter_keeps (P : ServeRecord -> Prop) f rs : Forall P rs -> Forall P (List.filter f rs).
Proof. induction 1; cbn; [done|]. destruct (f x); [by constructor|done]. Qed.

(** A write that succeeds is read back, and changes neither where the file is
    nor the processes. *)
Class MachineOk : Prop := {
  replaced path text n : mc_file (mc_replace path text n) path = Some text;
  replaced_home path text n : mc_home (mc_replace path text n) = mc_home n;
  replaced_running path text n pid : mc_running (mc_replace path text n) pid = mc_running n pid;
  replaced_stat path text n pid : mc_stat (mc_replace path text n) pid = mc_stat n pid;
}.

Context `{!JsonCodecOk codec} {machine_ok : MachineOk}.

Lemma WriteRecords_path path items n : ServeRegistryPath (WriteRecords path items n) = ServeRegistryPath n.
Proof. unfold WriteRecords, ServeRegistryPath. destruct (sempty path); [done|]. by rewrite replaced_home. Qed.

Lemma WriteRecords_running r path items n : StillRunning r (WriteRecords path items n) = StillRunning r n.
Proof.
  unfold WriteRecords, StillRunning, ProcessStartToken, ProcessRunning. destruct (sempty path); [done|].
  by rewrite replaced_running, replaced_stat.
Qed.

(** Records that are written are read back as the records they are. *)
Lemma write_holds items rs n :
  sempty (ServeRegistryPath n) = false -> Forall record_ok rs -> map normalize items = stored rs ->
  Forall (fun item => plain item = true /\ depth item = 1%nat) items ->
  holds rs (WriteRecords (ServeRegistryPath n) items n).
Proof.
  intros Hpath Hrs Hitems Hplain. split; [|done]. rewrite WriteRecords_path. unfold ReadRecords, WriteRecords.
  rewrite Hpath, replaced. rewrite parse_serialize.
  - unfold at_key. cbn [normalize map if_object mbind option_bind obj_find fst snd]. rewrite decide_True by done. exact Hitems.
  - apply wire_spec. rewrite plain_JObject, depth_JObject. split; [split|split; [lia|]].
    + apply NoDup_singleton.
    + apply Forall_singleton. split; [done|]. apply (proj2 (plain_JArray _)). eapply Forall_impl; [done|]. by intros j [Hj _].
    + apply Forall_singleton. cbn [snd]. apply Nat.lt_succ_r, depth_JArray. split; [lia|].
      eapply Forall_impl; [done|]. intros j [_ Hj]. cbn beta. lia.
Qed.

Lemma stored_plain rs : Forall record_ok rs -> Forall (fun item => plain item = true /\ depth item = 1%nat) (stored rs).
Proof.
  intros H. apply Forall_map. eapply Forall_impl; [done|]. intros r Hr. destruct (RecordToJson_plain r Hr) as [H1 H2].
  cbn beta. by rewrite depth_normalize, plain_normalize.
Qed.

Lemma stored_normal rs : map normalize (stored rs) = stored rs.
Proof. unfold stored. rewrite map_map. apply map_ext. intros r. apply normalize_idemp. Qed.

Lemma filter_length_id {A} (f : A -> bool) l : length (List.filter f l) = length l -> List.filter f l = l.
Proof.
  induction l as [|x l IH]; [done|]. cbn. destruct (f x); cbn; [intros [= H]; by rewrite IH|].
  intros H. pose proof (List.filter_length_le f l). lia.
Qed.

(** C27: the registry is the list of the servers that registered: registering
    replaces the record of the same process and drops those of processes that
    ended, leaving removes its own, and listing answers with the records whose
    process is still the one that wrote them, and drops the others. *)
Theorem Registry_refines rs n :
  sempty (ServeRegistryPath n) = false -> holds rs n ->
  (let '(n', live) := LiveServeRecords n in
   let still := List.filter (fun r => StillRunning r n) rs in holds still n' /\ live = sort_ports still)
  /\ (forall r, record_ok r ->
        holds (List.filter (fun e => negb (sr_pid e =? sr_pid r) && ProcessRunning (sr_pid e) n) rs ++ [r])
          (RegisterServeRecord r n).1)
  /\ (forall pid, holds (List.filter (fun r => negb (sr_pid r =? pid)) rs) (UnregisterServeRecord pid n)).
Proof.
  intros Hpath [Hread Hrs]. split_and!.
  - unfold LiveServeRecords. rewrite Hpath, Hread. cbv zeta.
    rewrite (filter_stored (fun r => StillRunning r n)) by done. set (still := List.filter _ rs).
    assert (Hstill : Forall record_ok still) by by apply Forall_filter_keeps.
    split; [|by rewrite read_stored]. unfold stored at 1 2. rewrite !length_map.
    destruct (Nat.eqb_spec (length still) (length rs)) as [Hl|_].
    + unfold still in *. rewrite filter_length_id by done. by split.
    + apply write_holds; [done|done|apply stored_normal|by apply stored_plain].
  - intros r Hr. unfold RegisterServeRecord. rewrite Hpath, Hread. cbv zeta. cbn [fst].
    rewrite (filter_stored (fun e => negb (sr_pid e =? sr_pid r) && ProcessRunning (sr_pid e) n)) by done.
    set (others := List.filter _ rs). assert (Hothers : Forall record_ok others) by by apply Forall_filter_keeps.
    apply write_holds; [done|by apply Forall_app; split; [|constructor]| |].
    + rewrite map_app, stored_normal. unfold stored. by rewrite map_app.
    + apply Forall_app. split; [by apply stored_plain|]. constructor; [by apply RecordToJson_plain|constructor].
  - intros pid. unfold UnregisterServeRecord. rewrite Hpath, Hread. cbv zeta.
    rewrite (filter_stored (fun r => negb (sr_pid r =? pid))) by done.
    apply write_holds; [done|by apply Forall_filter_keeps|apply stored_normal|].
    by apply stored_plain, Forall_filter_keeps.
Qed.

End Registry.

(** ** Names of workspaces *)

Lemma sort_ports_perm l : sort_ports l ≡ₚ l.
Proof.
  induction l as [|r l IH]; [done|]. change (sort_ports (r :: l)) with (insert_port r (sort_ports l)).
  assert (Hi : forall s, insert_port r s ≡ₚ r :: s).
  { induction s as [|o s IHs]; cbn; [done|]. destruct (_ <? _); [|done]. rewrite IHs. constructor. }
  by rewrite Hi, IH.
Qed.

(** A name between separators. *)
Definition name_ok (s : string) : Prop := s <> "" /\ count_char "/" s = 0%nat.

Lemma path_parts_from_names s current :
  count_char "/" current = 0%nat -> Forall name_ok (path_parts_from s current).
Proof.
  revert current. induction s as [|c s IH]; intros current Hc; cbn [path_parts_from].
  - destruct (sempty current) eqn:E; [constructor|]. constructor; [|constructor]. by split; [apply sempty_false|].
  - case_bool_decide as Hs.
    + destruct (sempty current) eqn:E; [by apply IH|]. constructor; [by split; [apply sempty_false|]|by apply IH].
    + apply IH. rewrite count_char_app, Hc. cbn. by rewrite decide_False.
Qed.

Lemma normal_step_names absolute stack part :
  Forall name_ok stack -> name_ok part -> ("." ∉ stack) ->
  Forall name_ok (normal_step absolute stack part) /\ "." ∉ normal_step absolute stack part.
Proof.
  intros Hs Hp Hd. unfold normal_step. case_bool_decide as H1; [done|]. case_bool_decide as H2.
  - subst. destruct stack as [|top rest].
    + destruct absolute; [done|]. split; [by apply Forall_singleton|set_solver].
    + apply Forall_cons in Hs as [Ht Hr]. case_bool_decide; [|set_solver].
      split; [by rewrite !Forall_cons|set_solver].
  - split; [by apply Forall_cons|set_solver].
Qed.

Lemma lexically_normal_names path : Forall name_ok (lexically_normal path) /\ "." ∉ lexically_normal path.
Proof.
  unfold lexically_normal. pose proof (path_parts_from_names path "" eq_refl) as Hp. fold (path_parts path) in Hp.
  assert (H : forall l stack, Forall name_ok l -> Forall name_ok stack -> "." ∉ stack ->
    Forall name_ok (foldl (normal_step (starts_with "/" path)) stack l)
    /\ "." ∉ foldl (normal_step (starts_with "/" path)) stack l).
  { induction l as [|x l IH]; intros stack Hl Hs Hd; [done|]. apply Forall_cons in Hl as [Hx Hl]. cbn [foldl].
    destruct (normal_step_names (starts_with "/" path) stack x) as [H1 H2]; [done..|]. by apply IH. }
  destruct (H (path_parts path) []) as [H1 H2]; [done|constructor|apply not_elem_of_nil|].
  split; [by apply Forall_rev|]. by rewrite list_elem_of_In, <- in_rev, <- list_elem_of_In.
Qed.

(** The label of a workspace is one name or two with a separator between them,
    whatever the directory was written as: dots and the way up never show.  Only
    a directory without any name, such as the root, is labelled as it is
    written. *)
Theorem WorkspaceLabel_names directory :
  (Segments directory = [] /\ WorkspaceLabel directory = directory)
  \/ exists last_, name_ok last_ /\ last_ <> "." /\ last_ <> ".."
       /\ (WorkspaceLabel directory = last_
           \/ exists before, name_ok before /\ before <> "." /\ before <> ".."
                /\ WorkspaceLabel directory = before +:+ "/" +:+ last_).
Proof.
  destruct (lexically_normal_names directory) as [Hn Hd].
  assert (Hall : forall x, x ∈ rev (Segments directory) -> name_ok x /\ x <> "." /\ x <> "..").
  { intros x Hx. rewrite list_elem_of_In, <- in_rev in Hx. unfold Segments in Hx. apply filter_In in Hx as [Hx Hf].
    apply list_elem_of_In in Hx. rewrite negb_true_iff, bool_decide_eq_false in Hf. rewrite Forall_forall in Hn.
    split_and!; [by apply Hn| |done]. intros ->. done. }
  unfold WorkspaceLabel. destruct (rev (Segments directory)) as [|last_ l] eqn:E.
  - left. split; [|done]. by apply (f_equal (@rev string)) in E; rewrite rev_involutive in E.
  - right. exists last_. destruct (Hall last_) as (H1 & H2 & H3); [set_solver|]. split_and!; [done..|].
    destruct l as [|before l]; [by left|]. right. exists before.
    destruct (Hall before) as (B1 & B2 & B3); [set_solver|]. done.
Qed.

(** ** A machine *)

Record machine := mkMachine { ma_files : gmap string string; ma_processes : gmap Z string }.

#[export] Instance demo_machine : Machine machine := {|
  mc_home := fun _ => Some "/home/u";
  mc_running := fun m pid => bool_decide (is_Some (ma_processes m !! pid));
  mc_stat := fun m pid => ma_processes m !! pid;
  mc_file := fun m path => ma_files m !! path;
  mc_replace := fun path text m => mkMachine (<[path := text]> (ma_files m)) (ma_processes m) |}.

Lemma demo_machine_ok : MachineOk (Machine0 := demo_machine).
Proof. split; intros; cbn; [apply lookup_insert_eq|done..]. Qed.

(** The line of a process that started at a tick. *)
Definition stat_of (pid tick : string) : string :=
  pid +:+ " (pu (serve)) S 1 1 1 0 -1 4194304 100 0 0 0 1 1 0 0 20 0 1 0 " +:+ tick +:+ " 1000".

Definition two_servers : machine := mkMachine ∅ {[7 := stat_of "7" "512"; 9 := stat_of "9" "600"]}.

Definition served (dir : string) (port pid : Z) (started : string) : ServeRecord :=
  mkRecord_ dir "127.0.0.1" port pid started.

(** The second server's number was used by another process when the first record
    of it was written, so that record goes. *)
Lemma Registry_refines_witness :
  exists m rs, holds (codec := bit_codec) rs m /\ length rs = 2%nat
    /\ (LiveServeRecords (codec := bit_codec) m).2 = [served "/w/a" 9000 7 "512"].
Proof.
  pose proof demo_machine_ok as Hok.
  assert (H0 : holds (codec := bit_codec) [] two_servers) by by split.
  destruct (Registry_refines (codec := bit_codec) (machine_ok := Hok) [] two_servers eq_refl H0) as (_ & Hreg & _).
  assert (Ha : record_ok (served "/w/a" 9000 7 "512"))
    by (by split_and!; [..|vm_compute|vm_compute|vm_compute]).
  assert (Hb : record_ok (served "/w/b" 9001 9 "599"))
    by (by split_and!; [..|vm_compute|vm_compute|vm_compute]).
  pose proof (Hreg _ Ha) as H1. set (m1 := (RegisterServeRecord (served "/w/a" 9000 7 "512") two_servers).1) in H1.
  destruct (Registry_refines (codec := bit_codec) (machine_ok := Hok) _ m1 eq_refl H1) as (_ & Hreg1 & _).
  eexists _, _. split; [exact (Hreg1 _ Hb)|]. split; vm_compute; reflexivity.
Defined.

(** A machine whose file cannot be written. *)
Definition read_only_machine : Machine machine := {|
  mc_home := fun _ => Some "/home/u";
  mc_running := fun m pid => bool_decide (is_Some (ma_processes m !! pid));
  mc_stat := fun m pid => ma_processes m !! pid;
  mc_file := fun m path => ma_files m !! path;
  mc_replace := fun _ _ m => m |}.

(** Registering answers with the path as if it had been written. *)
Example Registered_unwritten :
  let '(m, path) := RegisterServeRecord (codec := bit_codec) (Machine0 := read_only_machine)
                      (served "/w/a" 9000 7 "512") two_servers in
  path = "/home/u/.pu/serve.json" /\ ma_files m !! path = None.
Proof. vm_compute. done. Qed.
