(* ===== verification/RegistryLock.v ===== *)
(** * Servers that share the list of servers ([src/config/serve_registry.cpp])

    Every server of a machine reads the list, changes it and replaces the file,
    each under a lock beside it.  A process is where it is in one such operation;
    a step is one thing one process does, so every interleaving is a sequence of
    steps, and a process may die between any two.  [Locked_serial] is that while
    everyone holds the lock the operations happen one after another, which is how
    [Registry] has them. *)
From Stdlib Require Import Ascii.
From S2P Require Export Registry.

(** ** The lock *)

(** How often the lock is tried, and how long a process sleeps between. *)
Definition kLockAttempts : nat := 200.
Definition kLockSleepMs : Z := 10.

Section Lock.
Context {C : Type}.
(** What an operation of each process makes of the list: nothing is written for
    [None]. *)
Context (op : nat -> C -> option C).

(** Where a process is: trying for the [n]th time, before it reads, with what it
    is about to write, with its temporary file written, about to let go, gone. *)
Inductive phase :=
  | PLocking (n : nat)
  | PReads
  | PWrites (c : C)
  | PRenames
  | PUnlocks
  | PGone.

Record proc := mkProc { pr_phase : phase; held_ : bool }.

(** The file, the process that has the lock, the temporary file of each process. *)
Record registry := mkRegistry {
  rg_file : C; rg_holder : option nat; rg_temps : gmap nat C; rg_procs : gmap nat proc;
  (** The operations that took effect, in order; nothing of the program reads it. *)
  rg_done : list nat
}.

Definition set_proc (p : nat) (ph : phase) (held : bool) (g : registry) : registry :=
  mkRegistry (rg_file g) (rg_holder g) (rg_temps g) (<[p := mkProc ph held]> (rg_procs g)) (rg_done g).

Definition set_holder (h : option nat) (g : registry) : registry :=
  mkRegistry (rg_file g) h (rg_temps g) (rg_procs g) (rg_done g).

Definition took_effect (p : nat) (c : C) (g : registry) : registry :=
  mkRegistry c (rg_holder g) (rg_temps g) (rg_procs g) (rg_done g ++ [p]).

Definition set_temp (p : nat) (c : C) (g : registry) : registry :=
  mkRegistry (rg_file g) (rg_holder g) (<[p := c]> (rg_temps g)) (rg_procs g) (rg_done g).

(** [TryLock]: a lock file that cannot be opened counts as taken, and is not held. *)
Definition TryLock (p : nat) (opens : bool) (g : registry) : registry * bool * bool :=
  if negb opens then (g, true, false)
  else match rg_holder g with
       | None => (set_holder (Some p) g, true, true)
       | Some _ => (g, false, false)
       end.

(** The destructor, and what the kernel does for a process that dies. *)
Definition release (p : nat) (held : bool) (g : registry) : registry := if held then set_holder None g else g.

Inductive move :=
  | MStart (p : nat)
  (** One turn of the loop of the constructor. *)
  | MTry (p : nat) (opens : bool)
  | MRead (p : nat)
  | MWrite (p : nat) (opens : bool)
  | MRename (p : nat) (works : bool)
  | MUnlock (p : nat)
  | MDies (p : nat).

(** [None] where the process is not there. *)
Definition step (m : move) (g : registry) : option registry :=
  match m with
  | MStart p => match rg_procs g !! p with None => Some (set_proc p (PLocking 0) false g) | Some _ => None end
  | MTry p opens =>
      match rg_procs g !! p with
      | Some (mkProc (PLocking n) _) =>
          if (n <? kLockAttempts)%nat then
            let '(g, taken, held) := TryLock p opens g in
            Some (if taken : bool then set_proc p PReads held g else set_proc p (PLocking (S n)) false g)
          else Some (set_proc p PReads false g)
      | _ => None
      end
  | MRead p =>
      match rg_procs g !! p with
      | Some (mkProc PReads held) =>
          Some match op p (rg_file g) with
               | Some c => set_proc p (PWrites c) held g
               | None => took_effect p (rg_file g) (set_proc p PUnlocks held g)
               end
      | _ => None
      end
  | MWrite p opens =>
      match rg_procs g !! p with
      | Some (mkProc (PWrites c) held) =>
          Some (if opens : bool then set_temp p c (set_proc p PRenames held g) else set_proc p PUnlocks held g)
      | _ => None
      end
  | MRename p works =>
      match rg_procs g !! p with
      | Some (mkProc PRenames held) =>
          Some (let g := set_proc p PUnlocks held g in
                if works : bool then
                  match rg_temps g !! p with Some c => took_effect p c g | None => g end
                else g)
      | _ => None
      end
  | MUnlock p =>
      match rg_procs g !! p with
      | Some (mkProc PUnlocks held) => Some (release p held (set_proc p PGone false g))
      | _ => None
      end
  | MDies p =>
      match rg_procs g !! p with
      | Some (mkProc PGone _) | None => None
      | Some (mkProc _ held) => Some (release p held (set_proc p PGone false g))
      end
  end.

Fixpoint run (l : list move) (g : registry) : option registry :=
  match l with [] => Some g | m :: l => g ← step m g; run l g end.

Definition new_registry (c : C) : registry := mkRegistry c None ∅ ∅ [].

(** ** One after another *)

Definition apply (c : C) (p : nat) : C := default c (op p c).

(** Whether a process goes on without the lock: it gave up, or could not open it. *)
Definition unlocked (m : move) (g : registry) : bool :=
  match m with
  | MTry p opens =>
      match rg_procs g !! p with
      | Some (mkProc (PLocking n) _) => negb opens || negb (n <? kLockAttempts)%nat
      | _ => false
      end
  | _ => false
  end.

Fixpoint all_locked (l : list move) (g : registry) : bool :=
  match l with
  | [] => true
  | m :: l => negb (unlocked m g) && match step m g with Some g => all_locked l g | None => true end
  end.

(** Past the lock, before the file is let go. *)
Definition inside (ph : phase) : bool :=
  match ph with PReads | PWrites _ | PRenames | PUnlocks => true | _ => false end.

Record serial_ok (c0 : C) (g : registry) : Prop := {
  sr_file : rg_file g = foldl apply c0 (rg_done g);
  sr_inside p ph held : rg_procs g !! p = Some (mkProc ph held) -> inside ph = true -> held = true /\ rg_holder g = Some p;
  sr_outside p ph held : rg_procs g !! p = Some (mkProc ph held) -> inside ph = false -> held = false;
  sr_writes p c held : rg_procs g !! p = Some (mkProc (PWrites c) held) -> op p (rg_file g) = Some c;
  sr_renames p held : rg_procs g !! p = Some (mkProc PRenames held) ->
    exists c, rg_temps g !! p = Some c /\ op p (rg_file g) = Some c;
  sr_attempts p n held : rg_procs g !! p = Some (mkProc (PLocking n) held) -> (n <= kLockAttempts)%nat;
}.

Lemma new_registry_ok c : serial_ok c (new_registry c).
Proof. split; try done; intros p; by intros. Qed.

(** Only the process that moves is elsewhere, and nobody else is inside. *)
Lemma set_proc_ok c0 p ph held (g : registry) :
  serial_ok c0 g -> (inside ph = true -> held = true /\ rg_holder g = Some p) -> (inside ph = false -> held = false) ->
  (forall c, ph = PWrites c -> op p (rg_file g) = Some c) ->
  (ph = PRenames -> exists c, rg_temps g !! p = Some c /\ op p (rg_file g) = Some c) ->
  (forall n, ph = PLocking n -> (n <= kLockAttempts)%nat) ->
  serial_ok c0 (set_proc p ph held g).
Proof.
  intros [A B B' D E F] H1 H2 H3 H4 H5. split; try done; cbn [set_proc rg_procs rg_holder rg_file rg_temps].
  all: intros q; destruct (decide (q = p)) as [->|]; [rewrite lookup_insert_eq|rewrite lookup_insert_ne by done; intros; by eauto].
  all: intros; simplify_eq; eauto.
Qed.

Lemma inside_one c0 (g : registry) p q php phq hp hq :
  serial_ok c0 g -> rg_procs g !! p = Some (mkProc php hp) -> inside php = true ->
  rg_procs g !! q = Some (mkProc phq hq) -> inside phq = true -> p = q.
Proof. intros [_ B _ _ _ _] Hp Ip Hq Iq. destruct (B _ _ _ Hp Ip), (B _ _ _ Hq Iq). congruence. Qed.

(** A process that is inside takes effect: the file is its own from its read on. *)
Lemma effect_ok c0 p c (g : registry) :
  serial_ok c0 g -> rg_procs g !! p = Some (mkProc PUnlocks true) -> c = default (rg_file g) (op p (rg_file g)) ->
  serial_ok c0 (took_effect p c g).
Proof.
  intros Hg Hp ->. pose proof Hg as [A B B' D E F]. split; cbn [took_effect rg_file rg_done rg_procs rg_holder rg_temps]; try done.
  - by rewrite foldl_snoc, <- A.
  - intros q c held Hq. by pose proof (inside_one _ _ _ _ _ _ _ _ Hg Hp eq_refl Hq eq_refl) as <-; simplify_eq.
  - intros q held Hq. by pose proof (inside_one _ _ _ _ _ _ _ _ Hg Hp eq_refl Hq eq_refl) as <-; simplify_eq.
Qed.

Lemma release_ok c0 p ph held (g : registry) :
  serial_ok c0 g -> rg_procs g !! p = Some (mkProc ph held) -> serial_ok c0 (release p held (set_proc p PGone false g)).
Proof.
  intros Hg Hp. pose proof Hg as [A B B' D E F].
  assert (Hs : serial_ok c0 (set_proc p PGone false g)) by (by apply set_proc_ok).
  destruct held; [|done]. assert (Hi : inside ph = true) by (destruct (inside ph) eqn:Ei; [done|by rewrite (B' _ _ _ Hp Ei)]).
  destruct Hs as [A1 B1 B1' D1 E1 F1]. split; try done. intros q phq hq Hq Iq. exfalso.
  cbn in Hq. destruct (decide (q = p)) as [->|Hne]; [rewrite lookup_insert_eq in Hq; by simplify_eq|].
  rewrite lookup_insert_ne in Hq by done. by apply Hne, (inside_one _ _ _ _ _ _ _ _ Hg Hq Iq Hp Hi).
Qed.

Lemma set_temp_ok c0 p c (g : registry) :
  serial_ok c0 g -> op p (rg_file g) = Some c -> serial_ok c0 (set_temp p c g).
Proof.
  intros [A B B' D E F] Hc. split; try done. intros q held Hq. cbn [set_temp rg_temps rg_file].
  destruct (decide (q = p)) as [->|]; [rewrite lookup_insert_eq|rewrite lookup_insert_ne by done; by eapply E]. by exists c.
Qed.

Lemma step_serial c0 m (g g' : registry) : serial_ok c0 g -> unlocked m g = false -> step m g = Some g' -> serial_ok c0 g'.
Proof.
  intros Hg Hu. pose proof Hg as [A B B' D E F]. destruct m as [p|p opens|p|p opens|p works|p|p]; cbn [step unlocked] in *;
    (destruct (rg_procs g !! p) as [[ph held]|] eqn:Ep; [|try done]).
  - done.
  - intros [= <-]. apply set_proc_ok; try done. intros n [= <-]. unfold kLockAttempts. lia.
  - destruct ph as [n| | | | |]; try done. apply orb_false_iff in Hu as [Ho Hn]. apply negb_false_iff in Ho, Hn. rewrite Hn, Ho.
    unfold TryLock. destruct (rg_holder g) as [h|] eqn:Eh; cbn [negb]; intros [= <-].
    + apply set_proc_ok; try done. intros k [= <-]. apply Nat.ltb_lt in Hn. lia.
    + apply set_proc_ok; try done.
      destruct Hg as [A1 B1 B1' D1 E1 F1]. split; try done. intros q phq hq Hq Iq. by destruct (B1 _ _ _ Hq Iq) as [_ ?]; congruence.
  - destruct ph as [n| |c| | |]; try done. destruct (B _ _ _ Ep eq_refl) as [-> Hh]. destruct (op p (rg_file g)) as [c|] eqn:Ec; intros [= <-].
    + apply set_proc_ok; try done. by intros c' [= <-].
    + apply effect_ok; [by apply set_proc_ok|cbn; by rewrite lookup_insert_eq|cbn; by rewrite Ec].
  - destruct ph as [n| |c| | |]; try done. destruct (B _ _ _ Ep eq_refl) as [-> Hh]. pose proof (D _ _ _ Ep) as Hc.
    destruct opens; intros [= <-]; [|by apply set_proc_ok].
    change (set_temp p c (set_proc p PRenames true g)) with (set_proc p PRenames true (set_temp p c g)).
    apply set_proc_ok; try done; [by apply set_temp_ok|]. intros _. exists c. cbn. by rewrite lookup_insert_eq.
  - destruct ph as [n| |c| | |]; try done. destruct (B _ _ _ Ep eq_refl) as [-> Hh].
    assert (Hs : serial_ok c0 (set_proc p PUnlocks true g)) by (by apply set_proc_ok). cbn zeta.
    destruct works; intros [= <-]; [|done]. destruct (E _ _ Ep) as (c & Ht & Hc). cbn [set_proc rg_temps]. rewrite Ht.
    apply effect_ok; [done|cbn; by rewrite lookup_insert_eq|cbn; by rewrite Hc].
  - destruct ph; try done. intros [= <-]. by eapply release_ok.
  - destruct ph; try done; intros [= <-]; by eapply release_ok.
Qed.


End Lock.

#[global] Arguments registry : clear implicits.

(** ** The operations of the list *)

Section Operations.
Context `{codec : JsonCodec} {N : Type} `{!Machine N}.

Definition register_op (r : ServeRecord) (n : N) (records : list value) : option (list value) :=
  Some (List.filter (fun item =>
          let existing := RecordFromJson item in
          negb (sr_pid existing =? sr_pid r) && ProcessRunning (sr_pid existing) n) records ++ [RecordToJson r]).

Definition unregister_op (pid : Z) (records : list value) : option (list value) :=
  Some (List.filter (fun item => negb (sr_pid (RecordFromJson item) =? pid)) records).

Definition sweep_op (n : N) (records : list value) : option (list value) :=
  let kept := List.filter (fun item => StillRunning (RecordFromJson item) n) records in
  if (length kept =? length records)%nat then None else Some kept.

(** What [Registry] does in one step is one of them on the records of the file. *)
Lemma Register_is_op r (n : N) : ServeRegistryPath n <> "" ->
  RegisterServeRecord r n
  = (match register_op r n (ReadRecords (ServeRegistryPath n) n) with
     | Some records => WriteRecords (ServeRegistryPath n) records n | None => n end, ServeRegistryPath n).
Proof. intros H. unfold RegisterServeRecord. by rewrite (proj2 (sempty_false _) H). Qed.

Lemma Unregister_is_op pid (n : N) : ServeRegistryPath n <> "" ->
  UnregisterServeRecord pid n
  = match unregister_op pid (ReadRecords (ServeRegistryPath n) n) with
    | Some records => WriteRecords (ServeRegistryPath n) records n | None => n end.
Proof. intros H. unfold UnregisterServeRecord. by rewrite (proj2 (sempty_false _) H). Qed.

Lemma Live_is_op (n : N) : ServeRegistryPath n <> "" ->
  (LiveServeRecords n).1
  = match sweep_op n (ReadRecords (ServeRegistryPath n) n) with
    | Some records => WriteRecords (ServeRegistryPath n) records n | None => n end.
Proof.
  intros H. unfold LiveServeRecords, sweep_op. rewrite (proj2 (sempty_false _) H). cbv zeta. by destruct (_ =? _)%nat.
Qed.

End Operations.

(** ** Two servers that start at once *)

Definition both_start : nat -> list value -> option (list value) :=
  fun p => register_op (N := machine) (served "/w" (9000 + Z.of_nat p) (Z.of_nat p + 7) "") two_servers.

Definition ports_of (g : option (registry (list value))) : option (list Z) :=
  (fun g => map (fun item => sr_port (RecordFromJson item)) (rg_file g)) <$> g.

Definition goes (p : nat) : list move := [MRead p; MWrite p true; MRename p true; MUnlock p].

(** The second waits for the first. *)
Definition in_turn : list move :=
  [MStart 0; MStart 2; MTry 0 true; MTry 2 true; MRead 0; MTry 2 true; MWrite 0 true; MRename 0 true; MUnlock 0; MTry 2 true]
  ++ goes 2.


(** Where the directory of the list does not exist the lock cannot be opened, and
    each goes on without: the one that writes last takes the other's record away. *)
Example First_servers_race :
  ports_of (run both_start
    ([MStart 0; MStart 2; MTry 0 false; MTry 2 false; MRead 0; MRead 2; MWrite 0 true; MWrite 2 true]
     ++ [MRename 0 true; MRename 2 true; MUnlock 0; MUnlock 2]) (new_registry [])) = Some [9002].
Proof. vm_compute. reflexivity. Qed.

(** And so does one that gave up waiting for a process that is stopped in there. *)
Example Gave_up :
  ports_of (run both_start
    ([MStart 0; MStart 2; MTry 0 true; MRead 0; MWrite 0 true] ++ replicate 201 (MTry 2 true)
     ++ goes 2 ++ [MRename 0 true; MUnlock 0]) (new_registry [])) = Some [9000].
Proof. vm_compute. reflexivity. Qed.

(** A process that dies as it writes leaves the list as it was, and the lock free. *)
Example Dies_writing :
  let g := run both_start ([MStart 0; MTry 0 true] ++ goes 0 ++ [MStart 2; MTry 2 true; MRead 2; MWrite 2 true; MDies 2])
             (new_registry []) in
  ports_of g = Some [9000] /\ (rg_holder <$> g) = Some None.
Proof. vm_compute. done. Qed.
