(* ===== verification/Runner.v ===== *)
(** * The turn runner of a server ([src/app/serve_runner.cpp], [src/app/serve_websocket.cpp])

    Two threads share a server: the worker runs one turn after another and says
    what happens in frames; the thread of the sockets attaches pages, queues
    turns and cancels them.  A step is what one of them does under one lock, so
    every interleaving of the two is a sequence of steps.  The turn itself is
    what its callbacks say and the result it returns. *)
From Stdlib Require Import Ascii.
From S2P Require Export Prelude Text Json Message Usage Agents Board Session Executor.

(** ** Data *)

(** A socket, with the frames that were posted to it, in order. *)
Record Conn := mkConn { cn_client : string; cn_closed : bool; cn_page : bool; cn_sent : list string }.

Record Job := mkJob_ {
  j_text : string; j_conn : option nat; j_origin : string; j_turn : string; j_board : string
}.

Record TurnRecord := mkTurnRecord { tr_id : string; tr_finished : bool; tr_frames : list string }.

(** What follows the last frame of a turn. *)
Inductive closing := KClose (result : ExecutionResult) | KFailed.

(** Where the worker is. *)
Inductive worker :=
  | PIdle
  | PTurn (job : Job)
  | PReturned (job : Job) (page_asked : bool) (result : ExecutionResult)
  | PSaying (job : Job) (frames : list value) (next : closing).

Record server := mkServer {
  conns : gmap nat Conn;
  attached_ : option nat;
  (** A page being attached, and the frames it is still to be handed. *)
  attaching : option (nat * list string);
  jobs_ : list Job;
  stopping_ : bool;
  running_ : bool;
  turns_ : list TurnRecord;
  cancel_token_ : option bool;
  cancel_requested_ : bool;
  worker_ : worker;
  (** A frame that is recorded and not yet posted; the page it goes to, once
      that was looked up. *)
  flight : option (string * option nat);
  board_ : option Board.Board;
}.

Definition new_server (board : option Board.Board) : server :=
  mkServer ∅ None None [] false false [] None false PIdle None board.

Definition kTurnsKept : nat := 8.

Definition set_conns (c : gmap nat Conn) (s : server) : server :=
  mkServer c (attached_ s) (attaching s) (jobs_ s) (stopping_ s) (running_ s) (turns_ s) (cancel_token_ s)
    (cancel_requested_ s) (worker_ s) (flight s) (board_ s).
Definition set_attached (a : option nat) (s : server) : server :=
  mkServer (conns s) a (attaching s) (jobs_ s) (stopping_ s) (running_ s) (turns_ s) (cancel_token_ s)
    (cancel_requested_ s) (worker_ s) (flight s) (board_ s).
Definition set_attaching (a : option (nat * list string)) (s : server) : server :=
  mkServer (conns s) (attached_ s) a (jobs_ s) (stopping_ s) (running_ s) (turns_ s) (cancel_token_ s)
    (cancel_requested_ s) (worker_ s) (flight s) (board_ s).
Definition set_jobs (j : list Job) (s : server) : server :=
  mkServer (conns s) (attached_ s) (attaching s) j (stopping_ s) (running_ s) (turns_ s) (cancel_token_ s)
    (cancel_requested_ s) (worker_ s) (flight s) (board_ s).
Definition set_stopping (b : bool) (s : server) : server :=
  mkServer (conns s) (attached_ s) (attaching s) (jobs_ s) b (running_ s) (turns_ s) (cancel_token_ s)
    (cancel_requested_ s) (worker_ s) (flight s) (board_ s).
Definition set_running (b : bool) (s : server) : server :=
  mkServer (conns s) (attached_ s) (attaching s) (jobs_ s) (stopping_ s) b (turns_ s) (cancel_token_ s)
    (cancel_requested_ s) (worker_ s) (flight s) (board_ s).
Definition set_turns (t : list TurnRecord) (s : server) : server :=
  mkServer (conns s) (attached_ s) (attaching s) (jobs_ s) (stopping_ s) (running_ s) t (cancel_token_ s)
    (cancel_requested_ s) (worker_ s) (flight s) (board_ s).
Definition set_cancel (token : option bool) (requested : bool) (s : server) : server :=
  mkServer (conns s) (attached_ s) (attaching s) (jobs_ s) (stopping_ s) (running_ s) (turns_ s) token
    requested (worker_ s) (flight s) (board_ s).
Definition set_worker (w : worker) (s : server) : server :=
  mkServer (conns s) (attached_ s) (attaching s) (jobs_ s) (stopping_ s) (running_ s) (turns_ s) (cancel_token_ s)
    (cancel_requested_ s) w (flight s) (board_ s).
Definition set_flight (f : option (string * option nat)) (s : server) : server :=
  mkServer (conns s) (attached_ s) (attaching s) (jobs_ s) (stopping_ s) (running_ s) (turns_ s) (cancel_token_ s)
    (cancel_requested_ s) (worker_ s) f (board_ s).
Definition set_board (b : option Board.Board) (s : server) : server :=
  mkServer (conns s) (attached_ s) (attaching s) (jobs_ s) (stopping_ s) (running_ s) (turns_ s) (cancel_token_ s)
    (cancel_requested_ s) (worker_ s) (flight s) b.

(** ** Frames *)

Definition frame (type_ : string) (payload : value) : value :=
  JObject [("type", JString type_); ("payload", payload)].
Definition text_frame (type_ text : string) : value := frame type_ (JObject [("text", JString text)]).

(** The [client] parameter of the target a socket was upgraded at. *)
Fixpoint client_param (fuel : nat) (rest : string) : string :=
  match fuel with
  | O => ""
  | S fuel =>
      if sempty rest then ""
      else
        let pair := match sfind "&" rest with Some e => stake e rest | None => rest end in
        if starts_with "client=" pair then sdrop 7 pair
        else match sfind "&" rest with Some e => client_param fuel (sdrop (S e) rest) | None => "" end
  end.

Definition ClientIdFromTarget (target : string) : string :=
  match sfind "?" target with
  | None => ""
  | Some q => let rest := sdrop (S q) target in client_param (S (slen rest)) rest
  end.

(** What a frame of a page asks. *)
Inductive ws_message :=
  | WsNothing
  | WsRun (text : string)
  | WsCancel
  | WsNote (note : string)
  | WsResolve (allow : bool) (note : string).

Definition HandleMessage (jv : value) : ws_message :=
  let type_ := string_or jv "type" "" in
  let payload := value_or jv "payload" (JObject []) in
  let text := string_or payload "text" "" in
  if bool_decide (type_ = "run") then (if sempty text then WsNothing else WsRun text)
  else if bool_decide (type_ = "cancel") then WsCancel
  else if bool_decide (type_ = "note") then (if sempty text then WsNothing else WsNote text)
  else if bool_decide (type_ = "resolve_approval") then WsResolve (ValueOrDefault to_bool payload "allow" false) text
  else WsNothing.

(** [OnRead]: what is no JSON is answered, what is no object is passed over. *)
Definition OnRead `{codec : JsonCodec} (parse_message text : string) : ws_message * list value :=
  match parse text with
  | None => (WsNothing, [text_frame "error" ("Invalid JSON: " +:+ parse_message)])
  | Some (JObject fields) => (HandleMessage (JObject fields), [])
  | Some _ => (WsNothing, [])
  end.

(** What a turn used, as its last answer is filed, and what the session used. *)
Definition usage_payload (s : Session.t) : res value :=
  let answers := omap (fun node => match n_payload node with Assistant _ => Some (n_id node) | _ => None end)
                   (MessageGraph.Chain (Session.conversation_ s)) in
  let usage := match last answers ≫= (fun id => UsageLedger.For id (Session.usage_ s)) with
               | Some recorded => UsageLedger.TurnToJson recorded
               | None => []
               end in
  let? total := UsageLedger.Total (Session.usage_ s) in
  Ok (JObject (obj_set "total" (JObject (UsageLedger.TotalToJson total)) usage)).

Definition error_text (result : ExecutionResult) : string :=
  if sempty (x_error_message result) then x_content result else x_error_message result.

(** The frames that end a turn. *)
Definition closing_frames (result : ExecutionResult) (s : Session.t) : res (list value) :=
  let notice := if sempty (x_notice result) then [] else [text_frame "notice" (x_notice result)] in
  let? usage := match x_usage result with
                | None => Ok []
                | Some _ => res_map (fun payload => [frame "usage" payload]) (usage_payload s)
                end in
  Ok (notice ++ usage
      ++ [if x_has_error result then text_frame "error" (error_text result)
          else if sempty (x_model result) then JObject [("type", JString "done")]
          else frame "done" (JObject [("model", JString (x_model result))])]).

Definition failed_frames (reason : string) : list value := [text_frame "error" reason; frame "done" (JObject [])].

Section Runner.
#[local] Set Default Proof Using "Type*".
Context `{codec : JsonCodec} (peers_ : option PeerConfig).

(** The wire form of a frame. *)
Definition wire_frame (v : value) : string :=
  let wire := serialize v in if IsValidUtf8 wire then wire else SanitizeUtf8 wire.

(** ** The thread of the sockets *)

Definition update_conn (c : nat) (f : Conn -> Conn) (s : server) : server := set_conns (alter f c (conns s)) s.

Definition post_to (c : nat) (text : string) (s : server) : server :=
  update_conn c (fun cn => if cn_closed cn then cn
                           else mkConn (cn_client cn) (cn_closed cn) (cn_page cn) (cn_sent cn ++ [text])) s.

Definition set_page (p : bool) (cn : Conn) : Conn := mkConn (cn_client cn) (cn_closed cn) p (cn_sent cn).

(** The last two turns. *)
Definition FramesForNextPage (s : server) : list string :=
  concat (map tr_frames (drop (length (turns_ s) - 2) (turns_ s))).

(** A live page keeps the session, unless it is the same tab that asks. *)
Definition refuses (c : nat) (s : server) : bool :=
  match attached_ s with
  | None => false
  | Some current =>
      if bool_decide (current = c) then false
      else match conns s !! current, conns s !! c with
           | Some old, Some cn =>
               negb (cn_closed old) && cn_page old
               && (sempty (cn_client cn) || negb (bool_decide (cn_client cn = cn_client old)))
           | _, _ => false
           end
  end.

(** [Attach] under its lock. *)
Definition Attach (c : nat) (s : server) : server :=
  let s := match attached_ s with
           | Some current => if bool_decide (current = c) then s else update_conn current (set_page false) s
           | None => s
           end in
  set_attaching (Some (c, FramesForNextPage s)) (set_attached (Some c) s).

(** The newest record of a turn. *)
Definition RecordOf (turn_id : string) (s : server) : option TurnRecord :=
  List.find (fun r => bool_decide (tr_id r = turn_id)) (rev (turns_ s)).

Definition RequestCancel (by_page : bool) (s : server) : server :=
  match cancel_token_ s with
  | None => s
  | Some _ => set_cancel (Some true) (by_page || cancel_requested_ s) s
  end.

Definition Detach (c : nat) (s : server) : server :=
  if bool_decide (attached_ s = Some c) then RequestCancel false (set_attached None s) else s.

(** [Finish] of a socket. *)
Definition Finish (c : nat) (s : server) : server :=
  match conns s !! c with
  | None => s
  | Some cn =>
      if cn_closed cn then s
      else Detach c (update_conn c (fun cn => mkConn (cn_client cn) true false (cn_sent cn)) s)
  end.

Definition Submit (text : string) (c : nat) (turn_id : string) (s : server) : server :=
  set_jobs (jobs_ s ++ [mkJob_ text (Some c) "" turn_id ""]) s.

Definition SubmitFromPeer (sender text job turn_id : string) (s : server) : server :=
  set_jobs (jobs_ s ++ [mkJob_ text None sender turn_id job]) s.

Definition Stop (s : server) : server :=
  if stopping_ s then s
  else let s := set_jobs [] (set_stopping true s) in
       match cancel_token_ s with Some _ => set_cancel (Some true) (cancel_requested_ s) s | None => s end.

(** ** The worker *)

Definition keep_turns (l : list TurnRecord) : list TurnRecord := drop (length l - kTurnsKept) l.

Definition on_last (f : TurnRecord -> TurnRecord) (l : list TurnRecord) : list TurnRecord :=
  match last l with Some r => removelast l ++ [f r] | None => l end.

(** [AppendFrame] under the lock of the frames. *)
Definition record_frame (v : value) (s : server) : server :=
  let text := wire_frame v in
  set_flight (Some (text, None))
    (set_turns (on_last (fun r => mkTurnRecord (tr_id r) (tr_finished r) (tr_frames r ++ [text])) (turns_ s)) s).

Definition FinishTurn (s : server) : server :=
  set_turns (on_last (fun r => mkTurnRecord (tr_id r) true (tr_frames r)) (turns_ s)) s.

(** The beginning of [RunJob]: a record, and a token of its own. *)
Definition take_job (job : Job) (s : server) : server :=
  let s := set_turns (keep_turns (turns_ s ++ [mkTurnRecord (j_turn job) false []])) s in
  match j_conn job with
  | None => if sempty (j_origin job) then set_running false s
            else set_worker (PTurn job) (set_cancel (Some false) false (set_running true s))
  | Some _ => set_worker (PTurn job) (set_cancel (Some false) false (set_running true s))
  end.

Definition page_is_here (job : Job) (s : server) : bool :=
  match j_conn job ≫= (fun c => conns s !! c) with Some cn => cn_page cn | None => false end.

Definition CloseBoardJob (job_id : string) (result : ExecutionResult) (clk : nat -> Z) (s : server)
    : server * res unit :=
  if sempty job_id then (s, Ok tt)
  else match board_ s, peers_ with
       | Some board, Some p =>
           if sempty (self_name p) then (s, Ok tt)
           else
             let close := Board.mkJobRequest (Some job_id) (Some (self_name p)) None None None
               (Some (Board.JobStateName (if x_has_error result then Board.kFailed else Board.kDone)))
               (Some (if x_has_error result then error_text result else x_content result)) None None in
             let '(board, out) := Board.Update close clk board in
             (set_board (Some board) s, match out with Ok _ => Ok tt | Throw e => Throw e | Undef => Undef end)
       | _, _ => (s, Ok tt)
       end.

(** ** Steps *)

Inductive label :=
  (** The thread of the sockets. *)
  | LConnect (c : nat) (target : string)
  | LAttach (c : nat)
  | LSendPending
  | LAttached
  | LRun (c : nat) (text turn_id : string)
  | LPeer (sender text job turn_id : string)
  | LCancel
  | LFinish (c : nat)
  | LStop
  (** The worker. *)
  | LTake
  | LSay (v : value)
  | LLook
  | LPost
  | LReturn (result : ExecutionResult)
  | LThrow (reason : string)
  | LSettle (s : Session.t)
  | LNext
  | LClose (clk : nat -> Z).

(** What the runner is told by a frame of socket [c]; the rest is the runtime's. *)
Definition message_label (c : nat) (turn_id : string) (m : ws_message) : option label :=
  match m with WsRun text => Some (LRun c text turn_id) | WsCancel => Some LCancel | _ => None end.

Definition idle_sockets (s : server) : bool := bool_decide (attaching s = None).
Definition landed (s : server) : bool := bool_decide (flight s = None).

(** The frame a step says. *)
Definition says (l : label) (s : server) : option value :=
  match l, worker_ s with
  | LSay v, _ => Some v
  | LNext, PSaying _ (v :: _) _ => Some v
  | _, _ => None
  end.

Definition sockets_step (l : label) (s : server) : option server :=
  match l with
  | LConnect c target =>
      if idle_sockets s && bool_decide (conns s !! c = None)
      then Some (set_conns (<[c := mkConn (ClientIdFromTarget target) false false []]> (conns s)) s) else None
  | LAttach c =>
      match conns s !! c with
      | Some cn =>
          if idle_sockets s && negb (cn_closed cn) && negb (cn_page cn) then
            Some (if refuses c s
                  then post_to c (serialize (text_frame "busy" "This session is already open in another page.")) s
                  else Attach c s)
          else None
      | None => None
      end
  | LSendPending =>
      match attaching s with
      | Some (c, text :: rest) =>
          Some match parse text with
               | Some v => set_attaching (Some (c, rest)) (post_to c (serialize v) s)
               | None => set_attaching None s
               end
      | _ => None
      end
  | LAttached =>
      match attaching s with
      | Some (c, []) => Some (set_attaching None (update_conn c (set_page true) s))
      | _ => None
      end
  | LRun c text turn_id => if idle_sockets s && negb (sempty text) then Some (Submit text c turn_id s) else None
  | LPeer sender text job turn_id => if idle_sockets s then Some (SubmitFromPeer sender text job turn_id s) else None
  | LCancel => if idle_sockets s then Some (RequestCancel true s) else None
  | LFinish c => if idle_sockets s then Some (Finish c s) else None
  | LStop => if idle_sockets s then Some (Stop s) else None
  | _ => None
  end.

Definition worker_step (l : label) (s : server) : option server :=
  match l, worker_ s with
  | LTake, PIdle =>
      match jobs_ s with job :: rest => Some (take_job job (set_jobs rest s)) | [] => None end
  | LSay v, PTurn _ => if landed s then Some (record_frame v s) else None
  | LLook, _ =>
      match flight s with
      | Some (text, None) =>
          Some (set_flight match attached_ s with
                           | Some c => match conns s !! c with
                                       | Some cn => if cn_closed cn then None else Some (text, Some c)
                                       | None => None
                                       end
                           | None => None
                           end s)
      | _ => None
      end
  | LPost, _ =>
      match flight s with
      | Some (text, Some c) => Some (set_flight None (post_to c text s))
      | _ => None
      end
  | LReturn result, PTurn job =>
      if landed s
      then Some (set_worker (PReturned job (cancel_requested_ s) result) (set_cancel (cancel_token_ s) false s))
      else None
  | LThrow reason, PTurn job =>
      if landed s then Some (set_worker (PSaying job (failed_frames reason) KFailed) (set_running false s)) else None
  | LSettle session, PReturned job page_asked result =>
      let cancelled := bool_decide (cancel_token_ s = Some true) in
      let s := set_cancel None (cancel_requested_ s) s in
      if cancelled && (negb page_asked || negb (page_is_here job s)) then
        Some (set_worker PIdle (FinishTurn (set_running false s)))
      else
        match closing_frames result session with
        | Ok frames => Some (set_worker (PSaying job frames (KClose result)) s)
        | _ => None
        end
  | LNext, PSaying job (v :: frames) next =>
      if landed s then Some (set_worker (PSaying job frames next) (record_frame v s)) else None
  | LClose clk, PSaying job [] (KClose result) =>
      if landed s then
        match CloseBoardJob (j_board job) result clk s with
        | (s, Ok _) => Some (set_worker PIdle (FinishTurn (set_running false s)))
        | (s, Throw e) => Some (set_worker (PSaying job (failed_frames (what e)) KFailed) (set_running false s))
        | (_, Undef) => None
        end
      else None
  | LClose clk, PSaying job [] KFailed =>
      if landed s then
        match CloseBoardJob (j_board job) no_execution clk (FinishTurn s) with
        | (s, Ok _) | (s, Throw _) => Some (set_worker PIdle s)
        | (_, Undef) => None
        end
      else None
  | _, _ => None
  end.

Definition step (l : label) (s : server) : option server :=
  match sockets_step l s with Some s' => Some s' | None => worker_step l s end.

Fixpoint run_steps (l : list label) (s : server) : option server :=
  match l with [] => Some s | x :: l => s ← step x s; run_steps l s end.

(** What any interleaving leads to, as long as the frames said can be read back. *)
Inductive reachable (board : option Board.Board) : server -> Prop :=
  | reach_new : reachable board (new_server board)
  | reach_step l s s' :
      reachable board s -> (forall v, says l s = Some v -> parse (wire_frame v) <> None) -> step l s = Some s' ->
      reachable board s'.

(** ** No frame is missed *)

Definition last_frames (s : server) : list string :=
  match last (turns_ s) with Some r => tr_frames r | None => [] end.

(** A frame reached a page as it was said, or as the record of it is read. *)
Definition delivered (cn : Conn) (text : string) : Prop :=
  text ∈ cn_sent cn \/ exists v, parse text = Some v /\ serialize v ∈ cn_sent cn.

(** Every frame of the turn in flight reached the attached page, or is about to. *)
Definition on_its_way (s : server) (c : nat) (cn : Conn) (text : string) : Prop :=
  delivered cn text \/ (exists rest, attaching s = Some (c, rest) /\ text ∈ rest)
  \/ flight s = Some (text, None) \/ flight s = Some (text, Some c).

Record server_ok (s : server) : Prop := {
  so_attached c : attached_ s = Some c -> is_Some (conns s !! c);
  so_page c cn : conns s !! c = Some cn -> cn_page cn = true -> attached_ s = Some c /\ cn_closed cn = false;
  so_attaching c rest : attaching s = Some (c, rest) ->
    attached_ s = Some c /\ forall cn, conns s !! c = Some cn -> cn_closed cn = false;
  so_rest c rest : attaching s = Some (c, rest) -> Forall (fun text => parse text <> None) rest;
  so_frames r : r ∈ turns_ s -> Forall (fun text => parse text <> None) (tr_frames r);
  so_turns : (length (turns_ s) <= kTurnsKept)%nat;
  so_way c cn text : attached_ s = Some c -> conns s !! c = Some cn -> cn_closed cn = false ->
    text ∈ last_frames s -> on_its_way s c cn text;
}.

(** What of a server the pages see. *)
Definition view (s : server) :=
  (conns s, attached_ s, attaching s, turns_ s, flight s).

Lemma view_ok s s' : view s' = view s -> server_ok s -> server_ok s'.
Proof.
  intros [= H1 H2 H3 H4 H5] [A B C D E F G]. unfold last_frames, on_its_way in *.
  split; unfold last_frames, on_its_way; rewrite ?H1, ?H2, ?H3, ?H4, ?H5; assumption.
Qed.

Lemma RequestCancel_view b s : view (RequestCancel b s) = view s.
Proof. unfold RequestCancel. by destruct (cancel_token_ s). Qed.

Lemma Stop_view s : view (Stop s) = view s.
Proof. unfold Stop. destruct (stopping_ s); [done|]. cbn. by destruct (cancel_token_ s). Qed.

(** *** Posting *)

Lemma update_conn_lookup c f s k :
  conns (update_conn c f s) !! k = if decide (k = c) then f <$> conns s !! k else conns s !! k.
Proof.
  unfold update_conn. cbn. case_decide as H; [subst; by rewrite lookup_alter_eq|by rewrite lookup_alter_ne].
Qed.

(** What posting leaves of every socket. *)
Lemma post_to_lookup c text s k cn' :
  conns (post_to c text s) !! k = Some cn' ->
  exists cn, conns s !! k = Some cn /\ cn_closed cn' = cn_closed cn /\ cn_page cn' = cn_page cn
    /\ (forall t, t ∈ cn_sent cn -> t ∈ cn_sent cn')
    /\ (k = c -> cn_closed cn = false -> text ∈ cn_sent cn').
Proof.
  unfold post_to. rewrite update_conn_lookup. case_decide as Hk.
  - intros (cn & -> & Hcn)%fmap_Some. exists cn. split; [done|]. destruct (cn_closed cn) eqn:Ec; rewrite Hcn.
    + split_and!; [done|done|done|]. intros _ ?. congruence.
    + cbn. split_and!; [done|done| |]; intros; apply elem_of_app; [by left|right; by apply list_elem_of_singleton].
  - intros H. exists cn'. split_and!; try done.
Qed.

Lemma post_to_is_Some c text s k : is_Some (conns s !! k) -> is_Some (conns (post_to c text s) !! k).
Proof. unfold post_to. rewrite update_conn_lookup. case_decide; [by rewrite fmap_is_Some|done]. Qed.

Lemma delivered_more cn cn' text :
  (forall t, t ∈ cn_sent cn -> t ∈ cn_sent cn') -> delivered cn text -> delivered cn' text.
Proof. intros H [Ht|(v & Hv & Ht)]; [left; auto|right; exists v; auto]. Qed.

(** Posting anything keeps the server well formed. *)
Lemma post_to_ok c text s : server_ok s -> server_ok (post_to c text s).
Proof.
  intros [A B C D E F G]. split; try assumption.
  - intros k Hk. by apply post_to_is_Some, A.
  - intros k cn' Hk Hp. destruct (post_to_lookup _ _ _ _ _ Hk) as (cn & H1 & -> & H3 & _). rewrite H3 in Hp. by apply B.
  - intros k rest Hr. destruct (C k rest Hr) as [Hk Ho]. split; [exact Hk|]. intros cn' Hcn.
    destruct (post_to_lookup _ _ _ _ _ Hcn) as (cn & H1 & -> & _). by apply Ho.
  - intros k cn' t Hk Hcn Hcl Ht. destruct (post_to_lookup _ _ _ _ _ Hcn) as (cn & H1 & H2 & _ & H4 & _).
    rewrite H2 in Hcl. destruct (G k cn t Hk H1 Hcl Ht) as [Hd|Hr]; [left; by eapply delivered_more|by right].
Qed.

(** *** The thread of the sockets *)

Lemma connect_ok c client s :
  conns s !! c = None -> server_ok s ->
  server_ok (set_conns (<[c := mkConn client false false []]> (conns s)) s).
Proof.
  intros Hc [A B C D E F G]. split; try assumption; cbn [set_conns conns attached_].
  - intros k Hk. destruct (decide (k = c)) as [->|]; [by rewrite lookup_insert_eq|]. rewrite lookup_insert_ne by done. auto.
  - intros k cn Hk Hp. destruct (decide (k = c)) as [->|];
      [rewrite lookup_insert_eq in Hk; by simplify_eq|rewrite lookup_insert_ne in Hk by done; by apply B].
  - intros k rest Hr. destruct (C k rest Hr) as [Hk Ho]. split; [exact Hk|]. intros cn.
    destruct (A k Hk) as [cn0 H0]. rewrite lookup_insert_ne by congruence. apply Ho.
  - intros k cn t Hk Hcn. destruct (decide (k = c)) as [->|].
    + destruct (A c Hk) as [? ?]. congruence.
    + rewrite lookup_insert_ne in Hcn by done. by apply G.
Qed.

Lemma last_frames_pending s text : text ∈ last_frames s -> text ∈ FramesForNextPage s.
Proof.
  unfold last_frames, FramesForNextPage. intros H. destruct (last (turns_ s)) as [r|] eqn:El; [|by apply elem_of_nil in H].
  apply last_Some in El as [l ->]. apply list_elem_of_In, in_concat. exists (tr_frames r).
  split; [|by apply list_elem_of_In]. apply in_map, list_elem_of_In. rewrite length_app. cbn [length].
  rewrite drop_app_le by lia. apply elem_of_app. right. by apply list_elem_of_singleton.
Qed.

Lemma pending_read s :
  (forall r, r ∈ turns_ s -> Forall (fun text => parse text <> None) (tr_frames r)) ->
  Forall (fun text => parse text <> None) (FramesForNextPage s).
Proof.
  intros H. apply Forall_forall. intros text Ht. unfold FramesForNextPage in Ht.
  apply list_elem_of_In, in_concat in Ht as (l & Hl & Ht). apply in_map_iff in Hl as (r & <- & Hr).
  apply list_elem_of_In in Hr. assert (Hr' : r ∈ turns_ s) by (eapply subseteq_drop; exact Hr).
  apply H in Hr'. rewrite Forall_forall in Hr'. by apply Hr', list_elem_of_In.
Qed.

Lemma Attach_ok c s cnc :
  conns s !! c = Some cnc -> cn_closed cnc = false -> attaching s = None -> server_ok s -> server_ok (Attach c s).
Proof.
  intros Hc Hopen Hi [A B C D E F G].
  set (s1 := match attached_ s with
             | Some current => if bool_decide (current = c) then s else update_conn current (set_page false) s
             | None => s end).
  assert (H1 : turns_ s1 = turns_ s /\ FramesForNextPage s1 = FramesForNextPage s)
    by (unfold s1; destruct (attached_ s); [case_bool_decide|]; split; reflexivity).
  assert (Hk : forall k, is_Some (conns s !! k) -> is_Some (conns s1 !! k)).
  { intros k. unfold s1. destruct (attached_ s) as [cur|]; [|done]. case_bool_decide; [done|].
    rewrite update_conn_lookup. case_decide; [by rewrite fmap_is_Some|done]. }
  assert (Hpage : forall k cn, conns s1 !! k = Some cn -> cn_page cn = true -> k = c /\ cn_closed cn = false).
  { intros k cn. unfold s1. destruct (attached_ s) as [cur|] eqn:Ea.
    - case_bool_decide as Hcur.
      + intros Hcn Hp. destruct (B _ _ Hcn Hp) as [[= <-] ?]. done.
      + rewrite update_conn_lookup. case_decide as Hkc.
        * intros (cn0 & _ & ->)%fmap_Some. done.
        * intros Hcn Hp. destruct (B _ _ Hcn Hp) as [[= <-] _]. done.
    - intros Hcn Hp. by destruct (B _ _ Hcn Hp). }
  assert (Ho : forall cn, conns s1 !! c = Some cn -> cn_closed cn = false).
  { intros cn. unfold s1. destruct (attached_ s); [case_bool_decide|]; try congruence.
    rewrite update_conn_lookup, decide_False by done. congruence. }
  destruct H1 as [Ht Hf]. change (Attach c s) with (set_attaching (Some (c, FramesForNextPage s1)) (set_attached (Some c) s1)).
  rewrite Hf. split; cbn [set_attaching set_attached conns attached_ attaching turns_]; rewrite ?Ht.
  - intros k [= <-]. apply Hk. by exists cnc.
  - intros k cn Hcn Hp. by destruct (Hpage _ _ Hcn Hp) as [-> ?].
  - intros k rest [= <- _]. by split.
  - intros k rest [= _ <-]. by apply pending_read.
  - exact E.
  - exact F.
  - intros k cn t [= <-] Hcn Hcl Hlast. right. left. eexists. split; [reflexivity|].
    apply last_frames_pending. unfold last_frames in *. cbn in Hlast. by rewrite Ht in Hlast.
Qed.

Lemma send_pending_ok c text rest v s :
  attaching s = Some (c, text :: rest) -> parse text = Some v -> server_ok s ->
  server_ok (set_attaching (Some (c, rest)) (post_to c (serialize v) s)).
Proof.
  intros Ha Hv Hs. pose proof (post_to_ok c (serialize v) s Hs) as [A B C D E F G].
  destruct Hs as [A0 _ C0 D0 _ _ G0]. destruct (C0 _ _ Ha) as [C1 _].
  split; try assumption; cbn [set_attaching attaching conns attached_].
  - intros k l [= <- <-]. exact (C _ _ Ha).
  - intros k l [= <- <-]. specialize (D0 _ _ Ha). by apply Forall_cons in D0 as [_ D0].
  - intros k cn t Hk Hcn Hcl Ht.
    destruct (post_to_lookup _ _ _ _ _ Hcn) as (cn0 & H1 & H2 & _ & H3 & H4). rewrite H2 in Hcl.
    assert (Hkc : k = c) by (change (attached_ s = Some k) in Hk; congruence). subst k.
    destruct (G0 c cn0 t Hk H1 Hcl Ht) as [Hd|[(l & Hl & Hin)|Hf]].
    + left. by eapply delivered_more.
    + rewrite Ha in Hl. injection Hl as <-. apply elem_of_cons in Hin as [->|Hin].
      * left. right. exists v. split; [done|]. by apply H4.
      * right. left. by exists rest.
    + by right; right.
Qed.

Lemma attached_ok c s :
  attaching s = Some (c, []) -> server_ok s ->
  server_ok (set_attaching None (update_conn c (set_page true) s)).
Proof.
  intros Ha [A B C D E F G]. destruct (C _ _ Ha) as [Hc Hopen].
  split; try assumption; cbn [set_attaching attaching attached_ conns]; try done.
  - intros k Hk. rewrite update_conn_lookup. case_decide; [rewrite fmap_is_Some|]; auto.
  - intros k cn. rewrite update_conn_lookup. case_decide as Hkc.
    + intros (cn0 & H0 & ->)%fmap_Some _. subst. cbn. auto.
    + apply B.
  - intros k cn t Hk. rewrite update_conn_lookup. cbn in Hk.
    assert (k = c) as -> by congruence. rewrite decide_True by done. intros (cn0 & H0 & ->)%fmap_Some Hcl Ht.
    destruct (G c cn0 t Hk H0 Hcl Ht) as [Hd|[(l & Hl & Hin)|Hf]]; [by left| |by right; right].
    rewrite Ha in Hl. injection Hl as <-. by apply elem_of_nil in Hin.
Qed.

Lemma Finish_ok c s : attaching s = None -> server_ok s -> server_ok (Finish c s).
Proof.
  intros Hi Hs. unfold Finish. destruct (conns s !! c) as [cn0|] eqn:Ec; [|done]. destruct (cn_closed cn0); [done|].
  set (s1 := update_conn c _ s). unfold Detach. destruct Hs as [A B C D E F G].
  assert (Hl : forall k cn, conns s1 !! k = Some cn ->
    if decide (k = c) then cn_closed cn = true /\ cn_page cn = false else conns s !! k = Some cn).
  { intros k cn. unfold s1. rewrite update_conn_lookup. case_decide; [|done]. by intros (cn1 & _ & ->)%fmap_Some. }
  assert (Hin : forall k, is_Some (conns s !! k) -> is_Some (conns s1 !! k)).
  { intros k. unfold s1. rewrite update_conn_lookup. case_decide; [by rewrite fmap_is_Some|done]. }
  change (attached_ s1) with (attached_ s). case_bool_decide as Ha.
  - eapply view_ok; [apply RequestCancel_view|].
    split; try done; cbn [set_attached attached_ conns attaching].
    + intros k cn Hk Hp. apply Hl in Hk. case_decide; [destruct Hk; congruence|]. destruct (B _ _ Hk Hp). congruence.
    + intros k rest Hr. change (attaching s1) with (attaching s) in Hr. congruence.
  - split; try assumption.
    + intros k Hk. by apply Hin, A.
    + intros k cn Hk Hp. apply Hl in Hk. case_decide; [destruct Hk; congruence|]. by apply B.
    + intros k rest Hr. change (attaching s1) with (attaching s) in Hr. congruence.
    + intros k cn t Hk Hcn Hcl Ht. apply Hl in Hcn. case_decide; [destruct Hcn; congruence|]. by apply G.
Qed.

(** A step of the sockets' thread. *)
Lemma sockets_ok l s s' : sockets_step l s = Some s' -> server_ok s -> server_ok s'.
Proof.
  intros Hstep Hs. destruct l; cbn [sockets_step] in Hstep; try discriminate.
  - destruct (idle_sockets s); cbn in Hstep; [|done]. case_bool_decide; [|done]. injection Hstep as <-.
    by apply connect_ok.
  - destruct (conns s !! c) as [cn|] eqn:Ec; [|done]. unfold idle_sockets in Hstep. case_bool_decide; [|done].
    destruct (cn_closed cn) eqn:Ecl, (cn_page cn); try done. cbn in Hstep. injection Hstep as <-.
    destruct (refuses c s); [by apply post_to_ok|by eapply Attach_ok].
  - destruct (attaching s) as [[c [|text rest]]|] eqn:Ea; try done. destruct (parse text) as [v|] eqn:Ep.
    + injection Hstep as <-. by eapply send_pending_ok.
    + destruct Hs as [_ _ _ D _ _ _]. specialize (D _ _ Ea). by apply Forall_cons in D as [D _].
  - destruct (attaching s) as [[c [|text rest]]|] eqn:Ea; try done. injection Hstep as <-. by eapply attached_ok.
  - destruct (idle_sockets s && negb (sempty text)); [|done]. injection Hstep as <-. by apply (view_ok s).
  - destruct (idle_sockets s); [|done]. injection Hstep as <-. by apply (view_ok s).
  - destruct (idle_sockets s); [|done]. injection Hstep as <-. by apply (view_ok s); [apply RequestCancel_view|].
  - unfold idle_sockets in Hstep. case_bool_decide; [|done]. injection Hstep as <-. by apply Finish_ok.
  - destruct (idle_sockets s); [|done]. injection Hstep as <-. by apply (view_ok s); [apply Stop_view|].
Qed.

(** *** The worker *)

Lemma last_keep l r : last (keep_turns (l ++ [r])) = Some r.
Proof.
  unfold keep_turns. rewrite length_app. cbn [length]. rewrite drop_app_le by (unfold kTurnsKept; lia). by rewrite last_snoc.
Qed.

Lemma on_last_length f l : length (on_last f l) = length l.
Proof.
  unfold on_last. destruct (last l) as [r|] eqn:E; [|done]. apply last_Some in E as [l' ->].
  rewrite removelast_last, !length_app. done.
Qed.

Lemma on_last_elem f l r : r ∈ on_last f l -> r ∈ l \/ exists r0, last l = Some r0 /\ r = f r0.
Proof.
  unfold on_last. destruct (last l) as [r0|] eqn:E; [|by left]. pose proof E as E'. apply last_Some in E as [l' ->].
  rewrite removelast_last. intros [H|H%list_elem_of_singleton]%elem_of_app; [left; apply elem_of_app; by left|].
  right. by exists r0.
Qed.

Lemma on_last_last f l : last (on_last f l) = f <$> last l.
Proof. unfold on_last. destruct (last l) as [r|] eqn:E; [by rewrite last_snoc|by rewrite E]. Qed.

Lemma take_job_view job s :
  view (take_job job s) = view (set_turns (keep_turns (turns_ s ++ [mkTurnRecord (j_turn job) false []])) s).
Proof. unfold take_job. destruct (j_conn job); [done|]. by destruct (sempty (j_origin job)). Qed.

Lemma take_job_ok job s : server_ok s -> server_ok (take_job job s).
Proof.
  intros [A B C D E F G]. eapply view_ok; [apply take_job_view|].
  split; try assumption; cbn [set_turns turns_].
  - intros r Hr. eapply subseteq_drop in Hr. apply elem_of_app in Hr as [Hr|Hr%list_elem_of_singleton]; [by apply E|].
    subst. constructor.
  - unfold keep_turns. rewrite length_drop. lia.
  - intros c cn t _ _ _ Ht. unfold last_frames in Ht. cbn [set_turns turns_] in Ht. rewrite last_keep in Ht.
    by apply elem_of_nil in Ht.
Qed.

Lemma record_frame_ok v s :
  parse (wire_frame v) <> None -> landed s = true -> server_ok s -> server_ok (record_frame v s).
Proof.
  intros Hv Hl [A B C D E F G]. unfold landed in Hl. apply bool_decide_eq_true in Hl.
  split; try assumption; cbn [record_frame set_flight set_turns turns_ flight].
  - intros r [Hr|(r0 & Hr & ->)]%on_last_elem; [by apply E|]. cbn. apply Forall_app. split; [|by constructor].
    apply E. apply last_Some in Hr as [l ->]. apply elem_of_app. right. by apply list_elem_of_singleton.
  - rewrite on_last_length. exact F.
  - intros c cn t Hc Hcn Hcl Ht. unfold last_frames in Ht. cbn [record_frame set_flight set_turns turns_] in Ht.
    rewrite on_last_last in Ht. destruct (last (turns_ s)) as [r|] eqn:El; [|by apply elem_of_nil in Ht].
    cbn in Ht. apply elem_of_app in Ht as [Ht|Ht%list_elem_of_singleton].
    + assert (Hin : t ∈ last_frames s) by (unfold last_frames; by rewrite El).
      destruct (G c cn t Hc Hcn Hcl Hin) as [Hd|[Ha|[Hf|Hf]]]; [by left|by right; left|congruence..].
    + subst t. right. right. left. reflexivity.
Qed.

Lemma look_ok text s :
  flight s = Some (text, None) -> server_ok s ->
  server_ok (set_flight match attached_ s with
                        | Some c => match conns s !! c with
                                    | Some cn => if cn_closed cn then None else Some (text, Some c)
                                    | None => None
                                    end
                        | None => None
                        end s).
Proof.
  intros Hf [A B C D E F G]. split; try assumption.
  intros c cn t Hc Hcn Hcl Ht. cbn in Hc, Hcn. rewrite Hc, Hcn, Hcl.
  destruct (G c cn t Hc Hcn Hcl Ht) as [Hd|[Ha|[Hg|Hg]]]; [by left|by right; left| |]; rewrite Hf in Hg; [|done].
  injection Hg as ->. right. right. by right.
Qed.

Lemma land_ok text c s : flight s = Some (text, Some c) -> server_ok s -> server_ok (set_flight None (post_to c text s)).
Proof.
  intros Hf Hs. pose proof (post_to_ok c text s Hs) as [A B C D E F _]. destruct Hs as [_ _ _ _ _ _ G].
  split; try assumption. intros k cn' t Hk Hcn Hcl Ht.
  destruct (post_to_lookup _ _ _ _ _ Hcn) as (cn & H1 & H2 & _ & H3 & H4). rewrite H2 in Hcl.
  destruct (G k cn t Hk H1 Hcl Ht) as [Hd|[Ha|[Hg|Hg]]]; [left; by eapply delivered_more|by right; left| |];
    rewrite Hf in Hg; [done|]. injection Hg as -> ->. left. left. by apply H4.
Qed.

Lemma FinishTurn_ok s : server_ok s -> server_ok (FinishTurn s).
Proof.
  intros [A B C D E F G]. split; try assumption; cbn [FinishTurn set_turns turns_].
  - intros r [Hr|(r0 & Hr & ->)]%on_last_elem; [by apply E|]. cbn. apply E. apply last_Some in Hr as [l ->].
    apply elem_of_app. right. by apply list_elem_of_singleton.
  - rewrite on_last_length. exact F.
  - intros c cn t Hc Hcn Hcl Ht. apply G; try assumption. unfold last_frames in *. cbn [FinishTurn set_turns turns_] in Ht.
    rewrite on_last_last in Ht. by destruct (last (turns_ s)).
Qed.

Lemma CloseBoardJob_view i r clk s : view (CloseBoardJob i r clk s).1 = view s.
Proof.
  unfold CloseBoardJob. destruct (sempty i); [done|]. destruct (board_ s), peers_; try done.
  destruct (sempty _); [done|]. by destruct (Board.Update _ _ _).
Qed.

(** A step of the worker. *)
Lemma worker_ok l s s' :
  worker_step l s = Some s' -> (forall v, says l s = Some v -> parse (wire_frame v) <> None) ->
  server_ok s -> server_ok s'.
Proof.
  intros Hstep Hsays Hs. unfold worker_step in Hstep.
  destruct l; try (destruct (worker_ s); discriminate); destruct (worker_ s) as [|job|job asked res|job frames next] eqn:Ew;
    try discriminate.
  all: repeat match type of Hstep with
    | (if landed ?x then _ else _) = _ => destruct (landed x) eqn:El; [|done]
    | match flight ?x with _ => _ end = _ => destruct (flight x) as [[text [c|]]|] eqn:Ef; try done
    end.
  all: try (injection Hstep as <-).
  all: try solve [by apply look_ok | by apply land_ok | by apply (view_ok s)
    | apply record_frame_ok; [by apply Hsays|done|done] ].
  - destruct (jobs_ s) as [|job rest]; [done|]. injection Hstep as <-. apply take_job_ok. by apply (view_ok s).
  - destruct (_ && _).
    + injection Hstep as <-. eapply (view_ok (FinishTurn s)); [reflexivity|]. by apply FinishTurn_ok.
    + destruct (closing_frames res s0) as [frames| |]; try done. injection Hstep as <-. by apply (view_ok s).
  - destruct frames as [|v frames]; [done|]. destruct (landed s) eqn:El; [|done]. injection Hstep as <-.
    apply (view_ok (record_frame v s)); [done|]. apply record_frame_ok; try done. apply Hsays. cbn. by rewrite Ew.
  - destruct frames as [|v frames]; [|done]. destruct (landed s); [|by destruct next]. destruct next as [result|].
    + pose proof (CloseBoardJob_view (j_board job) result clk s) as Hv.
      destruct (CloseBoardJob _ _ _ _) as [s1 [u|e|]]; cbn in Hv; try done; injection Hstep as <-.
      * apply (view_ok (FinishTurn s1)); [done|]. apply FinishTurn_ok. by apply (view_ok s).
      * by apply (view_ok s).
    + pose proof (CloseBoardJob_view (j_board job) no_execution clk (FinishTurn s)) as Hv.
      destruct (CloseBoardJob _ _ _ _) as [s1 [u|e|]]; cbn in Hv; try done; injection Hstep as <-;
        (apply (view_ok (FinishTurn s)); [done|by apply FinishTurn_ok]).
Qed.

Lemma new_server_ok board : server_ok (new_server board).
Proof.
  split; cbn; try done.
  - intros r Hr. by apply elem_of_nil in Hr.
  - unfold kTurnsKept. lia.
Qed.

Lemma step_ok l s s' :
  step l s = Some s' -> (forall v, says l s = Some v -> parse (wire_frame v) <> None) -> server_ok s -> server_ok s'.
Proof.
  unfold step. intros Hstep Hsays Hs.
  destruct (sockets_step l s) as [s1|] eqn:E; [injection Hstep as <-; by eapply sockets_ok|by eapply worker_ok].
Qed.

(** Every state of a server is well formed. *)
Lemma server_reachable_ok board s : reachable board s -> server_ok s.
Proof. induction 1 as [|l s s' _ IH Hsays Hstep]; [apply new_server_ok|by eapply step_ok]. Qed.

(** *** The worker finishes *)

Definition busy (s : server) : Prop := worker_ s <> PIdle -> turns_ s <> [].

Lemma on_last_nonempty f l : l <> [] -> on_last f l <> [].
Proof. intros H E. apply H, length_zero_iff_nil. by rewrite <- (on_last_length f), E. Qed.

Lemma RequestCancel_busy b s : turns_ (RequestCancel b s) = turns_ s /\ worker_ (RequestCancel b s) = worker_ s.
Proof. unfold RequestCancel. by destruct (cancel_token_ s). Qed.

Lemma sockets_busy l s s' : sockets_step l s = Some s' -> turns_ s' = turns_ s /\ worker_ s' = worker_ s.
Proof.
  intros Hstep. destruct l; cbn [sockets_step] in Hstep; try discriminate.
  all: repeat match type of Hstep with
    | (if ?b then _ else _) = _ => destruct b; [|done]
    | match ?x with _ => _ end = _ => destruct x; try done
    end.
  all: injection Hstep as <-; try done.
  - destruct (refuses c s); [done|]. unfold Attach. destruct (attached_ s); [case_bool_decide|]; done.
  - by destruct (parse _).
  - apply RequestCancel_busy.
  - unfold Finish. destruct (conns s !! c) as [cn|]; [|done]. destruct (cn_closed cn); [done|]. unfold Detach.
    case_bool_decide; [|done].
    match goal with |- context [RequestCancel false ?x] => exact (RequestCancel_busy false x) end.
  - unfold Stop. destruct (stopping_ s); [done|]. cbn. by destruct (cancel_token_ s).
Qed.

Lemma keep_nonempty l r : keep_turns (l ++ [r]) <> [].
Proof. intros E. pose proof (last_keep l r) as H. by rewrite E in H. Qed.

(** Only an idle worker can be without the record of a turn. *)
Lemma reachable_busy board s : reachable board s -> busy s.
Proof.
  induction 1 as [|l s s' _ IH _ Hstep]; [by intros Hw|]. unfold step in Hstep.
  destruct (sockets_step l s) as [s1|] eqn:E.
  { injection Hstep as <-. apply sockets_busy in E as [Ht Hw]. unfold busy. by rewrite Ht, Hw. }
  clear E. unfold worker_step in Hstep.
  destruct l; try (destruct (worker_ s); discriminate).
  all: destruct (worker_ s) as [|job|job asked res|job frames next] eqn:Ew; try discriminate.
  all: repeat match type of Hstep with
    | (if ?b then _ else _) = _ => destruct b; try done
    | (let cancelled := _ in _) = _ => cbv zeta in Hstep
    | match ?x with _ => _ end = _ => destruct x eqn:?; try done
    end.
  all: injection Hstep as <-; unfold busy in *; cbn; try done.
  all: try (intros _; try apply on_last_nonempty; apply IH; congruence).
  - intros _. unfold take_job. pose proof (keep_nonempty (turns_ s) (mkTurnRecord (j_turn j) false [])).
    destruct (j_conn j); [done|]. by destruct (sempty (j_origin j)).
  - intros _. match goal with Hc : CloseBoardJob _ _ _ _ = _ |- _ => pose proof (CloseBoardJob_view (j_board job) result clk s) as Hv;
      rewrite Hc in Hv end. injection Hv as _ _ _ -> _. apply IH. congruence.
Qed.

(** What a frame on its way leaves alone. *)
Definition says_only (s s' : server) : Prop :=
  worker_ s' = worker_ s /\ turns_ s' = turns_ s /\ board_ s' = board_ s /\ running_ s' = running_ s
  /\ cancel_token_ s' = cancel_token_ s /\ flight s' = None.

(** A recorded frame lands, on the page or nowhere. *)
Lemma lands s text :
  flight s = Some (text, None) ->
  exists labels s', Forall (fun l => l = LLook \/ l = LPost) labels /\ run_steps labels s = Some s' /\ says_only s s'.
Proof.
  intros Hf. set (s1 := set_flight match attached_ s with
                           | Some c => match conns s !! c with
                                       | Some cn => if cn_closed cn then None else Some (text, Some c)
                                       | None => None
                                       end
                           | None => None
                           end s).
  assert (Hlook : step LLook s = Some s1) by (unfold step, worker_step; cbn; by rewrite Hf).
  destruct (flight s1) as [[t [c|]]|] eqn:E1.
  - exists [LLook; LPost], (set_flight None (post_to c t s1)). split; [by repeat constructor; auto|].
    split; [|done]. cbn [run_steps]. rewrite Hlook. cbn [mbind option_bind]. unfold step, worker_step. cbn [sockets_step].
    by rewrite E1.
  - exfalso. revert E1. unfold s1. cbn. destruct (attached_ s); [|done]. destruct (conns s !! _) as [cn|]; [|done].
    by destruct (cn_closed cn).
  - exists [LLook], s1. split; [by repeat constructor; auto|]. split; [cbn [run_steps]; by rewrite Hlook|done].
Qed.

Lemma run_steps_app l1 l2 s : run_steps (l1 ++ l2) s = (s1 ← run_steps l1 s; run_steps l2 s1).
Proof. revert s. induction l1 as [|x l1 IH]; intros s; [done|]. cbn. by destruct (step x s); cbn. Qed.

(** The worker says all it has to say. *)
Lemma says_all frames : forall s job next r,
  worker_ s = PSaying job frames next -> flight s = None -> last (turns_ s) = Some r ->
  exists labels s', Forall (fun l => l = LNext \/ l = LLook \/ l = LPost) labels /\ run_steps labels s = Some s'
    /\ worker_ s' = PSaying job [] next /\ flight s' = None /\ board_ s' = board_ s /\ running_ s' = running_ s
    /\ cancel_token_ s' = cancel_token_ s
    /\ last (turns_ s') = Some (mkTurnRecord (tr_id r) (tr_finished r) (tr_frames r ++ map wire_frame frames)).
Proof.
  induction frames as [|v frames IH]; intros s job next r Hw Hf Hl.
  { exists [], s. split_and!; try done. cbn. rewrite app_nil_r. by destruct r. }
  set (s1 := set_worker (PSaying job frames next) (record_frame v s)).
  assert (Hnext : step LNext s = Some s1) by (unfold step, worker_step, landed; cbn; by rewrite Hw, Hf).
  destruct (lands s1 (wire_frame v) eq_refl) as (l1 & s2 & HF1 & Hr1 & Hw2 & Ht2 & Hb2 & Hrun2 & Hc2 & Hf2).
  assert (Hl2 : last (turns_ s2) = Some (mkTurnRecord (tr_id r) (tr_finished r) (tr_frames r ++ [wire_frame v]))).
  { rewrite Ht2. cbn. rewrite on_last_last. by rewrite Hl. }
  change (board_ s1) with (board_ s) in Hb2. change (running_ s1) with (running_ s) in Hrun2.
  change (cancel_token_ s1) with (cancel_token_ s) in Hc2.
  destruct (IH s2 job next _ Hw2 Hf2 Hl2) as (l2 & s3 & HF2 & Hr2 & Hw3 & Hf3 & Hb3 & Hrun3 & Hc3 & Hl3).
  exists ((LNext :: l1) ++ l2), s3. split_and!; try congruence.
  - apply Forall_app. split; [|done]. constructor; [auto|]. by eapply Forall_impl; [exact HF1|]; auto.
  - rewrite run_steps_app. cbn [run_steps]. rewrite Hnext. cbn [mbind option_bind]. by rewrite Hr1.
  - rewrite Hl3. cbn. by rewrite <- app_assoc.
Qed.

Lemma Update_defined request clk b : (Board.Update request clk b).2 <> Undef.
Proof. by destruct (Board.Update_run request clk b) as [(e & -> & _)|(k & it & it' & _ & _ & _ & _ & _ & _ & ->)]. Qed.

Lemma CloseBoardJob_defined i r clk s : (CloseBoardJob i r clk s).2 <> Undef.
Proof.
  unfold CloseBoardJob. destruct (sempty i); [done|]. destruct (board_ s), peers_; try done.
  destruct (sempty _); [done|]. pose proof (Update_defined (Board.mkJobRequest (Some i) (Some (self_name p)) None None None
               (Some (Board.JobStateName (if x_has_error r then Board.kFailed else Board.kDone)))
               (Some (if x_has_error r then error_text r else x_content r)) None None) clk b) as H.
  destruct (Board.Update _ _ _) as [b' [?|?|]]; cbn in *; congruence.
Qed.

Lemma CloseBoardJob_performs i r clk s :
  board_ (CloseBoardJob i r clk s).1 = board_ s
  \/ exists rq b, board_ s = Some b /\ board_ (CloseBoardJob i r clk s).1 = Some (Board.perform (Board.CUpdate rq) clk b).1.
Proof.
  unfold CloseBoardJob. destruct (sempty i); [by left|]. destruct (board_ s) as [b|] eqn:Eb; [|by left].
  destruct peers_ as [p|]; [|by left]. destruct (sempty _); [by left|]. right. set (rq := Board.mkJobRequest _ _ _ _ _ _ _ _ _).
  exists rq, b. split; [done|]. cbn. by destruct (Board.Update rq clk b).
Qed.

(** A step of the runner is at most an update of the board. *)
Lemma step_board l s s' :
  step l s = Some s' ->
  board_ s' = board_ s
  \/ exists rq clk b, board_ s = Some b /\ board_ s' = Some (Board.perform (Board.CUpdate rq) clk b).1.
Proof.
  unfold step. destruct (sockets_step l s) as [s1|] eqn:E.
  { intros [= <-]. left. destruct l; cbn [sockets_step] in E; try discriminate.
    all: repeat match type of E with
      | (if ?b then _ else _) = _ => destruct b; [|done]
      | match ?x with _ => _ end = _ => destruct x; try done
      end.
    all: injection E as <-; try done.
    - destruct (refuses c s); [done|]. unfold Attach. destruct (attached_ s); [case_bool_decide|]; done.
    - by destruct (parse _).
    - unfold RequestCancel. by destruct (cancel_token_ s).
    - unfold Finish. destruct (conns s !! c) as [cn|]; [|done]. destruct (cn_closed cn); [done|]. unfold Detach, RequestCancel.
      case_bool_decide; [|done]. cbn. by destruct (cancel_token_ s).
    - unfold Stop. destruct (stopping_ s); [done|]. cbn. by destruct (cancel_token_ s). }
  clear E. unfold worker_step. intros E. destruct l; try (destruct (worker_ s); discriminate).
  all: destruct (worker_ s) as [|job|job asked res|job frames next] eqn:Ew; try discriminate.
  all: repeat match type of E with
    | (if ?b then _ else _) = _ => destruct b; try done
    | (let cancelled := _ in _) = _ => cbv zeta in E
    | match CloseBoardJob ?i ?r ?clk ?s with _ => _ end = _ =>
        pose proof (CloseBoardJob_performs i r clk s) as Hp; destruct (CloseBoardJob i r clk s) as [s1 [u|e|]]; try done
    | match ?x with _ => _ end = _ => destruct x eqn:?; try done
    end.
  all: injection E as <-; try by left.
  all: try (destruct Hp as [Hp|(rq & b & Hb & Hp)]; [by left|right; by exists rq, clk, b]).
  left. unfold take_job. destruct (j_conn j); [done|]. by destruct (sempty (j_origin j)).
Qed.

(** A closed board job changes nothing else. *)
Lemma CloseBoardJob_rest i r clk s :
  let s' := (CloseBoardJob i r clk s).1 in
  worker_ s' = worker_ s /\ running_ s' = running_ s /\ cancel_token_ s' = cancel_token_ s.
Proof.
  unfold CloseBoardJob. destruct (sempty i); [done|]. destruct (board_ s), peers_; try done.
  destruct (sempty _); [done|]. by destruct (Board.Update _ _ _).
Qed.

Lemma CloseBoardJob_board i r clk s s' :
  board_ s' = board_ s -> (CloseBoardJob i r clk s').2 = (CloseBoardJob i r clk s).2.
Proof.
  intros E. unfold CloseBoardJob. rewrite E. destruct (sempty i); [done|]. destruct (board_ s), peers_; try done.
  destruct (sempty _); [done|]. by destruct (Board.Update _ _ _).
Qed.

(** The worker closes the board job of its turn, all frames being said. *)
Lemma closes s job result clk r :
  worker_ s = PSaying job [] (KClose result) -> flight s = None -> cancel_token_ s = None -> last (turns_ s) = Some r ->
  exists labels s', run_steps labels s = Some s'
    /\ Forall (fun l => l = LNext \/ l = LLook \/ l = LPost \/ l = LClose clk) labels
    /\ worker_ s' = PIdle /\ running_ s' = false /\ cancel_token_ s' = None
    /\ last (turns_ s') = Some (mkTurnRecord (tr_id r) true (tr_frames r ++ map wire_frame
          match (CloseBoardJob (j_board job) result clk s).2 with Throw e => failed_frames (what e) | _ => [] end)).
Proof.
  intros Hw Hf Hc Hl. pose proof (CloseBoardJob_defined (j_board job) result clk s) as Hd.
  pose proof (CloseBoardJob_view (j_board job) result clk s) as Hv.
  pose proof (CloseBoardJob_rest (j_board job) result clk s) as Hr.
  destruct (CloseBoardJob (j_board job) result clk s) as [s1 [u|e|]] eqn:Ec; cbn in Hd, Hv, Hr |- *; [| |done].
  - exists [LClose clk], (set_worker PIdle (FinishTurn (set_running false s1))).
    assert (Hstep : step (LClose clk) s = Some (set_worker PIdle (FinishTurn (set_running false s1))))
      by (unfold step, worker_step, landed; cbn [sockets_step]; by rewrite Hw, Hf, Ec).
    destruct Hr as (_ & _ & Ht). injection Hv as _ _ _ Htu _.
    split_and!; try done; [cbn [run_steps]; by rewrite Hstep|by repeat constructor; auto|cbn; congruence|].
    cbn. rewrite on_last_last, Htu, Hl. cbn. by rewrite app_nil_r.
  - set (s2 := set_worker (PSaying job (failed_frames (what e)) KFailed) (set_running false s1)).
    assert (Hstep : step (LClose clk) s = Some s2)
      by (unfold step, worker_step, landed; cbn [sockets_step]; by rewrite Hw, Hf, Ec).
    destruct Hr as (_ & _ & Ht). injection Hv as _ _ _ Htu Hfl.
    destruct (says_all (failed_frames (what e)) s2 job KFailed r) as (l & s3 & HF & Hrun & Hw3 & Hf3 & _ & Hru3 & Hc3 & Hl3);
      [done|cbn; congruence|cbn; congruence|].
    pose proof (CloseBoardJob_defined (j_board job) no_execution clk (FinishTurn s3)) as Hd'.
    pose proof (CloseBoardJob_view (j_board job) no_execution clk (FinishTurn s3)) as Hv'.
    pose proof (CloseBoardJob_rest (j_board job) no_execution clk (FinishTurn s3)) as (_ & Hr' & Ht').
    destruct (CloseBoardJob (j_board job) no_execution clk (FinishTurn s3)) as [s4 out] eqn:Ec'. cbn in Hd', Hv', Hr', Ht'.
    assert (Hstep' : step (LClose clk) s3 = Some (set_worker PIdle s4)).
    { unfold step, worker_step, landed. cbn [sockets_step]. rewrite Hw3, Hf3. cbn. rewrite Ec'. by destruct out. }
    injection Hv' as _ _ _ Htu' _.
    exists (LClose clk :: l ++ [LClose clk]), (set_worker PIdle s4). split_and!; try done.
    + cbn [run_steps]. rewrite Hstep. cbn [mbind option_bind]. rewrite run_steps_app, Hrun. cbn [mbind option_bind run_steps].
      by rewrite Hstep'.
    + constructor; [auto|]. apply Forall_app. split; [|by repeat constructor; auto].
      eapply Forall_impl; [exact HF|]. cbn. tauto.
    + cbn. rewrite Hr', Hru3. done.
    + cbn. rewrite Ht', Hc3. cbn. congruence.
    + cbn. rewrite Htu'. cbn. rewrite on_last_last, Hl3. done.
Qed.

(** The turn of a page nobody cancelled for, or of a cancel nobody waits for, is
    silent: nothing more is said of it. *)
Definition silent (job : Job) (page_asked : bool) (s : server) : bool :=
  bool_decide (cancel_token_ s = Some true) && (negb page_asked || negb (page_is_here job s)).

(** What is said of a turn once it returned. *)
Definition said (job : Job) (page_asked : bool) (result : ExecutionResult) (frames : list value) (clk : nat -> Z)
    (s : server) : list value :=
  if silent job page_asked s then []
  else frames ++ match (CloseBoardJob (j_board job) result clk s).2 with
                 | Throw e => failed_frames (what e)
                 | _ => []
                 end.

(** ** The properties *)

(** C6: no frame is missed: between two frames, the open page that holds the session
    was sent every frame of the turn in flight, the ones said before it came and
    while it was being attached included. *)
Theorem Nothing_missed board s c cn text :
  reachable board s -> flight s = None -> attaching s = None ->
  attached_ s = Some c -> conns s !! c = Some cn -> cn_closed cn = false ->
  text ∈ last_frames s -> delivered cn text.
Proof.
  intros Hr Hf Ha Hc Hcn Hcl Ht. destruct (server_reachable_ok _ _ Hr) as [_ _ _ _ _ _ G].
  destruct (G _ _ _ Hc Hcn Hcl Ht) as [|[(? & ? & _)|[|]]]; [done|congruence..].
Qed.


(** C15: a turn that returned ends: the worker alone goes on to be idle, the record of
    the turn is finished, and what it gained is nothing when the turn was
    cancelled with nobody waiting, otherwise its closing frames, with a failure
    after them when the board no longer has the job to close. *)
Theorem Turn_settles board s job page_asked result session frames clk :
  reachable board s -> worker_ s = PReturned job page_asked result -> flight s = None ->
  closing_frames result session = Ok frames ->
  exists labels s' r, run_steps labels s = Some s'
    /\ Forall (fun l => l = LSettle session \/ l = LNext \/ l = LLook \/ l = LPost \/ l = LClose clk) labels
    /\ worker_ s' = PIdle /\ running_ s' = false /\ cancel_token_ s' = None
    /\ last (turns_ s') = Some r /\ tr_finished r = true
    /\ tr_frames r = last_frames s ++ map wire_frame (said job page_asked result frames clk s).
Proof.
  intros Hreach Hw Hf Hcf.
  assert (exists r, last (turns_ s) = Some r) as [r Hl].
  { destruct (last (turns_ s)) as [r|] eqn:E; [by exists r|]. apply last_None in E.
    exfalso. by apply (reachable_busy _ _ Hreach); [rewrite Hw|]. }
  assert (Hlf : last_frames s = tr_frames r) by (unfold last_frames; by rewrite Hl).
  unfold said. destruct (silent job page_asked s) eqn:Hq.
  - set (s1 := set_worker PIdle (FinishTurn (set_running false (set_cancel None (cancel_requested_ s) s)))).
    assert (Hstep : step (LSettle session) s = Some s1).
    { unfold step, worker_step. cbn [sockets_step]. rewrite Hw. cbv zeta.
      change (_ && _) with (silent job page_asked s). by rewrite Hq. }
    exists [LSettle session], s1, (mkTurnRecord (tr_id r) true (tr_frames r)). split_and!; try done.
    + cbn [run_steps]. by rewrite Hstep.
    + by repeat constructor; auto.
    + cbn. by rewrite on_last_last, Hl.
    + cbn. by rewrite app_nil_r.
  - set (s1 := set_worker (PSaying job frames (KClose result)) (set_cancel None (cancel_requested_ s) s)).
    assert (Hstep : step (LSettle session) s = Some s1).
    { unfold step, worker_step. cbn [sockets_step]. rewrite Hw. cbv zeta.
      change (_ && _) with (silent job page_asked s). by rewrite Hq, Hcf. }
    destruct (says_all frames s1 job (KClose result) r) as (l1 & s2 & HF1 & Hr1 & Hw2 & Hf2 & Hb2 & _ & Hc2 & Hl2);
      [done|done|done|].
    destruct (closes s2 job result clk _ Hw2 Hf2 Hc2 Hl2) as (l2 & s3 & Hr2 & HF2 & Hw3 & Hru3 & Hc3 & Hl3).
    rewrite (CloseBoardJob_board _ _ _ s s2) in Hl3 by done.
    eexists (LSettle session :: l1 ++ l2), s3, _. split; [|split; [|split_and!; [done|done|done|exact Hl3|done|]]].
    + cbn [run_steps]. rewrite Hstep. cbn [mbind option_bind]. by rewrite run_steps_app, Hr1.
    + constructor; [auto|]. apply Forall_app. split; (eapply Forall_impl; [eassumption|]); cbn; tauto.
    + cbn. by rewrite Hlf, map_app, app_assoc.
Qed.

(** Steps lead to a reachable state when every frame can be read back. *)
Lemma run_steps_reachable board l s s' :
  (forall v, parse (wire_frame v) <> None) -> reachable board s -> run_steps l s = Some s' -> reachable board s'.
Proof.
  intros Hread. revert s. induction l as [|x l IH]; intros s Hs; [by intros [= <-]|]. cbn [run_steps].
  destruct (step x s) as [s1|] eqn:E; [|done]. cbn [mbind option_bind]. apply IH. eapply reach_step; [exact Hs| |exact E].
  intros v _. apply Hread.
Qed.

End Runner.

(** ** Concrete runs *)

Lemma bits_valid p : IsValidUtf8 (bits p) = true.
Proof.
  induction p as [p IH|p IH|]; [| |done].
  - apply (IsValidUtf8_app "1" (bits p)); [by vm_compute|exact IH].
  - apply (IsValidUtf8_app "0" (bits p)); [by vm_compute|exact IH].
Qed.

Lemma bit_codec_reads v : parse (JsonCodec := bit_codec) (wire_frame (codec := bit_codec) v) <> None.
Proof.
  unfold wire_frame, bit_codec. cbn [parse serialize]. set (text := _ +:+ _).
  assert (Hv : IsValidUtf8 text = true).
  { unfold text. apply IsValidUtf8_app; [by destruct (is_object v); vm_compute|apply bits_valid]. }
  rewrite Hv. unfold text. by rewrite unbrace_bits, unbits_bits, decode_encode.
Qed.

Definition at_ (client : string) : string := "/ws?client=" +:+ client.
(** A page that comes, is handed [pending] frames and stays. *)
Definition comes (c : nat) (client : string) (pending : nat) : list label :=
  [LConnect c (at_ client); LAttach c] ++ repeat LSendPending pending ++ [LAttached].
Definition lands_on_page : list label := [LLook; LPost].
Definition chunk : value := text_frame "chunk" "a".
Definition answered_turn : ExecutionResult :=
  mkExecution "a" true 0 None 1 "" [] "" kCompletedTurn false "" 0 0 false false.

(** A turn runs for page 0; the tab reloads and is handed what was said. *)
Definition reload : list label :=
  comes 0 "tab" 0 ++ [LRun 0 "hi" "t1"; LTake; LSay chunk] ++ lands_on_page ++ comes 1 "tab" 1.

Definition page_sees (c : nat) (s : option server) : option (list string) := s ≫= fun s => cn_sent <$> conns s !! c.
Definition runs (p : option PeerConfig) (b : option Board.Board) (l : list label) : option server :=
  run_steps (codec := bit_codec) p l (new_server b).

Lemma runs_reachable p b l s : runs p b l = Some s -> reachable (codec := bit_codec) p b s.
Proof. apply run_steps_reachable; [apply bit_codec_reads|apply reach_new]. Qed.

(** The value of a run that succeeds. *)
Definition after (p : option PeerConfig) (b : option Board.Board) (l : list label) : server :=
  default (new_server b) (runs p b l).

Lemma after_reachable p b l :
  match runs p b l with Some _ => true | None => false end = true -> reachable (codec := bit_codec) p b (after p b l).
Proof. unfold after. destruct (runs p b l) as [s|] eqn:E; [|done]. intros _. by eapply runs_reachable. Qed.

Lemma Nothing_missed_witness :
  let s := after None None reload in
  reachable (codec := bit_codec) None None s /\ last_frames s <> []
  /\ exists cn, conns s !! 1%nat = Some cn
     /\ forall text, text ∈ last_frames s -> delivered (codec := bit_codec) cn text.
Proof.
  cbv zeta. assert (Hr : reachable (codec := bit_codec) None None (after None None reload)).
  { apply after_reachable. by vm_compute. }
  split; [exact Hr|]. split; [by vm_compute|].
  destruct (conns (after None None reload) !! 1%nat) as [cn|] eqn:E; [|by vm_compute in E].
  exists cn. split; [done|]. intros text Ht.
  apply (Nothing_missed (codec := bit_codec) None None (after None None reload) 1 cn text);
    [exact Hr|by vm_compute|by vm_compute|by vm_compute|exact E| |exact Ht].
  cut (cn_closed <$> conns (after None None reload) !! 1%nat = Some false); [rewrite E; by intros [= ->]|by vm_compute].
Defined.


(** A turn of page 0 that returned. *)
Definition returned : list label := comes 0 "tab" 0 ++ [LRun 0 "hi" "t1"; LTake; LReturn answered_turn].
Definition page_job : Job := mkJob_ "hi" (Some 0%nat) "" "t1" "".

Lemma Turn_settles_witness :
  let s := after None None returned in
  reachable (codec := bit_codec) None None s /\ worker_ s = PReturned page_job false answered_turn
  /\ exists labels s' r, run_steps (codec := bit_codec) None labels s = Some s' /\ worker_ s' = PIdle
     /\ last (turns_ s') = Some r /\ tr_finished r = true
     /\ tr_frames r = [serialize (JsonCodec := bit_codec) (JObject [("type", JString "done")])].
Proof.
  cbv zeta. assert (Hr : reachable (codec := bit_codec) None None (after None None returned)).
  { apply after_reachable. by vm_compute. }
  split; [exact Hr|]. split; [by vm_compute|].
  destruct (Turn_settles (codec := bit_codec) None None (after None None returned) page_job false answered_turn Session.new
    [JObject [("type", JString "done")]] (fun _ => 0)) as (labels & s' & r & H1 & _ & H2 & _ & _ & H3 & H4 & H5);
    [exact Hr|by vm_compute|by vm_compute|by vm_compute|].
  exists labels, s', r. by split_and!.
Defined.

(** *** What the steps also show *)

(** A page that is being attached while a frame is recorded and not yet posted is
    sent the frame twice. *)
Example Frame_twice :
  page_sees 1 (runs None None (comes 0 "tab" 0 ++ [LRun 0 "hi" "t1"; LTake; LSay chunk] ++ comes 1 "tab" 1 ++ lands_on_page))
  = Some [serialize (JsonCodec := bit_codec) chunk; serialize (JsonCodec := bit_codec) chunk].
Proof. by vm_compute. Qed.

(** A cancel of the page that took the turn's page's place is never answered:
    nothing is sent to it, the turn being the earlier socket's. *)
Example Cancel_after_reload :
  let s := runs None None (comes 0 "tab" 0 ++ [LRun 0 "hi" "t1"; LTake] ++ comes 1 "tab" 0
                           ++ [LCancel; LReturn answered_turn; LSettle Session.new]) in
  page_sees 1 s = Some [] /\ (worker_ <$> s) = Some PIdle.
Proof. by vm_compute. Qed.

(** The same turn, cancelled by the socket that asked for it. *)
Example Cancel_answered :
  let s := runs None None (comes 0 "tab" 0 ++ [LRun 0 "hi" "t1"; LTake; LCancel; LReturn answered_turn;
                           LSettle Session.new; LNext] ++ lands_on_page ++ [LClose (fun _ => 0)]) in
  page_sees 0 s = Some [serialize (JsonCodec := bit_codec) (JObject [("type", JString "done")])]
  /\ (worker_ <$> s) = Some PIdle.
Proof. by vm_compute. Qed.

(** A cancel that comes as the turn returns is not answered either. *)
Example Cancel_as_it_returns :
  let s := runs None None (returned ++ [LCancel; LSettle Session.new]) in
  page_sees 0 s = Some [] /\ (worker_ <$> s) = Some PIdle.
Proof. by vm_compute. Qed.

(** *** A peer's turn *)

Definition me : PeerConfig := mkPeers "me" "secret" [].
Definition board_of_mine : Board.Board :=
  Board.mkBoard [Board.mkJob "j1" "you" "me" "look" Board.kClaimed None "" "" None None "" None 0 0] [] [].
Definition asked : list label := [LPeer "you" "look" "j1" "t1"; LTake].
Definition job_states (s : option server) : option (list (Board.JobState * option string)) :=
  s ≫= fun s => map (fun j => (Board.state j, Board.result j)) ∘ Board.jobs_ <$> board_ s.

(** Its answer closes the job the peer posted. *)
Example Peer_answered :
  job_states (runs (Some me) (Some board_of_mine)
    (asked ++ [LReturn answered_turn; LSettle Session.new; LNext; LLook; LClose (fun _ => 0)]))
  = Some [(Board.kDone, Some "a")].
Proof. by vm_compute. Qed.

(** Its failure closes the job as done, with no result. *)
Example Peer_failed_closes_done :
  job_states (runs (Some me) (Some board_of_mine)
    (asked ++ [LThrow "no"; LNext; LLook; LNext; LLook; LClose (fun _ => 0)]))
  = Some [(Board.kDone, None)].
Proof. by vm_compute. Qed.

(** A page that leaves meanwhile cancels it, and the job stays as it was. *)
Example Peer_turn_abandoned :
  let s := runs (Some me) (Some board_of_mine)
             (comes 0 "tab" 0 ++ asked ++ [LFinish 0; LReturn answered_turn; LSettle Session.new]) in
  job_states s = Some [(Board.kClaimed, None)] /\ (worker_ <$> s) = Some PIdle.
Proof. by vm_compute. Qed.

(** A turn whose job is no longer this server's reports a failure after [done]. *)
Example Job_gone :
  (fun s => length <$> page_sees 0 s)
    (runs (Some me) (Some Board.new_board)
      (comes 0 "tab" 0 ++ asked ++ [LReturn answered_turn; LSettle Session.new; LNext] ++ lands_on_page
       ++ [LClose (fun _ => 0); LNext] ++ lands_on_page ++ [LNext] ++ lands_on_page ++ [LClose (fun _ => 0)]))
  = Some 3%nat.
Proof. by vm_compute. Qed.
