(* ===== verification/Socket.v ===== *)
(** * One connection of a server ([src/app/serve_websocket.cpp], the handlers of [src/app/serve.cpp])

    A connection reads the head of a request, under a timer, and is answered and
    closed, or becomes a page: frames are read one after another and frames are
    written from a queue.  All of it runs on the strand of the connection, one
    handler at a time; what another thread asks of it is posted there.  An event
    is a handler that runs, in any order the network and the threads bring about;
    an operation of the socket completes once.

    [Runner] follows the frames that are posted to a page; here they go out. *)
From Stdlib Require Import Ascii.
From S2P Require Export Prelude Text Json Runner.

(** ** State *)

(** Handlers posted to the strand. *)
Inductive task := TSend (text : string) | TPendingThenClose | TFinish.

(** What is awaited of the socket beside the writing of frames. *)
Inductive awaited := AwaitHead | AwaitUpgrade | AwaitFrame | AwaitAnswer.

#[export] Instance awaited_eq_dec : EqDecision awaited.
Proof. solve_decision. Defined.

(** A timer that expired cannot be cancelled any more: its handler is queued. *)
Inductive timer := TimerSet | TimerDue | TimerOff.

#[export] Instance timer_eq_dec : EqDecision timer.
Proof. solve_decision. Defined.

(** [sk_wire] is what was written, [sk_in_flight] how many writes are under way. *)
Record Socket := mkSocket {
  sk_await : option awaited; sk_timer : timer; write_queue_ : list string; writing_ : bool;
  close_after_write_ : bool; closed_ : bool; page_ : bool; sk_tasks : list task;
  sk_in_flight : nat; sk_wire : list string
}.

(** A connection that was accepted: its head is being read. *)
Definition new_socket : Socket := mkSocket (Some AwaitHead) TimerSet [] false false false false [] 0 [].

(** What a handler does outside of the connection. *)
Inductive effect := FDispatch | FAttach | FDetach | FMessage (m : ws_message) | FShut.

Definition set_await (a : option awaited) (s : Socket) : Socket :=
  mkSocket a (sk_timer s) (write_queue_ s) (writing_ s) (close_after_write_ s) (closed_ s) (page_ s) (sk_tasks s)
    (sk_in_flight s) (sk_wire s).
Definition set_timer (t : timer) (s : Socket) : Socket :=
  mkSocket (sk_await s) t (write_queue_ s) (writing_ s) (close_after_write_ s) (closed_ s) (page_ s) (sk_tasks s)
    (sk_in_flight s) (sk_wire s).
Definition set_queue (q : list string) (s : Socket) : Socket :=
  mkSocket (sk_await s) (sk_timer s) q (writing_ s) (close_after_write_ s) (closed_ s) (page_ s) (sk_tasks s)
    (sk_in_flight s) (sk_wire s).
Definition set_writing (w : bool) (in_flight : nat) (s : Socket) : Socket :=
  mkSocket (sk_await s) (sk_timer s) (write_queue_ s) w (close_after_write_ s) (closed_ s) (page_ s) (sk_tasks s)
    in_flight (sk_wire s).
Definition set_close_after (s : Socket) : Socket :=
  mkSocket (sk_await s) (sk_timer s) (write_queue_ s) (writing_ s) true (closed_ s) (page_ s) (sk_tasks s)
    (sk_in_flight s) (sk_wire s).
Definition set_on_page (s : Socket) : Socket :=
  mkSocket (sk_await s) (sk_timer s) (write_queue_ s) (writing_ s) (close_after_write_ s) (closed_ s) true (sk_tasks s)
    (sk_in_flight s) (sk_wire s).
Definition set_tasks (l : list task) (s : Socket) : Socket :=
  mkSocket (sk_await s) (sk_timer s) (write_queue_ s) (writing_ s) (close_after_write_ s) (closed_ s) (page_ s) l
    (sk_in_flight s) (sk_wire s).
Definition set_wire (l : list string) (s : Socket) : Socket :=
  mkSocket (sk_await s) (sk_timer s) (write_queue_ s) (writing_ s) (close_after_write_ s) (closed_ s) (page_ s) (sk_tasks s)
    (sk_in_flight s) l.

(** ** Handlers *)

Definition Finish (s : Socket) : Socket * list effect :=
  if closed_ s then (s, [])
  else
    (mkSocket (sk_await s) (sk_timer s) [] (writing_ s) (close_after_write_ s) true false (sk_tasks s) (sk_in_flight s)
       (sk_wire s), [FDetach; FShut]).

Definition post (t : task) (s : Socket) : Socket := set_tasks (sk_tasks s ++ [t]) s.

Definition Close : Socket -> Socket := post TFinish.
Definition SendText (text : string) : Socket -> Socket := post (TSend text).
Definition SendPendingThenClose : Socket -> Socket := post TPendingThenClose.

Definition DoWrite (s : Socket) : Socket :=
  if closed_ s || bool_decide (write_queue_ s = []) then set_writing false (sk_in_flight s) s
  else set_writing true (S (sk_in_flight s)) s.

Definition DoRead (s : Socket) : Socket := set_await (Some AwaitFrame) s.

Definition busy_text : string := "This session is already open in another page.".

Section Events.
Context `{codec : JsonCodec}.

(** [pop_front] of an empty queue is undefined. *)
Definition OnWrite (ok : bool) (s : Socket) : res (Socket * list effect) :=
  let done_ := set_writing false (pred (sk_in_flight s)) s in
  match ok, write_queue_ s with
  | false, _ => Ok (Finish done_)
  | true, [] => Undef
  | true, text :: rest =>
      let s := set_queue rest (set_wire (sk_wire s ++ [text]) done_) in
      Ok (if bool_decide (rest = []) && close_after_write_ s then Finish s else (DoWrite s, []))
  end.

Definition run_task (t : task) (s : Socket) : Socket * list effect :=
  match t with
  | TSend text =>
      (if closed_ s then s
       else let s := set_queue (write_queue_ s ++ [text]) s in if writing_ s then s else DoWrite s, [])
  | TPendingThenClose =>
      let s := if negb (writing_ s) && negb (bool_decide (write_queue_ s = [])) then DoWrite s else s in
      let s := set_close_after s in
      if writing_ s then (s, []) else Finish s
  | TFinish => Finish s
  end.

Inductive socket_event :=
  (** The head of a request: an upgrade, or a request and whether it could be answered. *)
  | HeadRead (upgrade answered : bool) | HeadFailed
  | TimerExpires | TimerRuns
  | Answered
  (** The handshake, and whether the page may have the session. *)
  | Upgraded (ok free : bool)
  | FrameRead (text parse_message : string) | ReadFailed
  | Wrote (ok : bool)
  | RunTask
  (** A frame of the runner. *)
  | Sends (text : string).

(** [None] where the event cannot happen. *)
Definition on_event (e : socket_event) (s : Socket) : option (res (Socket * list effect)) :=
  let awaits a := bool_decide (sk_await s = Some a) in
  match e with
  | HeadRead upgrade answered =>
      if awaits AwaitHead then
        let s := if bool_decide (sk_timer s = TimerSet) then set_timer TimerOff s else s in
        Some (Ok (if upgrade : bool then (set_await (Some AwaitUpgrade) s, [])
                  else (if answered : bool then set_await (Some AwaitAnswer) s else Close (set_await None s), [FDispatch])))
      else None
  | HeadFailed =>
      if awaits AwaitHead then
        let s := if bool_decide (sk_timer s = TimerSet) then set_timer TimerOff s else s in
        Some (Ok (Close (set_await None s), []))
      else None
  | TimerExpires => if bool_decide (sk_timer s = TimerSet) then Some (Ok (set_timer TimerDue s, [])) else None
  | TimerRuns => if bool_decide (sk_timer s = TimerDue) then Some (Ok (Close (set_timer TimerOff s), [])) else None
  | Answered => if awaits AwaitAnswer then Some (Ok (Close (set_await None s), [])) else None
  | Upgraded ok free =>
      if awaits AwaitUpgrade then
        let s := set_await None s in
        Some (Ok (if negb ok then Finish s
                  else if free : bool then (DoRead (set_on_page s), [FAttach])
                  else (SendPendingThenClose (SendText (serialize (text_frame "busy" busy_text)) s), [FAttach])))
      else None
  | FrameRead text parse_message =>
      if awaits AwaitFrame then
        let '(m, frames) := OnRead parse_message text in
        Some (Ok (DoRead (foldl (fun s v => SendText (serialize v) s) s frames), [FMessage m]))
      else None
  | ReadFailed => if awaits AwaitFrame then Some (Ok (Finish (set_await None s))) else None
  | Wrote ok => if (0 <? sk_in_flight s)%nat then Some (OnWrite ok s) else None
  | RunTask => match sk_tasks s with t :: rest => Some (Ok (run_task t (set_tasks rest s))) | [] => None end
  | Sends text => Some (Ok (SendText text s, []))
  end.

(** Events one after another, and what they did outside. *)
Fixpoint run_socket (l : list socket_event) (s : Socket) : option (res (Socket * list effect)) :=
  match l with
  | [] => Some (Ok (s, []))
  | e :: l =>
      match on_event e s with
      | Some (Ok (s, out)) =>
          match run_socket l s with
          | Some (Ok (s, more)) => Some (Ok (s, out ++ more))
          | other => other
          end
      | other => other
      end
  end.

(** ** What was sent, and what went out *)

(** The frames an event sends, in order. *)
Definition sent_by (e : socket_event) : list string :=
  match e with
  | Sends text => [text]
  | Upgraded true false => [serialize (text_frame "busy" busy_text)]
  | FrameRead text parse_message => map serialize (OnRead parse_message text).2
  | _ => []
  end.

Definition sends (l : list task) : list string := omap (fun t => match t with TSend text => Some text | _ => None end) l.

(** The head of the queue is what is being written. *)
Record socket_ok (s : Socket) : Prop := {
  one_write : sk_in_flight s = if writing_ s then 1%nat else 0%nat;
  closed_empty : closed_ s = true -> write_queue_ s = [];
  open_writes : closed_ s = false -> writing_ s = negb (bool_decide (write_queue_ s = []));
  open_ends : closed_ s = false -> close_after_write_ s = true -> write_queue_ s <> [];
}.

(** Between the handlers of a connection, one write at most is under way, of the
    frame at the head of the queue; a closed connection has none queued. *)
Lemma new_socket_ok : socket_ok new_socket.
Proof. by split. Qed.

Lemma Finish_keeps s : sk_in_flight s = (if writing_ s then 1 else 0)%nat -> (closed_ s = true -> socket_ok s) -> socket_ok (Finish s).1.
Proof.
  intros H1 H2. unfold Finish. destruct (closed_ s) eqn:E; [by apply H2|]. by split.
Qed.

Lemma DoWrite_ok s :
  writing_ s = false -> sk_in_flight s = 0%nat -> (close_after_write_ s = true -> write_queue_ s <> []) ->
  (closed_ s = true -> socket_ok s) -> socket_ok (DoWrite s).
Proof.
  intros Hw Hf He Hc. unfold DoWrite. destruct (closed_ s) eqn:E; cbn [orb].
  - destruct (Hc eq_refl) as [? H _ _]. split; cbn; [by rewrite Hf|by intros _; apply H|congruence..].
  - destruct (bool_decide_reflect (write_queue_ s = [])) as [Hq|Hq]; split; cbn; rewrite ?E, ?Hf; try done.
    + by rewrite bool_decide_true.
    + by rewrite bool_decide_false.
Qed.

(** Fields the rest of the state does not depend on. *)
Lemma same_ok s s' :
  socket_ok s -> sk_in_flight s' = sk_in_flight s -> writing_ s' = writing_ s -> closed_ s' = closed_ s ->
  write_queue_ s' = write_queue_ s -> (closed_ s = false -> close_after_write_ s' = true -> write_queue_ s <> []) -> socket_ok s'.
Proof. intros [H1 H2 H3 _] Ef Ew Ec Eq Ha. by split; rewrite ?Ef, ?Ew, ?Ec, ?Eq. Qed.

Lemma run_task_ok t s : socket_ok s -> socket_ok (run_task t s).1.
Proof.
  intros Hok. pose proof Hok as [H1 H2 H3 H4]. destruct t as [text| |]; cbn [run_task fst].
  - destruct (closed_ s) eqn:E; [done|]. cbn [writing_ set_queue].
    assert (Hne : write_queue_ s ++ [text] <> []) by (by destruct (write_queue_ s)). destruct (writing_ s) eqn:Ew.
    + split; cbn; rewrite ?E, ?Ew, ?H1; try done. intros _. by rewrite bool_decide_false.
    + apply DoWrite_ok; cbn; [done|by rewrite H1|done|congruence].
  - destruct (closed_ s) eqn:E.
    + rewrite (H2 eq_refl), bool_decide_true, andb_false_r by done. cbn [writing_ set_close_after].
      destruct (writing_ s) eqn:Ew; cbn [fst]; [|unfold Finish; cbn; rewrite E]; (eapply same_ok; eauto; congruence).
    + rewrite H3 by done. rewrite negb_involutive, andb_negb_r. cbn [writing_ set_close_after].
      rewrite H3 by done. destruct (bool_decide_reflect (write_queue_ s = [])) as [Eq|Eq]; cbn [negb fst].
      * apply Finish_keeps; cbn; [done|congruence].
      * by eapply same_ok; eauto.
  - apply Finish_keeps; [done|]. by intros.
Qed.

Lemma OnWrite_ok ok s s' out : socket_ok s -> (0 < sk_in_flight s)%nat -> OnWrite ok s = Ok (s', out) -> socket_ok s'.
Proof.
  intros [H1 H2 H3 H4] Hf. assert (H0 : pred (sk_in_flight s) = 0%nat) by (rewrite H1; by destruct (writing_ s)).
  unfold OnWrite. destruct ok; [destruct (write_queue_ s) as [|text rest] eqn:Eq; [done|]|].
  - assert (Hc : closed_ s = false) by (destruct (closed_ s); [by specialize (H2 eq_refl)|done]).
    cbn zeta. set (s1 := set_queue rest _). destruct (bool_decide_reflect (rest = [])) as [Er|Er]; cbn [andb].
    1: destruct (close_after_write_ s1) eqn:Ea; intros [= E].
    + replace s' with (Finish s1).1 by (by rewrite E). apply Finish_keeps; cbn; [by rewrite H0|congruence].
    + subst s'. apply DoWrite_ok; cbn; [done|done| |congruence]. intros Hx. cbn in Ea. congruence.
    + intros [= <- <-]. apply DoWrite_ok; cbn; [done|done|done|congruence].
  - intros [= E]. replace s' with (Finish (set_writing false (pred (sk_in_flight s)) s)).1 by (by rewrite E).
    apply Finish_keeps; cbn; [by rewrite H0|]. intros Hc. split; cbn; [by rewrite H0|done|congruence..].
Qed.

(** Fields a handler that only posts or awaits leaves alone. *)
Definition line (s : Socket) := (write_queue_ s, writing_ s, close_after_write_ s, closed_ s, sk_in_flight s, sk_wire s).

Lemma line_ok s s' : line s' = line s -> socket_ok s -> socket_ok s'.
Proof. intros [= E1 E2 E3 E4 E5 E6] Hok. eapply same_ok; eauto. intros Hc. rewrite E3. by apply open_ends. Qed.

Lemma send_all_line l s :
  line (foldl (fun s v => SendText (serialize v) s) s l) = line s
  /\ sends (sk_tasks (foldl (fun s v => SendText (serialize v) s) s l)) = sends (sk_tasks s) ++ map serialize l.
Proof.
  revert s. induction l as [|v l IH]; intros s; cbn [foldl map]; [by rewrite app_nil_r|].
  destruct (IH (SendText (serialize v) s)) as [-> ->]. split; [done|]. unfold SendText, post, sends. cbn.
  by rewrite omap_app, <- app_assoc.
Qed.

Definition ending (f : effect) : bool := match f with FDetach | FShut => true | _ => false end.

(** What an event changes of a line: a task of the strand, a write, an end, or
    nothing but what it posts. *)
Lemma event_cases e s s' out :
  on_event e s = Some (Ok (s', out)) ->
  (exists t rest, e = RunTask /\ sk_tasks s = t :: rest /\ (s', out) = run_task t (set_tasks rest s))
  \/ (exists ok, e = Wrote ok /\ (0 < sk_in_flight s)%nat /\ OnWrite ok s = Ok (s', out))
  \/ (exists s1, line s1 = line s /\ sends (sk_tasks s1) = sends (sk_tasks s) /\ sent_by e = [] /\ (s', out) = Finish s1)
  \/ (line s' = line s /\ sends (sk_tasks s') = sends (sk_tasks s) ++ sent_by e /\ existsb ending out = false).
Proof.
  assert (Hp : forall t s, sends (sk_tasks (post t s)) = sends (sk_tasks s) ++ sends [t]).
  { intros t s0. unfold post, sends. cbn. by rewrite omap_app. }
  destruct e as [upgrade answered| | | | |ok free|text pm| |ok| |text]; cbn [on_event sent_by].
  - destruct (bool_decide (sk_await s = Some AwaitHead)); [|done].
    destruct (bool_decide (sk_timer s = TimerSet)), upgrade, answered; intros [= <- <-]; do 3 right; unfold Close;
      rewrite ?Hp; cbn; by rewrite ?app_nil_r.
  - destruct (bool_decide (sk_await s = Some AwaitHead)); [|done]. intros [= <- <-]. do 3 right. unfold Close.
    rewrite Hp. destruct (bool_decide (sk_timer s = TimerSet)); cbn; by rewrite ?app_nil_r.
  - destruct (bool_decide _); [|done]. intros [= <- <-]. do 3 right. cbn. by rewrite ?app_nil_r.
  - destruct (bool_decide _); [|done]. intros [= <- <-]. do 3 right. unfold Close. rewrite Hp. cbn. by rewrite ?app_nil_r.
  - destruct (bool_decide _); [|done]. intros [= <- <-]. do 3 right. unfold Close. rewrite Hp. cbn. by rewrite ?app_nil_r.
  - destruct (bool_decide _); [|done]. destruct ok; cbn [negb].
    + destruct free; intros [= <- <-]; do 3 right; [cbn; by rewrite ?app_nil_r|].
      unfold SendPendingThenClose, SendText. rewrite !Hp. cbn. by rewrite ?app_nil_r.
    + intros [= E]. do 2 right. left. by exists (set_await None s).
  - destruct (bool_decide _); [|done]. destruct (OnRead pm text) as [m frames]. intros [= <- <-]. do 3 right.
    destruct (send_all_line frames s) as [E1 E2]. by split_and!.
  - destruct (bool_decide _); [|done]. intros [= E]. do 2 right. left. by exists (set_await None s).
  - destruct (Nat.ltb_spec 0 (sk_in_flight s)); [|done]. intros [= E]. right. left. by exists ok.
  - destruct (sk_tasks s) as [|t rest] eqn:E; [done|]. intros [= H]. left. by exists t, rest.
  - intros [= <- <-]. do 3 right. unfold SendText. rewrite Hp. done.
Qed.

Lemma socket_event_ok e s s' out : socket_ok s -> on_event e s = Some (Ok (s', out)) -> socket_ok s'.
Proof.
  intros Hok H. destruct (event_cases e s s' out H) as [(t & rest & -> & Ht & E)|[(ok & -> & Hf & E)|[(s1 & El & Es & _ & E)|(El & _)]]].
  - replace s' with (run_task t (set_tasks rest s)).1 by (by rewrite <- E). by apply run_task_ok, (line_ok s).
  - by eapply OnWrite_ok.
  - replace s' with (Finish s1).1 by (by rewrite <- E). apply Finish_keeps; [|intros _]; by apply (line_ok s).
  - by apply (line_ok s).
Qed.

(** ** What reaches the wire *)

(** Frames go out in the order they were sent, each once, and while the
    connection lasts none is lost; it ends once. *)
Record told (sent : list string) (out : list effect) (s : Socket) : Prop := {
  told_wire : sk_wire s `prefix_of` sent;
  told_open : closed_ s = false -> sent = sk_wire s ++ write_queue_ s ++ sends (sk_tasks s);
  told_ends : List.filter ending out = if closed_ s then [FDetach; FShut] else [];
}.

Lemma told_Finish sent out s s' more : told sent out s -> (s', more) = Finish s -> told sent (out ++ more) s'.
Proof.
  intros [H2 H3 H4]. unfold Finish. destruct (closed_ s) eqn:Ec; intros [= -> ->].
  - rewrite app_nil_r. by split; rewrite ?Ec.
  - split; cbn; [done|done|]. by rewrite List.filter_app, H4.
Qed.

Lemma told_quiet sent out s s' more new :
  told sent out s -> sk_wire s' = sk_wire s -> closed_ s' = closed_ s ->
  (closed_ s = false -> write_queue_ s' ++ sends (sk_tasks s') = write_queue_ s ++ sends (sk_tasks s) ++ new) ->
  existsb ending more = false -> told (sent ++ new) (out ++ more) s'.
Proof.
  intros [H2 H3 H4] Ew Ec Eq Ho. split.
  - rewrite Ew. by apply prefix_app_r.
  - rewrite Ec, Ew. intros Hc. rewrite (Eq Hc), (H3 Hc). by rewrite <- !app_assoc.
  - rewrite List.filter_app, H4, Ec. assert (List.filter ending more = []) as ->; [|by rewrite app_nil_r].
    clear -Ho. induction more as [|f more IH]; [done|]. cbn in Ho |- *. apply orb_false_iff in Ho as [-> Ho]. by apply IH.
Qed.

Lemma told_same sent out s s' :
  told sent out s -> sk_wire s' = sk_wire s -> closed_ s' = closed_ s ->
  (closed_ s = false -> write_queue_ s' ++ sends (sk_tasks s') = write_queue_ s ++ sends (sk_tasks s)) -> told sent out s'.
Proof.
  intros Ht Ew Ec Eq. rewrite <- (app_nil_r sent), <- (app_nil_r out). apply (told_quiet sent out s); try done.
  by rewrite app_nil_r.
Qed.

Lemma DoWrite_rest s : write_queue_ (DoWrite s) = write_queue_ s /\ closed_ (DoWrite s) = closed_ s
  /\ sk_wire (DoWrite s) = sk_wire s /\ sk_tasks (DoWrite s) = sk_tasks s.
Proof. unfold DoWrite. by destruct (_ || _). Qed.

Lemma told_DoWrite sent out s : told sent out s -> told sent out (DoWrite s).
Proof. intros Ht. destruct (DoWrite_rest s) as (E1 & E2 & E3 & E4). by apply (told_same _ _ s); rewrite ?E1, ?E4. Qed.

Lemma told_task sent out s s' more t rest :
  told sent out s -> sk_tasks s = t :: rest -> (s', more) = run_task t (set_tasks rest s) -> told sent (out ++ more) s'.
Proof.
  intros Ht Et. assert (Hskip : sends [t] = [] -> told sent out (set_tasks rest s)).
  { intros Hn. apply (told_same _ _ s); try done. intros _. cbn. rewrite Et. change (t :: rest) with ([t] ++ rest).
    unfold sends in *. rewrite omap_app. by rewrite Hn. }
  destruct t as [text| |]; cbn [run_task].
  - intros [= -> ->]. rewrite app_nil_r. cbn [closed_ set_tasks]. destruct (closed_ s) eqn:Ec.
    + apply (told_same _ _ s); try done. by rewrite Ec.
    + assert (H : told sent out (set_queue (write_queue_ s ++ [text]) (set_tasks rest s))).
      { apply (told_same _ _ s); try done. intros _. cbn. rewrite Et. unfold sends. cbn. by rewrite <- app_assoc. }
      cbn zeta. destruct (writing_ _); [exact H|by apply told_DoWrite].
  - specialize (Hskip eq_refl). cbn zeta. match goal with |- context [set_close_after ?x] => set (s1 := x) end.
    assert (H1 : told sent out (set_close_after s1)).
    { assert (H : told sent out s1) by (unfold s1; destruct (_ && _); [by apply told_DoWrite|done]). by apply (told_same _ _ s1). }
    destruct (writing_ (set_close_after s1)); [intros [= -> ->]; by rewrite app_nil_r|by apply told_Finish].
  - by apply told_Finish, Hskip.
Qed.

Lemma told_write sent out s s' more ok :
  socket_ok s -> told sent out s -> (0 < sk_in_flight s)%nat -> OnWrite ok s = Ok (s', more) -> told sent (out ++ more) s'.
Proof.
  intros Hok Ht Hf. unfold OnWrite. destruct ok.
  - destruct (write_queue_ s) as [|text rest] eqn:Eq; [done|]. cbn zeta. set (s1 := set_queue rest _).
    assert (Hc : closed_ s = false) by (destruct (closed_ s) eqn:Ec; [by rewrite (closed_empty s Hok Ec) in Eq|done]).
    assert (H1 : told sent out s1).
    { destruct Ht as [H2 H3 H4]. specialize (H3 Hc). rewrite Eq in H3. split; cbn; [|intros _|done].
      - rewrite H3. exists (rest ++ sends (sk_tasks s)). by rewrite <- !app_assoc.
      - rewrite H3. by rewrite <- !app_assoc. }
    destruct (_ && _); intros [= E]; [by apply (told_Finish _ _ s1)|]. subst. rewrite app_nil_r. by apply told_DoWrite.
  - intros [= E]. apply (told_Finish _ _ (set_writing false (pred (sk_in_flight s)) s)); [|done]. by apply (told_same _ _ s).
Qed.

Lemma told_event e s s' sent out more :
  socket_ok s -> told sent out s -> on_event e s = Some (Ok (s', more)) -> told (sent ++ sent_by e) (out ++ more) s'.
Proof.
  intros Hok Ht H. destruct (event_cases e s s' more H)
    as [(t & rest & -> & Et & E)|[(ok & -> & Hf & E)|[(s1 & El & Es & -> & E)|(El & Es & Ho)]]].
  - rewrite app_nil_r. by eapply told_task.
  - rewrite app_nil_r. by eapply told_write.
  - rewrite app_nil_r. apply (told_Finish _ _ s1); [|done]. injection El as Eq _ _ Ec _ Ew.
    apply (told_same _ _ s); try done. by rewrite Eq, Es.
  - injection El as Eq _ _ Ec _ Ew. apply (told_quiet _ _ s); try done. by rewrite Eq, Es.
Qed.

Lemma run_told l s s' sent out more :
  socket_ok s -> told sent out s -> run_socket l s = Some (Ok (s', more)) ->
  socket_ok s' /\ told (sent ++ concat (map sent_by l)) (out ++ more) s'.
Proof.
  revert s sent out more. induction l as [|e l IH]; intros s sent out more Hok Ht; cbn [run_socket map concat].
  { intros [= <- <-]. by rewrite !app_nil_r. }
  destruct (on_event e s) as [[[s1 o1]|x|]|] eqn:E; try done.
  destruct (run_socket l s1) as [[[s2 o2]|x|]|] eqn:E2; try done. intros [= <- <-]. rewrite !app_assoc.
  eapply IH; [by eapply socket_event_ok| |done]. by apply (told_event e s).
Qed.

(** C16: whatever comes in whatever order, a connection writes one frame at a time;
    what reached its peer is what was sent to it, in order, each frame once and
    none skipped; while it lasts the rest is queued or posted, and when it ends
    it leaves its page and closes its socket, once. *)
Theorem Frames_in_order l s out :
  run_socket l new_socket = Some (Ok (s, out)) ->
  let sent := concat (map sent_by l) in
  (sk_in_flight s <= 1)%nat
  /\ sk_wire s `prefix_of` sent
  /\ (closed_ s = false -> sent = sk_wire s ++ write_queue_ s ++ sends (sk_tasks s)
                           /\ (write_queue_ s <> [] -> sk_in_flight s = 1%nat))
  /\ List.filter ending out = if closed_ s then [FDetach; FShut] else [].
Proof.
  intros H sent. assert (Hnew : told [] [] new_socket) by (by split).
  destruct (run_told l new_socket s [] [] out new_socket_ok Hnew H) as [[H1 _ H3 _] [Hw Ho He]]. cbn in Hw, Ho, He.
  split_and!; [rewrite H1; destruct (writing_ s); lia|done| |done].
  intros Hc. split; [by apply Ho|]. intros Hq. by rewrite H1, (H3 Hc), bool_decide_false.
Qed.

(** A page that may not have the session is told so before its socket is closed,
    with all that was queued before: what is left is written, and then the
    connection ends. *)
Theorem Pending_then_close s :
  socket_ok s -> closed_ s = false -> close_after_write_ s = true ->
  exists s', run_socket (replicate (length (write_queue_ s)) (Wrote true)) s = Some (Ok (s', [FDetach; FShut]))
    /\ closed_ s' = true /\ sk_wire s' = sk_wire s ++ write_queue_ s.
Proof.
  remember (write_queue_ s) as q eqn:Eq. revert s Eq. induction q as [|text rest IH]; intros s Eq Hok Hc Ha.
  { by destruct (open_ends s Hok Hc Ha). }
  assert (Hf : sk_in_flight s = 1%nat) by (by rewrite (one_write s Hok), (open_writes s Hok Hc), <- Eq).
  cbn [length replicate run_socket on_event]. rewrite Hf. cbn [Nat.ltb Nat.leb].
  destruct (OnWrite true s) as [[s1 o1]|x|] eqn:E; [|by unfold OnWrite in E; rewrite <- Eq in E..].
  pose proof E as E'. apply OnWrite_ok in E'; [|done|lia]. unfold OnWrite in E. rewrite <- Eq in E. cbn zeta in E.
  destruct rest as [|next rest].
  - rewrite bool_decide_true in E by done. cbn in E. rewrite Ha in E. cbn in E. unfold Finish in E. cbn in E. rewrite Hc in E.
    injection E as <- <-. eexists. cbn. split; [done|]. by rewrite ?app_nil_r.
  - rewrite bool_decide_false in E by done. cbn [andb] in E. injection E as <- <-.
    set (s2 := set_queue _ _) in *. destruct (DoWrite_rest s2) as (Eq2 & Ec2 & Ew2 & _).
    destruct (IH (DoWrite s2)) as (s' & -> & Hc' & Hw'); [by rewrite Eq2|done|by rewrite Ec2|by unfold DoWrite; destruct (_ || _)|].
    exists s'. split; [done|]. split; [done|]. rewrite Hw', Ew2. cbn. by rewrite <- app_assoc.
Qed.

(** The one thing that goes wrong: a write that succeeded is heard of after the
    connection ended, and its frame is taken off a queue that is empty. *)
Theorem Undefined_write e s :
  socket_ok s -> (on_event e s = Some Undef <-> e = Wrote true /\ sk_in_flight s = 1%nat /\ closed_ s = true).
Proof.
  intros [H1 H2 H3 _]. split.
  - destruct e as [upgrade answered| | | | |ok free|text pm| |ok| |text]; cbn [on_event];
      try (repeat case_match; done).
    + destruct (Nat.ltb_spec 0 (sk_in_flight s)) as [Hf|]; [|done]. unfold OnWrite.
      destruct ok; [|done]. destruct (write_queue_ s) eqn:Eq; [|done]. intros _.
      assert (Hw : writing_ s = true) by (destruct (writing_ s); [done|lia]). rewrite Hw in H1. split_and!; [done|done|].
      destruct (closed_ s) eqn:Ec; [done|]. by rewrite (H3 eq_refl) in Hw.
  - intros (-> & Hf & Hc). cbn [on_event]. rewrite Hf. cbn. unfold OnWrite. by rewrite (H2 Hc).
Qed.

End Events.

(** ** Runs *)

(** A page that was told two frames and has gone away; the second is under way. *)
Definition page_events : list socket_event :=
  [HeadRead true true; Upgraded true true; Sends "a"; RunTask; Sends "b"; RunTask; Wrote true; ReadFailed].

Definition run_page (l : list socket_event) : option (res (Socket * list effect)) :=
  run_socket (codec := bit_codec) l new_socket.

Lemma Frames_in_order_witness :
  exists s, run_page page_events = Some (Ok (s, [FAttach; FDetach; FShut])) /\ sk_wire s = ["a"] /\ (sk_in_flight s <= 1)%nat.
Proof.
  unfold run_page. destruct (run_socket _ _) as [[[s out]|x|]|] eqn:E; [|vm_compute in E; discriminate E..].
  destruct (Frames_in_order (codec := bit_codec) page_events s out E) as (Hf & _). exists s. split; [|split; [|exact Hf]].
  - vm_compute in E. injection E as _ <-. reflexivity.
  - vm_compute in E. injection E as <- _. reflexivity.
Defined.

(** A second page, told that the session is taken. *)
Definition refused : Socket :=
  mkSocket None TimerOff ["busy"] true true false false [] 1 [].

Lemma Pending_then_close_witness :
  exists s', run_socket (codec := bit_codec) [Wrote true] refused = Some (Ok (s', [FDetach; FShut])) /\ sk_wire s' = ["busy"].
Proof.
  destruct (Pending_then_close (codec := bit_codec) refused ltac:(by split) eq_refl eq_refl) as (s' & H & _ & Hw).
  exists s'. split; [exact H|exact Hw].
Defined.

Lemma Undefined_write_witness :
  on_event (codec := bit_codec) (Wrote true) (mkSocket None TimerOff [] true false true false [] 1 ["a"]) = Some Undef.
Proof.
  apply (Undefined_write (codec := bit_codec) (Wrote true) (mkSocket None TimerOff [] true false true false [] 1 ["a"]));
    [by split|by split_and!].
Defined.

(** The page goes away as its last frame is written: the read fails first. *)
Example Gone_as_it_is_told : run_page (page_events ++ [Wrote true]) = Some Undef.
Proof. vm_compute. reflexivity. Qed.

Definition closed_of (r : option (res (Socket * list effect))) : option (bool * bool) :=
  match r with Some (Ok (s, _)) => Some (page_ s, closed_ s) | _ => None end.

(** A head that is read just as its time runs out makes a page that is closed. *)
Example Late_timer : closed_of (run_page [TimerExpires; HeadRead true true; Upgraded true true; TimerRuns; RunTask]) = Some (false, true).
Proof. vm_compute. reflexivity. Qed.

(** And one whose handshake succeeds after that is attached to the session closed. *)
Example Attached_closed :
  closed_of (run_page [TimerExpires; HeadRead true true; TimerRuns; RunTask; Upgraded true true]) = Some (true, true).
Proof. vm_compute. reflexivity. Qed.

(** Nobody but the two pages is told what they are not sent; a second page is told why. *)
Example Second_page_told :
  match run_page [HeadRead true true; Upgraded true false; RunTask; RunTask; Wrote true] with
  | Some (Ok (s, out)) => closed_ s = true /\ length (sk_wire s) = 1%nat /\ out = [FAttach; FDetach; FShut]
  | _ => False
  end.
Proof. vm_compute. done. Qed.
