(* ===== verification/Routes.v ===== *)
(** * The REST routes of a server ([src/app/serve_http_routes.cpp])

    The table of routes, who each one answers, and its handlers, over the state
    the handlers share: the runtime, the board and the queue of the runner.
    [DispatchHttpRequest] is a function of a request and of that state.  A request
    is answered at a moment when no turn is running. *)
From Stdlib Require Import Ascii.
From S2P Require Export Prelude Text Json Message Request Usage Projection Agents Tools Board Settings Session Executor.
From S2P Require Export Runtime Router Registry Runner.

(** ** Requests and responses *)

(** [hr_authorization] is the first such field; [hr_address] is what the socket
    names its peer by, empty when it cannot. *)
Record HttpRequest := mkRequest {
  hr_method : string; hr_target : string; hr_authorization : option string; hr_body : string; hr_address : string
}.

Record Response := mkResponse { rs_status : Z; rs_fields : list (string * string); rs_body : string }.

Inductive Audience := kAnyone | kLoopback | kPeerToken.
Inductive Admission := kAllowed | kNotFromHere | kNoTopology | kWrongToken.

#[export] Instance Admission_eq_dec : EqDecision Admission.
Proof. solve_decision. Defined.
#[export] Instance Audience_eq_dec : EqDecision Audience.
Proof. solve_decision. Defined.

(** What a request is given from outside: the clock as the peer is noted and as
    the handler reads it, ids to draw, and this process. *)
Record Given := mkGiven {
  gv_touched : nat -> Z; gv_clock : nat -> Z; gv_uuid : string; gv_turn : string; gv_pid : Z
}.

Record Call := mkCall { ca_address : string; ca_peer : string; ca_loopback : bool; ca_port : Z; ca_given : Given }.

(** ** Who is answered *)

Definition IsLoopback (address : string) : bool :=
  starts_with "127." address || bool_decide (address = "::1") || bool_decide (address = "::ffff:127.0.0.1").

Definition Admit (audience : Audience) (address token : string) (peers : option PeerConfig) : Admission :=
  match audience with
  | kAnyone => kAllowed
  | kLoopback => if IsLoopback address then kAllowed else kNotFromHere
  | kPeerToken =>
      match peers with
      | None => kNoTopology
      | Some p => if sempty token || negb (Accepts token p) then kWrongToken else kAllowed
      end
  end.

Definition BearerToken (req : HttpRequest) : string :=
  match hr_authorization req with
  | Some v => if (slen v <=? 7)%nat || negb (starts_with "Bearer " v) then "" else sdrop 7 v
  | None => ""
  end.

Definition PeerForToken (peers : option PeerConfig) (token : string) : string :=
  match peers with
  | Some p => if sempty token || negb (Accepts token p) then "" else self_name p
  | None => ""
  end.

(** ** Page files *)

(** What [std::filesystem] answers of the machine. *)
Class Site (N : Type) := {
  st_exe : N -> option string;
  st_directory : N -> string -> bool;
  st_regular : N -> string -> bool;
  st_read : N -> string -> option string;
}.

(** [path::extension] of a file name. *)
Definition extension (name : string) : string :=
  match srfind "." name with
  | Some (S _ as at_) => if bool_decide (name = "..") then "" else sdrop at_ name
  | _ => ""
  end.

Definition content_type (ext : string) : string :=
  if bool_decide (ext = ".html") then "text/html"
  else if bool_decide (ext = ".css") then "text/css"
  else if bool_decide (ext = ".js") then "application/javascript"
  else "application/octet-stream".

Section WebFiles.
Context {N : Type} `{!Site N}.

Definition ExecutableDir (n : N) : string := match st_exe n with Some path => parent_path path | None => "" end.

Definition GetWebDir (getenv : string -> option string) (n : N) : string :=
  let env := default "" (getenv "PU_WEB_DIR") in
  if negb (sempty env) then env
  else
    let exe := ExecutableDir n in
    let beside := if sempty exe then []
                  else [path_join exe "web"; path_join (path_join exe "..") "web";
                        path_join (path_join (path_join (path_join exe "..") "share") "pu") "web"] in
    default "./web" (List.find (st_directory n)
      (beside ++ ["./web"; "../share/pu/web"; "/usr/share/pu/web"; "/usr/local/share/pu/web"])).

(** A plain name has no slash; [substr] of an empty target throws. *)
Definition IsPageFile (getenv : string -> option string) (target : string) (n : N) : res bool :=
  if bool_decide (target = "/") then Ok true
  else if sempty target then Throw (StdException "basic_string_view::substr")
  else
    let relative := sdrop 1 target in
    if sempty relative || bool_decide (is_Some (sfind "/" relative)) then Ok false
    else Ok (st_regular n (path_join (GetWebDir getenv n) relative)).

Definition ServeFile (getenv : string -> option string) (target : string) (n : N) : Response :=
  let name := if bool_decide (target = "/") then "index.html" else sdrop 1 target in
  match st_read n (path_join (GetWebDir getenv n) name) with
  | None => mkResponse 404 [] ""
  | Some content =>
      mkResponse 200 [("Cache-Control", "no-cache"); ("Content-Type", content_type (extension name))] content
  end.

End WebFiles.

(** ** Answers *)

Definition ErrorStatus (e : exn) : Z :=
  match e with NotFound _ => 404 | GenericError _ => 500 | RequestRefused _ => 400 | StdException _ => 500 end.

Definition ViewStatus (status : ToolCallStatus) : string :=
  match status with kCompleted => "done" | kInterrupted => "interrupted" | kPending => "pending" end.

(** The handler's payload under the key of its row, or the object it is. *)
Definition Wrap (key : string) (result : value) : value :=
  if negb (sempty key) then JObject (obj_set "success" (JBool true) [(key, result)])
  else JObject (obj_set "success" (JBool true) (match result with JObject fields => fields | _ => [] end)).

Section Answers.
Context `{codec : JsonCodec}.

Definition SendJson (fields : list (string * string)) (status : Z) (jv : value) : Response :=
  mkResponse status (fields ++ [("Content-Type", "application/json")]) (serialize jv).

Definition failure (message : string) : value := JObject [("success", JBool false); ("error", JString message)].

Definition SendError (fields : list (string * string)) (status : Z) (message : string) : Response :=
  SendJson fields status (failure message).

Definition SendRefusal (admission : Admission) (target : string) : option Response :=
  match admission with
  | kAllowed => None
  | kNotFromHere => Some (SendError [] 403 (target +:+ " is answered on the machine the server runs on"))
  | kNoTopology => Some (SendError [] 404 "Peer messaging is not configured")
  | kWrongToken => Some (SendError [("WWW-Authenticate", "Bearer")] 401 (target +:+ " requires the peer token"))
  end.

Definition ParseBody (req : HttpRequest) : res value :=
  if sempty (hr_body req) then Ok (JObject [])
  else match parse (hr_body req) with Some v => Ok v | None => Throw (RequestRefused "Invalid JSON") end.

End Answers.

(** [RequireString] and the string it lets through. *)
Definition RequireString (body : value) (key : string) : res string :=
  match at_key body key with
  | Some (JString s) => Ok s
  | _ => Throw (RequestRefused ("Missing or invalid '" +:+ key +:+ "'"))
  end.

Definition JobFrom (body : value) (full : bool) : Board.JobRequest :=
  let field := OptionalOrDefault to_string body in
  if full then Board.mkJobRequest (field "job") (field "from") None None None (field "state") (field "result")
                 (field "question") (field "note")
  else Board.mkJobRequest None (field "from") (field "to") (field "intent") (field "due") None None None None.

(** A board answer: the job, and the outcome when the move settled it.  The
    clock is read again for the rendering. *)
Definition RenderResult (now : string) (r : Board.ActionResult) : value :=
  let answer := [("success", JBool true); ("job", Board.Render (Board.ar_job r) now)] in
  JObject match Board.ar_outcome r with
          | Some o => obj_set "outcome" (JObject (Board.opt_set "result" (JString <$> Board.oc_result o)
                        [("id", JString (Board.oc_id o)); ("state", JString (Board.oc_state o))])) answer
          | None => answer
          end.

Definition setting_row (view : SettingView) : value :=
  JObject [("name", JString (v_name view)); ("type", JString (v_type view)); ("value", v_value view);
           ("source", JString (v_source view)); ("agent_value", v_agent_value view)].

Definition settings_rows (views : list SettingView) : value := JArray (map setting_row views).

(** One entry of [/api/history]. *)
Definition history_item `{codec : JsonCodec} (usage : UsageLedger.t) (node : MessageNode) (position : Z) : value :=
  let msg := RenderMessage node position in
  let item := [("id", JInt64 (m_id msg)); ("role", JString (m_role msg)); ("content", JString (m_content msg));
               ("timestamp", JString (m_timestamp msg))] in
  let unless_empty key s out := if sempty s then out else obj_set key (JString s) out in
  let item := unless_empty "from_peer" (m_from_peer msg) item in
  let item :=
    if HasToolCalls msg then
      let item := obj_set "tool_calls" (m_tool_calls msg) item in
      match n_payload node with
      | Assistant a =>
          obj_set "tool_call_status" (JArray (map (fun r => JString (ViewStatus (rec_status r))) (a_tool_calls a))) item
      | _ => item
      end
    else item in
  let item := unless_empty "tool_call_id" (m_tool_call_id msg) item in
  let item := unless_empty "tool_name" (m_tool_name msg) item in
  let item := match m_reasoning msg with [] => item | blocks => obj_set "reasoning" (ProjectReasoning blocks) item end in
  let item :=
    if bool_decide (m_role msg = kToolRole) then
      let parsed := ParseToolResult (m_content msg) in
      obj_set "error" (JString (r_error parsed))
        (obj_set "output" (JString (if r_valid parsed then r_output parsed else m_content msg)) item)
    else item in
  JObject (Board.opt_set "usage" (JObject ∘ UsageLedger.TurnToJson <$> UsageLedger.For (n_id node) usage) item).

(** ** The state the routes share *)

Section Routes.
#[local] Set Default Proof Using "Type*".
Context `{codec : JsonCodec} {P N T : Type} `{!World N} `{!Machine N} `{!Site N} (tr : Transport (N : Type) T).
Context (PU_VERSION : string) (regex : string -> option (string -> bool)) (workspace_root_ : string).
(** [std::sort] of the settled jobs, see [Board.Page]. *)
Context (newest_first : list Board.Job -> list Board.Job).

Abbreviation runtime := (@runtime P N T).

(** [si_queue] is what a route needs of the runner, if there is one. *)
Record site := mkSite {
  si_runtime : runtime; si_board : option Board.Board; si_queue : option (list Runner.Job)
}.

Abbreviation sv := (Runtime.step site).

Definition on_runtime {A} (m : Runtime.step runtime A) : sv A :=
  fun s => let '(r, out) := m (si_runtime s) in (mkSite r (si_board s) (si_queue s), out).

Definition of_runtime {A} (f : runtime -> res A) : sv A := fun s => (s, f (si_runtime s)).

(** [BoardOf], and what is done with the board. *)
Definition on_board {A} (f : Board.Board -> Board.Board * res A) : sv A :=
  fun s =>
    match si_board s with
    | None => (s, Throw (NotFound "This server has no board"))
    | Some b => let '(b, out) := f b in (mkSite (si_runtime s) (Some b) (si_queue s), out)
    end.

Definition peers_of (s : site) : option PeerConfig := peer_config_ (si_runtime s).

(** ** Session and conversation *)

Definition session_body (port : Z) (session : Session.t) (r : runtime) : res value :=
  let? backend := CurrentBackend r in
  let? gateway := GatewayName (gateway backend) in
  let? window := ContextWindow r in
  let? views := Settings_ r in
  let? total := UsageLedger.Total (Session.usage_ session) in
  let body :=
    [("agent_name", JString (agent_name (Session.spec_ session))); ("gateway", JString gateway);
     ("backend_model", JString (model backend)); ("backend_host", JString (host backend));
     ("context_window", JInt64 window); ("thinking", JString (ThinkingLevelName (thinking backend)))] in
  let body := Board.opt_set "thinking_override" (JString ∘ ThinkingLevelName <$> ThinkingOverride r) body in
  let body := obj_set "server" (JObject [("name", JString (WorkspaceLabel workspace_root_)); ("port", JUint64 port)]) body in
  let body := obj_set "settings" (settings_rows views) body in
  let body := obj_set "usage_total" (JObject (UsageLedger.TotalToJson total)) body in
  Ok (JObject (obj_set "tools" (JArray (map JString (Toolbox.ToolNames (toolbox_ r)))) body)).

Definition HandleApiSession (call : Call) (_ : value) : sv value :=
  let! session := on_runtime DefaultSession in
  of_runtime (session_body (ca_port call) session).

Definition HandleApiHistory (_ : Call) (_ : value) : sv value :=
  let! session := on_runtime DefaultSession in
  done_with (JArray (imap (fun i node => history_item (Session.usage_ session) node (Z.of_nat i + 1))
                       (MessageGraph.Chain (Session.conversation_ session)))).

Definition HandleApiAgents (_ : Call) (_ : value) : sv value :=
  let! session := on_runtime DefaultSession in
  let! agents := of_runtime (fun r => SummarizeAgents (agent_manager_ r) (agent_name (Session.spec_ session))) in
  done_with (AgentsAsJson agents).

Definition HandleApiAgentSwitch (_ : Call) (body : value) : sv value :=
  let! name := of_res (RequireString body "agent_name") in
  let! entry := of_runtime (fun r => match AgentManager.AgentConfig name (agent_manager_ r) with
                                     | Some entry => Ok entry
                                     | None => Throw (NotFound ("Agent not found: " +:+ name))
                                     end) in
  on_runtime (SwitchAgent tr PU_VERSION regex workspace_root_ entry) ;;!
  done_with (JObject [("agent", JString name)]).

Definition HandleApiServers (call : Call) (_ : value) : sv value :=
  let! records := on_runtime (fun r => let '(n, records) := LiveServeRecords (net r) in (set_world n r, Ok records)) in
  done_with (JArray (map (fun record => JObject [("name", JString (WorkspaceLabel (sr_directory record)));
                                                 ("port", JUint64 (sr_port record))])
                       (OthersAmong records (gv_pid (ca_given call))))).

Definition HandleApiRewind (_ : Call) (body : value) : sv value :=
  let turn := ValueOrDefault to_int body "turn" 0 in
  if turn <? 1 then throws (RequestRefused "Missing or invalid 'turn'")
  else
    let! taken_back := on_runtime (RewindBefore workspace_root_ (Z.to_nat turn)) in
    if negb taken_back then throws (RequestRefused "No such turn") else done_with (JObject []).

Definition SettingsBody : sv value :=
  of_runtime (fun r => res_map (fun views => JObject [("settings", settings_rows views)]) (Settings_ r)).

Definition HandleApiSettings (_ : Call) (_ : value) : sv value := SettingsBody.

Definition HandleApiSetSetting (_ : Call) (body : value) : sv value :=
  let! name := of_res (RequireString body "name") in
  on_runtime (SetSetting workspace_root_ name (default JNull (at_key body "value"))) ;;! SettingsBody.

Definition HandleApiResetSettings (_ : Call) (_ : value) : sv value :=
  on_runtime (ClearSettings workspace_root_) ;;! SettingsBody.

(** ** The board *)

Definition kOfflineAfter : Z := 45.

Definition rendered (call : Call) (m : sv Board.ActionResult) : sv value :=
  let! r := m in done_with (RenderResult (Board.NowStamp (gv_clock (ca_given call) 2%nat)) r).

Definition HandleApiJobsGet (call : Call) (_ : value) : sv value :=
  on_board (fun b => (b, Ok (Board.Snapshot kOfflineAfter (gv_clock (ca_given call)) b))).

Definition HandleApiBoard (call : Call) (_ : value) : sv value :=
  on_board (fun b => (b, Ok (Board.Page newest_first (gv_clock (ca_given call)) b))).

Definition HandleApiJobsPost (call : Call) (body : value) : sv value :=
  rendered call (on_board (Board.Post (gv_uuid (ca_given call)) (JobFrom body false) (gv_clock (ca_given call)))).

Definition HandleApiJobsPatch (call : Call) (body : value) : sv value :=
  rendered call (on_board (Board.Update (JobFrom body true) (gv_clock (ca_given call)))).

(** The three verbs of a person: the text is under [key], and asked for in
    [missing]. *)
Definition verb (act : string -> string -> (nat -> Z) -> Board.Board -> Board.Board * res Board.ActionResult)
    (key missing : string) (call : Call) (body : value) : sv value :=
  let i := string_or body "job" "" in
  let text := string_or body key "" in
  if sempty i then throws (RequestRefused "a board verb needs the job's 'id'")
  else if sempty text then throws (RequestRefused missing)
  else rendered call (on_board (act i text (gv_clock (ca_given call)))).

Definition HandleApiJobsAnswer : Call -> value -> sv value :=
  verb Board.Answer "answer" "an answer needs the 'answer' text to send back".
Definition HandleApiJobsChase : Call -> value -> sv value :=
  verb Board.Chase "note" "asking about a job needs the 'note' to send".
Definition HandleApiJobsDrop : Call -> value -> sv value :=
  verb Board.Drop "note" "taking a job back needs the 'note' that says why".

(** ** A peer's message *)

(** The job is claimed before the turn is queued. *)
Definition claim_job (call : Call) (job_id : string) : sv unit :=
  fun s =>
    match si_board s with
    | None => (s, Ok tt)
    | Some _ =>
        if sempty job_id then (s, Ok tt)
        else
          match peers_of s with
          | None => (s, Undef)
          | Some p =>
              let claim := Board.mkJobRequest (Some job_id) (Some (self_name p)) None None None
                             (Some (Board.JobStateName Board.kClaimed)) None None None in
              (let! taken := on_board (Board.Update claim (gv_clock (ca_given call))) in
               match Board.state (Board.ar_job taken) with
               | Board.kClaimed => done_with tt
               | _ => throws (RequestRefused ("job " +:+ job_id +:+ " did not end up claimed"))
               end) s
          end
    end.

Definition queue_turn (call : Call) (sender message job_id : string) : sv string :=
  fun s =>
    match si_queue s with
    | None => (s, Throw (RequestRefused "This server cannot accept a peer turn"))
    | Some q =>
        (mkSite (si_runtime s) (si_board s)
           (Some (q ++ [mkJob_ message None sender (gv_turn (ca_given call)) job_id])),
         Ok (gv_turn (ca_given call)))
    end.

Definition known_to (sender : string) (s : site) : bool :=
  match peers_of s with Some p => sempty sender || Knows sender p | None => true end.

(** The answer to a message whose turn is queued. *)
Definition accepted_reply (turn : string) : sv value :=
  let! backend := of_runtime CurrentBackend in
  let! self := (fun s => (s, match peers_of s with Some p => Ok (self_name p) | None => Undef end)) in
  let! session := on_runtime DefaultSession in
  done_with (JObject [("accepted", JBool true); ("from", JString self); ("turn", JString turn);
                      ("agent", JString (agent_name (Session.spec_ session)));
                      ("model", JString (model backend))]).

Definition HandlePeerMessage (call : Call) (body : value) : sv value :=
  fun s =>
    let sender := string_or body "from" "" in
    let message := string_or body "message" "" in
    if bool_decide (si_queue s = None) then (s, Throw (RequestRefused "This server cannot accept a peer turn"))
    else if negb (known_to sender s) then (s, Throw (RequestRefused ("Unknown peer: " +:+ sender)))
    else if sempty sender then (s, Throw (RequestRefused "Missing or invalid 'from'"))
    else if sempty message then (s, Throw (RequestRefused "Missing or invalid 'message'"))
    else
      let job_id := string_or body "job" "" in
      (claim_job call job_id ;;! let! turn := queue_turn call sender message job_id in accepted_reply turn) s.

(** ** The table *)

Record Route := mkRoute {
  ro_target : string; ro_method : string; ro_handler : Call -> value -> sv value; ro_key : string;
  ro_audience : Audience; ro_status : Z; ro_has_body : bool; ro_needs_board : bool; ro_board_only : bool
}.

Definition kRoutes : list Route :=
  [mkRoute "/api/session" "GET" HandleApiSession "" kAnyone 200 false false false;
   mkRoute "/api/history" "GET" HandleApiHistory "messages" kAnyone 200 false false false;
   mkRoute "/api/agents" "GET" HandleApiAgents "agents" kAnyone 200 false false false;
   mkRoute "/api/agent/switch" "POST" HandleApiAgentSwitch "" kAnyone 200 true false false;
   mkRoute "/api/rewind" "POST" HandleApiRewind "" kAnyone 200 true false false;
   mkRoute "/api/settings" "GET" HandleApiSettings "" kAnyone 200 false false false;
   mkRoute "/api/settings" "POST" HandleApiSetSetting "" kAnyone 200 true false false;
   mkRoute "/api/settings/reset" "POST" HandleApiResetSettings "" kAnyone 200 false false false;
   mkRoute "/api/servers" "GET" HandleApiServers "servers" kLoopback 200 false false false;
   mkRoute "/api/board" "GET" HandleApiBoard "" kLoopback 200 false true true;
   mkRoute "/api/jobs" "GET" HandleApiJobsGet "" kPeerToken 200 false true true;
   mkRoute "/api/jobs" "POST" HandleApiJobsPost "" kPeerToken 200 true true true;
   mkRoute "/api/jobs" "PATCH" HandleApiJobsPatch "" kPeerToken 200 true true true;
   mkRoute "/api/jobs/answer" "POST" HandleApiJobsAnswer "" kPeerToken 200 true true true;
   mkRoute "/api/jobs/chase" "POST" HandleApiJobsChase "" kPeerToken 200 true true true;
   mkRoute "/api/jobs/drop" "POST" HandleApiJobsDrop "" kPeerToken 200 true true true;
   mkRoute "/api/peer/message" "POST" HandlePeerMessage "" kPeerToken 202 true false false].

Definition matches (req : HttpRequest) (route : Route) : bool :=
  bool_decide (hr_target req = ro_target route) && bool_decide (hr_method req = ro_method route).

(** ** Dispatch *)

Definition touched (given : Given) (peer : string) (s : site) : site :=
  mkSite (si_runtime s) (Board.TouchPeer peer "" (gv_touched given) <$> si_board s) (si_queue s).

(** The row's handler, its answer in the envelope, its failure as an error. *)
Definition handle (route : Route) (call : Call) (req : HttpRequest) (s : site) : site * res Response :=
  let '(s, out) := (let! body := of_res (if ro_has_body route then ParseBody req else Ok JNull) in
                    ro_handler route call body) s in
  (s, match out with
      | Ok result => Ok (SendJson [] (ro_status route) (Wrap (ro_key route) result))
      | Throw e => Ok (SendError [] (ErrorStatus e) (what e))
      | Undef => Undef
      end).

Definition answer (route : Route) (port : Z) (given : Given) (req : HttpRequest) (s : site) : site * res Response :=
  let token := BearerToken req in
  match SendRefusal (Admit (ro_audience route) (hr_address req) token (peers_of s)) (ro_target route) with
  | Some refusal => (s, Ok refusal)
  | None =>
      if ro_needs_board route && bool_decide (si_board s = None)
      then (s, Ok (SendError [] 404 "This server has no board"))
      else
        let call := mkCall (hr_address req) (PeerForToken (peers_of s) token) (IsLoopback (hr_address req)) port given in
        let s := if bool_decide (ro_audience route = kPeerToken) && ro_needs_board route && negb (sempty (ca_peer call))
                 then touched given (ca_peer call) s else s in
        handle route call req s
  end.

Definition DispatchHttpRequest (port : Z) (given : Given) (req : HttpRequest) (s : site) : site * res Response :=
  let n := net (si_runtime s) in
  match IsPageFile (w_getenv n) (hr_target req) n with
  | Throw e => (s, Throw e)
  | Undef => (s, Undef)
  | Ok true => (s, Ok (ServeFile (w_getenv n) (hr_target req) n))
  | Ok false =>
      match List.find (matches req) kRoutes with
      | Some route => answer route port given req s
      | None => (s, Ok (mkResponse 404 [] ""))
      end
  end.

(** ** What handlers leave alone *)

(** The board and the queue are what they were. *)
Definition same_shared (s s' : site) : Prop := si_board s' = si_board s /\ si_queue s' = si_queue s.

#[local] Instance same_shared_pre : PreOrder same_shared.
Proof. split; [by split|]. intros s1 s2 s3 [] []. split; congruence. Qed.

Lemma on_runtime_shared {A} (m : Runtime.step runtime A) : keeps same_shared (on_runtime m).
Proof. intros s. unfold on_runtime. by destruct (m (si_runtime s)). Qed.

Lemma of_runtime_shared {A} (f : runtime -> res A) : keeps same_shared (of_runtime f).
Proof. by intros s. Qed.

Lemma throws_keeps {A} R `{!PreOrder R} e : keeps R (@throws site A e).
Proof. by intros s. Qed.

(** Goes through a handler by its parts. *)
Local Ltac parts :=
  repeat first
    [ apply on_runtime_shared | apply of_runtime_shared | apply (keeps_done _) | apply (keeps_of_res _)
    | apply (throws_keeps _) | apply (keeps_then _); [|intros ?]
    | match goal with |- keeps _ (if ?b then _ else _) => destruct b end ].

(** A route without the token has no part in the board or the queue. *)
Lemma open_routes route call body :
  In route kRoutes -> ro_audience route <> kPeerToken -> keeps same_shared (ro_handler route call body).
Proof.
  intros Hin Ha. unfold kRoutes in Hin. cbn [In] in Hin.
  repeat destruct Hin as [<-|Hin]; cbn [ro_audience] in Ha; try done; cbn [ro_handler].
  1-9: unfold HandleApiSession, HandleApiHistory, HandleApiAgents, HandleApiAgentSwitch, HandleApiRewind, HandleApiSettings,
    HandleApiSetSetting, HandleApiResetSettings, HandleApiServers, SettingsBody; cbv zeta; parts.
  intros s. unfold HandleApiBoard, on_board. destruct (si_board s) eqn:E; [|done]. split; cbn; congruence.
Qed.

(** A handler makes at most one call of the board, and never a touch; a post is
    under the id it was given. *)
Definition performed (uuid : string) (s s' : site) : Prop :=
  si_board s' = si_board s
  \/ exists b c clk, si_board s = Some b /\ si_board s' = Some (Board.perform c clk b).1
       /\ (forall peer state, c <> Board.CTouch peer state) /\ forall u rq, c = Board.CPost u rq -> u = uuid.

Definition same_board (s s' : site) : Prop := si_board s' = si_board s.

#[local] Instance same_board_pre : PreOrder same_board.
Proof. split; [done|]. intros s1 s2 s3. unfold same_board. congruence. Qed.

Lemma performed_then {A B} uuid (m : sv A) (k : A -> sv B) s :
  performed uuid s (m s).1 -> (forall a, keeps same_board (k a)) -> performed uuid s (then_ m k s).1.
Proof.
  intros Hm Hk. unfold then_. destruct (m s) as [s1 [a|e|]]; [|done..]. specialize (Hk a s1).
  unfold same_board in Hk. unfold performed in *. by rewrite Hk.
Qed.

Lemma performed_on_board {A} uuid c clk (act : Board.Board -> Board.Board * res A) s :
  (forall b, (act b).1 = (Board.perform c clk b).1) -> (forall peer state, c <> Board.CTouch peer state) ->
  (forall u rq, c = Board.CPost u rq -> u = uuid) -> performed uuid s (on_board act s).1.
Proof.
  intros Hact Ht Hu. unfold on_board. destruct (si_board s) as [b|] eqn:E; [|by left]. right. exists b, c, clk.
  specialize (Hact b). destruct (act b) as [b' out]. cbn in *. by rewrite Hact.
Qed.

Lemma claim_performed call job_id uuid s : performed uuid s (claim_job call job_id s).1.
Proof.
  unfold claim_job. destruct (si_board s) as [b|] eqn:E; [|by left]. destruct (sempty job_id); [by left|].
  destruct (peers_of s) as [p|]; [|by left]. apply performed_then.
  - by eapply (performed_on_board _ (Board.CUpdate _)).
  - intros a. by destruct (Board.state _).
Qed.

Lemma queue_turn_board call sender message job_id : keeps same_board (queue_turn call sender message job_id).
Proof. intros s. unfold queue_turn. by destruct (si_queue s). Qed.

Lemma accepted_reply_shared turn : keeps same_shared (accepted_reply turn).
Proof. unfold accepted_reply. parts; by intros ?. Qed.

Lemma PeerMessage_performed call body uuid s : performed uuid s (HandlePeerMessage call body s).1.
Proof.
  unfold HandlePeerMessage. destruct (bool_decide _); [by left|]. destruct (negb _); [by left|].
  destruct (sempty _); [by left|]. destruct (sempty _); [by left|]. apply performed_then; [apply claim_performed|].
  intros _. apply (keeps_then _); [apply queue_turn_board|]. intros turn s1. apply (accepted_reply_shared turn s1).
Qed.

Lemma verb_performed act c key missing call body uuid s :
  (forall i text clk b, (act i text clk b).1 = (Board.perform (c i text) clk b).1) ->
  (forall i text peer state, c i text <> Board.CTouch peer state) ->
  (forall i text u rq, c i text <> Board.CPost u rq) ->
  performed uuid s (verb act key missing call body s).1.
Proof.
  intros Ha Ht Hp. unfold verb. cbv zeta. destruct (sempty _); [by left|]. destruct (sempty _); [by left|].
  apply performed_then; [|by intros ? ?]. eapply performed_on_board; [apply Ha|done|]. intros u rq E. by destruct (Hp _ _ _ _ E).
Qed.

Lemma routes_perform route call body s :
  In route kRoutes -> performed (gv_uuid (ca_given call)) s (ro_handler route call body s).1.
Proof.
  intros Hin. destruct (decide (ro_audience route = kPeerToken)) as [Ha|Ha].
  2: by left; apply (open_routes route call body Hin Ha s).
  unfold kRoutes in Hin. cbn [In] in Hin.
  repeat destruct Hin as [<-|Hin]; cbn [ro_audience] in Ha; try done; cbn [ro_handler].
  - unfold HandleApiJobsGet, on_board. destruct (si_board s) eqn:E; left; cbn; congruence.
  - apply performed_then; [|by intros ? ?]. eapply (performed_on_board _ (Board.CPost _ _)); [done|done|]. by intros u rq [= <- _].
  - apply performed_then; [|by intros ? ?]. by eapply (performed_on_board _ (Board.CUpdate _)).
  - by apply (verb_performed _ Board.CAnswer).
  - by apply (verb_performed _ Board.CChase).
  - by apply (verb_performed _ Board.CDrop).
  - apply PeerMessage_performed.
Qed.

(** What a request that is answered by a row goes through. *)
Lemma handle_performed route call req s s' out :
  In route kRoutes -> handle route call req s = (s', out) -> performed (gv_uuid (ca_given call)) s s'.
Proof.
  intros Hin. unfold handle. set (body := if ro_has_body route then _ else _). unfold then_, of_res.
  destruct body as [body|e|]; [|intros [= <- _]; by left..].
  pose proof (routes_perform route call body s Hin) as Hp. destruct (ro_handler route call body s) as [s1 o].
  by intros [= <- _].
Qed.

(** ** What a request comes to *)

Definition call_of (port : Z) (given : Given) (req : HttpRequest) (s : site) : Call :=
  mkCall (hr_address req) (PeerForToken (peers_of s) (BearerToken req)) (IsLoopback (hr_address req)) port given.

(** The state a row's handler starts from. *)
Definition noted (route : Route) (port : Z) (given : Given) (req : HttpRequest) (s : site) : site :=
  if bool_decide (ro_audience route = kPeerToken) && ro_needs_board route
     && negb (sempty (ca_peer (call_of port given req s)))
  then touched given (ca_peer (call_of port given req s)) s else s.

Definition admission (route : Route) (req : HttpRequest) (s : site) : Admission :=
  Admit (ro_audience route) (hr_address req) (BearerToken req) (peers_of s).

(** A row that has no part in it leaves the state, and otherwise its handler runs. *)
Lemma answer_cases route port given req s s' out :
  answer route port given req s = (s', out) ->
  (s' = s /\ ((admission route req s <> kAllowed
                /\ (exists refusal, SendRefusal (admission route req s) (ro_target route) = Some refusal /\ out = Ok refusal))
              \/ (admission route req s = kAllowed /\ ro_needs_board route = true /\ si_board s = None
                  /\ out = Ok (SendError [] 404 "This server has no board"))))
  \/ (admission route req s = kAllowed
      /\ handle route (call_of port given req s) req (noted route port given req s) = (s', out)).
Proof.
  unfold answer. fold (admission route req s). destruct (SendRefusal _ _) as [refusal|] eqn:Er.
  - intros [= <- <-]. left. split; [done|]. left. split; [|by exists refusal]. intros E. by rewrite E in Er.
  - assert (Ha : admission route req s = kAllowed) by (by destruct (admission route req s)).
    destruct (ro_needs_board route && _) eqn:En.
    + apply andb_true_iff in En as [Hn Hb%bool_decide_eq_true]. intros [= <- <-]. left. split; [done|]. right. done.
    + intros H. right. split; [done|exact H].
Qed.

Lemma dispatch_cases port given req s s' out :
  DispatchHttpRequest port given req s = (s', out) ->
  (s' = s /\ List.find (matches req) kRoutes = None)
  \/ s' = s /\ IsPageFile (w_getenv (net (si_runtime s))) (hr_target req) (net (si_runtime s)) <> Ok false
  \/ exists route, List.find (matches req) kRoutes = Some route /\ In route kRoutes
       /\ answer route port given req s = (s', out).
Proof.
  unfold DispatchHttpRequest. destruct (IsPageFile _ _ _) as [[]|e|]; try (intros [= <- _]; right; by left).
  destruct (List.find (matches req) kRoutes) as [route|] eqn:Ef; [|intros [= <- _]; by left].
  intros H. right. right. exists route. split; [done|]. split; [|done]. by apply find_some in Ef as [? _].
Qed.

(** The token of a peer, or no topology that has one. *)
Definition accepted (req : HttpRequest) (s : site) : bool :=
  match peers_of s with
  | Some p => negb (sempty (BearerToken req)) && Accepts (BearerToken req) p
  | None => false
  end.

Lemma refused_peer route req s :
  accepted req s = false -> ro_audience route = kPeerToken -> admission route req s <> kAllowed.
Proof.
  unfold accepted, admission, Admit. intros Hr ->. destruct (peers_of s) as [p|]; [|done].
  apply andb_false_iff in Hr as [Hr|Hr]; [apply negb_false_iff in Hr; by rewrite Hr|].
  rewrite Hr. by rewrite orb_true_r.
Qed.

Lemma handle_shared route call req s s' out :
  In route kRoutes -> ro_audience route <> kPeerToken -> handle route call req s = (s', out) -> same_shared s s'.
Proof.
  intros Hin Ha. unfold handle, then_, of_res. destruct (if ro_has_body route then _ else _) as [body|e|].
  2,3: by intros [= <- _].
  pose proof (open_routes route call body Hin Ha s) as Hk. destruct (ro_handler route call body s) as [s1 o].
  by intros [= <- _].
Qed.

(** *** The queue *)

Definition same_queue (s s' : site) : Prop := si_queue s' = si_queue s.

#[local] Instance same_queue_pre : PreOrder same_queue.
Proof. split; [done|]. intros s1 s2 s3. unfold same_queue. congruence. Qed.

Lemma on_board_queue {A} (f : Board.Board -> Board.Board * res A) : keeps same_queue (on_board f).
Proof. intros s. unfold on_board. destruct (si_board s) as [b|]; [|done]. by destruct (f b). Qed.

Lemma rendered_queue call f : keeps same_queue (rendered call (on_board f)).
Proof. apply (keeps_then _); [apply on_board_queue|by intros ? ?]. Qed.

Lemma verb_queue act key missing call body : keeps same_queue (verb act key missing call body).
Proof. unfold verb. cbv zeta. destruct (sempty _); [done|]. destruct (sempty _); [done|]. apply rendered_queue. Qed.

(** Only a peer's message queues a turn. *)
Lemma routes_queue route call body :
  In route kRoutes -> ro_target route <> "/api/peer/message" -> keeps same_queue (ro_handler route call body).
Proof.
  intros Hin Hm. destruct (decide (ro_audience route = kPeerToken)) as [Ha|Ha].
  2: by intros s; destruct (open_routes route call body Hin Ha s).
  unfold kRoutes in Hin. cbn [In] in Hin.
  repeat destruct Hin as [<-|Hin]; cbn [ro_audience] in Ha; try done; cbn [ro_handler].
  all: first [apply on_board_queue | apply rendered_queue | apply verb_queue].
Qed.

(** A claim that succeeds: this server's job, claimed on the board. *)
Lemma claim_job_ok call job_id s s1 b :
  claim_job call job_id s = (s1, Ok tt) -> job_id <> "" -> si_board s = Some b ->
  exists p b' j, peers_of s = Some p /\ si_board s1 = Some b' /\ Board.Find job_id b' = Some j
    /\ Board.state j = Board.kClaimed /\ Board.to j = self_name p.
Proof.
  unfold claim_job. intros H Hj Hb. rewrite Hb in H. rewrite (proj2 (sempty_false _) Hj) in H.
  destruct (peers_of s) as [p|]; [|done]. unfold then_, on_board in H. rewrite Hb in H. set (rq := Board.mkJobRequest _ _ _ _ _ _ _ _ _) in H.
  destruct (Board.Update rq (gv_clock (ca_given call)) b) as [b' [r|e|]] eqn:Eu; [|done..].
  destruct (Board.Update_found rq (gv_clock (ca_given call)) b r) as (Hf & _ & k & it & _ & Ha & Hs); [by rewrite Eu|].
  rewrite Eu in Hf. cbn [fst] in Hf. destruct Ha as (_ & _ & Hto & _). destruct Hs as (_ & _ & Ht & _).
  destruct (Board.state (Board.ar_job r)) eqn:Es; try done. injection H as <-.
  exists p, b', (Board.ar_job r). split_and!; try done. rewrite Ht, Hto. done.
Qed.

Lemma claim_queue call job_id : keeps same_queue (claim_job call job_id).
Proof.
  intros s. unfold claim_job. destruct (si_board s); [|done]. destruct (sempty job_id); [done|].
  destruct (peers_of s); [|done]. apply (keeps_then _); [apply on_board_queue|]. intros r. by destruct (Board.state _).
Qed.

(** What a turn that a message queues is. *)
Definition queued (call : Call) (s s' : site) (q : list Runner.Job) : Prop :=
  exists p sender message job_id,
    peers_of s = Some p /\ Knows sender p = true /\ message <> ""
    /\ si_queue s' = Some (q ++ [mkJob_ message None sender (gv_turn (ca_given call)) job_id])
    /\ forall b, job_id <> "" -> si_board s = Some b ->
         exists b' j, si_board s' = Some b' /\ Board.Find job_id b' = Some j /\ Board.state j = Board.kClaimed
           /\ Board.to j = self_name p.

Lemma queued_reply call sender message job_id q s :
  si_queue s = Some q ->
  let s' := ((let! turn := queue_turn call sender message job_id in accepted_reply turn) s).1 in
  si_board s' = si_board s /\ si_queue s' = Some (q ++ [mkJob_ message None sender (gv_turn (ca_given call)) job_id]).
Proof.
  intros Hq. unfold then_ at 1, queue_turn. rewrite Hq. set (s1 := mkSite _ _ _).
  destruct (accepted_reply_shared (gv_turn (ca_given call)) s1) as [H1 H2]. by rewrite H1, H2.
Qed.

Lemma PeerMessage_queue call body s q :
  si_queue s = Some q -> peers_of s <> None ->
  (si_queue (HandlePeerMessage call body s).1 = Some q /\ is_ok (HandlePeerMessage call body s).2 = false)
  \/ queued call s (HandlePeerMessage call body s).1 q.
Proof.
  intros Hq Hp. unfold HandlePeerMessage. set (sender := string_or body "from" ""). set (message := string_or body "message" "").
  rewrite bool_decide_false by (by rewrite Hq).
  destruct (known_to sender s) eqn:Ek; cbn [negb]; [|by left]. destruct (sempty sender) eqn:Es; [by left|].
  destruct (sempty message) eqn:Em; [by left|]. set (job_id := string_or body "job" "").
  unfold then_ at 1 3 5. pose proof (claim_queue call job_id s) as Hcq. unfold same_queue in Hcq.
  destruct (claim_job call job_id s) as [s1 [[]|e|]] eqn:Ec; cbn [fst] in Hcq; [right|left; cbn [fst]; by rewrite Hcq..].
  rewrite Hq in Hcq. destruct (queued_reply call sender message job_id q s1 Hcq) as [Hb1 Hq1].
  unfold queued. destruct (peers_of s) as [p|] eqn:Ep; [|done]. unfold known_to in Ek. rewrite Ep, Es in Ek.
  exists p, sender, message, job_id. split_and!; try done; [by apply sempty_false|]. intros b Hj Hb.
  destruct (claim_job_ok _ _ _ _ _ Ec Hj Hb) as (p' & b' & j & Hp' & Hb' & Hrest). exists b', j. rewrite Hb1.
  assert (p' = p) as -> by congruence. done.
Qed.

Lemma ServeFile_status getenv target n : rs_status (ServeFile getenv target n) <> 202.
Proof. unfold ServeFile. by destruct (st_read _ _). Qed.

Lemma ErrorStatus_not_202 e : ErrorStatus e <> 202.
Proof. by destruct e. Qed.

Lemma handle_other route call req s s' out :
  In route kRoutes -> ro_target route <> "/api/peer/message" -> handle route call req s = (s', out) ->
  si_queue s' = si_queue s /\ forall r, out = Ok r -> rs_status r <> 202.
Proof.
  intros Hin Hp. assert (Hst : ro_status route <> 202).
  { unfold kRoutes in Hin. cbn [In] in Hin. by repeat destruct Hin as [<-|Hin]. }
  unfold handle, then_, of_res. destruct (if ro_has_body route then _ else _) as [body|e|].
  - pose proof (routes_queue route call body Hin Hp s) as Hs. destruct (ro_handler route call body s) as [s1 o].
    intros [= <- <-]. split; [exact Hs|]. intros r. destruct o as [v|e|]; intros [= <-]; [done|apply ErrorStatus_not_202].
  - intros [= <- <-]. split; [done|]. intros r [= <-]. apply ErrorStatus_not_202.
  - by intros [= <- <-].
Qed.

Lemma handle_message route port given req s s' out q :
  In route kRoutes -> ro_target route = "/api/peer/message" -> si_queue s = Some q ->
  hr_target req = ro_target route -> hr_method req = ro_method route -> admission route req s = kAllowed ->
  handle route (call_of port given req s) req (noted route port given req s) = (s', out) ->
  (si_queue s' <> Some q ->
     accepted req s = true /\ hr_target req = "/api/peer/message" /\ hr_method req = "POST"
     /\ queued (call_of port given req s) s s' q)
  /\ (forall r, out = Ok r -> rs_status r = 202 -> si_queue s' <> Some q).
Proof.
  intros Hin Ht Hq Htr Hmr Hal. unfold kRoutes in Hin. cbn [In] in Hin.
  repeat destruct Hin as [<-|Hin]; try done. cbn in Htr, Hmr. unfold noted. cbn [ro_audience ro_needs_board andb].
  rewrite andb_false_r. cbn [andb]. unfold admission, Admit in Hal. cbn [ro_audience] in Hal.
  destruct (peers_of s) as [p|] eqn:Ep; [|done]. destruct (sempty (BearerToken req) || _) eqn:Eo; [done|].
  apply orb_false_iff in Eo as [Eb Ea%negb_false_iff].
  assert (Hacc : accepted req s = true) by (unfold accepted; by rewrite Ep, Eb, Ea).
  unfold handle, then_ at 1, of_res. cbn [ro_has_body ro_handler ro_status ro_key].
  destruct (ParseBody req) as [body|e|]; cycle 1.
  { intros [= <- <-]. split; [done|]. intros r [= <-] Hr. by destruct (ErrorStatus_not_202 e). }
  { intros [= <- <-]. by split. }
  destruct (PeerMessage_queue (call_of port given req s) body s q Hq) as [[Hsame Hno]|Hqd]; [by rewrite Ep|..].
  - destruct (HandlePeerMessage _ body s) as [s1 [v|e|]]; [done|..]; intros [= <- <-]; cbn in Hsame.
    + split; [done|]. intros r [= <-] Hr. by destruct (ErrorStatus_not_202 e).
    + by split.
  - destruct (HandlePeerMessage _ body s) as [s1 o]. intros [= <- <-]. cbn [fst] in Hqd. split; [intros _; by split_and!|].
    intros _ _ _. destruct Hqd as (p' & sender & message & job_id & _ & _ & _ & -> & _).
    intros [= E]. apply (f_equal length) in E. rewrite length_app in E. cbn in E. lia.
Qed.

(** ** The properties *)

(** C7: without the peers' token nothing of the board or the queue of turns changes,
    whatever is asked, and what only a peer may ask is refused and changes
    nothing at all. *)
Theorem Token_guards port given req s s' out :
  accepted req s = false -> DispatchHttpRequest port given req s = (s', out) ->
  si_board s' = si_board s /\ si_queue s' = si_queue s
  /\ forall route, List.find (matches req) kRoutes = Some route -> ro_audience route = kPeerToken ->
       s' = s /\ (IsPageFile (w_getenv (net (si_runtime s))) (hr_target req) (net (si_runtime s)) = Ok false ->
                  exists r, out = Ok r /\ rs_status r = (if bool_decide (peers_of s = None) then 404 else 401)).
Proof.
  intros Hacc Hd. destruct (dispatch_cases _ _ _ _ _ _ Hd) as [[-> Hn]|[[-> Hp]|(route & Hf & Hin & Ha)]].
  - split_and!; try done; congruence.
  - by split_and!.
  - destruct (decide (ro_audience route = kPeerToken)) as [Ht|Ht].
    + pose proof (refused_peer route req s Hacc Ht) as Hno.
      destruct (answer_cases _ _ _ _ _ _ _ Ha) as [(-> & [(_ & refusal & Hs & ->)|(Hal & _)])|(Hal & _)]; [|done..].
      split_and!; try done. intros route' _ _. split; [done|]. intros _. exists refusal. split; [done|].
      revert Hs. unfold admission, Admit. rewrite Ht. destruct (peers_of s) as [p|] eqn:Ep; cbn.
      * destruct (_ || _) eqn:Eo; [by intros [= <-]|done].
      * by intros [= <-].
    + assert (Hsame : same_shared s s').
      { destruct (answer_cases _ _ _ _ _ _ _ Ha) as [(-> & _)|(_ & Hh)]; [done|].
        unfold noted in Hh. rewrite bool_decide_false in Hh by done. by eapply handle_shared. }
      destruct Hsame as [Hb Hq]. split_and!; try done. intros route' Hf'. congruence.
Qed.

(** C30: every answer of a route is one envelope: an object that says whether it
    succeeded, with the status of its row when it did and an error's otherwise. *)
Theorem Envelope port given req s s' r route :
  IsPageFile (w_getenv (net (si_runtime s))) (hr_target req) (net (si_runtime s)) = Ok false ->
  List.find (matches req) kRoutes = Some route ->
  DispatchHttpRequest port given req s = (s', Ok r) ->
  exists o, rs_body r = serialize (JObject o)
    /\ ((rs_status r = ro_status route /\ obj_find "success" o = Some (JBool true))
        \/ (rs_status r ∈ [400; 401; 403; 404; 500] /\ obj_find "success" o = Some (JBool false)
            /\ exists message, obj_find "error" o = Some (JString message))).
Proof.
  intros Hp Hf Hd. unfold DispatchHttpRequest in Hd. rewrite Hp, Hf in Hd.
  assert (Hfail : forall fields status message, status ∈ [400; 401; 403; 404; 500] ->
    exists o, rs_body (SendError fields status message) = serialize (JObject o)
    /\ ((rs_status (SendError fields status message) = ro_status route /\ obj_find "success" o = Some (JBool true))
        \/ (rs_status (SendError fields status message) ∈ [400; 401; 403; 404; 500]
            /\ obj_find "success" o = Some (JBool false)
            /\ exists message, obj_find "error" o = Some (JString message)))).
  { intros fields status message Hs. eexists. split; [reflexivity|]. right. split; [done|]. split; [done|]. by exists message. }
  destruct (answer_cases _ _ _ _ _ _ _ Hd) as [(_ & [(_ & refusal & Hs & [= ->])|(_ & _ & _ & [= ->])])|(_ & Hh)].
  - destruct (admission route req s); [done|..]; injection Hs as <-; apply Hfail; set_solver.
  - apply Hfail. set_solver.
  - unfold handle in Hh. destruct (then_ _ _ _) as [s1 [result|e|]]; [| |done]; injection Hh as _ <-.
    + unfold Wrap. destruct (negb (sempty (ro_key route))); (eexists; split; [reflexivity|]; left; split; [done|];
        by rewrite obj_find_set_eq).
    + apply Hfail. destruct e; cbn; set_solver.
Qed.

(** The board stays one a board can come to, and the only peer a request makes it
    note is this server. *)
Theorem Board_stays port given req s s' out b :
  si_board s = Some b -> Board.reachable b -> gv_uuid given ∉ map Board.id (Board.jobs_ b) ->
  DispatchHttpRequest port given req s = (s', out) ->
  exists b', si_board s' = Some b' /\ Board.reachable b'
    /\ forall name, name ∈ map Board.pp_name (Board.peers_ b') ->
         name ∈ map Board.pp_name (Board.peers_ b) \/ Some name = self_name <$> peers_of s.
Proof.
  intros Hb Hr Hu Hd.
  assert (Hsame : s' = s -> exists b', si_board s' = Some b' /\ Board.reachable b'
    /\ forall name, name ∈ map Board.pp_name (Board.peers_ b') ->
         name ∈ map Board.pp_name (Board.peers_ b) \/ Some name = self_name <$> peers_of s).
  { intros ->. exists b. split_and!; try done. by left. }
  destruct (dispatch_cases _ _ _ _ _ _ Hd) as [[? _]|[[? _]|(route & _ & Hin & Ha)]]; [by apply Hsame..|].
  destruct (answer_cases _ _ _ _ _ _ _ Ha) as [[? _]|[_ Hh]]; [by apply Hsame|]. clear Hsame.
  apply (handle_performed _ _ _ _ _ _ Hin) in Hh.
  assert (Hn : exists b1, si_board (noted route port given req s) = Some b1 /\ Board.reachable b1
    /\ Board.jobs_ b1 = Board.jobs_ b
    /\ forall name, name ∈ map Board.pp_name (Board.peers_ b1) ->
         name ∈ map Board.pp_name (Board.peers_ b) \/ Some name = self_name <$> peers_of s).
  { unfold noted. destruct (_ && _) eqn:En; [|exists b; split_and!; try done; by left].
    cbn [touched si_board]. rewrite Hb. eexists. split; [reflexivity|].
    split; [by apply (Board.reach_call b (Board.CTouch _ "")); [done|]|]. split; [apply Board.TouchPeer_jobs|].
    intros name [H|H]%Board.TouchPeer_names; [by left|right]. subst name. apply andb_true_iff in En as [_ En].
    cbn [call_of ca_peer] in En |- *. revert En. unfold PeerForToken. destruct (peers_of s) as [p|]; [|done].
    by destruct (_ || _). }
  destruct Hn as (b1 & Hb1 & Hr1 & Hj1 & Hn1). destruct Hh as [Hh|(b2 & c & clk & Hb2 & Hh & Ht & Hid)].
  - exists b1. split_and!; try done. by rewrite Hh.
  - assert (b2 = b1) as -> by congruence. eexists. split; [exact Hh|]. split.
    + apply Board.reach_call; [done|]. destruct c; cbn; try done. rewrite (Hid _ _ eq_refl). cbn. by rewrite Hj1.
    + intros name. rewrite Board.perform_names by done. apply Hn1.
Qed.

(** C19: a turn is queued for nobody but a peer that presents the token and is listed,
    one per message, its job claimed for this server on the board before; and a
    message that is accepted is queued. *)
Theorem Queued_by_peer port given req s s' out q :
  si_queue s = Some q -> DispatchHttpRequest port given req s = (s', out) ->
  (si_queue s' <> Some q ->
     accepted req s = true /\ hr_target req = "/api/peer/message" /\ hr_method req = "POST"
     /\ queued (call_of port given req s) s s' q)
  /\ (forall r, out = Ok r -> rs_status r = 202 -> si_queue s' <> Some q).
Proof.
  intros Hq Hd. destruct (dispatch_cases _ _ _ _ _ _ Hd) as [[-> Hn]|[[-> Hp]|(route & Hf & Hin & Ha)]].
  - split; [done|]. intros r -> Hr. exfalso. revert Hd Hr. unfold DispatchHttpRequest.
    destruct (IsPageFile _ _ _) as [[]|e|]; [|rewrite Hn|done..]; intros [= <-]; [|done]. apply ServeFile_status.
  - split; [done|]. intros r -> Hr. exfalso. revert Hd Hr. unfold DispatchHttpRequest.
    destruct (IsPageFile _ _ _) as [[]|e|]; [|done..]. intros [= <-]. apply ServeFile_status.
  - apply find_some in Hf as [_ Hm]. apply andb_true_iff in Hm as [Ht%bool_decide_eq_true Hm%bool_decide_eq_true].
    destruct (answer_cases _ _ _ _ _ _ _ Ha) as [(-> & Hout)|(Hal & Hh)].
    + split; [done|]. intros r -> Hr. exfalso. destruct Hout as [(_ & refusal & Hs & [= ->])|(_ & _ & _ & [= ->])]; [|done].
      destruct (admission route req s); [done|..]; injection Hs as <-; done.
    + destruct (decide (ro_target route = "/api/peer/message")) as [Hp|Hp].
      * by eapply handle_message.
      * destruct (handle_other route _ _ (noted route port given req s) s' out Hin Hp Hh) as [Hs Hst].
        assert (Hnq : si_queue (noted route port given req s) = si_queue s) by (unfold noted; by destruct (_ && _)).
        split; [by rewrite Hs, Hnq|]. intros r -> Hr. exfalso. by apply (Hst r).
Qed.

End Routes.

(** ** A server on a disk *)

#[export] Instance disk_machine : Machine disk := {|
  mc_home := fun _ => None; mc_running := fun _ _ => false; mc_stat := fun _ _ => None; mc_file := fun _ _ => None;
  mc_replace := fun _ _ n => n |}.

(** A page directory that holds one script. *)
#[export] Instance disk_site : Site disk := {|
  st_exe := fun _ => Some "/opt/pu/bin/pu";
  st_directory := fun _ d => bool_decide (d = "/opt/pu/bin/web");
  st_regular := fun _ f => bool_decide (f = "/opt/pu/bin/web/app.js");
  st_read := fun _ f => if bool_decide (f = "/opt/pu/bin/web/app.js") then Some "// page" else None |}.

Definition two_peers : PeerConfig := mkPeers "me" "secret" [mkPeer "you" "http://you"; mkPeer "them" "http://them"].

Definition demo_site (b : Board.Board) : @site unit disk unit :=
  mkSite (set_peers (Some two_peers) (runtime_on two_agents (Some budget_session) 5 empty_disk)) (Some b) (Some []).

Definition no_ids : Given := mkGiven (fun _ => 0) (fun _ => 0) "u1" "t1" 7.

Definition dispatched (req : HttpRequest) (b : Board.Board) : @site unit disk unit * res Response :=
  DispatchHttpRequest (codec := bit_codec) no_servers "1.0" (fun _ => None) "/w" (fun l => l) 9000 no_ids req (demo_site b).

Definition posts (target : string) (auth : option string) (fields : object) : HttpRequest :=
  mkRequest "POST" target auth (serialize (JsonCodec := bit_codec) (JObject fields)) "10.0.0.2".

Definition status_of (out : res Response) : option Z := match out with Ok r => Some (rs_status r) | _ => None end.

Definition mine : Board.Board :=
  Board.mkBoard [Board.mkJob "j1" "you" "me" "look" Board.kOpen None "" "" None None "" None 0 0] [] [].

Definition asks_turn (auth : option string) : HttpRequest :=
  posts "/api/peer/message" auth [("from", JString "you"); ("message", JString "hi"); ("job", JString "j1")].

Lemma Token_guards_witness :
  let '(s', out) := dispatched (asks_turn (Some "Bearer wrong")) mine in
  si_board s' = Some mine /\ si_queue s' = Some [] /\ status_of out = Some 401.
Proof.
  assert (Ha : accepted (asks_turn (Some "Bearer wrong")) (demo_site mine) = false) by (vm_compute; reflexivity).
  destruct (dispatched (asks_turn (Some "Bearer wrong")) mine) as [s' out] eqn:E. unfold dispatched in E.
  pose proof (Token_guards (codec := bit_codec) no_servers "1.0" (fun _ => None) "/w" (fun l => l) 9000 no_ids
    (asks_turn (Some "Bearer wrong")) (demo_site mine) s' out Ha) as H0.
  pose proof (H0 E) as (H1 & H2 & H3).
  split; [exact H1|]. split; [exact H2|].
  destruct (H3 (mkRoute "/api/peer/message" "POST" HandlePeerMessage "" kPeerToken 202 true false false) eq_refl eq_refl)
    as [_ H4].
  destruct H4 as (r & -> & Hr); [by vm_compute|]. exact (f_equal Some Hr).
Defined.

Definition reads (target : string) (auth : option string) : HttpRequest := mkRequest "GET" target auth "" "127.0.0.1".

Lemma Envelope_witness :
  exists s' r o, dispatched (reads "/api/board" None) mine = (s', Ok r) /\ rs_status r = 200
    /\ rs_body r = serialize (JsonCodec := bit_codec) (JObject o) /\ obj_find "success" o = Some (JBool true).
Proof.
  assert (Hok : status_of (dispatched (reads "/api/board" None) mine).2 = Some 200) by (vm_compute; reflexivity).
  destruct (dispatched (reads "/api/board" None) mine) as [s' [r|e|]] eqn:E; [|done..]. injection Hok as Hst.
  pose proof (Envelope (codec := bit_codec) no_servers "1.0" (fun _ => None) "/w" (fun l => l) 9000 no_ids
    (reads "/api/board" None) (demo_site mine) s' r
    (mkRoute "/api/board" "GET" (HandleApiBoard (fun l => l)) "" kLoopback 200 false true true) eq_refl eq_refl E)
    as (o & Hb & [[_ Ho]|[Hs _]]).
  - exists s', r, o. by split_and!.
  - exfalso. rewrite Hst in Hs. set_solver.
Defined.

Lemma Board_stays_witness :
  exists b', si_board (dispatched (reads "/api/jobs" (Some "Bearer secret")) Board.new_board).1 = Some b'
    /\ Board.reachable b' /\ forall name, name ∈ map Board.pp_name (Board.peers_ b') -> name = "me".
Proof.
  destruct (dispatched (reads "/api/jobs" (Some "Bearer secret")) Board.new_board) as [s' out] eqn:E. unfold dispatched in E.
  pose proof (Board_stays (codec := bit_codec) no_servers "1.0" (fun _ => None) "/w" (fun l => l) 9000 no_ids
    (reads "/api/jobs" (Some "Bearer secret")) (demo_site Board.new_board) s' out Board.new_board eq_refl Board.reach_new
    (not_elem_of_nil _) E) as (b' & H1 & H2 & H3).
  exists b'. split; [exact H1|]. split; [exact H2|]. intros name Hn. destruct (H3 name Hn) as [Hn'|Hn'].
  - by apply elem_of_nil in Hn'.
  - by injection Hn'.
Defined.

Lemma Queued_by_peer_witness :
  let s' := (dispatched (asks_turn (Some "Bearer secret")) mine).1 in
  si_queue s' <> Some []
  /\ queued (call_of 9000 no_ids (asks_turn (Some "Bearer secret")) (demo_site mine)) (demo_site mine) s' [].
Proof.
  assert (Hq : bool_decide (length <$> si_queue (dispatched (asks_turn (Some "Bearer secret")) mine).1 = Some 1%nat) = true)
    by (vm_compute; reflexivity).
  apply bool_decide_eq_true in Hq.
  destruct (dispatched (asks_turn (Some "Bearer secret")) mine) as [s' out] eqn:E. unfold dispatched in E. cbn [fst] in Hq |- *.
  assert (Hne : si_queue s' <> Some []) by (intros H; by rewrite H in Hq).
  split; [exact Hne|].
  pose proof (Queued_by_peer (codec := bit_codec) no_servers "1.0" (fun _ => None) "/w" (fun l => l) 9000 no_ids
    (asks_turn (Some "Bearer secret")) (demo_site mine) s' out [] eq_refl E) as [H _].
  by destruct (H Hne) as (_ & _ & _ & Hqd).
Defined.

(** *** What requests also show *)

Definition noted_names (s : @site unit disk unit) : option (list string) :=
  map Board.pp_name ∘ Board.peers_ <$> si_board s.

(** Whoever of two peers reads the board, it is this server that the board notes
    as heard from. *)
Example Reader_noted_as_self :
  noted_names (dispatched (mkRequest "GET" "/api/jobs" (Some "Bearer secret") "" "10.0.0.2") mine).1 = Some ["me"].
Proof. by vm_compute. Qed.

(** The page of this machine has no token, so what a person may do with a job is
    refused to it. *)
Example Page_cannot_drop :
  status_of (dispatched (mkRequest "POST" "/api/jobs/drop" None
    (serialize (JsonCodec := bit_codec) (JObject [("job", JString "j1"); ("note", JString "no")])) "127.0.0.1") mine).2
  = Some 401.
Proof. by vm_compute. Qed.

(** A setting, on the other hand, is anyone's to change. *)
Example Anyone_sets :
  let '(s, out) := dispatched (posts "/api/settings" None [("name", JString "tool_budget"); ("value", JInt64 9)]) mine in
  status_of out = Some 200 /\ tool_budget_shown (si_runtime s) = Ok (Some (JInt64 9)).
Proof. vm_compute. done. Qed.

(** A page file is a plain name in the page's directory. *)
Example Serves_page :
  let ask target := status_of (dispatched (mkRequest "GET" target None "" "10.0.0.2") mine).2 in
  ask "/app.js" = Some 200 /\ ask "/../app.js" = Some 404 /\ ask "/web/app.js" = Some 404.
Proof. by vm_compute. Qed.
