(* ===== verification/Approval.v ===== *)
(** * The approval gate ([src/runtime/executor.cpp], [include/pu/runtime/executor.hpp])

    A command the policy wants approved parks the thread of the turn until a page
    answers.  [AskApproval] runs on that thread and [ResolveApproval] on the
    thread of the sockets, each part of them under one lock being one step; a
    cancel sets the token of the turn and is a step as well. *)
From Stdlib Require Import Ascii.
From S2P Require Export Prelude.

(** ** The gate *)

(** Where the thread of the turn is: the question was not told to the page yet,
    or it was. *)
Inductive place := Elsewhere | Asking (command : string) | Waiting (command : string).

Record gate := mkGate {
  approval_answered_ : bool;
  approval_allowed_ : bool;
  approval_answer_note_ : string;
  cancelled_ : bool;
  turn_at : place;
  (** What the page was asked, and what [AskApproval] returned, in order. *)
  told : list string;
  verdicts : list (string * bool * string);
}.

Definition new_gate : gate := mkGate false false "" false Elsewhere [] [].

Inductive act :=
  | GAsk (command : string)
  | GTell
  | GReturn
  | GResolve (allow : bool) (note : string)
  | GCancel.

Definition ResolveApproval (allow : bool) (note : string) (g : gate) : gate :=
  mkGate true allow note (cancelled_ g) (turn_at g) (told g) (verdicts g).

(** [AskApproval] up to its first unlock, its callback, and the end of its wait. *)
Definition ask (command : string) (g : gate) : gate :=
  mkGate false (approval_allowed_ g) "" (cancelled_ g) (Asking command) (told g) (verdicts g).
Definition tell (command : string) (g : gate) : gate :=
  mkGate (approval_answered_ g) (approval_allowed_ g) (approval_answer_note_ g) (cancelled_ g) (Waiting command)
    (told g ++ [command]) (verdicts g).
Definition wake (command : string) (g : gate) : gate :=
  mkGate (approval_answered_ g) (approval_allowed_ g) (approval_answer_note_ g) (cancelled_ g) Elsewhere (told g)
    (verdicts g ++ [(command, approval_allowed_ g, approval_answer_note_ g)]).
Definition cancel (g : gate) : gate :=
  mkGate (approval_answered_ g) (approval_allowed_ g) (approval_answer_note_ g) true (turn_at g) (told g) (verdicts g).

Definition gate_step (a : act) (g : gate) : option gate :=
  match a, turn_at g with
  | GAsk command, Elsewhere => Some (ask command g)
  | GTell, Asking command => Some (tell command g)
  | GReturn, Waiting command => if approval_answered_ g then Some (wake command g) else None
  | GResolve allow note, _ => Some (ResolveApproval allow note g)
  | GCancel, _ => Some (cancel g)
  | _, _ => None
  end.

Fixpoint gate_run (l : list act) (g : gate) : option gate :=
  match l with [] => Some g | a :: l => g ← gate_step a g; gate_run l g end.

(** ** What an answer answers *)

Definition is_ask (a : act) : bool := match a with GAsk _ => true | _ => false end.
Definition is_resolve (a : act) : bool := match a with GResolve _ _ => true | _ => false end.

(** What was done since the last question. *)
Fixpoint since_ask (l : list act) : option (string * list act) :=
  match l with
  | [] => None
  | a :: l =>
      match since_ask l, a with
      | Some r, _ => Some r
      | None, GAsk command => Some (command, l)
      | None, _ => None
      end
  end.

(** The last answer of a sequence. *)
Definition last_answer (l : list act) : option (bool * string) :=
  last (omap (fun a => match a with GResolve allow note => Some (allow, note) | _ => None end) l).

Definition answer_of (g : gate) : option (bool * string) :=
  if approval_answered_ g then Some (approval_allowed_ g, approval_answer_note_ g) else None.

Lemma since_ask_snoc l a :
  since_ask (l ++ [a]) = match a with
                         | GAsk command => Some (command, [])
                         | _ => match since_ask l with Some (command, r) => Some (command, r ++ [a]) | None => None end
                         end.
Proof.
  induction l as [|b l IH]; [by destruct a|]. cbn. rewrite IH. destruct a; [done|..].
  all: destruct (since_ask l) as [[command r]|]; [done|]; by destruct b.
Qed.

Lemma last_answer_snoc l a :
  last_answer (l ++ [a]) = match a with GResolve allow note => Some (allow, note) | _ => last_answer l end.
Proof.
  unfold last_answer. rewrite omap_app. destruct a; cbn; rewrite ?app_nil_r; [done|done|done| |done].
  by rewrite last_snoc.
Qed.

Lemma gate_run_app l1 l2 g : gate_run (l1 ++ l2) g = (g1 ← gate_run l1 g; gate_run l2 g1).
Proof. revert g. induction l1 as [|a l1 IH]; intros g; [done|]. cbn. by destruct (gate_step a g); cbn. Qed.

(** The command the thread of the turn is about. *)
Definition about (g : gate) : option string :=
  match turn_at g with Elsewhere => None | Asking command | Waiting command => Some command end.

(** The gate of a run: the answer it holds is the last one since the question. *)
Definition follows (l : list act) (g : gate) : Prop :=
  match about g with
  | Some command => exists r, since_ask l = Some (command, r) /\ answer_of g = last_answer r
  | None => True
  end.

Lemma gate_run_follows l g : gate_run l new_gate = Some g -> follows l g.
Proof.
  revert g. induction l as [|a l IH] using rev_ind; intros g; [by intros [= <-]|].
  rewrite gate_run_app. destruct (gate_run l new_gate) as [g0|]; [|done]. cbn [mbind option_bind gate_run].
  specialize (IH g0 eq_refl). unfold follows in *. rewrite since_ask_snoc.
  destruct a as [command| | |allow note|]; cbn [gate_step];
    destruct (turn_at g0) as [|c0|c0] eqn:Et; unfold about in *; rewrite ?Et in IH; try done; cbn [mbind option_bind].
  all: try (destruct (approval_answered_ g0) eqn:Ea; [|done]; cbn [mbind option_bind]).
  all: intros [= <-]; cbn [turn_at ask tell wake ResolveApproval cancel]; rewrite ?Et; try done.
  - by exists [].
  - destruct IH as (r & -> & Hr). exists (r ++ [GTell]). by rewrite last_answer_snoc.
  - destruct IH as (r & -> & Hr). exists (r ++ [GResolve allow note]). by rewrite last_answer_snoc.
  - destruct IH as (r & -> & Hr). exists (r ++ [GResolve allow note]). by rewrite last_answer_snoc.
  - destruct IH as (r & -> & Hr). exists (r ++ [GCancel]). by rewrite last_answer_snoc.
  - destruct IH as (r & -> & Hr). exists (r ++ [GCancel]). by rewrite last_answer_snoc.
Qed.


(** Without an answer the wait does not end: whatever else happens, a cancel of
    the turn included, its thread stays parked on the same command. *)
Theorem Cancel_does_not_wake l g g' command :
  turn_at g = Waiting command -> approval_answered_ g = false -> forallb (negb ∘ is_resolve) l = true ->
  gate_run l g = Some g' -> turn_at g' = Waiting command /\ verdicts g' = verdicts g.
Proof.
  revert g. induction l as [|a l IH]; intros g Hw Hn Hl; [by intros [= <-]|].
  cbn [forallb] in Hl. apply andb_true_iff in Hl as [Ha Hl]. cbn [gate_run].
  destruct a; cbn [gate_step is_resolve compose negb] in *; rewrite ?Hw, ?Hn; try done; cbn [mbind option_bind].
  intros Hrun. by apply (IH (cancel g)).
Qed.

(** ** Runs *)


Lemma Cancel_does_not_wake_witness :
  exists g, gate_run [GAsk "rm x"; GTell; GCancel; GCancel] new_gate = Some g /\ turn_at g = Waiting "rm x".
Proof.
  destruct (gate_run [GCancel; GCancel] (tell "rm x" (ask "rm x" new_gate))) as [g|] eqn:E; [|by vm_compute in E].
  exists g. split; [exact E|].
  exact (proj1 (Cancel_does_not_wake [GCancel; GCancel] (tell "rm x" (ask "rm x" new_gate)) g "rm x" eq_refl eq_refl eq_refl E)).
Defined.

(** An answer names no command: one sent twice allows the command that is asked
    about next, before the page is told of it. *)
Example Second_answer_allows_next :
  (verdicts <$> gate_run [GAsk "ls"; GTell; GResolve true ""; GReturn; GAsk "rm x"; GResolve true ""; GTell; GReturn] new_gate)
  = Some [("ls", true, ""); ("rm x", true, "")].
Proof. reflexivity. Qed.
