(* ===== verification/Probe.v ===== *)
(** * Probes and model checks ([src/llm/probe.cpp], [src/llm/model_check.cpp])

    A probe captures what a gateway really sends, a stream or a listing, and
    reports the names it carried at each level and those the built-in shape reads
    that never came.  A model check asks every listed model for one token.

    The network, the signal flag and the source of ids are those of [Workspace];
    writing the capture to a file is a parameter. *)
From Stdlib Require Import Ascii.
From S2P Require Export Prelude Text Json Sse Models Gateway Http Provider OpenAI Ollama Workspace.

(** ** Names by level *)

(** [std::map<std::string, std::set<std::string>>] *)
Abbreviation Keys := (gmap string (gset string)).

Definition note_key (level name : string) (keys : Keys) : Keys :=
  <[level := {[name]} ∪ default ∅ (keys !! level)]> keys.

Definition note_members (level : string) (o : object) (keys : Keys) : Keys :=
  foldl (fun keys name => note_key level name keys) keys o.*1.

Definition CollectKeys (j : value) (level : string) (keys : Keys) : Keys :=
  match if_object j with Some obj => note_members level obj keys | None => keys end.

(** A member's own name at a level, then the names under it at the level that
    reaches it. *)
Definition note_nested (level : string) (o : object) (keys : Keys) : Keys :=
  foldl (fun keys '(name, v) =>
      let keys := note_key level name keys in
      CollectKeys v (level +:+ "." +:+ name) keys) keys o.

(** The first choice is read with [as_object], which throws on anything else. *)
Definition collect_choice (obj : object) (keys : Keys) : res Keys :=
  match obj_find "choices" obj with
  | Some (JArray (first :: _)) =>
      match if_object first with
      | None => Throw (StdException "not an object")
      | Some choice =>
          let keys := note_members "choice" choice keys in
          Ok (match obj_find "delta" choice with Some delta => CollectKeys delta "delta" keys | None => keys end)
      end
  | _ => Ok keys
  end.

Definition collect_usage (obj : object) (keys : Keys) : Keys :=
  match obj_find "usage" obj with
  | Some (JObject u) => note_nested "usage" u keys
  | _ => keys
  end.

Definition CollectOpenAIShape (j : value) (keys : Keys) : res Keys :=
  let keys := CollectKeys j "top-level" keys in
  match if_object j with
  | None => Ok keys
  | Some obj => let? keys := collect_choice obj keys in Ok (collect_usage obj keys)
  end.

Definition CollectOllamaShape (frame : value) (keys : Keys) : Keys :=
  let keys := CollectKeys frame "top-level" keys in
  match if_object frame with
  | None => keys
  | Some obj => match obj_find "message" obj with Some msg => CollectKeys msg "message" keys | None => keys end
  end.

Definition CollectListingKeys (entry : value) (keys : Keys) : Keys :=
  match if_object entry with Some obj => note_nested "entry" obj keys | None => keys end.

(** Whether any level named the field. *)
Definition present (keys : Keys) (field : string) : bool :=
  existsb (fun '(_, names) => bool_decide (field ∈ names)) (map_entries keys).

(** A [std::set] is read in order. *)
Definition name_le (a b : string) : Prop := Is_true (String.leb a b).

#[export] Instance name_le_dec a b : Decision (name_le a b).
Proof. unfold name_le. apply _. Defined.

Definition set_entries (names : gset string) : list string := merge_sort name_le (elements names).

Definition FormatKeys (keys : Keys) : string :=
  foldr String.append ""
    (map (fun '(level, names) => level +:+ " : " +:+ String.concat ", " (set_entries names) +:+ NL) (map_entries keys)).

Definition FormatAbsent (absent : list string) (heading closing : string) : string :=
  match absent with
  | [] => ""
  | _ => NL +:+ heading +:+ NL +:+ foldr String.append "" (map (fun field => "  " +:+ field +:+ NL) absent)
         +:+ closing +:+ NL
  end.

(** ** Reports *)

Record ProbeReport := mkProbeReport {
  pb_gateway : string; pb_host : string; pb_model : string; pb_http_status : Z; pb_bytes : nat; pb_frames : nat;
  pb_stream_parsed : bool; pb_keys : Keys; pb_shape_fields_absent : list string; pb_error : string
}.

Record ListingReport := mkListingReport {
  lr_gateway : string; lr_url : string; lr_http_status : Z; lr_bytes : nat; lr_entries : nat; lr_parsed : bool;
  lr_keys : Keys; lr_shape_fields_absent : list string; lr_error : string
}.

Definition FormatProbeReport (report : ProbeReport) : string :=
  "gateway: " +:+ pb_gateway report +:+ "  host: " +:+ pb_host report +:+ "  model: " +:+ pb_model report +:+ NL
  +:+ "bytes: " +:+ decimal (Z.of_nat (pb_bytes report)) +:+ "  frames parsed: "
  +:+ decimal (Z.of_nat (pb_frames report)) +:+ NL
  +:+ (if pb_stream_parsed report then
         FormatKeys (pb_keys report)
         +:+ FormatAbsent (pb_shape_fields_absent report)
               "fields the built-in ResponseShape reads that this stream never sent:"
               "an adapter for this gateway names these differently, or drops them"
       else NL +:+ "No frame parsed. Raw stream follows:" +:+ NL +:+ pb_error report +:+ NL).

Definition FormatListingReport (report : ListingReport) : string :=
  "gateway: " +:+ lr_gateway report +:+ "  listing: " +:+ lr_url report +:+ NL
  +:+ "http " +:+ decimal (lr_http_status report) +:+ "  "
  +:+ (if sempty (lr_error report) then
         "bytes: " +:+ decimal (Z.of_nat (lr_bytes report)) +:+ "  entries: "
         +:+ decimal (Z.of_nat (lr_entries report)) +:+ NL
         +:+ FormatKeys (lr_keys report)
         +:+ FormatAbsent (lr_shape_fields_absent report)
               "fields the catalogue shape reads that this listing never sent:"
               "a shape for this gateway names these differently, or drops them"
       else lr_error report +:+ NL).

(** ** What is asked *)

Definition ShapeFor (id : GatewayId) : res (option ResponseShape) :=
  res_map (fun row => if bool_decide (gw_protocol row = "openai") then Some default_shape else None) (GatewayForId id).

Definition SpeaksOllama (id : GatewayId) : res bool :=
  res_map (fun row => bool_decide (gw_protocol row = "ollama")) (GatewayForId id).

Definition user_prompt (prompt : string) : value :=
  JArray [JObject [("role", JString "user"); ("content", JString prompt)]].

Definition ProbeBody `{JsonCodec} (backend : Backend) (prompt : string) : res string :=
  let? ollama := SpeaksOllama (gateway backend) in
  Ok (serialize (JObject
        ([("model", JString (model backend)); ("stream", JBool true)]
         ++ (if ollama : bool then [] else [("stream_options", JObject [("include_usage", JBool true)])])
         ++ [("messages", user_prompt prompt)]))).

(** The headers of a row's listing: CodeBuddy's, for a conversation of its own. *)
Definition listing_headers {N} (nibble : N -> N * Z) (row : Gateway) (n : N) : N * list string :=
  match gw_make_listing row with
  | CodeBuddyModelLister => let '(n, id) := Generate nibble n in CodeBuddyHeaders nibble id n
  | _ => (n, [])
  end.

Definition ProbeHeaders {N} (nibble : N -> N * Z) (backend : Backend) (extra : list string) (n : N)
    : N * res (list string) :=
  let '(n, headers) :=
    match extra with
    | [] => match GatewayForId (gateway backend) with
            | Ok row => let '(n, l) := listing_headers nibble row n in (n, Ok l)
            | Throw e => (n, Throw e)
            | Undef => (n, Undef)
            end
    | _ => (n, Ok extra)
    end in
  (n, let? headers := headers in
      let headers := if existsb (starts_with "Content-Type:") headers then headers
                     else headers ++ ["Content-Type: application/json"] in
      let bearer := BearerHeader (default "" (api_key backend)) in
      Ok (headers ++ (if sempty bearer then [] else [bearer]))).

(** ** Captures *)

Section Capture.
Context `{codec : JsonCodec}.

Definition event_frame (o : out) : option value :=
  match o with
  | OnEvent e => if sempty (data e) || bool_decide (data e = "[DONE]") then None else parse (data e)
  | OnRetry _ => None
  end.

(** The frames [ForEachFrame] calls back with, in order. *)
Definition ForEachFrame (raw : string) : list value :=
  let '(p, outs) := Feed (new_parser true false) raw in
  let '(_, last) := Finish p in
  omap event_frame (outs ++ last).

Definition collect_frame (ollama : bool) (frame : value) (keys : Keys) : res Keys :=
  if ollama then Ok (CollectOllamaShape frame keys) else CollectOpenAIShape frame keys.

Fixpoint collect_frames (ollama : bool) (frames : list value) (keys : Keys) : res Keys :=
  match frames with
  | [] => Ok keys
  | frame :: frames => let? keys := collect_frame ollama frame keys in collect_frames ollama frames keys
  end.

(** What is reported of a capture. *)
Definition read_capture (backend : Backend) (raw : string) : res ProbeReport :=
  let? name := GatewayName (gateway backend) in
  let? ollama := SpeaksOllama (gateway backend) in
  let frames := ForEachFrame raw in
  let? keys := collect_frames ollama frames ∅ in
  let parsed := (0 <? length frames)%nat in
  let? shape := ShapeFor (gateway backend) in
  Ok (mkProbeReport name (host backend) (model backend) 0 (slen raw) (length frames) parsed keys
        (match shape with
         | Some shape => if parsed then AbsentShapeFields shape (present keys) false else []
         | None => []
         end) "").

(** [parsed] is the answer of the listing's endpoint. *)
Definition listing_search (parsed : value) : option object :=
  match if_object parsed with
  | None => None
  | Some top => Some (match obj_find "data" top with Some (JObject inner) => inner | _ => top end)
  end.

(** The container a shape names and the catalogue beside it, each read whole. *)
Definition collect_container (search : object) (key : string) (found : nat * Keys) : nat * Keys :=
  if sempty key then found
  else match obj_find key search with
       | Some (JArray ((_ :: _) as entries)) =>
           (length entries, foldl (fun keys entry => CollectListingKeys entry keys) found.2 entries)
       | _ => found
       end.

Definition listing_fields (shape : CatalogShape) : list string :=
  [sh_id_key shape; sh_supports_tools shape; sh_supports_images shape; sh_supports_reasoning shape;
   sh_only_reasoning shape; sh_effort_field shape; sh_max_input_tokens shape; sh_credits shape].

Definition read_listing (name url : string) (shape : CatalogShape) (response : Http.Response) : ListingReport :=
  let bytes := slen (body response) in
  match parse (body response) with
  | None => mkListingReport name url (status response) bytes 0 false ∅ [] "the answer does not parse as JSON"
  | Some parsed =>
      let keys := match if_object parsed with Some top => note_nested "top-level" top ∅ | None => ∅ end in
      let '(entries, keys) :=
        match listing_search parsed with
        | Some search =>
            collect_container search (sh_id_key shape) (collect_container search (sh_container shape) (0%nat, keys))
        | None => (0%nat, keys)
        end in
      mkListingReport name url (status response) bytes entries true keys
        (List.filter (fun field => negb (sempty field) && negb (present keys field)) (listing_fields shape)) ""
  end.

End Capture.

(** ** Over the network *)

Section Probe.
#[local] Set Default Proof Using "Type*".
Context `{codec : JsonCodec} {N : Type}.
Context (interrupted : N -> bool) (dial : Http.Request -> N -> N * Network) (nibble : N -> N * Z).
(** [std::ofstream] in binary mode: the path, the bytes. *)
Context (write_file : string -> string -> N -> N).

Definition keep_raw (piece : string) (s : N * string) : (N * string) * res nat :=
  ((s.1, s.2 +:+ piece), Ok (slen piece)).

Definition dial_raw (rq : Http.Request) (s : N * string) : (N * string) * Network :=
  let '(n, net) := dial rq s.1 in ((n, s.2), net).

Definition probe_url (backend : Backend) : res string :=
  res_map (fun path => host backend +:+ path) (GatewayEndpointPath (gateway backend)).

Definition ProbeStream (backend : Backend) (prompt : string) (raw_path : option string) (n : N)
    : N * res ProbeReport :=
  and_then (n, probe_url backend) (fun url n =>
  and_then (n, ProbeBody backend prompt) (fun body n =>
  and_then (ProbeHeaders nibble backend [] n) (fun headers n =>
  let '((n, raw), out) :=
    PostStream None (fun s => interrupted s.1) dial_raw url body headers keep_raw (n, "") in
  and_then (n, out) (fun _ n =>
  let n := match raw_path with Some path => if sempty path then n else write_file path raw n | None => n end in
  (n, read_capture backend raw))))).

Definition ProbeListing (backend : Backend) (n : N) : N * res ListingReport :=
  and_then (n, GatewayForId (gateway backend)) (fun row n =>
  match ListingTargetFor (gw_protocol row) (gw_name row) (host backend) with
  | None => (n, Ok (mkListingReport (gw_name row) "" 0 0 0 false ∅ []
                      ("no listing is known for gateway " +:+ gw_name row)))
  | Some (url, shape) =>
      and_then (ProbeHeaders nibble backend [] n) (fun headers n =>
      and_then (Get dial url headers n) (fun response n =>
      (n, Ok (read_listing (gw_name row) url shape response))))
  end).

(** ** Model checks *)

Record ModelCheck := mkCheck { ck_model : string; ck_answered : bool; ck_detail : string }.

Definition kProbeMaxTokens : Z := 1.

Definition SendsNoLevel (level : ThinkingLevel) : bool :=
  match level with kNone | kServerDefault => true | _ => false end.

Definition MissingLevelReason (entry : ModelEntry) : string :=
  "this model is answered only with a reasoning level and this backend sends none; set thinking to low, medium or high"
  +:+ (if sempty (default_effort (me_caps entry)) then ""
       else " (the catalogue's own default is " +:+ default_effort (me_caps entry) +:+ ")").

Definition with_max_tokens (cap : option Z) (b : Backend) : Backend :=
  mkBackend (gateway b) (host b) (model b) (api_key b) (temperature b) (system_prompt_ b) cap (thinking b)
    (context_window b).

Definition ping : ChatMessage := mkMessage 0 "" kUserRole "ping" "" JNull [] "" "".

(** [provider->Chat] of a provider made for the one request, without a token. *)
Definition asks_once {E} (protocol : Protocol E) (host_ : string) (fresh : provider E) (n : N) : N * res ChatResult :=
  let '(_, n, out) := Chat protocol host_ None interrupted dial [ping] [] fresh n in (n, out).

Definition fresh_openai : provider OpenAIProtocol := mkProvider no_accum new_openai [].

(** [CreateBackend] and [Chat] of what it made. *)
Definition probe_model (probe : Backend) (n : N) : N * res ChatResult :=
  and_then (n, CreateBackend probe) (fun made n =>
  let '(kind, pc) := made in
  match kind with
  | OllamaProvider => asks_once (OllamaProvider_ pc) (pc_host pc) (mkProvider no_accum tt []) n
  | OpenAIProvider => asks_once (OpenAIProvider_ (mkConfig pc [] default_shape)) (pc_host pc) fresh_openai n
  | CodeBuddyProvider =>
      let '(n, id) := Generate nibble n in
      let '(n, headers) := CodeBuddyHeaders nibble id n in
      asks_once (OpenAIProvider_ (mkConfig pc headers default_shape)) (pc_host pc) fresh_openai n
  end).

(** The body of the loop; only undefined behaviour leaves it. *)
Definition verify_model (cfg : Backend) (entry : ModelEntry) (n : N) : N * res ModelCheck :=
  if only_reasoning (me_caps entry) && SendsNoLevel (thinking cfg) then
    (n, Ok (mkCheck (me_id entry) false (MissingLevelReason entry)))
  else
    let probe := with_max_tokens (Some kProbeMaxTokens) (with_model (me_id entry) cfg) in
    let '(n, out) := probe_model probe n in
    (n, match out with
        | Ok _ => Ok (mkCheck (me_id entry) true "")
        | Throw e => Ok (mkCheck (me_id entry) false (what e))
        | Undef => Undef
        end).

Fixpoint VerifyModels (cfg : Backend) (models : list ModelEntry) (n : N) : N * res (list ModelCheck) :=
  match models with
  | [] => (n, Ok [])
  | entry :: models =>
      and_then (verify_model cfg entry n) (fun check n =>
      and_then (VerifyModels cfg models n) (fun checks n => (n, Ok (check :: checks))))
  end.

End Probe.

(** ** What the names are *)

(** [keys] holds the name at the level. *)
Definition named (keys : Keys) (level name : string) : Prop := name ∈ default ∅ (keys !! level).

(** The members of an object, at a level; and those of its object members, at
    the levels that reach them. *)
Definition member_of (o : object) (at_ : string) (level name : string) : Prop :=
  level = at_ /\ name ∈ o.*1.

Definition nested_of (o : object) (at_ : string) (level name : string) : Prop :=
  member_of o at_ level name
  \/ exists key inner, (key, JObject inner) ∈ o /\ member_of inner (at_ +:+ "." +:+ key) level name.

(** The names of a frame, level by level. *)
Inductive carries : bool -> value -> string -> string -> Prop :=
  | carries_top ollama o level name : member_of o "top-level" level name -> carries ollama (JObject o) level name
  | carries_message o inner level name :
      obj_find "message" o = Some (JObject inner) -> member_of inner "message" level name ->
      carries true (JObject o) level name
  | carries_choice o choice more level name :
      obj_find "choices" o = Some (JArray (JObject choice :: more)) -> member_of choice "choice" level name ->
      carries false (JObject o) level name
  | carries_delta o choice more delta level name :
      obj_find "choices" o = Some (JArray (JObject choice :: more)) ->
      obj_find "delta" choice = Some (JObject delta) -> member_of delta "delta" level name ->
      carries false (JObject o) level name
  | carries_usage o usage level name :
      obj_find "usage" o = Some (JObject usage) -> nested_of usage "usage" level name ->
      carries false (JObject o) level name.

Lemma named_note_key keys at_ key level name :
  named (note_key at_ key keys) level name <-> (level = at_ /\ name = key) \/ named keys level name.
Proof.
  unfold named, note_key. destruct (decide (level = at_)) as [->|Hne].
  - rewrite lookup_insert_eq. cbn [default]. set_solver.
  - rewrite lookup_insert_ne by done. naive_solver.
Qed.

Lemma named_note_members keys at_ o level name :
  named (note_members at_ o keys) level name <-> member_of o at_ level name \/ named keys level name.
Proof.
  unfold note_members, member_of. revert keys. induction o as [|[key v] o IH]; intros keys; cbn [fmap list_fmap foldl fst].
  - set_solver.
  - rewrite IH, named_note_key. set_solver.
Qed.

Lemma named_CollectKeys keys at_ j level name :
  named (CollectKeys j at_ keys) level name
  <-> (exists o, j = JObject o /\ member_of o at_ level name) \/ named keys level name.
Proof.
  unfold CollectKeys. destruct j; cbn [if_object]; try (split; [by right|]; by intros [(? & [=] & _)|?]).
  rewrite named_note_members. naive_solver.
Qed.

Lemma named_note_nested keys at_ o level name :
  named (note_nested at_ o keys) level name <-> nested_of o at_ level name \/ named keys level name.
Proof.
  unfold note_nested, nested_of. revert keys. induction o as [|[key v] o IH]; intros keys; cbn [foldl].
  - unfold member_of. set_solver.
  - rewrite IH, named_CollectKeys, named_note_key. unfold member_of. cbn [fmap list_fmap fst]. split.
    + intros [[[-> H]|(k & inner & Hin & H)]|[(inner & -> & H)|[[-> ->]|H]]]; [set_solver|..|set_solver|by right].
      * left. right. exists k, inner. split; [set_solver|done].
      * left. right. exists key, inner. split; [set_solver|done].
    + intros [[[-> H]|(k & inner & Hin & H)]|H]; [set_solver|..|set_solver].
      apply elem_of_cons in Hin as [[= -> <-]|Hin]; [|naive_solver]. right. left. naive_solver.
Qed.

(** The first choice of a frame is not an object. *)
Definition odd_choice (frame : value) : Prop :=
  exists o first more, frame = JObject o /\ obj_find "choices" o = Some (JArray (first :: more))
    /\ if_object first = None.

Definition choice_of (o : object) (level name : string) : Prop :=
  exists choice more, obj_find "choices" o = Some (JArray (JObject choice :: more))
    /\ (member_of choice "choice" level name
        \/ exists delta, obj_find "delta" choice = Some (JObject delta) /\ member_of delta "delta" level name).

Lemma collect_choice_spec o keys :
  (exists keys', collect_choice o keys = Ok keys' /\ ~ odd_choice (JObject o)
     /\ forall level name, named keys' level name <-> choice_of o level name \/ named keys level name)
  \/ (collect_choice o keys = Throw (StdException "not an object") /\ odd_choice (JObject o)).
Proof.
  unfold collect_choice, choice_of. destruct (obj_find "choices" o) as [[| | | | | |[|first more]|]|] eqn:Ec;
    try (left; exists keys; split; [done|]; split; [intros (? & ? & ? & [= <-] & H & _); congruence|];
         intros level name; split; [by right|]; intros [(? & ? & [=] & _)|?]; done).
  destruct (if_object first) as [choice|] eqn:Ef; [|right; split; [done|]; by exists o, first, more].
  assert (first = JObject choice) as -> by (destruct first; cbn in Ef; congruence).
  left. eexists. split; [reflexivity|].
  split; [intros (? & ? & ? & [= <-] & H & Hn); rewrite Ec in H; by injection H as <- <-|].
  intros level name. destruct (obj_find "delta" choice) as [d|] eqn:Ed.
  - rewrite named_CollectKeys, named_note_members. split.
    + intros [(delta & -> & H)|[H|H]]; [left; exists choice, more; naive_solver..|by right].
    + intros [(c & m & [= <- <-] & [H|(delta & Hd & H)])|H]; [tauto| |tauto].
      rewrite Ed in Hd. injection Hd as ->. left. by exists delta.
  - rewrite named_note_members. split.
    + intros [H|H]; [left; exists choice, more; naive_solver|by right].
    + intros [(c & m & [= <- <-] & [H|(delta & Hd & H)])|H]; [tauto|congruence|tauto].
Qed.

Lemma named_collect_usage o keys level name :
  named (collect_usage o keys) level name
  <-> (exists usage, obj_find "usage" o = Some (JObject usage) /\ nested_of usage "usage" level name)
      \/ named keys level name.
Proof.
  unfold collect_usage. destruct (obj_find "usage" o) as [[]|];
    try (split; [by right|]; by intros [(? & [=] & _)|?]).
  rewrite named_note_nested. naive_solver.
Qed.

Lemma carries_openai o level name :
  carries false (JObject o) level name <->
  member_of o "top-level" level name \/ choice_of o level name
  \/ exists usage, obj_find "usage" o = Some (JObject usage) /\ nested_of usage "usage" level name.
Proof.
  split.
  - intros H. inversion H; subst; unfold choice_of; naive_solver.
  - intros [H|[(c & m & Hc & [H|(d & Hd & H)])|(u & Hu & H)]].
    + by constructor.
    + by eapply carries_choice.
    + by eapply carries_delta.
    + by eapply carries_usage.
Qed.

Lemma CollectOllamaShape_spec frame keys level name :
  named (CollectOllamaShape frame keys) level name <-> carries true frame level name \/ named keys level name.
Proof.
  unfold CollectOllamaShape. destruct frame as [| | | | | | |o]; cbn [if_object CollectKeys];
    try (split; [by right|]; intros [H|H]; [inversion H|done]).
  destruct (obj_find "message" o) as [m|] eqn:Em.
  - rewrite named_CollectKeys, named_note_members. split.
    + intros [(inner & -> & H)|[H|H]]; [left; by eapply carries_message|left; by constructor|by right].
    + intros [H|H]; [|tauto]. inversion H; subst; [tauto|]. left. exists inner. split; congruence.
  - rewrite named_note_members. split.
    + intros [H|H]; [left; by constructor|by right].
    + intros [H|H]; [|tauto]. inversion H; subst; [tauto|congruence].
Qed.

Lemma collect_frame_spec ollama frame keys :
  (exists keys', collect_frame ollama frame keys = Ok keys'
     /\ (forall level name, named keys' level name <-> carries ollama frame level name \/ named keys level name)
     /\ (ollama = false -> ~ odd_choice frame))
  \/ (collect_frame ollama frame keys = Throw (StdException "not an object") /\ ollama = false /\ odd_choice frame).
Proof.
  destruct ollama; cbn [collect_frame].
  { left. eexists. split; [reflexivity|]. split; [|done]. apply CollectOllamaShape_spec. }
  unfold CollectOpenAIShape. destruct frame as [| | | | | | |o]; cbn [if_object CollectKeys];
    try (left; eexists; split; [reflexivity|]; split;
         [intros level name; split; [by right|]; intros [H|H]; [inversion H|done]|intros _ (? & ? & ? & [=] & _)]).
  destruct (collect_choice_spec o (note_members "top-level" o keys)) as [(keys1 & -> & Hodd & H1)|[-> Hodd]]; [|by right].
  left. cbn [res_bind]. eexists. split; [reflexivity|]. split; [|done]. intros level name.
  rewrite named_collect_usage, H1, named_note_members, carries_openai. tauto.
Qed.

Lemma collect_frames_spec ollama frames keys :
  (exists keys', collect_frames ollama frames keys = Ok keys'
     /\ (forall level name, named keys' level name
          <-> (exists frame, frame ∈ frames /\ carries ollama frame level name) \/ named keys level name)
     /\ (ollama = false -> forall frame, frame ∈ frames -> ~ odd_choice frame))
  \/ (collect_frames ollama frames keys = Throw (StdException "not an object") /\ ollama = false
      /\ exists frame, frame ∈ frames /\ odd_choice frame).
Proof.
  revert keys. induction frames as [|frame frames IH]; intros keys; cbn [collect_frames].
  { left. exists keys. set_solver. }
  destruct (collect_frame_spec ollama frame keys) as [(keys1 & -> & H1 & Ho)|(-> & Ho & Hodd)]; cbn [res_bind].
  - destruct (IH keys1) as [(keys2 & -> & H2 & Ho2)|(-> & Ho2 & f & Hf & Hodd)].
    + left. exists keys2. split; [done|]. split.
      * intros level name. rewrite H2, H1. set_solver.
      * intros Hf f [->|Hin]%elem_of_cons; auto.
    + right. split; [done|]. split; [done|]. exists f. set_solver.
  - right. split; [done|]. split; [done|]. exists frame. set_solver.
Qed.

Lemma present_named keys field : present keys field = true <-> exists level, named keys level field.
Proof.
  unfold present, named. rewrite existsb_exists. split.
  - intros ([level names] & Hin & H%bool_decide_eq_true). apply list_elem_of_In, elem_of_map_entries in Hin.
    exists level. by rewrite Hin.
  - intros [level H]. destruct (keys !! level) as [names|] eqn:E; [|by apply elem_of_empty in H].
    exists (level, names). split; [by apply list_elem_of_In, elem_of_map_entries|by apply bool_decide_eq_true].
Qed.

(** ** A probe of a stream *)

Lemma filter_nonempty {A} (l : list A) (P : A -> bool) x : x ∈ List.filter P l <-> x ∈ l /\ P x = true.
Proof. rewrite !list_elem_of_In. apply filter_In. Qed.

(** The fields of the default shape that are asked for one by one. *)
Definition single_fields : list string :=
  ["content"; "reasoning_content"; "refusal"; "usage"; "prompt_tokens"; "completion_tokens"; "total_tokens";
   "finish_reason"].

Lemma default_absent seen field :
  field ∈ single_fields -> (field ∈ AbsentShapeFields default_shape seen false <-> seen field = false).
Proof.
  intros Hf. unfold AbsentShapeFields, default_shape.
  cbn [content_field reasoning_field_ refusal_field usage_field prompt_tokens_field completion_tokens_field
       total_tokens_field cached_tokens_nested_field cached_tokens_top_level_field finish_reason_field].
  assert (He : forall g, field ∈ (if negb (sempty g) && negb (seen g) then [g] else [])
                 <-> field = g /\ sempty g = false /\ seen g = false).
  { intros g. destruct (sempty g), (seen g); cbn; set_solver. }
  assert (Hc : ~ field ∈ (if negb (sempty "cached_tokens") && negb (seen "cached_tokens")
                              && negb (seen "prompt_cache_hit_tokens")
                          then ["cached_tokens" +:+ " (nor " +:+ "prompt_cache_hit_tokens" +:+ ")"] else [])).
  { case_match; [|by intros ?%elem_of_nil]. intros ->%list_elem_of_singleton.
    revert Hf. unfold single_fields. rewrite !elem_of_cons, elem_of_nil. intuition discriminate. }
  rewrite !elem_of_app, !He. revert Hf. unfold single_fields. rewrite !elem_of_cons, elem_of_nil.
  intros [->|[->|[->|[->|[->|[->|[->|[->|[]]]]]]]]];
    (split; [intros H; decompose [or and] H; (done || discriminate || contradiction)|intros H; tauto]).
Qed.

(** What a report says of the frames of a capture. *)
Definition reports (ollama : bool) (frames : list value) (report : ProbeReport) : Prop :=
  pb_frames report = length frames /\ (pb_stream_parsed report = true <-> frames <> [])
  /\ (forall level name, named (pb_keys report) level name
      <-> exists frame, frame ∈ frames /\ carries ollama frame level name)
  /\ (ollama = true \/ frames = [] -> pb_shape_fields_absent report = [])
  /\ (ollama = false -> frames <> [] -> forall field, field ∈ single_fields ->
      (field ∈ pb_shape_fields_absent report
       <-> ~ exists frame level, frame ∈ frames /\ carries false frame level field)).

Section Captured.
Context `{codec : JsonCodec}.

Lemma read_capture_spec backend raw ollama :
  SpeaksOllama (gateway backend) = Ok ollama ->
  (exists report, read_capture backend raw = Ok report /\ reports ollama (ForEachFrame raw) report
     /\ pb_bytes report = slen raw)
  \/ (read_capture backend raw = Throw (StdException "not an object") /\ ollama = false
      /\ exists frame, frame ∈ ForEachFrame raw /\ odd_choice frame).
Proof.
  intros Ho. unfold read_capture. rewrite Ho.
  assert (exists name, GatewayName (gateway backend) = Ok name) as [name ->] by (destruct (gateway backend); by eexists).
  cbn [res_bind]. destruct (collect_frames_spec ollama (ForEachFrame raw) ∅) as [(keys & -> & Hk & _)|(-> & -> & H)];
    [left|by right].
  cbn [res_bind]. assert (ShapeFor (gateway backend) = Ok (if ollama then None else Some default_shape)) as ->.
  { revert Ho. unfold SpeaksOllama, ShapeFor. by destruct (gateway backend); intros [= <-]. }
  cbn [res_bind]. eexists. split; [reflexivity|]. split; [|done].
  assert (Hkeys : forall level name, named keys level name
            <-> exists frame, frame ∈ ForEachFrame raw /\ carries ollama frame level name).
  { intros level name'. rewrite Hk. unfold named at 1. rewrite lookup_empty. set_solver. }
  unfold reports. cbn [pb_frames pb_stream_parsed pb_keys pb_shape_fields_absent]. split_and!; try done.
  - destruct (ForEachFrame raw); cbn; [by split|by split].
  - intros [->| ->]; [done|]. by destruct ollama.
  - intros -> Hne field Hf. destruct (ForEachFrame raw) as [|frame frames] eqn:Ef; [done|]. cbn [length Nat.ltb Nat.leb].
    rewrite default_absent by done. rewrite <- not_true_iff_false, present_named. setoid_rewrite Hkeys. naive_solver.
Qed.

End Captured.

Section Probed.
#[local] Set Default Proof Using "Type*".
Context `{codec : JsonCodec} {N : Type}.
Context (interrupted : N -> bool) (dial : Http.Request -> N -> N * Network) (nibble : N -> N * Z).
Context (write_file : string -> string -> N -> N).

Lemma keep_raw_pieces ps text n raw :
  read_pieces (keep_raw (N := N)) false ps text (n, raw) = ((n, raw +:+ foldr String.append "" ps), Ok (text, false)).
Proof.
  revert raw. induction ps as [|piece ps IH]; intros raw; cbn [read_pieces foldr]; [by rewrite sapp_nil_r|].
  destruct (sempty piece) eqn:He; [apply sempty_true in He as ->; by rewrite IH|]. cbn [keep_raw fst snd].
  destruct (slen piece) as [|k] eqn:Hl; [apply slen_0 in Hl; by subst|]. rewrite IH. by rewrite sapp_assoc.
Qed.

(** A probe reports what the gateway named and nothing else, however the network cuts
    the stream: over a request that goes through, a name stands at a level of
    the report exactly when a frame carried it there, and a field of the shape
    is reported missing exactly when no frame named it at any level.  The
    capture is kept before it is read.  Only a first choice that is not an
    object makes the probe fail. *)
Theorem Probe_reports backend prompt raw_path n n1 n2 net url body headers parts ollama :
  (forall n, interrupted n = false) -> SpeaksOllama (gateway backend) = Ok ollama ->
  probe_url backend = Ok url -> ProbeBody backend prompt = Ok body ->
  ProbeHeaders nibble backend [] n = (n1, Ok headers) -> ParseUrl url = Ok parts ->
  dial (mkRequest kPost parts (ApplyHeaders (url_host parts) body headers) body) n1 = (n2, net) -> carried net ->
  let raw := foldr String.append "" (pieces net) in
  exists out, ProbeStream interrupted dial nibble write_file backend prompt raw_path n
    = (match raw_path with Some path => if sempty path then n2 else write_file path raw n2 | None => n2 end, out)
  /\ ((exists report, out = Ok report /\ reports ollama (ForEachFrame raw) report /\ pb_bytes report = slen raw)
      \/ (exists e, out = Throw e) /\ ollama = false /\ exists frame, frame ∈ ForEachFrame raw /\ odd_choice frame).
Proof.
  intros Hi Ho Hu Hb Hh Hp Hd Hc raw. exists (read_capture backend raw). split.
  - unfold ProbeStream. rewrite Hu. cbn [and_then]. rewrite Hb. cbn [and_then]. rewrite Hh. cbn [and_then].
    unfold PostStream.
    rewrite (StreamRequest_quiet None (fun s : N * string => interrupted s.1) (dial_raw dial) keep_raw
               kPost url body headers parts (n1, "") (n2, "") net);
      [|unfold quiet, CheckCancel; by rewrite Hi..|done|unfold dial_raw; cbn [fst snd]; by rewrite Hd|apply Hc].
    rewrite keep_raw_pieces, (proj2 Hc). done.
  - destruct (read_capture_spec backend raw ollama Ho) as [H|(-> & H)]; [by left|right; split; [by eexists|done]].
Qed.

End Probed.

(** ** A probe of a listing *)

Lemma foldl_CollectListingKeys entries keys level name :
  named (foldl (fun keys entry => CollectListingKeys entry keys) keys entries) level name
  <-> (exists o, JObject o ∈ entries /\ nested_of o "entry" level name) \/ named keys level name.
Proof.
  revert keys. induction entries as [|entry entries IH]; intros keys; cbn [foldl]; [set_solver|].
  rewrite IH. unfold CollectListingKeys. destruct entry; cbn [if_object]; [set_solver..|].
  rewrite named_note_nested. set_solver.
Qed.

Lemma collect_container_keeps search key found level name :
  named found.2 level name -> named (collect_container search key found).2 level name.
Proof.
  intros H. unfold collect_container. destruct (sempty key); [done|].
  destruct (obj_find key search) as [[| | | | | |[|entry entries]|]|]; try done.
  cbn [snd]. rewrite foldl_CollectListingKeys. by right.
Qed.

Lemma collect_container_nested search key found entries o level name :
  key <> "" -> obj_find key search = Some (JArray entries) -> JObject o ∈ entries -> nested_of o "entry" level name ->
  named (collect_container search key found).2 level name.
Proof.
  intros Hk%sempty_false Hs Ho Hf. unfold collect_container. rewrite Hk, Hs.
  destruct entries as [|entry entries]; [by apply elem_of_nil in Ho|]. cbn [snd].
  apply foldl_CollectListingKeys. left. by exists o.
Qed.

Lemma collect_container_names search key found entries o field :
  key <> "" -> obj_find key search = Some (JArray entries) -> JObject o ∈ entries -> field ∈ o.*1 ->
  named (collect_container search key found).2 "entry" field.
Proof. intros. apply (collect_container_nested _ _ _ entries o); try done. left. by split. Qed.

Lemma obj_find_member key o v : obj_find key o = Some v -> key ∈ o.*1.
Proof.
  induction o as [|[k w] o IH]; [done|]. unfold obj_find. cbn. destruct (decide _) as [->|]; set_solver.
Qed.

Lemma Field_member o name v : Field o name = Some v -> name ∈ o.*1.
Proof. unfold Field. destruct (sempty name); [done|]. apply obj_find_member. Qed.

Lemma collect_container_some search key found entries :
  key <> "" -> obj_find key search = Some (JArray entries) -> entries <> [] ->
  (collect_container search key found).1 = length entries.
Proof. intros Hk%sempty_false Hs He. unfold collect_container. rewrite Hk, Hs. by destruct entries. Qed.

Lemma collect_container_counts search key found :
  (0 < found.1)%nat -> (0 < (collect_container search key found).1)%nat.
Proof.
  intros H. unfold collect_container. destruct (sempty key); [done|].
  destruct (obj_find key search) as [[| | | | | |[|entry entries]|]|]; try done. cbn. lia.
Qed.

(** A field an object answers for is one of its members. *)
Lemma BoolField_member o name : BoolField o name = true -> name ∈ o.*1.
Proof. unfold BoolField. destruct (Field o name) eqn:E; [intros _; by eapply Field_member|done]. Qed.
Lemma StringField_member o name : StringField o name <> "" -> name ∈ o.*1.
Proof. unfold StringField. destruct (Field o name) eqn:E; [intros _; by eapply Field_member|done]. Qed.
Lemma IntField_member o name : IntField o name <> 0 -> name ∈ o.*1.
Proof. unfold IntField. destruct (Field o name) eqn:E; [intros _; by eapply Field_member|done]. Qed.

(** What the probe of a listing makes of one the program reads: it counts
    entries, and no field that told the program something is reported missing. *)
Definition agrees (shape : CatalogShape) (models : list ModelEntry) (report : ListingReport) : Prop :=
  let absent := lr_shape_fields_absent report in
  lr_parsed report = true /\ lr_error report = "" /\ (0 < lr_entries report)%nat /\ sh_id_key shape ∉ absent
  /\ forall m, m ∈ models -> let caps := me_caps m in
     (supports_tools caps = true -> sh_supports_tools shape ∉ absent)
     /\ (supports_images caps = true -> sh_supports_images shape ∉ absent)
     /\ (supports_reasoning caps = true -> sh_supports_reasoning shape ∉ absent)
     /\ (only_reasoning caps = true -> sh_only_reasoning shape ∉ absent)
     /\ (default_effort caps <> "" -> sh_effort_field shape ∉ absent)
     /\ (max_input_tokens caps <> 0 -> sh_max_input_tokens shape ∉ absent)
     /\ (credits caps <> "" -> sh_credits shape ∉ absent).

Section Listed.
Context `{codec : JsonCodec}.

Lemma reported_absent keys shape field :
  field ∈ List.filter (fun field => negb (sempty field) && negb (present keys field)) (listing_fields shape) ->
  sempty field = false /\ forall level, ~ named keys level field.
Proof.
  rewrite filter_nonempty, andb_true_iff, !negb_true_iff. intros (_ & H1 & H2). split; [done|]. intros level H.
  apply not_true_iff_false in H2. apply H2, present_named. by exists level.
Qed.

(** Entries of the catalogue beside the container, as CodeBuddy nests them. *)
Lemma read_listing_eq name url shape code text parsed search :
  parse text = Some parsed -> listing_search parsed = Some search ->
  exists keys,
    let found := collect_container search (sh_id_key shape) (collect_container search (sh_container shape) (0%nat, keys)) in
    read_listing name url shape (Http.mkResponse code text)
    = mkListingReport name url code (slen text) found.1 true found.2
        (List.filter (fun field => negb (sempty field) && negb (present found.2 field)) (listing_fields shape)) "".
Proof.
  intros Hp Hs. unfold read_listing. cbn [body status]. rewrite Hp, Hs.
  exists (match if_object parsed with Some top => note_nested "top-level" top ∅ | None => ∅ end).
  cbv zeta. by destruct (collect_container _ (sh_id_key shape) _).
Qed.

Lemma agrees_flat name url shape code text parsed models :
  shape = OllamaShape \/ shape = OpenAIShape -> parse text = Some parsed ->
  (forall o, at_key parsed "data" <> Some (JObject o)) -> ReadFlat parsed shape url = Ok models -> models <> [] ->
  agrees shape models (read_listing name url shape (Http.mkResponse code text)).
Proof.
  intros Hshape Hp Hd Hr Hne. unfold ReadFlat in Hr. apply res_bind_Ok in Hr as (container & Hc & [= <-]).
  destruct parsed as [| | | | | | |top];
    try by (unfold ContainerOr, at_key in Hc; cbn in Hc; destruct Hshape; subst).
  assert (Hs : listing_search (JObject top) = Some top).
  { unfold listing_search. cbn. unfold at_key in Hd. cbn in Hd. destruct (obj_find "data" top) as [[]|]; try done.
    by edestruct Hd. }
  destruct (read_listing_eq name url shape code text _ top Hp Hs) as [keys ->].
  assert (Hf : obj_find (sh_container shape) top = Some (JArray container)).
  { unfold ContainerOr, at_key in Hc. cbn in Hc. destruct (obj_find (sh_container shape) top) as [[]|]; try done.
    - injection Hc as <-. by destruct Hne.
    - by injection Hc as ->. }
  assert (exists o, JObject o ∈ container /\ sh_id_key shape ∈ o.*1) as (o & Ho & Hid).
  { clear -Hne. induction container as [|entry container IH]; [done|]. cbn in Hne.
    destruct (flat_entry shape entry) as [m|] eqn:E; [|destruct (IH Hne) as (o & ? & ?); exists o; set_solver].
    destruct entry as [| | | | | | |o]; try done. exists o. split; [set_solver|]. apply StringField_member.
    unfold flat_entry in E. destruct (sempty _) eqn:Es; [done|]. by apply sempty_false in Es. }
  assert (Hk : sh_container shape <> "") by (destruct Hshape; by subst).
  unfold agrees. cbn [lr_parsed lr_error lr_entries lr_shape_fields_absent]. split_and!; try done.
  - apply collect_container_counts. rewrite (collect_container_some _ _ _ container Hk Hf); destruct container; cbn; try lia; done.
  - intros [_ H]%reported_absent. apply (H "entry"), collect_container_keeps.
    by apply (collect_container_names _ _ _ container o).
  - intros m _. split_and!; intros _ [H _]%reported_absent; destruct Hshape; by subst.
Qed.

(** An agent that names models, when any id is named. *)
Lemma first_named agents :
  (agents ≫= (fun agent => match agent with
     | JObject fields => match Field fields "models" with Some named => ReadStrings named | None => [] end
     | _ => [] end)) <> [] ->
  exists o ids, JObject o ∈ agents /\ Field o "models" = Some ids.
Proof.
  induction agents as [|agent agents IH]; [done|]. rewrite bind_cons. intros Hn.
  assert (Hstep : forall o ids, JObject o ∈ agents /\ Field o "models" = Some ids ->
            exists o ids, JObject o ∈ agent :: agents /\ Field o "models" = Some ids).
  { intros o ids [H1 H2]. exists o, ids. set_solver. }
  destruct agent as [| | | | | | |o]; try (destruct (IH Hn) as (o' & ids & H); by apply (Hstep o' ids)).
  destruct (Field o "models") as [v|] eqn:Ef; [exists o, v; set_solver|].
  destruct (IH Hn) as (o' & ids & H). by apply (Hstep o' ids).
Qed.

(** The capabilities of an id are those of an entry of the catalogue, if any. *)
Lemma catalogued_entry inner id :
  catalogued CodeBuddyShape (JObject inner) id = no_caps
  \/ exists catalogue fields, obj_find "models" inner = Some (JArray catalogue) /\ JObject fields ∈ catalogue
     /\ catalogued CodeBuddyShape (JObject inner) id = ReadCapabilities fields CodeBuddyShape.
Proof.
  unfold catalogued, ArrayAt, at_key. cbn.
  destruct (obj_find "models" inner) as [[| | | | | |catalogue|]|] eqn:Ec; try (by left).
  destruct (List.find _ catalogue) as [[| | | | | | |fields]|] eqn:Ef; try (by left).
  apply find_some in Ef as [Hin%list_elem_of_In _]. right. by exists catalogue, fields.
Qed.

Lemma agrees_codebuddy name url code text parsed models :
  parse text = Some parsed -> ReadCodeBuddy parsed CodeBuddyShape url = Ok models -> models <> [] ->
  agrees CodeBuddyShape models (read_listing name url CodeBuddyShape (Http.mkResponse code text)).
Proof.
  intros Hp Hr Hne. unfold ReadCodeBuddy in Hr.
  destruct (at_key parsed "data") as [[| | | | | | |inner]|] eqn:Hd; try done. injection Hr as <-.
  destruct parsed as [| | | | | | |top]; try done. unfold at_key in Hd. cbn in Hd.
  assert (Hs : listing_search (JObject top) = Some inner) by (unfold listing_search; cbn; by rewrite Hd).
  destruct (read_listing_eq name url CodeBuddyShape code text _ inner Hp Hs) as [keys ->].
  assert (exists agents o named, obj_find "agents" inner = Some (JArray agents) /\ JObject o ∈ agents
            /\ Field o "models" = Some named) as (agents & o & ids & Ha & Ho & Hn).
  { assert (Hn : named_ids CodeBuddyShape (JObject inner) <> []) by (intros E; by rewrite E in Hne).
    clear Hne. unfold named_ids, ArrayAt, at_key in Hn. cbn in Hn.
    destruct (obj_find "agents" inner) as [[| | | | | |agents|]|]; try done.
    exists agents. apply (first_named agents) in Hn as (o & ids & H1 & H2). by exists o, ids. }
  unfold agrees. cbn [lr_parsed lr_error lr_entries lr_shape_fields_absent]. split_and!; try done.
  - assert (Hag : agents <> []) by (intros ->; by apply elem_of_nil in Ho).
    apply collect_container_counts. rewrite (collect_container_some _ _ _ agents) by done.
    destruct agents; [done|cbn; lia].
  - intros [_ H]%reported_absent. apply (H "entry"), collect_container_keeps.
    apply (collect_container_names _ _ _ agents o); try done. by eapply Field_member.
  - intros m (id & -> & _)%list_elem_of_fmap. cbn [me_caps].
    destruct (catalogued_entry inner id) as [->|(catalogue & fields & Ec & Hin & ->)]; [by split_and!|].
    unfold ReadCapabilities.
    cbn [supports_tools supports_images supports_reasoning only_reasoning default_effort max_input_tokens credits].
    assert (Hm : forall field, field ∈ fields.*1 ->
              field ∉ List.filter (fun field => negb (sempty field) && negb (present
                (collect_container inner "models" (collect_container inner "agents" (0%nat, keys))).2 field))
                (listing_fields CodeBuddyShape)).
    { intros field Hf [_ H]%reported_absent. apply (H "entry"). by apply (collect_container_names _ _ _ catalogue fields). }
    split_and!; intros H; try (apply Hm; first [by apply BoolField_member|by apply StringField_member|by apply IntField_member]).
    cbn [sh_effort_parent CodeBuddyShape] in H. destruct (Field fields "reasoning") as [[| | | | | | |parent]|] eqn:Er; try done.
    intros [_ Hno]%reported_absent. apply (Hno "entry.reasoning"). apply (collect_container_nested _ _ _ catalogue fields); try done.
    right. exists "reasoning", parent. split; [by apply obj_find_elem|]. split; [done|]. by apply StringField_member.
Qed.

End Listed.

Section Listings.
#[local] Set Default Proof Using "Type*".
Context `{codec : JsonCodec} {N : Type}.
Context (dial : Http.Request -> N -> N * Network) (nibble : N -> N * Z).

(** What a row's lister makes of the body of a listing. *)
Definition lists (row : Gateway) (host_ text : string) : res (list ModelEntry) :=
  match gw_make_listing row with
  | OllamaModelLister => FlatListModels OllamaShape host_ text
  | OpenAIModelLister => FlatListModels OpenAIShape host_ text
  | CodeBuddyModelLister => CodeBuddyListModels host_ text
  end.

Lemma ParseListing_parsed url text parsed :
  ParseListing url text = Ok parsed -> (text = "" /\ parsed = JNull) \/ parse text = Some parsed.
Proof.
  unfold ParseListing. destruct (sempty text) eqn:E; [apply sempty_true in E as ->; intros [= <-]; by left|].
  destruct (parse text); [intros [= <-]; by right|done].
Qed.

Lemma lists_agrees id row host_ code text models :
  GatewayForId id = Ok row -> lists row host_ text = Ok models -> models <> [] ->
  (gw_make_listing row = OllamaModelLister ->
   forall parsed o, parse text = Some parsed -> at_key parsed "data" <> Some (JObject o)) ->
  exists url shape, ListingTargetFor (gw_protocol row) (gw_name row) host_ = Some (url, shape)
    /\ agrees shape models (read_listing (gw_name row) url shape (Http.mkResponse code text)).
Proof.
  intros Hid Hl Hne Hd.
  assert (Hflat : forall shape, shape = OllamaShape \/ shape = OpenAIShape -> FlatListModels shape host_ text = Ok models ->
            (forall parsed o, parse text = Some parsed -> at_key parsed "data" <> Some (JObject o)) ->
            agrees shape models (read_listing (gw_name row) (host_ +:+ sh_path shape) shape (Http.mkResponse code text))).
  { intros shape Hs Hf Hno. unfold FlatListModels in Hf. apply res_bind_Ok in Hf as (parsed & Hp & Hr).
    destruct (ParseListing_parsed _ _ _ Hp) as [[-> ->]|Hp'].
    - unfold ReadFlat, ContainerOr in Hr. by destruct Hs; subst.
    - eapply agrees_flat; eauto. }
  assert (Hopenai : FlatListModels OpenAIShape host_ text = Ok models ->
            forall parsed o, parse text = Some parsed -> at_key parsed "data" <> Some (JObject o)).
  { intros Hf parsed o Hp Ho. unfold FlatListModels in Hf. apply res_bind_Ok in Hf as (parsed' & Hp' & Hr).
    destruct (ParseListing_parsed _ _ _ Hp') as [[-> ->]|Hp'']; [done|]. assert (parsed' = parsed) as -> by congruence.
    unfold ReadFlat, ContainerOr in Hr. cbn in Hr. by rewrite Ho in Hr. }
  destruct id; injection Hid as <-; cbn in Hl; eexists _, _; (split; [reflexivity|]).
  1: { apply Hflat; [by left|exact Hl|by apply Hd]. }
  1-4: by apply Hflat; [right|exact Hl|apply Hopenai].
  unfold CodeBuddyListModels in Hl. apply res_bind_Ok in Hl as (parsed & Hp & Hr).
  destruct (ParseListing_parsed _ _ _ Hp) as [[-> ->]|Hp']; [done|]. by eapply agrees_codebuddy.
Qed.

(** A listing the program reads is a listing that probes: where the lister finds
    models in an answer, the probe of the same gateway counts entries, and
    reports as missing neither the name the ids are under nor any field that
    told the program something about a listed model.  (An Ollama answer that
    also carries a [data] object is probed under it, and is left out.)  An
    answer that does not parse is reported as that. *)
Theorem Listing_probes backend row n n1 n2 headers url shape code text :
  GatewayForId (gateway backend) = Ok row ->
  ListingTargetFor (gw_protocol row) (gw_name row) (host backend) = Some (url, shape) ->
  ProbeHeaders nibble backend [] n = (n1, Ok headers) -> Get dial url headers n1 = (n2, Ok (Http.mkResponse code text)) ->
  exists report, ProbeListing dial nibble backend n = (n2, Ok report) /\ lr_url report = url
    /\ lr_http_status report = code
    /\ (parse text = None -> lr_parsed report = false /\ lr_error report <> "")
    /\ (forall models, lists row (host backend) text = Ok models -> models <> [] ->
        (gw_make_listing row = OllamaModelLister ->
         forall parsed o, parse text = Some parsed -> at_key parsed "data" <> Some (JObject o)) ->
        agrees shape models report).
Proof.
  intros Hg Ht Hh Hget. exists (read_listing (gw_name row) url shape (Http.mkResponse code text)). split.
  { unfold ProbeListing. rewrite Hg. cbn [and_then]. rewrite Ht, Hh. cbn [and_then]. by rewrite Hget. }
  assert (Hm : lr_url (read_listing (gw_name row) url shape (Http.mkResponse code text)) = url
             /\ lr_http_status (read_listing (gw_name row) url shape (Http.mkResponse code text)) = code).
  { unfold read_listing. destruct (parse _); [|done]. by destruct (listing_search v); [destruct (collect_container _ _ _)|]. }
  destruct Hm as [-> ->]. split; [done|]. split; [done|]. split.
  - intros Hp. unfold read_listing. cbn [body]. by rewrite Hp.
  - intros models Hl Hne Hd. destruct (lists_agrees _ _ _ code _ _ Hg Hl Hne Hd) as (url' & shape' & Ht' & H). congruence.
Qed.

End Listings.

(** ** Model checks *)

Section Verified.
#[local] Set Default Proof Using "Type*".
Context `{codec : JsonCodec} {N : Type}.
Context (interrupted : N -> bool) (dial : Http.Request -> N -> N * Network) (nibble : N -> N * Z).

(** A model the backend's level leaves unasked. *)
Definition unaskable (cfg : Backend) (entry : ModelEntry) : bool :=
  only_reasoning (me_caps entry) && SendsNoLevel (thinking cfg).

Definition asked (cfg : Backend) (models : list ModelEntry) : list ModelEntry :=
  List.filter (fun entry => negb (unaskable cfg entry)) models.

(** A check says what the request came to: an answer, or why there is none. *)
Definition check_ok (cfg : Backend) (entry : ModelEntry) (check : ModelCheck) : Prop :=
  ck_model check = me_id entry
  /\ (ck_answered check = true -> ck_detail check = "")
  /\ (unaskable cfg entry = true -> ck_answered check = false /\ ck_detail check = MissingLevelReason entry)
  /\ (unaskable cfg entry = false ->
      exists n n' out, probe_model interrupted dial nibble
          (with_max_tokens (Some kProbeMaxTokens) (with_model (me_id entry) cfg)) n = (n', out)
        /\ match out with
           | Ok _ => ck_answered check = true
           | Throw e => ck_answered check = false /\ ck_detail check = what e
           | Undef => False
           end).

Lemma verify_model_ok cfg entry n n' check :
  verify_model interrupted dial nibble cfg entry n = (n', Ok check) -> check_ok cfg entry check.
Proof.
  unfold verify_model, check_ok, unaskable. destruct (_ && _) eqn:E.
  - intros [= <- <-]. by split_and!.
  - destruct (probe_model _ _ _ _ n) as [n1 [result|e|]] eqn:Ep; intros [= <- <-]; (split_and!; try done);
      intros _; eexists n, n1, _; (split; [exact Ep|]); done.
Qed.

Lemma verify_model_no_throw cfg entry n n' e : verify_model interrupted dial nibble cfg entry n <> (n', Throw e).
Proof. unfold verify_model. destruct (_ && _); [done|]. by destruct (probe_model _ _ _ _ n) as [n1 []]. Qed.

Lemma VerifyModels_checks cfg models n :
  match VerifyModels interrupted dial nibble cfg models n with
  | (_, Ok checks) => Forall2 (check_ok cfg) models checks
  | (_, Throw _) => False
  | (_, Undef) => True
  end.
Proof.
  revert n. induction models as [|entry models IH]; intros n; cbn [VerifyModels]; [constructor|].
  destruct (verify_model _ _ _ cfg entry n) as [n1 [check|e|]] eqn:E; cbn [and_then]; [|by apply verify_model_no_throw in E|done].
  specialize (IH n1). destruct (VerifyModels _ _ _ cfg models n1) as [n2 [checks|e|]]; cbn [and_then]; [|done..].
  constructor; [by eapply verify_model_ok|done].
Qed.

Lemma VerifyModels_asked cfg models n :
  let all := VerifyModels interrupted dial nibble cfg models n in
  let only := VerifyModels interrupted dial nibble cfg (asked cfg models) n in
  all.1 = only.1 /\ (is_ok all.2 = is_ok only.2).
Proof.
  revert n. induction models as [|entry models IH]; intros n; [done|]. cbn [VerifyModels asked List.filter].
  fold (asked cfg models). destruct (unaskable cfg entry) eqn:E; cbn [negb].
  - assert (verify_model interrupted dial nibble cfg entry n
              = (n, Ok (mkCheck (me_id entry) false (MissingLevelReason entry)))) as ->
      by (unfold verify_model; unfold unaskable in E; by rewrite E).
    cbn [and_then]. specialize (IH n).
    destruct (VerifyModels _ _ _ cfg models n) as [n1 [|e|]]; cbn [and_then]; exact IH.
  - cbn [VerifyModels]. destruct (verify_model _ _ _ cfg entry n) as [n1 [check|e|]]; cbn [and_then]; [|done..].
    specialize (IH n1). destruct (VerifyModels _ _ _ cfg models n1) as [? []], (VerifyModels _ _ _ cfg (asked cfg models) n1) as [? []];
      cbn in IH |- *; by destruct IH.
Qed.

(** Every listed model is reported on, in order, and no refusal stops the loop: a
    check is an answer, or the words of what the request threw, or, for a
    model that is answered only with a reasoning level the backend does not
    send, the reason nothing was asked; such a model puts nothing on the
    network.  A request names the model it checks and, to a product of the
    OpenAI wire, asks for one token; to Ollama it sets no bound. *)
Theorem VerifyModels_spec cfg models n :
  match VerifyModels interrupted dial nibble cfg models n with
  | (_, Ok checks) => Forall2 (check_ok cfg) models checks
  | (_, Throw _) => False
  | (_, Undef) => True
  end
  /\ (VerifyModels interrupted dial nibble cfg models n).1
     = (VerifyModels interrupted dial nibble cfg (asked cfg models) n).1
  /\ (forall entry kind pc,
      CreateBackend (with_max_tokens (Some kProbeMaxTokens) (with_model (me_id entry) cfg)) = Ok (kind, pc) ->
      pc_model pc = me_id entry /\ pc_host pc = host cfg
      /\ pc_max_tokens pc = match kind with OllamaProvider => None | _ => Some 1 end).
Proof.
  split; [apply VerifyModels_checks|]. split; [apply VerifyModels_asked|]. intros entry kind pc H.
  unfold CreateBackend, GateFor, OpenAIConfig in H. cbn [host gateway with_max_tokens with_model] in H.
  destruct (sempty (host cfg)); [by destruct (gateway cfg)|].
  destruct (gateway cfg); cbn in H; injection H as <- <-; by split_and!.
Qed.

End Verified.

(** ** Witnesses *)

Definition probe_text (v : value) : string := serialize (JsonCodec := bit_codec) v.

(** Two frames: a delta, and the usage of the turn. *)
Definition probe_frames : list value :=
  [JObject [("choices", JArray [JObject [("delta", JObject [("content", JString "pong")])]])];
   JObject [("usage", JObject [("prompt_tokens", JInt64 3); ("total_tokens", JInt64 4)])]].

Definition probe_body : string :=
  foldr String.append "" (map (fun v => "data: " +:+ probe_text v +:+ NL +:+ NL) probe_frames)
  +:+ "data: [DONE]" +:+ NL.

Definition probe_net (rq : Http.Request) (n : nat) : nat * Network :=
  (S n, mkNetwork (Ok tt) None None None (inr 200) [stake 20 probe_body; ""; sdrop 20 probe_body] None).

Definition probe_backend : Backend := with_max_tokens None demo_backend.

Definition probe_report : res ProbeReport :=
  (ProbeStream (codec := bit_codec) (fun _ => false) probe_net (fun n => (n, 7)) (fun _ _ n => n) probe_backend "pong?"
     (Some "/tmp/raw") 0%nat).2.

Definition pong_body : string :=
  probe_text (JObject [("model", JString "deepseek-chat"); ("stream", JBool true);
                       ("stream_options", JObject [("include_usage", JBool true)]); ("messages", user_prompt "pong?")]).

Definition demo_request : Http.Request := mkRequest kPost (mkUrl "" "" "" "") [] "".

Lemma probe_net_carries : carried (snd (probe_net demo_request 0%nat)).
Proof. split; [|done]. unfold reached. split_and!; try done. by exists 200. Qed.

Definition probe_missing : option (list string) :=
  match probe_report with Ok report => Some (pb_shape_fields_absent report) | _ => None end.

Lemma Probe_reports_witness :
  exists report, probe_report = Ok report /\ reports false probe_frames report
    /\ probe_missing = Some ["reasoning_content"; "refusal"; "completion_tokens";
                             "cached_tokens (nor prompt_cache_hit_tokens)"; "finish_reason"].
Proof.
  assert (Hm : probe_missing = Some ["reasoning_content"; "refusal"; "completion_tokens";
                                     "cached_tokens (nor prompt_cache_hit_tokens)"; "finish_reason"])
    by (vm_compute; reflexivity).
  destruct (Probe_reports (codec := bit_codec) (fun _ => false) probe_net (fun n => (n, 7)) (fun _ _ n => n) probe_backend
    "pong?" (Some "/tmp/raw") 0%nat 0%nat 1%nat (snd (probe_net demo_request 0%nat)) "https://api.deepseek.com/v1/chat/completions"
    pong_body ["Content-Type: application/json"; "Authorization: Bearer k"]
    (mkUrl "https" "api.deepseek.com" "443" "/v1/chat/completions") false
    (fun _ => eq_refl) ltac:(vm_compute; reflexivity) ltac:(vm_compute; reflexivity) ltac:(vm_compute; reflexivity)
    ltac:(vm_compute; reflexivity) ltac:(vm_compute; reflexivity) eq_refl probe_net_carries) as (out & E & H).
  assert (Ho : probe_report = out) by (unfold probe_report; by rewrite E).
  destruct H as [(report & -> & Hr & _)|([e ->] & _)].
  - assert (Hraw : ForEachFrame (codec := bit_codec) probe_body = probe_frames) by (vm_compute; reflexivity).
    change (reports false (ForEachFrame (codec := bit_codec) probe_body) report) in Hr. rewrite Hraw in Hr.
    exists report. exact (conj Ho (conj Hr Hm)).
  - exfalso. clear E. unfold probe_missing in Hm. rewrite Ho in Hm. discriminate Hm.
Defined.

(** An OpenAI listing of one model. *)
Definition listing_body : string :=
  probe_text (JObject [("object", JString "list"); ("data", JArray [JObject [("id", JString "m-one")]])]).

Definition listing_net (rq : Http.Request) (n : nat) : nat * Network :=
  (S n, mkNetwork (Ok tt) None None None (inr 200) [listing_body] None).

Lemma Listing_probes_witness :
  exists report, ProbeListing (codec := bit_codec) listing_net (fun n => (n, 7)) probe_backend 0%nat = (1%nat, Ok report)
    /\ agrees OpenAIShape [mkModel "m-one" no_caps] report.
Proof.
  destruct (Listing_probes (codec := bit_codec) listing_net (fun n => (n, 7)) probe_backend
    (OpenAiProduct kDeepSeek "deepseek" "https://api.deepseek.com/v1" "DEEPSEEK_API_KEY") 0%nat 0%nat 1%nat
    ["Content-Type: application/json"; "Authorization: Bearer k"] "https://api.deepseek.com/v1/models" OpenAIShape 200
    listing_body eq_refl eq_refl eq_refl ltac:(vm_compute; reflexivity)) as (report & E & _ & _ & _ & H).
  exists report. split; [exact E|]. apply H; [vm_compute; reflexivity|done|done].
Defined.

(** ** Where the probe and its comments part *)

(** A stream whose first choice is not an object ends the probe, which keeps no
    report of it; the provider reads on. *)
Example Odd_choice_ends_probe :
  collect_frames false [JObject [("choices", JArray [JNull])]; JObject [("usage", JObject [])]] ∅
  = Throw (StdException "not an object").
Proof. reflexivity. Qed.

(** Nothing fills the text a failed probe announces. *)
Lemma No_raw_stream `{JsonCodec} backend raw report :
  read_capture backend raw = Ok report -> pb_error report = "" /\ pb_http_status report = 0.
Proof.
  unfold read_capture. intros E. apply res_bind_Ok in E as (name & _ & E). apply res_bind_Ok in E as (o & _ & E).
  apply res_bind_Ok in E as (keys & _ & E). apply res_bind_Ok in E as (shape & _ & E). by injection E as <-.
Qed.

(** An Ollama answer with a [data] object beside its models: the lister reads
    the models and the probe finds none. *)
Definition two_objects : value :=
  JObject [("models", JArray [JObject [("name", JString "m")]]); ("data", JObject [])].

Example Reads_but_does_not_probe :
  ReadFlat two_objects OllamaShape "u" = Ok [mkModel "m" no_caps]
  /\ lr_entries (read_listing (codec := bit_codec) "ollama" "u" OllamaShape (Http.mkResponse 200 (probe_text two_objects))) = 0%nat
  /\ lr_shape_fields_absent
       (read_listing (codec := bit_codec) "ollama" "u" OllamaShape (Http.mkResponse 200 (probe_text two_objects))) = ["name"].
Proof. vm_compute. done. Qed.

(** A model that needs a level is not asked, and the next one is. *)
Definition needs_level : ModelEntry := mkModel "glm-5.1" (mkCaps false false true true "medium" 0 "").

Example Level_missing_not_asked :
  match VerifyModels (codec := bit_codec) (fun _ => false) probe_net (fun n => (n, 7))
          (mkBackend kDeepSeek "https://api.deepseek.com/v1" "" None default_temperature None None kNone None)
          [needs_level; mkModel "m-one" no_caps] 0%nat with
  | (n, Ok checks) => n = 1%nat /\ map ck_answered checks = [false; true]
  | _ => False
  end.
Proof. vm_compute. done. Qed.
