(* ===== verification/Console.v ===== *)
(** * What a command prints and exits with ([include/pu/app/cli.hpp])

    The exit codes of the commands, and the two streams a command writes. *)
From Stdlib Require Import Ascii.
From S2P Require Export Prelude.

Inductive ExitCode := kOk | kUsage | kProvider | kSandbox | kInterrupted.

#[export] Instance ExitCode_eq_dec : EqDecision ExitCode.
Proof. solve_decision. Defined.

Definition exit_status (code : ExitCode) : Z :=
  match code with kOk => 0 | kUsage => 1 | kProvider => 2 | kSandbox => 3 | kInterrupted => 4 end.

(** What a command wrote, and its code. *)
Record printed := mkPrinted { pr_stdout : string; pr_stderr : string; pr_code : ExitCode }.

(** A command's output goes on after what is there. *)
Definition after_output (out err : string) (p : printed) : printed :=
  mkPrinted (out +:+ pr_stdout p) (err +:+ pr_stderr p) (pr_code p).
