(* ===== verification/SseClient.v ===== *)
(** * The stream client ([src/app/cli_sse.cpp])

    [pu sse] reads a feed over the HTTP client and prints its events as they
    arrive: as text, as one JSON object each, or the bytes as sent.  What is
    printed is the state; the shutdown token is read through the network's
    state, as in [Http]. *)
From Stdlib Require Import Ascii.
From S2P Require Export Prelude Text Json Sse Http Provider Console.

(** ** Options *)

Inductive SseFormat := kText | kJson | kRaw.

#[export] Instance SseFormat_eq_dec : EqDecision SseFormat.
Proof. solve_decision. Defined.

Record SseOptions := mkSseOptions {
  so_url : string; so_method : HttpMethod; so_headers : list string; so_body : option string; so_format : SseFormat;
  so_quiet : bool
}.

Section Client.
#[local] Set Default Proof Using "Type*".
Context `{codec : JsonCodec} {N : Type}.
(** The shutdown token, the flag as [ShutdownRequested] reads it, the network,
    and what else happens while a piece is waited for. *)
Context (shutdown : N -> N * bool) (interrupted : N -> bool) (dial : Http.Request -> N -> N * Network).
Context (meanwhile : N -> N).

Definition FormatSseEvent (e : SseEvent) (options : SseOptions) : string :=
  match so_format options with
  | kJson =>
      serialize (JObject
        (let out := [("data", JString (data e))] in
         let out := if sempty (event e) then out else obj_set "event" (JString (event e)) out in
         if sempty (ev_id e) then out else obj_set "id" (JString (ev_id e)) out))
  | _ =>
      (if negb (so_quiet options) && (negb (sempty (event e)) || negb (sempty (ev_id e))) then
         (if sempty (event e) then "" else "event: " +:+ event e +:+ "  ")
         +:+ (if sempty (ev_id e) then "" else "id: " +:+ ev_id e) +:+ NL
       else "")
      +:+ data e
  end.

(** What goes on while a feed is read: the parser, whether anything was printed,
    and what was. *)
Record feed := mkFeed { fd_net : N; fd_parser : SseParser; fd_first : bool; fd_stdout : string }.

(** The callback of the parser. *)
Definition print_event (options : SseOptions) (e : SseEvent) (f : feed) : feed :=
  mkFeed (fd_net f) (fd_parser f) false
    (fd_stdout f +:+ (if fd_first f then "" else NL) +:+ FormatSseEvent e options).

Definition print_outs (options : SseOptions) (outs : list out) (f : feed) : feed :=
  foldl (fun f o => match o with OnEvent e => print_event options e f | OnRetry _ => f end) f outs.

(** A call of the parser, and the events it makes. *)
Definition parse_with (options : SseOptions) (fed : SseParser * list out) (f : feed) : feed :=
  let '(p, outs) := fed in print_outs options outs (mkFeed (fd_net f) p (fd_first f) (fd_stdout f)).

Definition take_piece (options : SseOptions) (piece : string) (f : feed) : feed * res nat :=
  let f := mkFeed (meanwhile (fd_net f)) (fd_parser f) (fd_first f) (fd_stdout f) in
  (match so_format options with
   | kRaw => mkFeed (fd_net f) (fd_parser f) (fd_first f) (fd_stdout f +:+ piece)
   | _ => parse_with options (Feed (fd_parser f) piece) f
   end, Ok (slen piece)).

(** The last line of a feed that is not printed raw. *)
Definition finish_feed (options : SseOptions) (f : feed) : feed :=
  match so_format options with
  | kRaw => f
  | _ => let f := parse_with options (Finish (fd_parser f)) f in
         mkFeed (fd_net f) (fd_parser f) (fd_first f) (fd_stdout f +:+ NL)
  end.

Definition feed_token (f : feed) : feed * bool :=
  let '(n, set) := shutdown (fd_net f) in (mkFeed n (fd_parser f) (fd_first f) (fd_stdout f), set).

Definition feed_dial (rq : Http.Request) (f : feed) : feed * Network :=
  let '(n, net) := dial rq (fd_net f) in (mkFeed n (fd_parser f) (fd_first f) (fd_stdout f), net).

Definition RunSse (options : SseOptions) (n : N) : N * res printed :=
  let start := mkFeed n (new_parser false false) true "" in
  let '(f, out) :=
    StreamRequest (Some feed_token) (fun f => interrupted (fd_net f)) feed_dial (so_method options) (so_url options)
      (default "" (so_body options)) (so_headers options) (take_piece options) start in
  match out with
  | Ok _ => let f := finish_feed options f in (fd_net f, Ok (mkPrinted (fd_stdout f) "" kOk))
  | Throw e =>
      if interrupted (fd_net f) then
        let f := finish_feed options f in (fd_net f, Ok (mkPrinted (fd_stdout f) "" kInterrupted))
      else (fd_net f, Ok (mkPrinted (fd_stdout f) (ReadableError (what e) +:+ NL) kProvider))
  | Undef => (fd_net f, Undef)
  end.

(** ** What is printed *)

Definition outs_text (options : SseOptions) (outs : list out) : list string :=
  omap (fun o => match o with OnEvent e => Some (FormatSseEvent e options) | OnRetry _ => None end) outs.

(** What a feed that ended prints: the bytes, or its events one to a line. *)
Definition print_text (options : SseOptions) (text : string) : string :=
  match so_format options with
  | kRaw => text
  | _ => let '(p, outs) := Feed (new_parser false false) text in
         String.concat NL (outs_text options (outs ++ (Finish p).2)) +:+ NL
  end.

(** What one that broke off prints: the events that were complete. *)
Definition print_whole (options : SseOptions) (text : string) : string :=
  match so_format options with
  | kRaw => text
  | _ => String.concat NL (outs_text options (Feed (new_parser false false) text).2)
  end.

(** The lines printed so far, joined. *)
Definition lines (first : bool) (l : list string) : string :=
  match l with [] => "" | _ => (if first then "" else NL) +:+ String.concat NL l end.

Lemma concat_cons sep a l : String.concat sep (a :: l) = a +:+ match l with [] => "" | _ => sep +:+ String.concat sep l end.
Proof. destruct l; cbn; [by rewrite sapp_nil_r|done]. Qed.

Lemma print_outs_lines options outs f :
  let l := outs_text options outs in
  print_outs options outs f
  = mkFeed (fd_net f) (fd_parser f) (fd_first f && bool_decide (l = [])) (fd_stdout f +:+ lines (fd_first f) l).
Proof.
  revert f. unfold print_outs, outs_text. induction outs as [|o outs IH]; intros f; cbn [foldl omap list_omap].
  - rewrite bool_decide_true by done. cbn [lines]. rewrite sapp_nil_r, andb_true_r. by destruct f.
  - destruct o as [e|ms]; [|apply IH]. rewrite IH. cbn [print_event fd_net fd_parser fd_first fd_stdout].
    rewrite (bool_decide_false (_ :: _ = [])) by done. rewrite andb_false_r, andb_false_l. f_equal.
    unfold lines at 2. rewrite concat_cons, !sapp_assoc. do 2 f_equal.
Qed.

(** What the pieces of a body come to. *)
Fixpoint passed (ps : list string) (n : N) : N :=
  match ps with [] => n | piece :: ps => if sempty piece then passed ps n else passed ps (meanwhile n) end.

Lemma raw_pieces options ps text f :
  so_format options = kRaw ->
  read_pieces (take_piece options) false ps text f
  = (mkFeed (passed ps (fd_net f)) (fd_parser f) (fd_first f) (fd_stdout f +:+ foldr String.append "" ps),
     Ok (text, false)).
Proof.
  intros Hr. revert f. induction ps as [|piece ps IH]; intros f; cbn [read_pieces passed foldr].
  - rewrite sapp_nil_r. by destruct f.
  - destruct (sempty piece) eqn:He; [apply sempty_true in He as ->; by rewrite IH|].
    assert (Ht : take_piece options piece f
      = (mkFeed (meanwhile (fd_net f)) (fd_parser f) (fd_first f) (fd_stdout f +:+ piece), Ok (slen piece)))
      by (unfold take_piece; by rewrite Hr).
    rewrite Ht. destruct (slen piece) as [|k] eqn:Hl; [apply slen_0 in Hl; by subst|]. rewrite IH.
    cbn [fd_net fd_parser fd_first fd_stdout]. by rewrite sapp_assoc.
Qed.

Lemma parsed_pieces options ps text f :
  so_format options <> kRaw ->
  read_pieces (take_piece options) false ps text f
  = (let '(p, outs) := Feed_all (fd_parser f) (List.filter (fun x => negb (sempty x)) ps) in
     print_outs options outs (mkFeed (passed ps (fd_net f)) p (fd_first f) (fd_stdout f)), Ok (text, false)).
Proof.
  intros Hr. revert f. induction ps as [|piece ps IH]; intros f; cbn [read_pieces passed List.filter].
  - cbn [Feed_all]. by destruct f.
  - destruct (sempty piece) eqn:He; cbn [negb]; [apply IH|].
    assert (Ht : take_piece options piece f
      = (parse_with options (Feed (fd_parser f) piece) (mkFeed (meanwhile (fd_net f)) (fd_parser f) (fd_first f) (fd_stdout f)),
         Ok (slen piece))) by (unfold take_piece; by destruct (so_format options)).
    rewrite Ht. destruct (slen piece) as [|k] eqn:Hl; [apply slen_0 in Hl; by subst|]. rewrite IH. cbn [Feed_all].
    unfold parse_with. destruct (Feed (fd_parser f) piece) as [p outs].
    rewrite print_outs_lines. cbn [fd_net fd_parser fd_first fd_stdout].
    destruct (Feed_all p _) as [p2 outs2]. f_equal. unfold print_outs. rewrite foldl_app. f_equal.
    change (foldl _ ?f0 outs) with (print_outs options outs f0). by rewrite print_outs_lines.
Qed.

(** What has been printed when the body ends. *)
Definition after_body (options : SseOptions) (text : string) (n : N) : feed :=
  match so_format options with
  | kRaw => mkFeed n (new_parser false false) true text
  | _ => let '(p, outs) := Feed (new_parser false false) text in
         let l := outs_text options outs in
         mkFeed n p (bool_decide (l = [])) (String.concat NL l)
  end.

Lemma pieces_after_body options ps text n :
  read_pieces (take_piece options) false ps text (mkFeed n (new_parser false false) true "")
  = (after_body options (concat_strings ps) (passed ps n), Ok (text, false)).
Proof.
  destruct (decide (so_format options = kRaw)) as [Hr|Hr].
  - rewrite raw_pieces by done. unfold after_body. by rewrite Hr.
  - rewrite parsed_pieces by done. cbn [fd_parser fd_net fd_first fd_stdout].
    rewrite Feed_all_new, filter_nonempty_concat. unfold after_body.
    destruct (Feed _ (concat_strings ps)) as [p outs]. rewrite print_outs_lines. cbn [fd_parser fd_net fd_first fd_stdout].
    rewrite andb_true_l. destruct (so_format options); [| |done]; do 2 f_equal; by destruct (outs_text options outs).
Qed.

Lemma concat_app sep l1 l2 :
  String.concat sep (l1 ++ l2)
  = String.concat sep l1 +:+ match l1, l2 with _ :: _, _ :: _ => sep | _, _ => "" end +:+ String.concat sep l2.
Proof.
  induction l1 as [|a l1 IH]; [done|]. cbn [app]. rewrite !concat_cons, IH. destruct l1 as [|b l1].
  - destruct l2; cbn; by rewrite ?sapp_nil_r.
  - cbn [app]. rewrite !sapp_assoc. done.
Qed.

Lemma outs_text_app options l1 l2 : outs_text options (l1 ++ l2) = outs_text options l1 ++ outs_text options l2.
Proof. apply omap_app. Qed.

Lemma finish_after_body options text n :
  let f := finish_feed options (after_body options text n) in
  fd_net f = n /\ fd_stdout f = print_text options text.
Proof.
  unfold finish_feed, after_body, print_text. destruct (so_format options); [| |done]; cbv zeta;
    destruct (Feed _ text) as [p outs]; unfold parse_with; cbn [fd_parser fd_net fd_first fd_stdout];
    destruct (Finish p) as [p2 last]; rewrite print_outs_lines; cbn [fd_parser fd_net fd_first fd_stdout snd];
    (split; [done|]); f_equal; rewrite outs_text_app, concat_app; f_equal;
    destruct (outs_text options outs), (outs_text options last); done.
Qed.

Definition unstopped (n : N) : Prop := shutdown n = (n, false) /\ interrupted n = false.

Lemma unstopped_quiet n p first text :
  unstopped n -> quiet (Some feed_token) (fun f => interrupted (fd_net f)) (mkFeed n p first text).
Proof. intros [H1 H2]. unfold quiet, CheckCancel, feed_token. cbn [fd_net]. rewrite H1. cbn. by rewrite H2. Qed.

(** The client prints what a feed carried, however it was cut up: a feed that
    ends prints every event of the whole text in order, one to a line, or in
    the raw shape the text itself, and answers 0.  A feed that breaks off
    prints the events that were complete and answers 2, or, when the signal
    came while it was read, the rest as well and 4.  A signal that comes while
    the feed is read does not end it. *)
Theorem RunSse_prints options n n1 net parts :
  let body := default "" (so_body options) in
  ParseUrl (so_url options) = Ok parts ->
  dial (mkRequest (so_method options) parts (ApplyHeaders (url_host parts) body (so_headers options)) body) n = (n1, net) ->
  unstopped n -> unstopped n1 -> reached net ->
  let text := concat_strings (pieces net) in
  let n2 := passed (pieces net) n1 in
  RunSse options n
  = (n2, Ok (match ended net with
             | None => mkPrinted (print_text options text) "" kOk
             | Some f =>
                 if interrupted n2 then mkPrinted (print_text options text) "" kInterrupted
                 else mkPrinted (print_whole options text)
                        (ReadableError (match f with Http.TimedOut => "HTTP read timed out after 300s"
                                                   | Failure message => "HTTP read error: " +:+ message end) +:+ NL)
                        kProvider
             end)).
Proof.
  intros body Hp Hd Hs Hs1 Hr text n2. unfold RunSse.
  rewrite (StreamRequest_quiet (Some feed_token) (fun f => interrupted (fd_net f)) feed_dial (take_piece options)
             (so_method options) (so_url options) body (so_headers options) parts
             (mkFeed n (new_parser false false) true "") (mkFeed n1 (new_parser false false) true "") net);
    [|by apply unstopped_quiet..|done|unfold feed_dial; cbn [fd_net]; by rewrite Hd|done].
  rewrite pieces_after_body. cbn [res_bind snd].
  destruct (finish_after_body options text n2) as [Hn Ho]. fold text n2.
  assert (Hf : fd_net (after_body options text n2) = n2
             /\ fd_stdout (after_body options text n2) = print_whole options text).
  { unfold after_body, print_whole. destruct (so_format options); [| |done]; by destruct (Feed _ text). }
  destruct Hf as [Hf1 Hf2]. destruct (ended net) as [f|]; cbn [within].
  - assert (Hw : within (Some f) "read" kStreamIdleBudget
              = HttpError (match f with Http.TimedOut => "HTTP read timed out after 300s"
                                      | Failure message => "HTTP read error: " +:+ message end) (A := unit))
      by (by destruct f).
    cbn [within] in Hw. rewrite Hw, Hf1. unfold HttpError. cbn [what]. destruct (interrupted n2); [by rewrite Hn, Ho|].
    by rewrite Hf2.
  - by rewrite Hn, Ho.
Qed.

End Client.

(** ** Witnesses *)

(** Two events, the second named, cut in the middle of a field. *)
Definition feed_text : string :=
  "data: one" +:+ NL +:+ NL +:+ "event: tick" +:+ NL +:+ "id: 7" +:+ NL +:+ "data: two" +:+ NL +:+ NL.

Definition feed_net (f : option failure) : Network :=
  mkNetwork (Ok tt) None None None (inr 200) [stake 14 feed_text; ""; sdrop 14 feed_text] f.

Definition feed_options (format : SseFormat) : SseOptions :=
  mkSseOptions "http://localhost:8080/events" kGet [] None format false.

(** The signal comes while the third piece is waited for: the state counts them. *)
Definition run_feed (format : SseFormat) (f : option failure) (at_ : nat) : nat * res printed :=
  RunSse (codec := bit_codec) (fun n => (n, false)) (fun n => (at_ <=? n)%nat) (fun _ n => (n, feed_net f)) S
    (feed_options format) 0%nat.

Lemma RunSse_prints_witness :
  run_feed kText None 2
  = (2%nat, Ok (mkPrinted ("one" +:+ NL +:+ "event: tick  id: 7" +:+ NL +:+ "two" +:+ NL) "" kOk)).
Proof.
  unfold run_feed.
  rewrite (RunSse_prints (codec := bit_codec) (fun n => (n, false)) (fun n => (2 <=? n)%nat) (fun _ n => (n, feed_net None)) S
    (feed_options kText) 0%nat 0%nat (feed_net None) (mkUrl "http" "localhost" "8080" "/events")
    ltac:(vm_compute; reflexivity) eq_refl ltac:(done) ltac:(done) ltac:(split_and!; try done; by exists 200)).
  vm_compute. reflexivity.
Defined.

(** The signal came with the second piece: the client reads the feed to its end
    and answers that nothing stopped it. *)
Example Signal_not_noticed : (run_feed kRaw None 1).2 = Ok (mkPrinted feed_text "" kOk).
Proof. vm_compute. reflexivity. Qed.

(** Only a feed that breaks off makes it say that a person stopped it. *)
Example Signal_seen_when_it_breaks :
  (run_feed kRaw (Some Http.TimedOut) 1).2 = Ok (mkPrinted feed_text "" kInterrupted)
  /\ (run_feed kRaw (Some Http.TimedOut) 9).2
     = Ok (mkPrinted feed_text ("HTTP read timed out after 300s" +:+ NL) kProvider).
Proof. vm_compute. done. Qed.
