(* ===== verification/Check.v ===== *)
(** * What a configuration resolves to ([src/app/cli_check.cpp])

    [pu check] reads a configuration the way a runtime does and prints what it
    resolves to, with warnings about fields nothing reads.  [weakly_canonical] of
    the file system and the working directory are parameters. *)
From Stdlib Require Import Ascii.
From S2P Require Export Prelude Json Agents Runtime Console.

Definition ReadAgentKeys : list string :=
  ["name"; "description"; "backend"; "security"; "paging"; "mcp_servers"; "tool_call_budget"].

Definition ReadBackendKeys : list string :=
  ["gateway"; "host"; "model"; "api_key"; "temperature"; "system_prompt"; "max_tokens"; "thinking"; "context_window"].

Definition ReadSecurityKeys : list string :=
  ["sandbox_root"; "max_command_length"; "forbidden_patterns"; "approval_patterns"].

Definition ReadPagingKeys : list string :=
  ["page_lines"; "max_lines"; "capture_bytes"; "retain_bytes"; "retain_buffers"].

Definition ignored_warning (where_ key : string) : string :=
  "field '" +:+ key +:+ "' in " +:+ where_ +:+ " is not read by this build".

(** The warnings pushed. *)
Definition WarnIgnoredKeys (o : object) (read : list string) (where_ : string) : list string :=
  map (ignored_warning where_) (List.filter (fun key => negb (bool_decide (key ∈ read))) o.*1).

Definition ApiKeyState (backend : Backend) (raw_backend : value) : string * list string :=
  match api_key backend with
  | None => ("(none)", [])
  | Some key =>
      if sempty key then
        let declared := string_or raw_backend "api_key" "" in
        ("(empty)", ["api_key in this backend resolves to empty"
                     +:+ (if sempty declared then "" else " (declared as " +:+ declared +:+ "; is the variable set?)")])
      else ("(set, " +:+ decimal (Z.of_nat (slen key)) +:+ " characters)", [])
  end.

Definition quote1 (s : string) : string := "'" +:+ s +:+ "'".

(** A line of the report, but for a list that is empty. *)
Definition listed (label : string) (items : list string) (closing : string) : string :=
  match items with [] => "" | _ => label +:+ String.concat ", " items +:+ closing +:+ NL end.

Definition server_item (server : McpServerConfig) : string :=
  srv_name server +:+ " (" +:+ (if sempty (srv_url server) then srv_command server else srv_url server) +:+ ")".

(** The member of an agent's object under [key], where it is an object, against
    the keys that are read. *)
Definition warn_member (raw_agent : object) (key : string) (read : list string) (name : string) : list string :=
  match obj_find key raw_agent with
  | Some (JObject inner) => WarnIgnoredKeys inner read (name +:+ "." +:+ key)
  | _ => []
  end.

Definition ignored_fields (raw : value) (name : string) : list string :=
  match if_object raw with
  | None => []
  | Some raw_agent =>
      WarnIgnoredKeys raw_agent ReadAgentKeys name
      ++ warn_member raw_agent "backend" ReadBackendKeys name
      ++ warn_member raw_agent "security" ReadSecurityKeys name
      ++ warn_member raw_agent "paging" ReadPagingKeys name
  end.

(** The path, or what the system said. *)
Section Check.
#[local] Set Default Proof Using "Type*".
Context `{codec : JsonCodec} {N : Type} `{!World N} (weakly_canonical : N -> string -> string + string) (fuel : nat).
(** [std::filesystem::current_path]. *)
Context (workspace : string).

Definition SandboxState (n : N) (policy : SecurityPolicy) : string * list string :=
  if sempty (sandbox_root policy) then (workspace, ["no sandbox_root names, so the workspace is the sandbox"])
  else
    let resolved := path_join workspace (sandbox_root policy) in
    match weakly_canonical n resolved with
    | inl canonical => (canonical, [])
    | inr message =>
        (resolved +:+ " (unresolved)",
         ["sandbox_root '" +:+ sandbox_root policy +:+ "' does not resolve: " +:+ message])
    end.

(** What [raw_agent] declares of its backend. *)
Definition host_origin (entry : AgentEntry) (raw_agent : option object) : string :=
  match raw_agent ≫= obj_find "backend" with
  | None => ""
  | Some raw_backend =>
      let declared := string_or raw_backend "host" "" in
      if sempty declared then "   (default for this gateway)"
      else if bool_decide (declared = host (ag_backend entry)) then "" else "   (from " +:+ declared +:+ ")"
  end.

Definition FormatAgent (n : N) (entry : AgentEntry) (raw : value) (default_agent_ : string)
    : res (string * list string) :=
  let raw_agent := if_object raw in
  let backend := ag_backend entry in
  let? gateway_name := GatewayName (gateway backend) in
  let '(key_line, key_warnings) :=
    match raw_agent ≫= obj_find "backend" with
    | None => ("", [])
    | Some raw_backend =>
        let '(state, warnings) := ApiKeyState backend raw_backend in ("  api_key      " +:+ state +:+ NL, warnings)
    end in
  let '(sandbox, sandbox_warnings) := SandboxState n (ag_security entry) in
  Ok (ag_name entry +:+ (if bool_decide (ag_name entry = default_agent_) then "   (default_agent)" else "") +:+ NL
      +:+ (if sempty (ag_description entry) then "" else "  description  " +:+ ag_description entry +:+ NL)
      +:+ "  gateway      " +:+ gateway_name +:+ NL
      +:+ "  host         " +:+ host backend +:+ host_origin entry raw_agent +:+ NL
      +:+ "  model        " +:+ model backend +:+ NL
      +:+ key_line
      +:+ "  thinking     " +:+ ThinkingLevelName (thinking backend) +:+ NL
      +:+ match max_tokens backend with Some cap => "  max_tokens   " +:+ signed_decimal cap +:+ NL | None => "" end
      +:+ match context_window backend with Some size => "  context      " +:+ signed_decimal size +:+ NL | None => "" end
      +:+ "  sandbox      " +:+ sandbox +:+ NL
      +:+ listed "  forbids      " (map quote1 (forbidden_patterns (ag_security entry))) ""
      +:+ listed "  approval     " (map quote1 (approval_patterns (ag_security entry)))
            "   (no channel to ask on from the CLI: such a command is refused)"
      +:+ listed "  mcp          " (map server_item (ag_mcp_servers entry)) ""
      +:+ match ag_tool_call_budget entry with
          | Some budget => "  tool budget  " +:+ signed_decimal budget +:+ NL
          | None => ""
          end,
      key_warnings ++ sandbox_warnings ++ ignored_fields raw (ag_name entry)).

(** The text of a file read through a stream, empty where it does not open, and
    an empty object where it does not parse. *)
Definition parsed_or_empty (n : N) (path : string) : value :=
  default (JObject []) (parse (default "" (w_read n path))).

Definition raw_agents (root : value) : list value :=
  match at_key root "agents" with Some (JArray items) => items | _ => [] end.

(** Each agent with the entry at its place, or an empty object past the end. *)
Fixpoint format_agents (n : N) (entries : list AgentEntry) (raws : list value) (default_agent_ : string)
    : res (string * list string) :=
  match entries with
  | [] => Ok ("", [])
  | entry :: entries =>
      let raw := default (JObject []) (raws !! 0%nat) in
      let? formatted := FormatAgent n entry raw default_agent_ in
      let? rest := format_agents n entries (tail raws) default_agent_ in
      Ok (formatted.1 +:+ NL +:+ rest.1, formatted.2 ++ rest.2)
  end.

Definition check_session_path (config_path : string) : string := path_join (parent_path config_path) "session.json".

Definition session_agent (saved : value) : string :=
  match at_key saved "session_spec" with
  | Some (JObject spec) => string_or (JObject spec) "agent_name" ""
  | _ => ""
  end.

(** What is said of the session beside the configuration. *)
Definition session_lines (n : N) (path : string) (cfg : AgentsConfig) : string :=
  let session := check_session_path path in
  if w_exists n session then
    let named := session_agent (parsed_or_empty n session) in
    if sempty named then ""
    else
      "session  " +:+ session +:+ NL
      +:+ (if existsb (fun entry => bool_decide (ag_name entry = named)) (agents cfg)
           then "  names  " +:+ named +:+ NL +:+ NL
           else "  names  " +:+ named +:+ ", which this file does not configure" +:+ NL
                +:+ "  configured: " +:+ String.concat ", " (map ag_name (agents cfg)) +:+ NL +:+ NL)
  else "".

Definition warning_lines (warnings : list string) : string :=
  match warnings with
  | [] => ""
  | _ => "warnings" +:+ NL +:+ foldr String.append "" (map (fun w => "  " +:+ w +:+ NL) warnings)
  end.

Definition RunCheck (config_path : string) (n : N) : res printed :=
  let path := if sempty config_path then FindConfigPath n else config_path in
  if sempty path then Ok (mkPrinted "" ("No agents.json found: looked in ./.pu/ and ~/.pu/." +:+ NL) kUsage)
  else
    let heading := "config  " +:+ path +:+ NL +:+ NL in
    match LoadAgentsConfig (w_getenv n) fuel path (w_read n path) with
    | Undef => Undef
    | Throw e => Ok (mkPrinted heading ("cannot load " +:+ path +:+ ": " +:+ what e +:+ NL) kUsage)
    | Ok cfg =>
        let? formatted := format_agents n (agents cfg) (raw_agents (parsed_or_empty n path)) (default_agent cfg) in
        Ok (mkPrinted
              (heading +:+ "workspace  " +:+ workspace +:+ NL +:+ "default    " +:+ default_agent cfg +:+ NL +:+ NL
               +:+ formatted.1 +:+ session_lines n path cfg +:+ warning_lines formatted.2) "" kOk)
    end.

End Check.

(** ** The fields that are read *)

(** Looking a field up under another name is not disturbed by setting it. *)
Lemma at_key_set_ne key key' v (o : object) :
  key' <> key -> at_key (JObject (obj_set key v o)) key' = at_key (JObject o) key'.
Proof. intros H. unfold at_key. cbn. by apply obj_find_set_ne. Qed.

Lemma ValueOrDefault_set_ne {T} (to : value -> option T) key key' v (o : object) d :
  key' <> key -> ValueOrDefault to (JObject (obj_set key v o)) key' d = ValueOrDefault to (JObject o) key' d.
Proof. intros H. unfold ValueOrDefault. cbn. by rewrite obj_find_set_ne. Qed.

Lemma OptionalOrDefault_set_ne {T} (to : value -> option T) key key' v (o : object) :
  key' <> key -> OptionalOrDefault to (JObject (obj_set key v o)) key' = OptionalOrDefault to (JObject o) key'.
Proof. intros H. by rewrite !OptionalOrDefault_found, obj_find_set_ne. Qed.

(** Two objects that answer alike for every key of a list. *)
Definition same_on (keys : list string) (o o' : object) : Prop :=
  forall key, key ∈ keys -> obj_find key o = obj_find key o'.

Lemma same_on_at_key keys o o' key : same_on keys o o' -> key ∈ keys -> at_key (JObject o) key = at_key (JObject o') key.
Proof. intros H Hk. unfold at_key. cbn. by apply H. Qed.

Lemma same_on_set keys key v o : key ∉ keys -> same_on keys (obj_set key v o) o.
Proof. intros H k Hk. apply obj_find_set_ne. set_solver. Qed.

(** Rewrites every look-up of a field of [keys]. *)
Ltac same_fields H :=
  unfold ValueOrDefault, OptionalOrDefault, HasKey, strings_at, size_at, object_at, at_key;
  cbn [if_object mbind option_bind];
  repeat rewrite (H _) by (apply list_elem_of_In; cbn; tauto).

Lemma ParsePaging_same o o' : same_on ReadPagingKeys o o' -> ParsePaging (JObject o) = ParsePaging (JObject o').
Proof. intros H. unfold ParsePaging. by same_fields H. Qed.

Lemma ParseSecurityPolicy_same o o' :
  same_on ReadSecurityKeys o o' -> ParseSecurityPolicy (JObject o) = ParseSecurityPolicy (JObject o').
Proof. intros H. unfold ParseSecurityPolicy. by same_fields H. Qed.

Lemma WarnIgnoredKeys_in o read where_ w :
  w ∈ WarnIgnoredKeys o read where_ <-> exists key, key ∈ o.*1 /\ key ∉ read /\ w = ignored_warning where_ key.
Proof.
  unfold WarnIgnoredKeys. rewrite list_elem_of_In, in_map_iff. setoid_rewrite filter_In.
  setoid_rewrite negb_true_iff. setoid_rewrite bool_decide_eq_false. setoid_rewrite <- list_elem_of_In. naive_solver.
Qed.

Lemma warn_member_in o member read name w :
  w ∈ warn_member o member read name <->
  exists inner key, obj_find member o = Some (JObject inner) /\ key ∈ inner.*1 /\ key ∉ read
    /\ w = ignored_warning (name +:+ "." +:+ member) key.
Proof.
  unfold warn_member. destruct (obj_find member o) as [[]|]; try (split; [by intros ?%elem_of_nil|by intros (? & ? & [=] & _)]).
  rewrite WarnIgnoredKeys_in. naive_solver.
Qed.

(** The objects of an agent and the keys read of each. *)
Definition members : list (string * list string) :=
  [("backend", ReadBackendKeys); ("security", ReadSecurityKeys); ("paging", ReadPagingKeys)].

Section Fields.
Context (getenv : string -> option string) (fuel : nat).

Lemma ParseBackend_same o o' :
  same_on ReadBackendKeys o o' -> ParseBackend getenv fuel (JObject o) = ParseBackend getenv fuel (JObject o').
Proof. intros H. unfold ParseBackend, ReadBackendFields, ReadGateway, ReadThinkingLevel. by same_fields H. Qed.

Lemma ParseAgentEntry_same o o' :
  same_on ReadAgentKeys o o' -> ParseAgentEntry getenv fuel (JObject o) = ParseAgentEntry getenv fuel (JObject o').
Proof. intros H. unfold ParseAgentEntry. by same_fields H. Qed.

(** *** Each key is read *)

Definition plain_agent : object :=
  [("name", JString "a"); ("backend", JObject [("gateway", JString "openai"); ("model", JString "m")])].

(** A value that changes what [plain_agent] is read as. *)
Definition telling (key : string) : value :=
  if bool_decide (key = "name") then JString "b"
  else if bool_decide (key = "description") then JString "d"
  else if bool_decide (key = "backend") then JObject [("gateway", JString "nim"); ("model", JString "m")]
  else if bool_decide (key = "security") then JObject [("sandbox_root", JString "r")]
  else if bool_decide (key = "paging") then JObject [("page_lines", JInt64 7)]
  else if bool_decide (key = "mcp_servers") then JArray [JObject [("name", JString "s"); ("command", JString "c")]]
  else JInt64 3.

Lemma agent_keys_read key :
  (0 < fuel)%nat -> key ∈ ReadAgentKeys ->
  exists o v, ParseAgentEntry getenv fuel (JObject (obj_set key v o)) <> ParseAgentEntry getenv fuel (JObject o).
Proof.
  intros Hf Hk. exists plain_agent, (telling key). destruct fuel as [|f]; [lia|].
  unfold ReadAgentKeys in Hk. rewrite !elem_of_cons, elem_of_nil in Hk.
  destruct_or? Hk; try done; subst key; vm_compute; congruence.
Qed.

(** A member read by a function that answers alike. *)
Lemma ParseAgentEntry_member o key inner inner' :
  obj_find key o = Some (JObject inner) ->
  (key = "backend" /\ same_on ReadBackendKeys inner' inner) \/ (key = "security" /\ same_on ReadSecurityKeys inner' inner)
    \/ (key = "paging" /\ same_on ReadPagingKeys inner' inner) ->
  ParseAgentEntry getenv fuel (JObject (obj_set key (JObject inner') o)) = ParseAgentEntry getenv fuel (JObject o).
Proof.
  intros Hf Hs. unfold ParseAgentEntry, ValueOrDefault, OptionalOrDefault, HasKey, object_at, at_key.
  cbn [if_object mbind option_bind].
  destruct Hs as [[-> Hs]|[[-> Hs]|[-> Hs]]];
    rewrite !obj_find_set_eq, Hf; repeat rewrite obj_find_set_ne by done.
  - by rewrite (ParseBackend_same inner' inner).
  - by rewrite (ParseSecurityPolicy_same inner' inner).
  - by rewrite (ParsePaging_same inner' inner).
Qed.

Lemma member_ignored o member read inner key v :
  (member, read) ∈ members -> obj_find member o = Some (JObject inner) -> key ∉ read ->
  ParseAgentEntry getenv fuel (JObject (obj_set member (JObject (obj_set key v inner)) o))
  = ParseAgentEntry getenv fuel (JObject o).
Proof.
  intros Hm Hf Hk. apply (ParseAgentEntry_member _ _ inner); [done|]. unfold members in Hm.
  rewrite !elem_of_cons, elem_of_nil in Hm.
  destruct Hm as [[= -> ->]|[[= -> ->]|[[= -> ->]|[]]]]; [left|right; left|right; right];
    (split; [done|]); by apply same_on_set.
Qed.

(** What [pu check] says is not read is read by nothing, and what it keeps silent
    about is read: every warning about a field names one of the agent's keys,
    or of its backend, security or paging object, that can be set to anything
    without changing the agent the program gets; every key without a warning
    is one of those the program reads, and each of those changes the agent of
    some file. *)
Theorem Ignored_fields_ignored o name :
  (forall w, w ∈ ignored_fields (JObject o) name ->
   exists key,
     (w = ignored_warning name key /\ key ∈ o.*1
      /\ forall v, ParseAgentEntry getenv fuel (JObject (obj_set key v o)) = ParseAgentEntry getenv fuel (JObject o))
     \/ exists member inner, w = ignored_warning (name +:+ "." +:+ member) key
         /\ obj_find member o = Some (JObject inner) /\ key ∈ inner.*1
         /\ forall v, ParseAgentEntry getenv fuel (JObject (obj_set member (JObject (obj_set key v inner)) o))
                      = ParseAgentEntry getenv fuel (JObject o))
  /\ (forall key, key ∈ o.*1 -> ignored_warning name key ∈ ignored_fields (JObject o) name \/ key ∈ ReadAgentKeys)
  /\ (forall member read inner key, (member, read) ∈ members -> obj_find member o = Some (JObject inner) -> key ∈ inner.*1 ->
      ignored_warning (name +:+ "." +:+ member) key ∈ ignored_fields (JObject o) name \/ key ∈ read)
  /\ (forall key, (0 < fuel)%nat -> key ∈ ReadAgentKeys ->
      exists o v, ParseAgentEntry getenv fuel (JObject (obj_set key v o)) <> ParseAgentEntry getenv fuel (JObject o)).
Proof.
  assert (Hall : forall w, w ∈ ignored_fields (JObject o) name <->
            w ∈ WarnIgnoredKeys o ReadAgentKeys name
            \/ exists member read, (member, read) ∈ members /\ w ∈ warn_member o member read name).
  { intros w. unfold ignored_fields, members. cbn [if_object]. rewrite !elem_of_app. set_solver. }
  split_and!.
  - intros w [(key & Hin & Hk & ->)%WarnIgnoredKeys_in|(member & read & Hm & Hw)]%Hall.
    + exists key. left. split_and!; [done..|]. intros v. by apply ParseAgentEntry_same, same_on_set.
    + apply warn_member_in in Hw as (inner & key & Hf & Hin & Hk & ->). exists key. right. exists member, inner.
      split_and!; [done..|]. intros v. by apply (member_ignored _ _ read).
  - intros key Hin. destruct (decide (key ∈ ReadAgentKeys)) as [|Hk]; [by right|left].
    apply Hall. left. apply WarnIgnoredKeys_in. by exists key.
  - intros member read inner key Hm Hf Hin. destruct (decide (key ∈ read)) as [|Hk]; [by right|left].
    apply Hall. right. exists member, read. split; [done|]. apply warn_member_in. by exists inner, key.
  - apply agent_keys_read.
Qed.

End Fields.

(** ** The verdict is the runtime's *)

Section Verdict.
#[local] Set Default Proof Using "Type*".
Context `{codec : JsonCodec} {P N T : Type} `{!World N} (tr : Transport (N : Type) T).
Context (PU_VERSION : string) (regex : string -> option (string -> bool)) (workspace : string).
Context (weakly_canonical : N -> string -> string + string) (fuel : nat).

Lemma FormatAgent_total n entry raw name :
  exists formatted, FormatAgent weakly_canonical workspace n entry raw name = Ok formatted.
Proof.
  unfold FormatAgent, GatewayName, res_map. destruct (GatewayForId_total (gateway (ag_backend entry))) as (row & -> & _).
  cbn [res_bind]. destruct (match if_object raw ≫= obj_find "backend" with Some _ => _ | None => _ end) as [key_line key_warnings].
  destruct (SandboxState _ _ _ _) as [sandbox warnings]. by eexists.
Qed.

Lemma format_agents_total n entries raws name :
  exists formatted, format_agents weakly_canonical workspace n entries raws name = Ok formatted.
Proof.
  revert raws. induction entries as [|entry entries IH]; intros raws; [by eexists|]. cbn [format_agents].
  destruct (FormatAgent_total n entry (default (JObject []) (raws !! 0%nat)) name) as [formatted ->].
  destruct (IH (tail raws)) as [rest ->]. by eexists.
Qed.

Lemma choose_config_nonempty config_path n path : choose_config workspace config_path n = Ok path -> path <> "".
Proof.
  unfold choose_config. intros H. apply res_bind_Ok in H as (chosen & _ & H).
  destruct (sempty chosen) eqn:E; [done|]. injection H as <-. by apply sempty_false.
Qed.

Lemma default_found getenv path contents cfg :
  LoadAgentsConfig getenv fuel path contents = Ok cfg ->
  exists entry, AgentManager.find_agent (default_agent cfg) (agents cfg) = Some entry.
Proof.
  unfold LoadAgentsConfig. destruct contents as [text|]; [|done]. destruct (parse text) as [j|]; [|done].
  destruct (at_key j "default_agent") as [[| | | | |name| |]|]; try done.
  destruct (at_key j "agents") as [[| | | | | |items|]|]; try done.
  intros (entries & _ & H)%res_bind_Ok. destruct (existsb _ entries) eqn:Ed; [|done]. injection H as <-.
  apply existsb_exists in Ed as (e & Hin%list_elem_of_In & Hn%bool_decide_eq_true). cbn [agents default_agent].
  unfold AgentManager.find_agent.
  destruct (list_find_elem_of (fun e => ag_name e = name) entries e Hin Hn) as [[k entry] ->]. by exists entry.
Qed.

(** [pu check] of the file a runtime would load gives the verdict the runtime
    gives: it exits with 1 exactly where the start throws on that file, in the
    same words, and with 0 exactly where the file loads and its default agent
    is one of its agents, which it prints, one stanza for each; it writes
    nothing but the verdict on stderr, and a warning never fails it. *)
Theorem Check_verdict (r : runtime (P := P) (T := T)) config_path path :
  choose_config workspace config_path (net r) = Ok path ->
  match LoadAgentsConfig (w_getenv (net r)) fuel path (w_read (net r) path) with
  | Undef => RunCheck weakly_canonical fuel workspace path (net r) = Undef
  | Throw e =>
      (exists out, RunCheck weakly_canonical fuel workspace path (net r)
                   = Ok (mkPrinted out ("cannot load " +:+ path +:+ ": " +:+ what e +:+ NL) kUsage))
      /\ Initialize tr PU_VERSION regex workspace fuel "" config_path r = (r, Throw e)
  | Ok cfg =>
      exists out, RunCheck weakly_canonical fuel workspace path (net r) = Ok (mkPrinted out "" kOk)
      /\ exists entry, AgentManager.find_agent (default_agent cfg) (agents cfg) = Some entry
  end.
Proof.
  intros Hc. pose proof (choose_config_nonempty _ _ _ Hc) as Hne%sempty_false.
  unfold RunCheck. rewrite !Hne.
  destruct (LoadAgentsConfig _ _ _ _) as [cfg|e|] eqn:El; [|split; [by eexists|]|done].
  - destruct (format_agents_total (net r) (agents cfg) (raw_agents (parsed_or_empty (net r) path)) (default_agent cfg))
      as [formatted ->]. cbn [res_bind]. eexists. split; [reflexivity|]. by eapply default_found.
  - unfold Initialize, then_. rewrite Hc. cbv beta iota. by rewrite El.
Qed.

End Verdict.

(** ** Witnesses *)

Lemma Ignored_fields_ignored_witness :
  let o := obj_set "colour" (JString "red") plain_agent in
  ignored_fields (JObject o) "a" = ["field 'colour' in a is not read by this build"]
  /\ (exists key, key ∈ o.*1 /\ forall v, ParseAgentEntry (fun _ => None) 9 (JObject (obj_set key v o))
                                          = ParseAgentEntry (fun _ => None) 9 (JObject o))
  /\ exists o v, ParseAgentEntry (fun _ => None) 9 (JObject (obj_set "paging" v o))
                 <> ParseAgentEntry (fun _ => None) 9 (JObject o).
Proof.
  cbv zeta. set (o := obj_set "colour" (JString "red") plain_agent).
  assert (Hw : ignored_fields (JObject o) "a" = ["field 'colour' in a is not read by this build"]) by (vm_compute; reflexivity).
  destruct (Ignored_fields_ignored (fun _ => None) 9 o "a") as (H1 & _ & _ & H2). split; [exact Hw|]. split.
  - destruct (H1 "field 'colour' in a is not read by this build") as (key & H).
    { rewrite Hw. by apply elem_of_cons; left. }
    destruct H as [(_ & Hin & Hv)|(member & inner & E & Hf & _ & _)]; [by exists key|]. exfalso.
    apply obj_find_elem in Hf.
    change o with [("name", JString "a"); ("backend", JObject [("gateway", JString "openai"); ("model", JString "m")]);
                   ("colour", JString "red")] in Hf.
    rewrite !elem_of_cons, elem_of_nil in Hf. destruct Hf as [[=]|[[= -> ->]|[[=]|[]]]]. clear -E.
    apply (f_equal (sdrop 7)) in E. vm_compute in E.
    repeat (destruct key as [|? key]; [vm_compute in E; discriminate E|]; vm_compute in E; injection E as _ E).
    destruct key; vm_compute in E; discriminate E.
  - apply H2; [lia|]. unfold ReadAgentKeys. rewrite !elem_of_cons. tauto.
Defined.

Definition config_text (default_ : string) : string :=
  serialize (JsonCodec := bit_codec)
    (JObject [("default_agent", JString default_); ("agents", JArray [JObject plain_agent])]).

(** A workspace whose configuration names an agent it does not have. *)
Definition broken_disk : disk := mkDisk {["/w/.pu/agents.json" := config_text "z"]} None.

Lemma Check_verdict_witness :
  choose_config "/w" "" broken_disk = Ok "/w/.pu/agents.json"
  /\ (exists out, RunCheck (codec := bit_codec) (fun _ p => inl p) 9 "/w" "/w/.pu/agents.json" broken_disk
        = Ok (mkPrinted out ("cannot load /w/.pu/agents.json: default_agent does not match any configured agent" +:+ NL) kUsage)).
Proof.
  assert (Hc : choose_config "/w" "" broken_disk = Ok "/w/.pu/agents.json") by (vm_compute; reflexivity).
  split; [exact Hc|].
  pose proof (Check_verdict (codec := bit_codec) no_servers "1" prefix_regex "/w" (fun _ p => inl p) 9
    (runtime_on two_agents None 7 broken_disk) "" "/w/.pu/agents.json" Hc) as H.
  change (net (runtime_on two_agents None 7 broken_disk)) with broken_disk in H.
  assert (Hl : LoadAgentsConfig (codec := bit_codec) (w_getenv broken_disk) 9 "/w/.pu/agents.json"
                 (w_read broken_disk "/w/.pu/agents.json")
               = Throw (GenericError "default_agent does not match any configured agent")) by (vm_compute; reflexivity).
  rewrite Hl in H. exact (proj1 H).
Defined.

(** ** Where the check and the runtime part *)

(** The session named beside a configuration of the user is not the one a
    runtime opens, which is the workspace's. *)
Example Session_beside_the_file :
  check_session_path "/home/u/.pu/agents.json" = "/home/u/.pu/session.json"
  /\ session_path "/w" = "/w/.pu/session.json".
Proof. vm_compute. done. Qed.

(** A runtime goes by [PU_AGENTS_CONFIG] first; the check does not look. *)
Lemma Check_ignores_environment {N} `{!World N} workspace n explicit :
  w_getenv n "PU_AGENTS_CONFIG" = Some explicit -> explicit <> "" -> w_exists n explicit = true ->
  FindConfigPath n <> explicit ->
  exists path, choose_config workspace "" n = Ok path /\ FindConfigPath n <> path.
Proof.
  intros He Hne%sempty_false Hx Hf. exists explicit. split; [|done]. unfold choose_config. rewrite He, Hne, Hx.
  cbn [res_bind]. by rewrite Hne.
Qed.
