(* ===== verification/CommandLine.v ===== *)
(** * The command line ([src/app/cli.cpp], [src/app/main.cpp])

    The table of commands and options, the pages they make, and the check of the
    flags typed against the page of the command named.  Boost's parser, the
    look-up of an option in a description and the layout of a page are
    parameters. *)
From Stdlib Require Import Ascii.
From S2P Require Export Prelude Json Console.

Record OptionSpec := mkOption { op_name : string; op_help : string; op_takes_value : bool }.

#[export] Instance OptionSpec_eq_dec : EqDecision OptionSpec.
Proof. solve_decision. Defined.

Record CommandSpec := mkCommand { cs_name : string; cs_summary : string; cs_developer : bool; cs_hint : string }.

Definition plain_command (name summary : string) : CommandSpec := mkCommand name summary false "".

(** The name an option is looked up by: what comes before its short name. *)
Definition long_name (o : OptionSpec) : string :=
  match sfind "," (op_name o) with Some i => stake i (op_name o) | None => op_name o end.

(** ** The table *)

Definition commands : list CommandSpec :=
  [plain_command "agents" "list the agents in agents.json and the gateway each one names";
   plain_command "ask" "send one prompt to an agent and print the answer";
   plain_command "chat" "hold a conversation: one turn per line, until you leave";
   plain_command "check" "read agents.json and report what it resolves to, without asking a provider";
   plain_command "models" "list the models a gateway offers, or one agents.json entry for one of them";
   mkCommand "probe" "capture a gateway's raw stream and summarise the fields it sent (developer tool)" true
     "Reads agents.json for the gateway, its key and its model: what is asked of a provider that is already configured. `pu sse` takes a URL and headers instead, for a feed that is not a chat turn.";
   plain_command "serve" "host the page and the API that a browser talks to";
   mkCommand "sse" "read a server-sent-event stream and print each event" false
     "A plain client: the URL, the method and the headers are yours, and no agents.json is read. To capture what a configured gateway sends, ask for one token, use `pu probe`."].

Definition visible : list CommandSpec := List.filter (fun c => negb (cs_developer c)) commands.

Definition command_hint : string :=
  "command to execute (" +:+ String.concat "/" (map cs_name visible) +:+ ")".

Definition global_options : list OptionSpec :=
  [mkOption "help,h" "show help message" false; mkOption "version" "show version and exit" false;
   mkOption "command" command_hint true].

Definition agent_option : OptionSpec := mkOption "agent" "agent to use" true.
Definition gateway_option : OptionSpec :=
  mkOption "gateway" "read this gateway's own host and key instead of the agent's backend" true.
Definition model_option : OptionSpec :=
  mkOption "model" "model to use with --gateway; a gateway names a host, not a model" true.

(** The map, in the order of its keys. *)
Definition option_table : list (string * list OptionSpec) :=
  [("agents", [mkOption "json" "the shape GET /api/agents answers with, for a pipe" false]);
   ("ask", [mkOption "prompt" "prompt to send" true; agent_option;
            mkOption "show-usage" "print the tokens and price this turn cost, on stderr" false]);
   ("chat", [agent_option]);
   ("check", [mkOption "config" "agents.json to read (default: ./.pu/agents.json, then ~/.pu/)" true]);
   ("models", [agent_option; gateway_option; model_option;
               mkOption "detail"
                 "ids (default) for what you can pick, caps for the columns that decide between two models" true;
               mkOption "entry"
                 "print an agents.json entry for this model id, ready to paste; implies --detail entry" true;
               mkOption "verify" "ask each listed model for one token and report what answered" false]);
   ("probe", [agent_option; gateway_option; model_option;
              mkOption "out" "directory the raw stream is written to (default ./provider-probes)" true;
              mkOption "no-save" "print the summary without writing the raw stream" false;
              mkOption "listing" "probe the model listing instead of the stream" false]);
   ("serve", [mkOption "bind" "interface to listen on (default 127.0.0.1)" true;
              mkOption "port" "port to listen on (default 8080)" true]);
   ("sse", [mkOption "url" "the endpoint to read (positional as well)" true;
            mkOption "header" "a request header, repeatable: --header 'Authorization: Bearer ...'" true;
            mkOption "post" "ask with POST instead of GET" false;
            mkOption "body" "request body to send; '-' reads it from stdin" true;
            mkOption "format" "text (default), json for one object per event, or raw for the bytes as sent" true;
            mkOption "quiet" "in the text shape, print only the data without the event and id line" false])].

(** ** The line it builds *)

Record CommandLine := mkLine {
  cl_all : list OptionSpec; cl_per_command : list (string * list OptionSpec); cl_positional : list (string * Z);
  cl_commands : list CommandSpec
}.

(** The loops that declare each name once. *)
Definition declare (declared : list string) (all : list OptionSpec) (o : OptionSpec) : list string * list OptionSpec :=
  if bool_decide (op_name o ∈ declared) then (declared, all) else (op_name o :: declared, all ++ [o]).

Definition declare_all (table : list (string * list OptionSpec)) : list OptionSpec :=
  (foldl (fun '(declared, all) o => declare declared all o) (map op_name global_options, global_options)
     (table ≫= snd)).2.

(** The option objects [all] declared, by their names. *)
Definition copy (all : list OptionSpec) (name : string) : list OptionSpec :=
  match List.find (fun o => bool_decide (long_name o = name)) all with Some o => [o] | None => [] end.

Definition page (all own : list OptionSpec) : list OptionSpec :=
  copy all "help"
  ++ (global_options ≫= (fun o => if bool_decide (op_name o = "command") || bool_decide (op_name o = "help,h") then []
                                 else copy all (op_name o)))
  ++ (own ≫= (fun o => copy all (op_name o))).

Definition BuildCommandLine : CommandLine :=
  let all := declare_all option_table in
  mkLine all (map (fun '(command, own) => (command, page all own)) option_table) [("command", 1); ("prompt", 1)] commands.

(** The page of a command and its title; a name this build does not have gets
    the whole line. *)
Definition HelpFor (line : CommandLine) (command : string) : string * list OptionSpec :=
  match List.find (fun '(name, _) => bool_decide (name = command)) (cl_per_command line) with
  | Some (_, own) => ("Global options", own)
  | None => ("pu options", cl_all line)
  end.

Definition HintFor (line : CommandLine) (command : string) : string :=
  match List.find (fun c => bool_decide (cs_name c = command)) (cl_commands line) with
  | Some c => cs_hint c
  | None => ""
  end.

Definition command_row (c : CommandSpec) : string :=
  "  " +:+ cs_name c +:+ (if (slen (cs_name c) <? 8)%nat then spaces (8 - slen (cs_name c)) else " ") +:+ cs_summary c +:+ NL.

Definition CommandList (line : CommandLine) : string :=
  "commands:" +:+ NL
  +:+ foldr String.append "" (map command_row (List.filter (fun c => negb (cs_developer c)) (cl_commands line)))
  +:+ NL +:+ "pu <command> --help names the flags that command takes.".

(** ** The flags typed *)

(** What precedes the first equals sign; the name without its leading dashes. *)
Definition flag_name (token : string) : string :=
  match sfind "=" token with Some i => stake i token | None => token end.

Fixpoint bare_name (name : string) : string :=
  match name with
  | String c rest => if bool_decide (c = "-"%char) then bare_name rest else name
  | "" => ""
  end.

(** Whether a token is held against the page. *)
Definition is_flag (token : string) : bool :=
  (2 <=? slen token)%nat && starts_with "-" token && negb (bool_decide (token = "--"))
  && negb (starts_with "-h" token) && negb (starts_with "--help" token).

Section Flags.
(** [find_nothrow]: whether a description has the option, by its name or by an
    abbreviation; an abbreviation of two of them throws. *)
Context (find_nothrow : list OptionSpec -> string -> bool -> res bool).

Definition accepts (own : list OptionSpec) (token : string) : res bool :=
  let name := flag_name token in
  let bare := bare_name name in
  let? by_bare := find_nothrow own bare false in
  if by_bare : bool then Ok true
  else
    let? by_name := find_nothrow own name false in
    if by_name : bool then Ok true else find_nothrow own bare true.

(** [rejected], over the arguments after the program's name. *)
Fixpoint rejected_flags (own : list OptionSpec) (tokens : list string) : res (list string) :=
  match tokens with
  | [] => Ok []
  | token :: tokens =>
      if is_flag token then
        let? accepted := accepts own token in
        let? rest := rejected_flags own tokens in
        Ok (if accepted : bool then rest else flag_name token :: rest)
      else rejected_flags own tokens
  end.

(** ** What the check lets through *)

Lemma rejected_flags_spec own tokens :
  (forall token, token ∈ tokens -> is_flag token = true -> exists accepted, accepts own token = Ok accepted) ->
  exists rejected, rejected_flags own tokens = Ok rejected
    /\ forall name, name ∈ rejected
       <-> exists token, token ∈ tokens /\ is_flag token = true /\ accepts own token = Ok false /\ flag_name token = name.
Proof.
  induction tokens as [|token tokens IH]; intros Ha; cbn [rejected_flags].
  { exists []. split; [done|]. intros name. split; [by intros ?%elem_of_nil|by intros (? & ?%elem_of_nil & _)]. }
  destruct IH as (rest & -> & Hr); [intros t Ht; apply Ha; by right|].
  setoid_rewrite elem_of_cons. destruct (is_flag token) eqn:Ef.
  - destruct (Ha token ltac:(by left) Ef) as [accepted E]. rewrite E. cbn [res_bind].
    eexists. split; [reflexivity|]. intros name. destruct accepted; [|rewrite elem_of_cons]; rewrite Hr; split.
    + intros (t & Ht & H). exists t. by split; [right|].
    + intros (t & [->|Ht] & H1 & H2 & H3); [congruence|]. by exists t.
    + intros [->|(t & Ht & H)]; [exists token; by split; [left|]|]. exists t. by split; [right|].
    + intros (t & [->|Ht] & H1 & H2 & H3); [by left|]. right. by exists t.
  - exists rest. split; [done|]. intros name. rewrite Hr. split.
    + intros (t & Ht & H). exists t. by split; [right|].
    + intros (t & [->|Ht] & H1 & H2); [congruence|]. by exists t.
Qed.

End Flags.

(** ** The table is whole *)

(** A closed list of names holds another, or holds none twice. *)
Ltac absent_name := repeat (apply not_elem_of_cons; split; [discriminate|]); apply not_elem_of_nil.
Ltac distinct_names := repeat (apply NoDup_cons; split; [absent_name|]); apply NoDup_nil_2.

Lemma listed_in (p l : list OptionSpec) :
  forallb (fun o => existsb (fun o' => bool_decide (o = o')) l) p = true -> p ⊆ l.
Proof.
  intros H o Ho%list_elem_of_In. rewrite forallb_forall in H. apply H, existsb_exists in Ho as (o' & Hin & E).
  apply bool_decide_eq_true in E as <-. by apply list_elem_of_In.
Qed.

(** Every name is declared once; every command has a page, and every page holds
    the flags of its command, [--help] and [--version], as [all] declared them,
    and not the positional that names the command. *)
Theorem Pages_whole :
  NoDup (map long_name (cl_all BuildCommandLine))
  /\ map fst (cl_per_command BuildCommandLine) = map cs_name commands
  /\ forall command own, (command, own) ∈ option_table ->
     exists p, HelpFor BuildCommandLine command = ("Global options", p)
       /\ p ⊆ cl_all BuildCommandLine /\ map long_name p = "help" :: "version" :: map long_name own
       /\ "command" ∉ map long_name p.
Proof.
  split; [|split; [vm_compute; reflexivity|]].
  - match goal with |- NoDup ?l => let l' := eval vm_compute in l in change (NoDup l') end. distinct_names.
  - intros command own Hin. unfold option_table in Hin. rewrite !elem_of_cons, elem_of_nil in Hin.
    destruct_or? Hin; try done; injection Hin as -> ->; eexists; (split; [vm_compute; reflexivity|]);
      (split; [apply listed_in; vm_compute; reflexivity|]); (split; [vm_compute; reflexivity|]);
      (match goal with |- ?x ∉ ?l => let l' := eval vm_compute in l in change (x ∉ l') end); absent_name.
Qed.
