(* ===== verification/Cli.v ===== *)
(** * The commands ([src/app/cli.cpp], [src/app/cli_agents.cpp], [src/app/main.cpp])

    Every command runs a body on an initialized runtime, writes to the two
    streams and answers with an exit code.  A command is a step of the runtime
    with the writes it made in order ([cmd]); what a turn streams while it runs
    is one of them ([TurnOutput]).  [main] reads the line, refuses what it must,
    and runs the command named. *)
From Stdlib Require Import Ascii.
From S2P Require Export Prelude Json Usage Models Gateway Agents Executor Runtime Router Workspace.
From S2P Require Export Probe Console SseClient Check CommandLine.

(** ** Output *)

Inductive write := Stdout (text : string) | Stderr (text : string) | TurnOutput (input : string).

Definition out_line (text : string) : write := Stdout (text +:+ NL).
Definition err_line (text : string) : write := Stderr (text +:+ NL).

(** [std::ostream] of a [double]. *)
Section Printing.
Context (show_double : double -> string).

Definition PrintNotice (result : ExecutionResult) : list write :=
  if sempty (x_notice result) then []
  else (if x_was_streamed result then [Stderr NL] else []) ++ [err_line (x_notice result)].

Definition usage_line (result : ExecutionResult) (usage : TokenUsage) : string :=
  "usage: " +:+ signed_decimal (prompt_tokens usage) +:+ " prompt, " +:+ signed_decimal (completion_tokens usage)
  +:+ " completion"
  +:+ (if 0 <? cached_tokens usage then ", " +:+ signed_decimal (cached_tokens usage) +:+ " cached" else "")
  +:+ (if 0 <? total_tokens usage then ", " +:+ signed_decimal (total_tokens usage) +:+ " total" else "")
  +:+ match cost usage with
      | Some c => ", " +:+ show_double (amount c) +:+ (if sempty (unit_ c) then "" else " " +:+ unit_ c)
      | None => ""
      end
  +:+ (if 1 <? x_rounds result then " over " +:+ signed_decimal (x_rounds result) +:+ " provider calls" else "").

Definition PrintUsage (result : ExecutionResult) : list write :=
  match x_usage result with Some usage => [err_line (usage_line result usage)] | None => [] end.

End Printing.

Definition PrintFailure (result : ExecutionResult) : list write :=
  if x_has_error result
  then [err_line (if sempty (x_error_message result) then "Request failed" else x_error_message result)] else [].

Definition ExitCodeForAsk (shutdown : bool) (result : ExecutionResult) (is_command : bool) : ExitCode :=
  if shutdown then kInterrupted
  else if is_command then kOk
  else if x_only_unaskable result then kUsage
  else if x_only_blocked result then kSandbox
  else if negb (x_has_error result) then kOk
  else kProvider.

Inductive ModelShape := kShapeIds | kShapeCaps | kShapeEntry.

(** ** Commands *)

(** The two streams, as their readers see them. *)
Definition stdout_of (ws : list write) : string :=
  foldr String.append "" (omap (fun w => match w with Stdout text => Some text | _ => None end) ws).
Definition stderr_of (ws : list write) : string :=
  foldr String.append "" (omap (fun w => match w with Stderr text => Some text | _ => None end) ws).

Lemma stdout_of_app l1 l2 : stdout_of (l1 ++ l2) = stdout_of l1 +:+ stdout_of l2.
Proof. unfold stdout_of. by rewrite omap_app, concat_strings_app. Qed.
Lemma stderr_of_app l1 l2 : stderr_of (l1 ++ l2) = stderr_of l1 +:+ stderr_of l2.
Proof. unfold stderr_of. by rewrite omap_app, concat_strings_app. Qed.

Lemma PrintNotice_stdout result : stdout_of (PrintNotice result) = "".
Proof. unfold PrintNotice. by destruct (sempty _), (x_was_streamed result). Qed.
Lemma PrintUsage_stdout show_double result : stdout_of (PrintUsage show_double result) = "".
Proof. unfold PrintUsage. by destruct (x_usage result). Qed.
Lemma PrintFailure_stdout result : stdout_of (PrintFailure result) = "".
Proof. unfold PrintFailure. by destruct (x_has_error result). Qed.

Section Commands.
#[local] Set Default Proof Using "Type".
Context `{codec : JsonCodec} {P N T : Type} `{!World N} (tr : Transport (N : Type) T).
Context (PU_VERSION : string) (regex : string -> option (string -> bool)) (workspace : string) (fuel : nat).
(** The signal flag, the network, ids, and headers drawn for a listing. *)
Context (interrupted : N -> bool) (dial : Http.Request -> N -> N * Network) (nibble : N -> N * Z).
Context (listing_headers : list string).
(** Files a probe writes; a directory that cannot be made throws. *)
Context (write_file : string -> string -> N -> N) (create_directories : string -> N -> N * option string).
Context (show_double to_chars : double -> string) (weakly_canonical : N -> string -> string + string).

Abbreviation runtime := (@runtime P N T).
Abbreviation rt := (step runtime).

(** [ProcessInput] of a line, which may not return. *)
Context (ProcessInput : string -> runtime -> option (runtime * res (ExecutionResult * bool))).

Definition cmd (A : Type) : Type := runtime -> option (runtime * list write * res A).

Definition answer {A} (a : A) : cmd A := fun r => Some (r, [], Ok a).
Definition say (ws : list write) : cmd unit := fun r => Some (r, ws, Ok tt).
Definition fails {A} (e : exn) : cmd A := fun r => Some (r, [], Throw e).
Definition on_runtime {A} (m : rt A) : cmd A := fun r => let '(r, out) := m r in Some (r, [], out).
Definition on_network {A} (f : N -> N * res A) : cmd A :=
  fun r => let '(n, out) := f (net r) in Some (set_world n r, [], out).
Definition and_next {A B} (m : cmd A) (k : A -> cmd B) : cmd B :=
  fun r =>
    '(r, ws, out) ← m r;
    match out with
    | Ok a => '(r, more, out) ← k a r; Some (r, ws ++ more, out)
    | Throw e => Some (r, ws, Throw e)
    | Undef => Some (r, ws, Undef)
    end.
(** [catch (const std::exception&)] *)
Definition catching {A} (m : cmd A) (handler : exn -> cmd A) : cmd A :=
  fun r =>
    '(r, ws, out) ← m r;
    match out with
    | Throw e => '(r, more, out) ← handler e r; Some (r, ws ++ more, out)
    | _ => Some (r, ws, out)
    end.

Notation "'let&' x ':=' m 'in' k" := (and_next m (fun x => k)) (at level 10, x pattern, m at level 100, k at level 200).
Notation "m ;;& k" := (and_next m (fun _ => k)) (at level 100, right associativity).

(** A line of input, and what it streams. *)
Definition Process (input : string) : cmd (ExecutionResult * bool) :=
  fun r => '(r, out) ← ProcessInput input r; Some (r, [TurnOutput input], out).

Definition BackendFor (gateway_ model_ : string) : rt Backend :=
  fun r =>
    (r, if sempty gateway_ then CurrentBackend r
        else
          let? backend := BackendForGateway (w_getenv (net r)) gateway_ in
          Ok (if sempty model_ then backend else with_model model_ backend)).

(** The frame of every command; the agent named is the override of this start. *)
Definition WithInitializedRuntime (agent : string) (body : cmd ExitCode) : cmd ExitCode :=
  catching
    (on_runtime (Initialize tr PU_VERSION regex workspace fuel agent "") ;;&
     let& status := body in
     on_runtime (Shutdown tr workspace) ;;&
     answer status)
    (fun e => say [err_line (what e)] ;;& answer kUsage).

Definition ShutdownRequested : rt bool := fun r => (r, Ok (interrupted (net r))).

(** What is printed of a reply that did not fail. *)
Definition print_reply (result : ExecutionResult) (is_command : bool) : list write :=
  if negb (sempty (x_content result)) then [out_line (x_content result)]
  else if is_command then [] else [Stdout NL].

Definition RunAsk (agent prompt : string) (show_usage : bool) : cmd ExitCode :=
  WithInitializedRuntime agent
    (let& (result, is_command) := Process prompt in
     say (PrintFailure result) ;;&
     say (if x_has_error result then []
          else if x_was_streamed result then [Stdout NL] else print_reply result is_command) ;;&
     say (PrintNotice result) ;;&
     say (if show_usage then PrintUsage show_double result else []) ;;&
     let& shutdown := on_runtime ShutdownRequested in
     answer (ExitCodeForAsk shutdown result is_command)).

(** A line of the conversation. *)
Definition chat_turn (input : string) : cmd unit :=
  catching
    (let& (result, is_command) := Process input in
     say (if x_has_error result then
            if is_command && sempty (x_error_message result) then [Stdout "Unknown command. "; out_line Help]
            else PrintFailure result
          else if x_was_streamed result then [] else print_reply result is_command) ;;&
     say (PrintNotice result))
    (fun e => say [err_line (what e)]).

(** The loop over the lines of the input, which ends where they do. *)
Fixpoint chat_loop (input : list string) : cmd unit :=
  match input with
  | [] => say [Stdout "> "]
  | line :: input =>
      say [Stdout "> "] ;;&
      if sempty line then chat_loop input
      else if bool_decide (line = "/exit") || bool_decide (line = "/quit") then answer tt
      else chat_turn line ;;& chat_loop input
  end.

Definition RunChat (agent : string) (input : list string) : cmd ExitCode :=
  WithInitializedRuntime agent
    (let& _ := on_runtime (fun r => (r, ActiveAgent r)) in
     chat_loop input ;;&
     say [Stdout (NL +:+ "Goodbye!" +:+ NL)] ;;&
     answer kOk).

Definition RunProbe (agent gateway_ model_ prompt out_dir : string) (save listing : bool) : cmd ExitCode :=
  WithInitializedRuntime agent
    (let& backend := on_runtime (BackendFor gateway_ model_) in
     if negb listing && sempty (model backend) then
       fails (GenericError "--gateway names a host, not a model: pass --model, or --listing to read the catalogue it offers")
     else if listing then
       let& report := on_network (ProbeListing dial nibble backend) in
       say [Stdout (NL +:+ FormatListingReport report +:+ NL)] ;;&
       answer (if sempty (lr_error report) then kOk else kProvider)
     else
       let& raw_path :=
         (if save then
            on_network (fun n => let '(n, failed) := create_directories out_dir n in
                                 (n, match failed with Some msg => Throw (StdException msg) | None => Ok tt end)) ;;&
            let& name := on_runtime (of_res (GatewayName (gateway backend))) in
            let path := path_join out_dir (name +:+ ".raw") in
            say [Stdout ("raw stream: " +:+ path +:+ NL)] ;;& answer (Some path)
          else answer None) in
       let& report := on_network (ProbeStream interrupted dial nibble write_file backend prompt raw_path) in
       say [Stdout (NL +:+ FormatProbeReport report +:+ NL)] ;;&
       answer (if pb_stream_parsed report then kOk else kProvider)).

Definition check_line (check : ModelCheck) : write :=
  out_line (ck_model check +:+ "  " +:+ (if ck_answered check then "ok" else "unavailable: " +:+ ck_detail check)).

(** [ConfigPath]: the file [Initialize] chose. *)
Definition RunModels (agent gateway_ model_ : string) (shape : ModelShape) (entry_id : string) (verify : bool)
    : cmd ExitCode :=
  fun r0 =>
  let config_path := default "" (match choose_config workspace "" (net r0) with Ok path => Some path | _ => None end) in
  WithInitializedRuntime agent
    (let& backend := on_runtime (BackendFor gateway_ model_) in
     let& models := on_runtime (ListModels dial listing_headers backend) in
     match shape with
     | kShapeEntry =>
         let wanted := default (mkModel entry_id no_caps)
                         (List.find (fun m => bool_decide (me_id m = entry_id)) models) in
         let& active := on_runtime (fun r => (r, ActiveAgent r)) in
         let& source := on_runtime (fun r => (r, Ok (FindRawAgentEntry (w_read (net r) config_path) (ag_name active)))) in
         match source with
         | None => fails (GenericError ("Cannot read the entry to copy from " +:+ config_path))
         | Some source =>
             let& text := on_runtime (of_res (FormatAgentEntry to_chars wanted source)) in
             say [out_line text] ;;& answer kOk
         end
     | _ =>
         if verify then
           let& checks := on_network (VerifyModels interrupted dial nibble backend models) in
           let answered := length (List.filter ck_answered checks) in
           say (map check_line checks ++ [out_line (decimal (Z.of_nat answered) +:+ " of "
                  +:+ decimal (Z.of_nat (length checks)) +:+ " model(s) answered")]) ;;&
           answer (if (answered =? length checks)%nat then kOk else kProvider)
         else
           let& name := on_runtime (of_res (GatewayName (gateway backend))) in
           say [out_line (FormatModelList models name (host backend) (model backend)
                            match shape with kShapeCaps => kCaps | _ => kIds end)] ;;&
           answer kOk
     end) r0.

Definition RunAgents (as_json : bool) : cmd ExitCode :=
  let& agents := on_runtime (fun r =>
    (r, SummarizeAgents (agent_manager_ r)
          match current_session_ r with Some s => agent_name (Session.spec_ s) | None => "" end)) in
  say [if as_json then out_line (serialize (AgentsAsJson agents)) else Stdout (FormatAgentTable agents)] ;;&
  answer kOk.

(** ** [main] *)

(** What Boost's parser makes of the arguments: the values of each option, or an
    error. *)
Context (parse_line : list OptionSpec -> list (string * Z) -> list string -> string + gmap string (list string)).
Context (find_nothrow : list OptionSpec -> string -> bool -> res bool).
(** A description, printed under its title. *)
Context (show_page : string * list OptionSpec -> string).
(** The lines and the text of the standard input, and the server. *)
Context (stdin_lines : list string) (stdin : string) (RunServe : string -> Z -> cmd ExitCode).
(** The parser of a feed, as [RunSse] is given it. *)
Context (shutdown : N -> N * bool) (meanwhile : N -> N).

Abbreviation variables := (gmap string (list string)).

Definition given (vm : variables) (name : string) : bool := bool_decide (is_Some (vm !! name)).
(** [vm[name].as<std::string>()] of an option that was given. *)
Definition value_of (vm : variables) (name : string) : string := default "" (default [] (vm !! name) !! 0%nat).
Definition OptionOr (vm : variables) (name fallback : string) : string :=
  if given vm name then value_of vm name else fallback.
Definition OptionalOption (vm : variables) (name : string) : option string :=
  if given vm name then Some (value_of vm name) else None.
Definition EnvOr (n : N) (name : string) : option string :=
  match w_getenv n name with Some v => if sempty v then None else Some v | None => None end.

Definition usage_error (line : CommandLine) (command message : string) : cmd Z :=
  say [Stderr ("Error: " +:+ message +:+ NL +:+ NL +:+ show_page (HelpFor line command) +:+ NL)] ;;&
  answer (exit_status kUsage).

Definition with_code (m : cmd ExitCode) : cmd Z := let& code := m in answer (exit_status code).

(** What a command prints that reads nothing of a runtime. *)
Definition printing (m : N -> N * res printed) : cmd ExitCode :=
  let& p := on_network m in
  say [Stdout (pr_stdout p); Stderr (pr_stderr p)] ;;& answer (pr_code p).

Definition sse_options (vm : variables) (format : SseFormat) : SseOptions :=
  mkSseOptions (OptionOr vm "url" (if given vm "command" then OptionOr vm "prompt" "" else ""))
    (if given vm "post" then kPost else kGet) (default [] (vm !! "header"))
    (if given vm "body" then Some (if bool_decide (value_of vm "body" = "-") then stdin else value_of vm "body") else None)
    format (given vm "quiet").

Definition run_sse (line : CommandLine) (vm : variables) : cmd Z :=
  let refuse := usage_error line "sse" in
  let url := so_url (sse_options vm SseClient.kText) in
  let format := OptionOr vm "format" "text" in
  if sempty url then refuse "no URL to read"
  else
    let run chosen :=
      with_code (WithInitializedRuntime "" (printing (RunSse shutdown interrupted dial meanwhile (sse_options vm chosen)))) in
    if bool_decide (format = "json") then run SseClient.kJson
    else if bool_decide (format = "raw") then run SseClient.kRaw
    else if bool_decide (format = "text") then run SseClient.kText
    else refuse ("--format is text, json or raw, not '" +:+ format +:+ "'").

Definition run_models (line : CommandLine) (vm : variables) : cmd Z :=
  let detail := OptionOr vm "detail" "ids" in
  let entry := OptionOr vm "entry" "" in
  let run shape :=
    with_code (RunModels (OptionOr vm "agent" "") (OptionOr vm "gateway" "") (OptionOr vm "model" "")
                 (if sempty entry then shape else kShapeEntry) entry (given vm "verify")) in
  if bool_decide (detail = "caps") then run kShapeCaps
  else if bool_decide (detail = "ids") then run kShapeIds
  else usage_error line "models" ("--detail is ids or caps, not '" +:+ detail +:+ "'").

Definition run_serve (vm : variables) : cmd Z :=
  let& options := on_runtime (fun r =>
    let path := FindConfigPath (net r) in
    (r, if sempty path then Ok None
        else FindServeOptions (w_getenv (net r)) fuel (w_read (net r) path))) in
  fun r =>
  let listen := ResolveListenOptions (OptionalOption vm "bind") (OptionalOption vm "port")
                  (EnvOr (net r) "PU_SERVE_BIND") (EnvOr (net r) "PU_SERVE_PORT") options in
  with_code (RunServe (lo_bind listen) (lo_port listen)) r.

Definition run_ask (line : CommandLine) (vm : variables) : cmd Z :=
  if negb (given vm "prompt") || sempty (value_of vm "prompt") then
    usage_error line "ask" "prompt required for ask command"
  else with_code (RunAsk (OptionOr vm "agent" "") (value_of vm "prompt") (given vm "show-usage")).

Definition dispatch (line : CommandLine) (vm : variables) (command : string) : cmd Z :=
  if bool_decide (command = "ask") then run_ask line vm
  else if bool_decide (command = "chat") then with_code (RunChat (OptionOr vm "agent" "") stdin_lines)
  else if bool_decide (command = "models") then run_models line vm
  else if bool_decide (command = "agents") then
    with_code (WithInitializedRuntime (OptionOr vm "agent" "") (RunAgents (given vm "json")))
  else if bool_decide (command = "sse") then run_sse line vm
  else if bool_decide (command = "check") then
    with_code (printing (fun n => (n, RunCheck weakly_canonical fuel workspace (OptionOr vm "config" "") n)))
  else if bool_decide (command = "probe") then
    with_code (RunProbe (OptionOr vm "agent" "") (OptionOr vm "gateway" "") (OptionOr vm "model" "")
                 (OptionOr vm "prompt" "Say the single word: pong") (OptionOr vm "out" "./provider-probes")
                 (negb (given vm "no-save")) (given vm "listing"))
  else if bool_decide (command = "serve") then run_serve vm
  else
    say [Stderr ("Unknown command: " +:+ command +:+ NL +:+ NL +:+ show_page ("pu options", cl_all line) +:+ NL)] ;;&
    answer 1.

(** A page and, above it, what a command's hint says or the list of commands. *)
Definition help_text (line : CommandLine) (named : string) : string :=
  let hint := if sempty named then "" else HintFor line named in
  (if sempty named then CommandList line +:+ NL +:+ NL else "")
  +:+ (if sempty hint then "" else hint +:+ NL +:+ NL)
  +:+ show_page (HelpFor line named) +:+ NL.

(** [argv] is what follows the program's name.  The parser throws before
    [named_command] is set; what the check of the flags throws leaves [main]. *)
Definition main (argv : list string) : cmd Z :=
  let line := BuildCommandLine in
  match parse_line (cl_all line) (cl_positional line) argv with
  | inl e =>
      say [Stderr ("Error: " +:+ e +:+ NL +:+ NL +:+ show_page (HelpFor line "") +:+ NL)] ;;& answer 1
  | inr vm =>
      if given vm "version" then say [Stdout ("pu " +:+ PU_VERSION +:+ NL)] ;;& answer 0
      else if given vm "help" then say [Stdout (help_text line (OptionOr vm "command" ""))] ;;& answer 0
      else if negb (given vm "command") then
        say [Stdout (CommandList line +:+ NL +:+ NL +:+ show_page ("pu options", cl_all line) +:+ NL)] ;;& answer 0
      else
        let command := value_of vm "command" in
        let& rejected := on_runtime (of_res (rejected_flags find_nothrow (HelpFor line command).2 argv)) in
        match rejected with
        | flag :: _ => usage_error line command (flag +:+ " is not an option of '" +:+ command +:+ "'")
        | [] =>
            catching (dispatch line vm command)
              (fun e => say [Stderr ("Fatal error: " +:+ what e +:+ NL)] ;;& answer 1)
        end
  end.

(** ** The frame *)

Lemma frame_runs agent body r :
  WithInitializedRuntime agent body r
  = match Initialize tr PU_VERSION regex workspace fuel agent "" r with
    | (r1, Throw e) => Some (r1, [err_line (what e)], Ok kUsage)
    | (r1, Undef) => Some (r1, [], Undef)
    | (r1, Ok _) =>
        '(r2, ws, out) ← body r1;
        match out with
        | Throw e => Some (r2, ws ++ [err_line (what e)], Ok kUsage)
        | Undef => Some (r2, ws, Undef)
        | Ok status =>
            match Shutdown tr workspace r2 with
            | (r3, Ok _) => Some (r3, ws, Ok status)
            | (r3, Throw e) => Some (r3, ws ++ [err_line (what e)], Ok kUsage)
            | (r3, Undef) => Some (r3, ws, Undef)
            end
        end
    end.
Proof.
  unfold WithInitializedRuntime, catching, and_next, on_runtime, say, answer.
  destruct (Initialize _ _ _ _ _ _ _ r) as [r1 [[]|e|]]; cbn [mbind option_bind app]; [|done..].
  destruct (body r1) as [[[r2 ws] [status|e|]]|]; cbn [mbind option_bind app]; [|done..].
  destruct (Shutdown _ _ r2) as [r3 [[]|e|]]; cbn [mbind option_bind app]; by rewrite ?app_nil_r.
Qed.

(** What a command can come to: a code, and never an exception. *)
Definition settled {A} (out : option (runtime * list write * res A)) : Prop :=
  match out with Some (_, _, Throw _) | None => False | _ => True end.

Lemma frame_settled agent body r :
  (forall r1, body r1 <> None) -> settled (WithInitializedRuntime agent body r).
Proof.
  intros Hb. rewrite frame_runs. destruct (Initialize _ _ _ _ _ _ _ r) as [r1 [[]|e|]]; [|done..].
  specialize (Hb r1). destruct (body r1) as [[[r2 ws] [status|e|]]|]; cbn; [|done..].
  by destruct (Shutdown _ _ r2) as [r3 [[]|e|]].
Qed.

(** [pu ask] keeps the answer apart from what is said about it, and its code
    tells a caller what to do next: on a runtime that starts, whatever the turn
    comes to, stdout is the turn's own output and then the reply and nothing
    else, and nothing at all where the turn failed; a failure is said on
    stderr.  The code is 4 when a person stopped the process, else 0 for a
    command, 1 where the only calls refused had nobody to ask, 3 where policy
    refused them all, 2 for any other failure, 0 otherwise; and a session that
    cannot be saved makes it 1. *)
Theorem Ask_answers agent prompt show_usage r r1 r2 result is_command :
  Initialize tr PU_VERSION regex workspace fuel agent "" r = (r1, Ok tt) ->
  ProcessInput prompt r1 = Some (r2, Ok (result, is_command)) ->
  let reply := if x_has_error result then ""
               else if x_was_streamed result then NL
               else if negb (sempty (x_content result)) then x_content result +:+ NL
               else if is_command then "" else NL in
  let '(r3, saved) := Shutdown tr workspace r2 in
  exists ws out, RunAsk agent prompt show_usage r = Some (r3, TurnOutput prompt :: ws, out)
    /\ stdout_of ws = reply
    /\ (x_has_error result = true -> exists text rest, stderr_of ws = text +:+ NL +:+ rest /\ text <> "")
    /\ match saved with
       | Ok _ => out = Ok (ExitCodeForAsk (interrupted (net r2)) result is_command)
       | Throw _ => out = Ok kUsage
       | Undef => out = Undef
       end.
Proof.
  intros Hi Hp reply. destruct (Shutdown tr workspace r2) as [r3 saved] eqn:Es.
  unfold RunAsk. rewrite frame_runs, Hi. unfold Process, and_next, say, answer, on_runtime, ShutdownRequested.
  rewrite Hp. cbn [mbind option_bind app]. rewrite Es.
  set (ws := PrintFailure result ++ _).
  assert (Ho : stdout_of ws = reply).
  { unfold ws, reply. rewrite !stdout_of_app, PrintFailure_stdout, PrintNotice_stdout.
    assert (stdout_of (if show_usage then PrintUsage show_double result else []) = "") as ->
      by (destruct show_usage; [apply PrintUsage_stdout|done]).
    unfold print_reply. destruct (x_has_error result), (x_was_streamed result), (sempty (x_content result)), is_command;
      cbn; by rewrite ?sapp_nil_r. }
  assert (He : x_has_error result = true -> exists text rest, stderr_of ws = text +:+ NL +:+ rest /\ text <> "").
  { intros Hx. unfold ws, PrintFailure. rewrite Hx, stderr_of_app.
    set (text := if sempty (x_error_message result) then "Request failed" else x_error_message result).
    exists text. eexists.
    split; [change (stderr_of [err_line text]) with ((text +:+ NL) +:+ ""); rewrite sapp_nil_r, sapp_assoc; reflexivity|].
    unfold text.
    destruct (sempty (x_error_message result)) eqn:Em; [done|by apply sempty_false]. }
  destruct saved as [[]|e|]; eexists _, _; (split; [reflexivity|]); (split_and!; try done).
  - rewrite stdout_of_app, Ho. cbn. by rewrite sapp_nil_r.
  - intros Hx. destruct (He Hx) as (text & rest & E & Hne). exists text, (rest +:+ stderr_of [err_line (what e)]).
    rewrite stderr_of_app, E, !sapp_assoc. done.
Qed.

(** ** Every command ends *)

Definition ends {A} (m : cmd A) : Prop := forall r, m r <> None.

Lemma ends_answer {A} (a : A) : ends (answer a). Proof. done. Qed.
Lemma ends_say ws : ends (say ws). Proof. done. Qed.
Lemma ends_fails {A} e : ends (fails (A := A) e). Proof. done. Qed.
Lemma ends_on_runtime {A} (m : rt A) : ends (on_runtime m).
Proof. intros r. unfold on_runtime. by destruct (m r). Qed.
Lemma ends_on_network {A} (f : N -> N * res A) : ends (on_network f).
Proof. intros r. unfold on_network. by destruct (f (net r)). Qed.
Lemma ends_and_next {A B} (m : cmd A) (k : A -> cmd B) : ends m -> (forall a, ends (k a)) -> ends (and_next m k).
Proof.
  intros Hm Hk r. specialize (Hm r). unfold and_next. destruct (m r) as [[[r1 ws] [a|e|]]|]; cbn; try done.
  specialize (Hk a r1). by destruct (k a r1) as [[[r2 more] out]|].
Qed.
Lemma ends_catching {A} (m : cmd A) h : ends m -> (forall e, ends (h e)) -> ends (catching m h).
Proof.
  intros Hm Hh r. specialize (Hm r). unfold catching. destruct (m r) as [[[r1 ws] [a|e|]]|]; cbn; try done.
  specialize (Hh e r1). by destruct (h e r1) as [[[r2 more] out]|].
Qed.
Lemma ends_frame agent body : ends body -> ends (WithInitializedRuntime agent body).
Proof. intros Hb r. pose proof (frame_settled agent body r Hb) as H. by destruct (WithInitializedRuntime agent body r). Qed.

#[local] Hint Resolve ends_answer ends_say ends_fails ends_on_runtime ends_on_network : core.

(** One step into a command: a sequence, a frame or a branch. *)
Ltac ends_step :=
  match goal with
  | |- ends (and_next _ _) => apply ends_and_next; [|intros ?]
  | |- ends (catching _ _) => apply ends_catching; [|intros ?]
  | |- ends (WithInitializedRuntime _ _) => apply ends_frame
  | |- ends (if ?b then _ else _) => destruct b
  | |- ends (match ?x with _ => _ end) => destruct x
  | |- ends _ => solve [auto]
  end.
Ltac ends_here := cbv zeta; repeat ends_step.

Definition always_returns : Prop := forall input r, ProcessInput input r <> None.

Lemma ends_Process input : always_returns -> ends (Process input).
Proof. intros H r. specialize (H input r). unfold Process. by destruct (ProcessInput input r) as [[]|]. Qed.

Lemma RunAsk_ends agent prompt show_usage : always_returns -> ends (RunAsk agent prompt show_usage).
Proof. intros H. unfold RunAsk. pose proof (ends_Process prompt H). ends_here. Qed.

Lemma chat_loop_ends input : always_returns -> ends (chat_loop input).
Proof.
  intros H. induction input as [|line input IH]; cbn [chat_loop]; [auto|]. unfold chat_turn.
  pose proof (ends_Process line H). ends_here.
Qed.

Lemma RunChat_ends agent input : always_returns -> ends (RunChat agent input).
Proof. intros H. unfold RunChat. pose proof (chat_loop_ends input H). ends_here. Qed.

Lemma RunProbe_ends agent g m prompt out save listing : ends (RunProbe agent g m prompt out save listing).
Proof. unfold RunProbe. ends_here. Qed.

Lemma RunModels_ends agent g m shape entry verify : ends (RunModels agent g m shape entry verify).
Proof.
  intros r. unfold RunModels. cbv zeta. match goal with |- WithInitializedRuntime ?a ?b r <> None => enough (H : ends b) end;
    [by apply ends_frame|]. ends_here.
Qed.

Lemma main_ends argv : always_returns -> (forall bind port, ends (RunServe bind port)) -> ends (main argv).
Proof.
  intros Hp Hs. unfold main, dispatch, run_ask, run_sse, run_models, printing, with_code, usage_error, RunAgents.
  assert (forall vm, ends (run_serve vm)).
  { intros vm. unfold run_serve, with_code. apply ends_and_next; [auto|]. intros options r.
    revert r. change (ends (fun r => with_code (RunServe
      (lo_bind (ResolveListenOptions (OptionalOption vm "bind") (OptionalOption vm "port") (EnvOr (net r) "PU_SERVE_BIND")
                  (EnvOr (net r) "PU_SERVE_PORT") options))
      (lo_port (ResolveListenOptions (OptionalOption vm "bind") (OptionalOption vm "port") (EnvOr (net r) "PU_SERVE_BIND")
                  (EnvOr (net r) "PU_SERVE_PORT") options))) r)).
    intros r. apply ends_and_next; auto. }
  pose proof (fun agent prompt show => RunAsk_ends agent prompt show Hp). pose proof (fun agent => RunChat_ends agent stdin_lines Hp).
  pose proof RunProbe_ends. pose proof RunModels_ends. ends_here.
Qed.

(** ** What leaves [main] *)

Definition raises {A} (m : cmd A) (e : exn) : Prop := exists r r' ws, m r = Some (r', ws, Throw e).

Lemma catching_raises {A} (m : cmd A) h e : raises (catching m h) e -> exists e', raises (h e') e.
Proof.
  intros (r & r' & ws & H). unfold catching in H. destruct (m r) as [[[r1 ws1] [a|e'|]]|]; cbn in H; try done.
  exists e', r1. destruct (h e' r1) as [[[r2 more] out]|]; cbn in H; [|done]. injection H as _ _ ->. by eexists _, _.
Qed.

(** Only the check of the flags throws out of [main]. *)
Lemma main_raises argv e :
  raises (main argv) e ->
  exists vm, parse_line (cl_all BuildCommandLine) (cl_positional BuildCommandLine) argv = inr vm
    /\ rejected_flags find_nothrow (HelpFor BuildCommandLine (value_of vm "command")).2 argv = Throw e.
Proof.
  intros (r & r' & ws & H). unfold main in H. destruct (parse_line _ _ argv) as [msg|vm]; [done|].
  exists vm. split; [done|]. destruct (given vm "version"); [done|]. destruct (given vm "help"); [done|].
  destruct (given vm "command"); cbn [negb] in H; [|done].
  unfold and_next at 1, on_runtime at 1, of_res in H. cbn [mbind option_bind] in H.
  destruct (rejected_flags _ _ _) as [[|flag rest]|e'|]; cbn [mbind option_bind] in H; [| |by simplify_eq|done].
  - exfalso. assert (Hr : raises (catching (dispatch BuildCommandLine vm (value_of vm "command"))
      (fun e => say [Stderr ("Fatal error: " +:+ what e +:+ NL)] ;;& answer 1)) e).
    { exists r. destruct (catching _ _ r) as [[[r1 ws1] out]|]; cbn in H; [|done]. injection H as <- _ ->. by eexists _, _. }
    apply catching_raises in Hr as (e' & r1 & r2 & ws1 & H1). done.
  - done.
Qed.

(** A command whose every answer is one of the documented statuses. *)
Definition documented (m : cmd Z) : Prop := forall r r' ws z, m r = Some (r', ws, Ok z) -> exists code, z = exit_status code.

Lemma documented_answer code : documented (answer (exit_status code)).
Proof. intros r r' ws z [= _ _ <-]. by exists code. Qed.
Lemma documented_and_next {A} (m : cmd A) (k : A -> cmd Z) : (forall a, documented (k a)) -> documented (and_next m k).
Proof.
  intros Hk r r' ws z. unfold and_next. destruct (m r) as [[[r1 ws1] [a|e|]]|]; cbn; try done.
  destruct (k a r1) as [[[r2 ws2] out]|] eqn:E; cbn; [|done]. intros [= _ _ ->]. by eapply Hk.
Qed.
Lemma documented_catching (m : cmd Z) h : documented m -> (forall e, documented (h e)) -> documented (catching m h).
Proof.
  intros Hm Hh r r' ws z. unfold catching. destruct (m r) as [[[r1 ws1] [a|e|]]|] eqn:E; cbn; try done.
  - intros [= _ _ ->]. by eapply Hm.
  - destruct (h e r1) as [[[r2 ws2] out]|] eqn:E2; cbn; [|done]. intros [= _ _ ->]. by eapply Hh.
Qed.
Lemma documented_with_code m : documented (with_code m).
Proof. apply documented_and_next. intros code. apply documented_answer. Qed.
Lemma documented_usage_error line command message : documented (usage_error line command message).
Proof. apply documented_and_next. intros _. apply (documented_answer kUsage). Qed.

Ltac documented_tac :=
  repeat first [ apply documented_with_code | apply documented_usage_error | apply (documented_answer kUsage)
               | apply (documented_answer kOk) | apply documented_catching; [|intros]
               | apply documented_and_next; intros | case_match ].

Lemma dispatch_documented line vm command : documented (dispatch line vm command).
Proof.
  unfold dispatch, run_ask, run_models, run_sse, run_serve. cbv zeta. documented_tac.
Qed.

Lemma main_documented argv : documented (main argv).
Proof.
  unfold main. cbv zeta. destruct (parse_line _ _ _); documented_tac; apply dispatch_documented.
Qed.

(** The arguments a command refuses on its own. *)
Definition bad_arguments (vm : variables) : bool :=
  let command := value_of vm "command" in
  if bool_decide (command = "ask") then negb (given vm "prompt") || sempty (value_of vm "prompt")
  else if bool_decide (command = "sse") then
    sempty (so_url (sse_options vm SseClient.kText))
    || negb (bool_decide (OptionOr vm "format" "text" ∈ ["text"; "json"; "raw"]))
  else if bool_decide (command = "models") then negb (bool_decide (OptionOr vm "detail" "ids" ∈ ["ids"; "caps"]))
  else negb (bool_decide (command ∈ map fst option_table)).

Lemma dispatch_refuses vm r :
  bad_arguments vm = true ->
  exists text, dispatch BuildCommandLine vm (value_of vm "command") r = Some (r, [Stderr text], Ok 1).
Proof.
  unfold bad_arguments, dispatch. set (command := value_of vm "command"). intros H.
  destruct (decide (command = "ask")) as [->|Ha].
  { rewrite bool_decide_true in H by done. cbn [bool_decide decide_rel]. unfold run_ask. rewrite H. by eexists. }
  rewrite (bool_decide_false (command = "ask")) in * by done.
  destruct (decide (command = "sse")) as [->|Hs].
  { rewrite bool_decide_true in H by done. repeat rewrite bool_decide_false by done. rewrite bool_decide_true by done.
    unfold run_sse. destruct (sempty (so_url _)); [by eexists|]. cbn [orb] in H.
    apply negb_true_iff, bool_decide_eq_false in H. rewrite !elem_of_cons, elem_of_nil in H.
    repeat rewrite bool_decide_false by tauto. by eexists. }
  rewrite (bool_decide_false (command = "sse")) in * by done.
  destruct (decide (command = "models")) as [->|Hm].
  { rewrite bool_decide_true in H by done. rewrite (bool_decide_false ("models" = "chat")), bool_decide_true by done.
    unfold run_models. apply negb_true_iff, bool_decide_eq_false in H. rewrite !elem_of_cons, elem_of_nil in H.
    repeat rewrite bool_decide_false by tauto. by eexists. }
  rewrite (bool_decide_false (command = "models")) in * by done.
  apply negb_true_iff, bool_decide_eq_false in H. cbn [map fst option_table] in H. rewrite !elem_of_cons, elem_of_nil in H.
  repeat rewrite bool_decide_false by tauto. by eexists.
Qed.


End Commands.

(** ** The commands of a workspace *)

Section Workspace.
#[local] Set Default Proof Using "Type*".
Context `{codec : JsonCodec} {N T : Type} `{!World N} (tr : Transport (N : Type) T).
Context (PU_VERSION : string) (regex : string -> option (string -> bool)) (workspace : string) (fuel : nat).
Context (flag : N -> N * bool) (interrupted : N -> bool) (dial : Http.Request -> N -> N * Network) (nibble : N -> N * Z).
Context (ShutdownRequested_ : (providers * Outer N T) -> bool) (ticks seconds : (providers * Outer N T) -> Z)
  (context_digest : (providers * Outer N T) -> string).
Context (ids : nat -> MessageId) (ids_nonempty : forall n, ids n <> "") (ids_inj : forall n m, ids n = ids m -> n = m).
Context (static_env : StaticEnvInfo) (listing_headers : list string).

(** [ProcessInput] as the command line calls it: the shutdown token cancels the
    turn and the commands it runs, and nobody can be asked for approval. *)
Definition cli_line (conversation_id input : string) (r : @runtime providers N T)
    : option (@runtime providers N T * res (ExecutionResult * bool)) :=
  Line tr PU_VERSION regex workspace flag interrupted dial nibble ShutdownRequested_ ticks seconds context_digest ids
    static_env None true true listing_headers conversation_id (Z.to_nat (xs_budget (executor_ r)) + 2) input "" r.

Lemma provider_stops_ id backend p Chat :
  stays_set flag -> draws_keep_set flag nibble ->
  CreateProvider (T := T) flag interrupted dial nibble id backend = Ok (p, Chat) -> chat_stops Chat (cancelled flag).
Proof. intros Hs Hd H. by eapply provider_stops. Qed.

Lemma cli_line_returns id : stays_set flag -> draws_keep_set flag nibble -> always_returns (cli_line id).
Proof.
  intros Hs Hd input r. assert (Hl : latches (cancelled (T := T) flag)) by (by eapply cancelled_latches).
  destruct (input_ends tr PU_VERSION regex workspace dial listing_headers
    (CreateProvider flag interrupted dial nibble id) (cancelled flag)
    ShutdownRequested_ ticks seconds context_digest ids static_env None true true
    ids_nonempty ids_inj input "" r Hl (fun b p C H => provider_stops_ id b p C Hs Hd H))
    as (r' & out & E & _).
  unfold cli_line, Line. by rewrite E.
Qed.

Context (write_file : string -> string -> N -> N) (create_directories : string -> N -> N * option string).
Context (show_double to_chars : double -> string) (weakly_canonical : N -> string -> string + string).
Context (parse_line : list OptionSpec -> list (string * Z) -> list string -> string + gmap string (list string)).
Context (find_nothrow : list OptionSpec -> string -> bool -> res bool) (show_page : string * list OptionSpec -> string).
Context (stdin_lines : list string) (stdin : string) (RunServe : string -> Z -> @cmd providers N T ExitCode).
Context (shutdown : N -> N * bool) (meanwhile : N -> N).

Definition workspace_main (id : string) (argv : list string) : @cmd providers N T Z :=
  main tr PU_VERSION regex workspace fuel interrupted dial nibble listing_headers write_file create_directories
    show_double to_chars weakly_canonical (cli_line id) parse_line find_nothrow show_page stdin_lines stdin RunServe
    shutdown meanwhile argv.

(** Every invocation comes to an end with an exit code: whatever is typed, whatever
    the files, the network, the model and the tools do and whenever the signal
    comes, a command returns, a conversation of any length included; what
    [main] answers is one of the documented statuses, and no exception leaves
    it but the one the look-up of an abbreviated flag throws, before anything
    has started. *)
Theorem Main_answers id argv r :
  stays_set flag -> draws_keep_set flag nibble -> (forall bind port, ends (RunServe bind port)) ->
  exists r' ws out, workspace_main id argv r = Some (r', ws, out)
    /\ (forall z, out = Ok z -> exists code, z = exit_status code)
    /\ forall e, out = Throw e ->
       exists vm, parse_line (cl_all BuildCommandLine) (cl_positional BuildCommandLine) argv = inr vm
         /\ rejected_flags find_nothrow (HelpFor BuildCommandLine (value_of vm "command")).2 argv = Throw e.
Proof.
  intros Hs Hd Hserve. pose proof (cli_line_returns id Hs Hd) as Hp.
  destruct (workspace_main id argv r) as [[[r' ws] out]|] eqn:E.
  - unfold workspace_main in E. exists r', ws, out. split_and!; [done|intros z ->; by eapply main_documented|].
    intros e ->. eapply main_raises. by eexists _, _, _.
  - exfalso. revert E. unfold workspace_main. by apply main_ends.
Qed.

End Workspace.

(** ** Witnesses *)

(** How Boost looks an option up: by its long or its short name, else, where
    abbreviations are allowed, by the start of its long name; two of either
    throw. *)
Definition short_name (o : OptionSpec) : string :=
  match sfind "," (op_name o) with Some i => "-" +:+ sdrop (S i) (op_name o) | None => "" end.

Definition boost_find (own : list OptionSpec) (name : string) (approx : bool) : res bool :=
  let full := List.filter (fun o => bool_decide (long_name o = name)
                || (negb (sempty (short_name o)) && bool_decide (short_name o = name))) own in
  let near := if approx then List.filter (fun o => starts_with name (long_name o)) own else [] in
  match full, near with
  | _ :: _ :: _, _ => Throw (StdException "ambiguous_option")
  | [_], _ => Ok true
  | [], _ :: _ :: _ => Throw (StdException "ambiguous_option")
  | [], [_] => Ok true
  | [], [] => Ok false
  end.

(** A line of a command and one positional. *)
Definition two_words (command word : string) (own : list OptionSpec) (positional : list (string * Z)) (argv : list string)
    : string + gmap string (list string) :=
  inr {["command" := [command]; "prompt" := [word]]}.

Definition no_server (bind : string) (port : Z) : @cmd providers disk unit ExitCode := answer kOk.

(** Two agents, a conversation that was answered, and a configuration on disk. *)
Definition cli_disk : disk := mkDisk {["/w/.pu/agents.json" := config_text "a"]} None.

Definition cli_runtime (d : disk) : @runtime providers disk unit :=
  mkRuntime two_agents None (SetToolCallBudget 7 new_executor) ∅ (mkOuter (new_pager default_budget "g") [] d) None 0.

Definition demo_main (parse_line : list OptionSpec -> list (string * Z) -> list string -> string + gmap string (list string))
    (d : disk) (argv : list string) :=
  workspace_main (codec := bit_codec) no_servers "1" prefix_regex "/w" 9 file_flag (fun _ => false) silent same_side
    (fun _ => false) (fun _ => 7) (fun _ => 0) (fun _ => "") demo_ids (mkStaticEnv "Linux" "6.1") [] (fun _ _ n => n)
    (fun _ n => (n, None)) (fun _ => "") (fun _ => "") (fun _ p => inl p) parse_line boost_find
    (fun '(title, own) => title) [] "" no_server file_flag (fun n => n) "c" argv (cli_runtime d).

(** What came of it: the writes and the code. *)
Definition written_by (out : option (@runtime providers disk unit * list write * res Z)) : option (list write * res Z) :=
  (fun '(_, ws, code) => (ws, code)) <$> out.

Lemma Main_answers_witness :
  exists r' ws out, demo_main (two_words "ask" "hello") cli_disk ["ask"; "hello"] = Some (r', ws, out)
    /\ out <> Throw (StdException "ambiguous_option").
Proof.
  destruct (Main_answers (codec := bit_codec) no_servers "1" prefix_regex "/w" 9 file_flag (fun _ => false) silent same_side
    (fun _ => false) (fun _ => 7) (fun _ => 0) (fun _ => "") demo_ids demo_ids_nonempty demo_ids_inj
    (mkStaticEnv "Linux" "6.1") [] (fun _ _ n => n)
    (fun _ n => (n, None)) (fun _ => "") (fun _ => "") (fun _ p => inl p) (two_words "ask" "hello") boost_find
    (fun '(title, own) => title) [] "" no_server file_flag (fun n => n) "c" ["ask"; "hello"] (cli_runtime cli_disk)
    file_flag_stays same_side_keeps ltac:(done)) as (r' & ws & out & E & _ & H).
  exists r', ws, out. split; [exact E|]. intros ->. destruct (H _ eq_refl) as (vm & [= <-] & Hf).
  vm_compute in Hf. discriminate Hf.
Defined.

(** The reply to a line over a network that answers nothing is a failure. *)
Example Ask_over_a_silent_network :
  match written_by (demo_main (two_words "ask" "hello") cli_disk ["ask"; "hello"]) with
  | Some (ws, code) => stdout_of ws = "" /\ code = Ok 2
  | None => False
  end.
Proof. vm_compute. done. Qed.

Definition demo_start (d : disk) : @runtime providers disk unit * res unit :=
  Initialize (codec := bit_codec) no_servers "1" prefix_regex "/w" 9 "" "" (cli_runtime d).

Definition demo_line_of (input : string) (r : @runtime providers disk unit) :=
  cli_line (codec := bit_codec) no_servers "1" prefix_regex "/w" file_flag (fun _ => false) silent same_side
    (fun _ => false) (fun _ => 7) (fun _ => 0) (fun _ => "") demo_ids (mkStaticEnv "Linux" "6.1") [] "c" input r.

(** The turn over a silent network fails, is said on stderr, and answers 2. *)
Lemma Ask_answers_witness :
  exists r3 ws, RunAsk (codec := bit_codec) no_servers "1" prefix_regex "/w" 9 (fun _ => false) (fun _ => "")
      demo_line_of "" "hello" true (cli_runtime cli_disk) = Some (r3, TurnOutput "hello" :: ws, Ok kProvider)
    /\ stdout_of ws = "".
Proof.
  destruct (demo_start cli_disk) as [r1 started] eqn:Ei.
  assert (Hok : is_ok (demo_start cli_disk).2 = true) by (vm_compute; reflexivity).
  assert (Hr : match demo_line_of "hello" (demo_start cli_disk).1 with
               | Some (r2, Ok (result, is_command)) =>
                   x_has_error result && negb is_command && negb (x_only_unaskable result) && negb (x_only_blocked result)
                   && is_ok (Shutdown no_servers "/w" r2).2
               | _ => false
               end = true) by (vm_compute; reflexivity).
  rewrite Ei in Hok, Hr. cbn [fst snd] in Hok, Hr. destruct started as [[]|e|]; [|discriminate Hok..].
  destruct (demo_line_of "hello" r1) as [[r2 [[result is_command]|e|]]|] eqn:El; try discriminate Hr.
  destruct (Shutdown no_servers "/w" r2) as [r3 saved] eqn:Es. cbn [snd] in Hr.
  destruct (x_has_error result) eqn:Hx; [|discriminate Hr]. destruct is_command; [discriminate Hr|].
  destruct (x_only_unaskable result) eqn:Hu; [discriminate Hr|]. destruct (x_only_blocked result) eqn:Hb; [discriminate Hr|].
  destruct saved as [u|e|]; [|discriminate Hr..].
  pose proof (Ask_answers (codec := bit_codec) no_servers "1" prefix_regex "/w" 9 (fun _ => false) (fun _ => "")
    demo_line_of "" "hello" true (cli_runtime cli_disk) r1 r2 result false Ei El) as H.
  rewrite Es, Hx in H. destruct H as (ws & out & E & Ho & _ & ->). exists r3, ws. split; [|exact Ho].
  rewrite E. unfold ExitCodeForAsk. by rewrite Hu, Hb, Hx.
Defined.


(** ** Where the line and its comments part *)

(** A prompt after a bare [--] is a value to the parser and a flag to the check. *)
Example Dashed_prompt_refused :
  written_by (demo_main (two_words "ask" "-5") cli_disk ["ask"; "--"; "-5"])
  = Some ([Stderr ("Error: -5 is not an option of 'ask'" +:+ NL +:+ NL +:+ "Global options" +:+ NL)], Ok 1).
Proof. vm_compute. reflexivity. Qed.

(** And where it abbreviates two flags of the page, what the look-up throws
    leaves [main]. *)
Example Ambiguous_value_escapes :
  written_by (demo_main (two_words "sse" "--he") cli_disk ["sse"; "--"; "--he"])
  = Some ([], Throw (StdException "ambiguous_option")).
Proof. vm_compute. reflexivity. Qed.

(** A feed is not read where there is no configuration, though none of it is used. *)
Example Feed_needs_configuration :
  written_by (demo_main (two_words "sse" "http://h/") empty_disk ["sse"; "http://h/"])
  = Some ([Stderr ("Configuration file not found. Place agents.json in ./.pu/ or ~/.pu/." +:+ NL)], Ok 1).
Proof. vm_compute. reflexivity. Qed.

(** A gateway that cannot be reached answers 1, the code of a wrong invocation. *)
Example Unreachable_listing :
  written_by (demo_main (two_words "models" "") cli_disk ["models"])
  = Some ([Stderr ("HTTP connect timed out after 10s" +:+ NL)], Ok 1).
Proof. vm_compute. reflexivity. Qed.

(** The signal stops the turn it meets and every later one: the flag, set here
    once the session is on disk, is never cleared, a later line asks nothing
    and prints an empty line, and the conversation answers 0. *)
Example Chat_after_signal :
  written_by (workspace_main (codec := bit_codec) no_servers "1" prefix_regex "/w" 9 file_flag (fun d => (file_flag d).2)
    silent same_side (fun _ => false) (fun _ => 7) (fun _ => 0) (fun _ => "") demo_ids (mkStaticEnv "Linux" "6.1") []
    (fun _ _ n => n) (fun _ n => (n, None)) (fun _ => "") (fun _ => "") (fun _ p => inl p) (two_words "chat" "") boost_find
    (fun '(title, own) => title) ["one"; "two"] "" no_server file_flag (fun n => n) "c" ["chat"] (cli_runtime cli_disk))
  = Some ([Stdout "> "; TurnOutput "one"; Stderr ("Request failed: HTTP connect timed out after 10s" +:+ NL);
           Stdout "> "; TurnOutput "two"; Stdout NL; Stdout "> "; Stdout (NL +:+ "Goodbye!" +:+ NL)], Ok 0).
Proof. vm_compute. reflexivity. Qed.
