(* ===== verification/Serve.v ===== *)
(** * A server from its first request to its last ([src/app/serve.cpp])

    [RunServe] starts the runtime, opens the port, registers the server, and from
    then on two threads share it: that of the sockets, which accepts connections,
    attaches pages and answers requests, and the worker, which runs turns.  What
    they do is a list of events in the order it happened; the parts are those of
    [Runner] and [Routes], over one runtime.  A turn changes the session in the
    step in which it returns.  When the process is told to end the sockets stop,
    the worker finishes the turn it is in, and the server takes itself off the
    list. *)
From Stdlib Require Import Ascii.
From S2P Require Export Input Workspace Registry Runner Routes Cli.

(** ** The listener *)

Definition NamesADestination (bind_address : string) : bool :=
  negb (sempty bind_address) && negb (bool_decide (bind_address ∈ ["0.0.0.0"; "::"; "[::]"])).

(** What is said of a server that listens, line by line. *)
Definition announcement (bind_address : string) (bound_port : Z) (root : string) : list string :=
  let port := decimal bound_port in
  (if NamesADestination bind_address then
     ["pu serve listening on http://" +:+ bind_address +:+ ":" +:+ port;
      "WebSocket endpoint: ws://" +:+ bind_address +:+ ":" +:+ port +:+ "/ws"]
   else
     ["pu serve listening on port " +:+ port +:+ " on every interface";
      "Open http://<this machine's address>:" +:+ port +:+ "/ in a browser";
      "The page names this server by the address you reached it on, not by " +:+ bind_address])
  ++ ["Workspace: " +:+ root].

(** What the network answers to each call: an error, or the port that was bound. *)
Record Listening := mkListening {
  ln_address : option string; ln_open : option string; ln_bind : option string; ln_listen : option string; ln_port : option Z
}.

(** An address that does not parse throws; a call that fails is a line of the log. *)
Definition listen_on (l : Listening) (bind_address : string) (port : Z) : res (string + Z) :=
  let failed (does message : string) : res (string + Z) :=
    Ok (inl ("Cannot " +:+ does +:+ " " +:+ bind_address +:+ ":" +:+ decimal port +:+ ": " +:+ message)) in
  match ln_address l, ln_open l, ln_bind l, ln_listen l with
  | Some what, _, _, _ => Throw (StdException what)
  | None, Some message, _, _ => failed "open" message
  | None, None, Some message, _ => failed "bind" message
  | None, None, None, Some message => failed "listen on" message
  | None, None, None, None => Ok (inr (default port (ln_port l)))
  end.

(** ** Events *)

(** What the head of an accepted connection turns out to be. *)
Inductive head := HUpgrade (target : string) | HRequest (given : Given) (req : HttpRequest) | HFailed.

Inductive event :=
  (** The accept handler; a connection's head; a frame of a page. *)
  | EAccept (ok : bool)
  | EHead (c : nat) (h : head)
  | EPage (c : nat) (turn_id : string) (m : ws_message)
  (** The rest of the runner's own steps. *)
  | ERunner (l : label)
  (** A turn comes back; what it said is closed. *)
  | ETurn
  | ESettle.

(** The steps of the runner that need nothing of the others. *)
Definition own_step (l : label) : bool :=
  match l with
  | LAttach _ | LSendPending | LAttached | LFinish _ | LTake | LSay _ | LLook | LPost | LNext | LClose _ => true
  | _ => false
  end.

Section Serve.
#[local] Set Default Proof Using "Type*".
Context `{codec : JsonCodec} {P N T : Type} `{!World N} `{!Machine N} `{!Site N} (tr : Transport (N : Type) T).
Context (PU_VERSION : string) (regex : string -> option (string -> bool)) (workspace : string) (fuel : nat).
Context (newest_first : list Board.Job -> list Board.Job).
(** [ProcessInput] of a line and who asked for it, which may not return. *)
Context (ProcessInput : string -> string -> @runtime P N T -> option (@runtime P N T * res (ExecutionResult * bool))).

Abbreviation runtime := (@runtime P N T).

(** [sg_pending] counts the connections whose head is not read yet. *)
Record serving := mkServing {
  sg_runtime : runtime; sg_server : Runner.server; sg_accepting : bool; sg_pending : nat
}.

Definition set_server (s : Runner.server) (v : serving) : serving :=
  mkServing (sg_runtime v) s (sg_accepting v) (sg_pending v).
Definition set_runtime (r : runtime) (v : serving) : serving :=
  mkServing r (sg_server v) (sg_accepting v) (sg_pending v).

Definition new_serving (r : runtime) : serving := mkServing r (new_server (Some Board.new_board)) true 0.

(** What the routes see of a server, and what they leave of it. *)
Definition site_of (v : serving) : site :=
  mkSite (sg_runtime v) (board_ (sg_server v)) (Some (jobs_ (sg_server v))).
Definition back_from (st : site) (v : serving) : serving :=
  set_runtime (si_runtime st)
    (set_server (set_jobs (default [] (si_queue st)) (set_board (si_board st) (sg_server v))) v).

(** The answer is sent whatever it is; what is thrown on the way ends the
    connection alone. *)
Definition dispatch (port : Z) (given : Given) (req : HttpRequest) (v : serving) : res serving :=
  let '(st, out) := DispatchHttpRequest tr PU_VERSION regex workspace newest_first port given req (site_of v) in
  match out with Undef => Undef | _ => Ok (back_from st v) end.

Definition runner_step (l : label) (v : serving) : option serving :=
  (fun s => set_server s v) <$> Runner.step (peer_config_ (sg_runtime v)) l (sg_server v).

(** What a page asks of the runner, or of the runtime: an approval is the gate's. *)
Definition page_message (c : nat) (turn_id : string) (m : ws_message) (v : serving) : option serving :=
  match message_label c turn_id m, m with
  | Some l, _ => runner_step l v
  | None, WsNote note =>
      Some (set_runtime (set_executor (SetUserNote note (executor_ (sg_runtime v))) (sg_runtime v)) v)
  | None, _ => Some v
  end.

(** The turn the worker is in, run on the runtime. *)
Definition turn_returns (v : serving) : option (res serving) :=
  match worker_ (sg_server v) with
  | PTurn job =>
      if landed (sg_server v) then
        '(r, out) ← ProcessInput (j_text job) (j_origin job) (sg_runtime v);
        match out with
        | Ok (result, _) => Ok <$> runner_step (LReturn result) (set_runtime r v)
        | Throw e => Ok <$> runner_step (LThrow (what e)) (set_runtime r v)
        | Undef => Some Undef
        end
      else None
  | _ => None
  end.

(** What is filed of the session is said when the turn is closed. *)
Definition turn_settles (v : serving) : option (res serving) :=
  match worker_ (sg_server v) with
  | PReturned _ _ _ =>
      let '(r, out) := DefaultSession (sg_runtime v) in
      match out with
      | Ok session => Some match runner_step (LSettle session) (set_runtime r v) with Some v => Ok v | None => Undef end
      | _ => None
      end
  | _ => None
  end.

(** [None] where the event cannot happen. *)
Definition on_event (port : Z) (e : event) (v : serving) : option (res serving) :=
  let s := sg_server v in
  match e with
  | EAccept ok =>
      if sg_accepting v
      then Some (Ok (mkServing (sg_runtime v) s ok (if ok then S (sg_pending v) else sg_pending v))) else None
  | EHead c h =>
      if (0 <? sg_pending v)%nat && idle_sockets s then
        let v := mkServing (sg_runtime v) s (sg_accepting v) (pred (sg_pending v)) in
        match h with
        | HFailed => Some (Ok v)
        | HUpgrade target => Ok <$> runner_step (LConnect c target) v
        | HRequest given req => Some (dispatch port given req v)
        end
      else None
  | EPage c turn_id m =>
      match conns s !! c with
      | Some cn => if idle_sockets s && negb (cn_closed cn) then Ok <$> page_message c turn_id m v else None
      | None => None
      end
  | ERunner l => if own_step l then Ok <$> runner_step l v else None
  | ETurn => turn_returns v
  | ESettle => turn_settles v
  end.

(** What happened, in order; an event that cannot happen did not. *)
Fixpoint happen (port : Z) (l : list event) (v : serving) : res serving :=
  match l with
  | [] => Ok v
  | e :: l =>
      match on_event port e v with
      | None => happen port l v
      | Some (Ok v) => happen port l v
      | Some other => other
      end
  end.

(** ** The end *)

(** The handler that runs is finished: a page being attached is attached. *)
Fixpoint join_sockets (fuel : nat) (s : Runner.server) : Runner.server :=
  match fuel with
  | O => s
  | S fuel =>
      match sockets_step LSendPending s, sockets_step LAttached s with
      | Some s, _ | None, Some s => join_sockets fuel s
      | None, None => s
      end
  end.

Definition pending_frames (s : Runner.server) : nat :=
  match attaching s with Some (_, rest) => S (length rest) | None => 0 end.

Definition at_rest (s : Runner.server) : bool := landed s && match worker_ s with PIdle => true | _ => false end.

(** The one thing the worker can do next. *)
Definition worker_event (clk : nat -> Z) (s : Runner.server) : event :=
  match flight s, worker_ s with
  | Some (_, None), _ => ERunner LLook
  | Some (_, Some _), _ => ERunner LPost
  | None, PIdle => ERunner LTake
  | None, PTurn _ => ETurn
  | None, PReturned _ _ _ => ESettle
  | None, PSaying _ [] _ => ERunner (LClose clk)
  | None, PSaying _ (_ :: _) _ => ERunner LNext
  end.

Fixpoint drain (fuel : nat) (port : Z) (clk : nat -> Z) (v : serving) : option (res serving) :=
  if at_rest (sg_server v) then Some (Ok v)
  else
    match fuel with
    | O => None
    | S fuel =>
        match on_event port (worker_event clk (sg_server v)) v with
        | Some (Ok v) => drain fuel port clk v
        | other => other
        end
    end.

(** What the worker has left to do, at most. *)
Definition work_left (s : Runner.server) : nat :=
  (match flight s with None => 0 | Some (_, None) => 2 | Some (_, Some _) => 1 end
   + match worker_ s with
     | PIdle => 0
     | PSaying _ frames KFailed => 1 + 3 * length frames
     | PSaying _ frames (KClose _) => 9 + 3 * length frames
     | PReturned _ _ _ => 19
     | PTurn _ => 20
     end)%nat.

(** The sockets' thread is joined, the queue dropped, and the worker joined. *)
Definition stop_server (port : Z) (clk : nat -> Z) (v : serving) : option (res serving) :=
  let s := Runner.Stop (join_sockets (pending_frames (sg_server v)) (sg_server v)) in
  drain (work_left s) port clk (set_server s v).

(** ** The command *)

Context (pid : Z) (clk : nat -> Z).
(** What the network answers, what happens until the process is told to end, and
    how the log writes an error. *)
Context (listening : string -> Z -> N -> Listening) (events : Z -> runtime -> list event) (log_error : string -> string).

Definition serve_record (bind_address : string) (bound_port : Z) (n : N) : ServeRecord :=
  mkRecord_ workspace bind_address bound_port pid (ProcessStartToken pid n).

Definition RunServe (bind_address : string) (port : Z) : @cmd P N T ExitCode :=
  fun r =>
  match Initialize tr PU_VERSION regex workspace fuel "" "" r with
  | (r, Throw e) => Some (r, [Stderr (log_error (what e))], Ok kUsage)
  | (r, Undef) => Some (r, [], Undef)
  | (r, Ok _) =>
      match listen_on (listening bind_address port (net r)) bind_address port with
      | Throw e => Some (r, [], Throw e)
      | Undef => Some (r, [], Undef)
      | Ok (inl message) => Some (r, [Stderr (log_error message)], Ok kUsage)
      | Ok (inr bound_port) =>
          let r := set_world (RegisterServeRecord (serve_record bind_address bound_port (net r)) (net r)).1 r in
          match happen bound_port (events bound_port r) (new_serving r) with
          | Ok v =>
              out ← stop_server bound_port clk v;
              match out with
              | Ok v =>
                  let r := sg_runtime v in
                  let '(r, saved) := Shutdown tr workspace (set_world (UnregisterServeRecord pid (net r)) r) in
                  Some (r, [], res_map (fun _ => kOk) saved)
              | Throw e => Some (r, [], Throw e)
              | Undef => Some (r, [], Undef)
              end
          | Throw e => Some (r, [], Throw e)
          | Undef => Some (r, [], Undef)
          end
      end
  end.

End Serve.

(** ** What a request does to the conversation *)

(** A network over which nothing is reached. *)
Definition unreachable_network : Network := mkNetwork (Ok tt) (Some Http.TimedOut) None None (inl Http.TimedOut) [] None.

Section Talk.
#[local] Set Default Proof Using "Type*".
Context `{codec : JsonCodec} {P N T : Type} `{!World N} `{!Machine N} `{!Site N} (tr : Transport (N : Type) T).
Context (PU_VERSION : string) (regex : string -> option (string -> bool)) (workspace : string).
Context (newest_first : list Board.Job -> list Board.Job).

Abbreviation runtime := (@runtime P N T).
Abbreviation site := (@site P N T).
Abbreviation kRoutes := (@kRoutes _ P N T _ _ tr PU_VERSION regex workspace newest_first).
Implicit Types s : site.

Definition same_talk s s' : Prop := same_conversation (si_runtime s) (si_runtime s').

#[local] Instance same_talk_pre : PreOrder same_talk.
Proof. split; [by intros s|]. intros s1 s2 s3 H1 H2. unfold same_talk. by transitivity (si_runtime s2). Qed.

Lemma on_runtime_talk {A} (m : Runtime.step runtime A) : keeps same_conversation m -> keeps same_talk (Routes.on_runtime m).
Proof. intros H s. specialize (H (si_runtime s)). unfold Routes.on_runtime, same_talk. by destruct (m (si_runtime s)). Qed.

Lemma of_runtime_talk {A} (f : runtime -> res A) : keeps same_talk (of_runtime f).
Proof. by intros s. Qed.

Lemma on_board_talk {A} (f : Board.Board -> Board.Board * res A) : keeps same_talk (@on_board P N T A f).
Proof. intros s. unfold on_board. destruct (si_board s) as [b|]; [|done]. by destruct (f b). Qed.

Lemma throws_talk {A} e : keeps same_talk (@throws site A e).
Proof. by intros s. Qed.

Lemma queue_turn_talk call sender message job_id : keeps same_talk (@queue_turn P N T call sender message job_id).
Proof. intros s. unfold queue_turn. by destruct (si_queue s). Qed.

Lemma switch_talk agent : keeps same_conversation (@SwitchAgent _ P N T _ tr PU_VERSION regex workspace agent).
Proof. exact (same_switch tr PU_VERSION regex workspace (fun _ n => (n, unreachable_network)) agent). Qed.

Lemma same_setting name raw : keeps same_conversation (@SetSetting P N T _ workspace name raw).
Proof. unfold SetSetting. keep. Qed.

Lemma same_clear_settings : keeps same_conversation (@ClearSettings P N T _ workspace).
Proof. unfold ClearSettings. keep. Qed.

(** Goes through a handler by its parts. *)
Local Ltac talk :=
  repeat first
    [ apply on_runtime_talk; first [apply same_default | apply switch_talk | apply same_setting | apply same_clear_settings]
    | apply of_runtime_talk | apply on_board_talk | apply queue_turn_talk | apply throws_talk
    | apply (keeps_done _) | apply (keeps_of_res _)
    | apply (keeps_then _); [|intros ?]
    | match goal with |- keeps _ (if ?b then _ else _) => destruct b end ].

Lemma claim_talk call job_id : keeps same_talk (@claim_job P N T call job_id).
Proof.
  intros s. unfold claim_job. destruct (si_board s); [|done]. destruct (sempty job_id); [done|].
  destruct (peers_of s); [|done]. apply (keeps_then _); [apply on_board_talk|]. intros r. by destruct (Board.state _).
Qed.

Lemma reply_talk turn : keeps same_talk (@accepted_reply P N T turn).
Proof. unfold accepted_reply. talk; by intros ?. Qed.

Lemma PeerMessage_talk call body : keeps same_talk (@HandlePeerMessage P N T call body).
Proof.
  intros s. unfold HandlePeerMessage. repeat match goal with |- context [if ?b then _ else _] => destruct b; [done|] end.
  apply (keeps_then _); [apply claim_talk|]. intros _. apply (keeps_then _); [apply queue_turn_talk|]. apply reply_talk.
Qed.

(** Every row but one leaves the conversation alone. *)
Lemma routes_talk route call body :
  In route kRoutes -> ro_target route <> "/api/rewind" -> keeps same_talk (ro_handler route call body).
Proof.
  intros Hin Hr. unfold Routes.kRoutes in Hin. cbn [In] in Hin.
  repeat destruct Hin as [<-|Hin]; cbn [ro_target] in Hr; try done; cbn [ro_handler];
    unfold HandleApiSession, HandleApiHistory, HandleApiAgents, HandleApiAgentSwitch, HandleApiSettings, SettingsBody,
      HandleApiSetSetting, HandleApiResetSettings, HandleApiServers, HandleApiBoard, HandleApiJobsGet, HandleApiJobsPost,
      HandleApiJobsPatch, HandleApiJobsAnswer, HandleApiJobsChase, HandleApiJobsDrop, verb, rendered;
    cbv zeta; try apply PeerMessage_talk; talk.
  intros s. unfold Routes.on_runtime, same_talk. by destruct (LiveServeRecords (net (si_runtime s))).
Qed.

(** A rewind takes turns back, and nothing else changes the conversation. *)
Definition taken_back (r r' : runtime) : Prop :=
  drawn_ r' = drawn_ r
  /\ (conversation_of r' = conversation_of r \/ exists turn, conversation_of r' = rewound turn (conversation_of r)).

Lemma same_taken r r' : same_conversation r r' -> taken_back r r'.
Proof. intros [H1 H2]. split; [done|by left]. Qed.

Lemma saved_talk (back : bool) : keeps same_conversation
  (if negb back then @done_with runtime bool false else SaveCurrentSession workspace ;;! done_with true).
Proof. keep. Qed.

Lemma RewindBefore_takes turn r : taken_back r (RewindBefore workspace turn r).1.
Proof.
  unfold RewindBefore. destruct (DefaultSession_runs r) as (s & E & Hc). rewrite (then_ran _ _ _ _ _ E). rewrite Hc.
  set (r0 := set_session (Some s) r). unfold then_ at 1, of_res at 1.
  destruct (Conversation.RewindBefore turn (conversation_of r)) as [[back c]|e|] eqn:Er; [|by apply same_taken; split..].
  set (r1 := set_session (Some (Session.mk c (Session.spec_ s) (Session.usage_ s))) r0).
  assert (H1 : drawn_ r1 = drawn_ r /\ conversation_of r1 = rewound turn (conversation_of r))
    by (unfold rewound; by rewrite Er).
  unfold then_ at 1. change (put_session _ r0) with (r1, @Ok unit tt).
  destruct (saved_talk back r1) as [S1 S2], H1 as [D1 C1]. split; [congruence|]. right. exists turn. congruence.
Qed.

Lemma rewind_takes call body s : taken_back (si_runtime s) (si_runtime (HandleApiRewind workspace call body s).1).
Proof.
  unfold HandleApiRewind. cbv zeta. destruct (_ <? 1); [by apply same_taken|]. unfold then_, Routes.on_runtime.
  pose proof (RewindBefore_takes (Z.to_nat (ValueOrDefault to_int body "turn" 0)) (si_runtime s)) as H.
  destruct (RewindBefore _ _ _) as [r [back|e|]]; [|exact H..]. by destruct (negb back).
Qed.

Lemma handle_takes route call req s s' out :
  In route kRoutes -> handle route call req s = (s', out) ->
  taken_back (si_runtime s) (si_runtime s') /\ (ro_target route <> "/api/rewind" -> same_talk s s').
Proof.
  intros Hin. unfold handle, then_, of_res. destruct (if ro_has_body route then _ else _) as [body|e|].
  2,3: by intros [= <- _]; split; [apply same_taken|].
  destruct (decide (ro_target route = "/api/rewind")) as [Hr|Hr].
  - assert (Hh : ro_handler route = HandleApiRewind workspace).
    { unfold Routes.kRoutes in Hin. cbn [In] in Hin. by repeat destruct Hin as [<-|Hin]. }
    pose proof (rewind_takes call body s) as H. rewrite Hh. destruct (HandleApiRewind _ _ _ _) as [s1 o].
    intros [= <- _]. by split.
  - pose proof (routes_talk route call body Hin Hr s) as H. destruct (ro_handler route call body s) as [s1 o].
    intros [= <- _]. split; [by apply same_taken|done].
Qed.

Lemma dispatch_takes port given req s s' out :
  DispatchHttpRequest tr PU_VERSION regex workspace newest_first port given req s = (s', out) ->
  taken_back (si_runtime s) (si_runtime s') /\ (hr_target req <> "/api/rewind" -> same_talk s s').
Proof.
  intros H. destruct (dispatch_cases tr PU_VERSION regex workspace newest_first _ _ _ _ _ _ H) as [[-> _]|[[-> _]|(route & Hf & Hin & Ha)]].
  1,2: by split; [apply same_taken|].
  assert (Ht : hr_target req = ro_target route).
  { apply find_some in Hf as [_ Hm]. unfold matches in Hm. apply andb_true_iff in Hm as [Hm _]. by apply bool_decide_eq_true in Hm. }
  rewrite Ht. destruct (answer_cases tr _ _ _ _ _ _ _ Ha) as [[-> _]|[_ Hh]]; [by split; [apply same_taken|]|].
  assert (Hn : si_runtime (Routes.noted route port given req s) = si_runtime s) by (unfold Routes.noted; by destruct (_ && _)).
  destruct (handle_takes _ _ _ _ _ _ Hin Hh) as [H1 H2]. unfold same_talk in *. by rewrite Hn in H1, H2.
Qed.

End Talk.

(** ** The server stays well formed *)

Section ServeFacts.
#[local] Set Default Proof Using "Type*".
Context `{codec : JsonCodec} {P N T : Type} `{!World N} `{!Machine N} `{!Site N} (tr : Transport (N : Type) T).
Context (PU_VERSION : string) (regex : string -> option (string -> bool)) (workspace : string) (fuel : nat).
Context (newest_first : list Board.Job -> list Board.Job).
Context (ProcessInput : string -> string -> @runtime P N T -> option (@runtime P N T * res (ExecutionResult * bool))).
Context (ids : nat -> MessageId).

Abbreviation runtime := (@runtime P N T).
Abbreviation serving := (@serving P N T).
Abbreviation on_event := (on_event tr PU_VERSION regex workspace newest_first ProcessInput).
Abbreviation happen := (happen tr PU_VERSION regex workspace newest_first ProcessInput).
Abbreviation drain := (drain tr PU_VERSION regex workspace newest_first ProcessInput).
Abbreviation dispatch := (dispatch tr PU_VERSION regex workspace newest_first).
Implicit Types (r : runtime) (v : serving).

(** What a line does to the conversation: a command takes it back, if anything,
    and a turn goes on from it. *)
Definition line_moves (input : string) r r' : Prop :=
  if starts_with "/" input then chain_ids r' `prefix_of` chain_ids r else chain_ids r `prefix_of` chain_ids r'.

(** What the server asks of a turn. *)
Class Turns : Prop := {
  turns_return input origin r : ProcessInput input origin r <> None;
  turns_keep input origin r r' out :
    ProcessInput input origin r = Some (r', out) -> runtime_ok ids r -> runtime_ok ids r' /\ line_moves input r r';
}.

Record serving_ok v : Prop := {
  sok_runtime : runtime_ok ids (sg_runtime v);
  sok_server : server_ok (sg_server v);
  sok_board : exists b, board_ (sg_server v) = Some b /\ Board.board_ok b;
}.

(** Ids of jobs are made once, and a frame that is said can be read back. *)
Definition fair (e : event) v : Prop :=
  match e with
  | EHead _ (HRequest given _) =>
      forall b, board_ (sg_server v) = Some b -> gv_uuid given ∉ map Board.id (Board.jobs_ b)
  | ERunner l => forall x, Runner.says l (sg_server v) = Some x -> parse (wire_frame x) <> None
  | _ => True
  end.

(** *** Requests *)

Lemma dispatch_board port given req (s s' : @site P N T) out b :
  DispatchHttpRequest tr PU_VERSION regex workspace newest_first port given req s = (s', out) ->
  si_board s = Some b -> Board.board_ok b -> gv_uuid given ∉ map Board.id (Board.jobs_ b) ->
  exists b', si_board s' = Some b' /\ Board.board_ok b'.
Proof.
  intros H Hb Hok Hu.
  destruct (dispatch_cases tr PU_VERSION regex workspace newest_first _ _ _ _ _ _ H) as [[-> _]|[[-> _]|(route & _ & Hin & Ha)]].
  1,2: by exists b. destruct (answer_cases tr _ _ _ _ _ _ _ Ha) as [[-> _]|[_ Hh]]; [by exists b|].
  assert (Hn : exists b1, si_board (Routes.noted route port given req s) = Some b1 /\ Board.board_ok b1
    /\ map Board.id (Board.jobs_ b1) = map Board.id (Board.jobs_ b)).
  { unfold Routes.noted. destruct (_ && _); [|by exists b]. unfold touched. cbn. rewrite Hb. cbn. eexists. split; [reflexivity|].
    split; [|by rewrite Board.TouchPeer_jobs].
    by apply (Board.perform_ok (Board.CTouch _ "") (gv_touched given) b). }
  destruct Hn as (b1 & Hb1 & Hok1 & Hids).
  destruct (handle_performed tr PU_VERSION regex workspace newest_first route _ _ _ _ _ Hin Hh) as
    [E|(b2 & c & clk & E1 & E2 & Ht & Hp)]; [exists b1; by rewrite E|].
  rewrite Hb1 in E1. injection E1 as <-. eexists. split; [exact E2|]. apply Board.perform_ok; [done|].
  destruct c; try done. cbn. rewrite (Hp _ _ eq_refl), Hids. done.
Qed.

(** What changes nothing a page sees. *)
Lemma back_from_ok (st : @site P N T) v :
  runtime_ok ids (si_runtime st) -> (exists b, si_board st = Some b /\ Board.board_ok b) -> server_ok (sg_server v) ->
  serving_ok (back_from st v).
Proof. intros Hr Hb Hs. split; [done| |done]. by apply (view_ok (sg_server v)). Qed.

Lemma taken_back_ok r r' :
  taken_back r r' -> runtime_ok ids r -> runtime_ok ids r' /\ chain_ids r' `prefix_of` chain_ids r.
Proof.
  intros [D C] [Hg Hf]. unfold runtime_ok, chain_ids. rewrite D. destruct C as [->|[turn ->]]; [done|].
  destruct (rewound_prefix turn (conversation_of r) Hg) as (H1 & [l H2] & H3).
  split; [split; [done|intros n Hn; by apply H3, Hf]|]. rewrite H2, map_app. by apply prefix_app_r.
Qed.

Lemma dispatch_ok port given req v v' :
  dispatch port given req v = Ok v' -> serving_ok v -> fair (EHead 0 (HRequest given req)) v ->
  serving_ok v' /\ chain_ids (sg_runtime v') `prefix_of` chain_ids (sg_runtime v)
  /\ (hr_target req <> "/api/rewind" -> conversation_of (sg_runtime v') = conversation_of (sg_runtime v)).
Proof.
  unfold dispatch. destruct (DispatchHttpRequest _ _ _ _ _ _ _ _ _) as [st out] eqn:E. intros H [Hr Hs (b & Hb & Hok)] Hu.
  destruct (dispatch_takes tr PU_VERSION regex workspace newest_first _ _ _ _ _ _ E) as [Ht Hc].
  destruct (taken_back_ok _ _ Ht Hr) as [Hr' Hp].
  destruct (dispatch_board _ _ _ _ _ _ b E Hb Hok (Hu b Hb)) as (b' & Hb').
  assert (Hv : v' = back_from st v) by (by destruct out; [injection H|injection H|discriminate H]). subst v'. split; [|split; [exact Hp|]].
  - apply back_from_ok; [done|by exists b'|done].
  - intros Hne. apply (Hc Hne).
Qed.

(** *** The runner *)

Lemma runner_step_ok l v v' :
  runner_step l v = Some v' -> serving_ok v -> (forall x, Runner.says l (sg_server v) = Some x -> parse (wire_frame x) <> None) ->
  serving_ok v' /\ sg_runtime v' = sg_runtime v.
Proof.
  unfold runner_step. destruct (Runner.step _ l (sg_server v)) as [s|] eqn:E; [|done]. intros [= <-] [Hr Hs (b & Hb & Hok)] Hsays.
  split; [|done]. split; [done|by eapply step_ok|]. cbn [set_server sg_server].
  destruct (step_board _ _ _ _ E) as [->|(rq & clk & b1 & Hb1 & ->)]; [by exists b|].
  eexists. split; [reflexivity|]. apply Board.perform_ok; [congruence|done].
Qed.

Lemma set_runtime_ok r v : runtime_ok ids r -> serving_ok v -> serving_ok (set_runtime r v).
Proof. by intros Hr [_ Hs Hb]. Qed.

Lemma page_message_ok c turn_id m v v' :
  page_message c turn_id m v = Some v' -> serving_ok v ->
  serving_ok v' /\ conversation_of (sg_runtime v') = conversation_of (sg_runtime v).
Proof.
  intros H Hv. unfold page_message in H. destruct (message_label c turn_id m) as [l|] eqn:El.
  - destruct (runner_step_ok l v v') as [H1 ->]; [by destruct m|done| |done]. destruct m; try done; injection El as <-; done.
  - destruct m; try (by injection H as <-); try done. injection H as <-. split; [|done].
    apply set_runtime_ok; [|done]. by destruct Hv.
Qed.

(** *** Every event *)

(** How an event moves the conversation. *)
Definition event_moves (e : event) v v' : Prop :=
  let r := sg_runtime v in let r' := sg_runtime v' in
  match e with
  | EHead _ (HRequest _ req) => if bool_decide (hr_target req = "/api/rewind") then chain_ids r' `prefix_of` chain_ids r
                                else conversation_of r' = conversation_of r
  | ETurn => exists job, worker_ (sg_server v) = PTurn job /\ line_moves (j_text job) r r'
  | _ => conversation_of r' = conversation_of r
  end.

(** An accept that fails is the last: nothing is accepted any more. *)
Theorem Never_accepts_again port l v v' :
  sg_accepting v = false -> happen port l v = Ok v' -> sg_accepting v' = false /\ (sg_pending v' <= sg_pending v)%nat.
Proof.
  assert (Hstep : forall e v v', sg_accepting v = false -> on_event port e v = Some (Ok v') ->
    sg_accepting v' = false /\ (sg_pending v' <= sg_pending v)%nat).
  { clear v v'. intros e v v' Ha. assert (Hr : forall l v0 v1, runner_step l v0 = Some v1 ->
      sg_accepting v1 = sg_accepting v0 /\ sg_pending v1 = sg_pending v0).
    { intros l0 v0 v1. unfold runner_step. destruct (Runner.step _ _ _); [|done]. by intros [= <-]. }
    destruct e as [ok|c h|c turn_id m|l'| |]; cbn [on_event].
    - by rewrite Ha.
    - destruct (_ && _); [|done]. set (v0 := mkServing _ _ _ _). destruct h as [target|given req|].
      + destruct (runner_step _ v0) as [v1|] eqn:E; [|done]. intros [= <-]. destruct (Hr _ _ _ E) as [-> ->]. cbn. split; [done|lia].
      + unfold Serve.dispatch. destruct (DispatchHttpRequest _ _ _ _ _ _ _ _ _) as [st [resp|x|]]; [| |done];
          intros [= <-]; cbn; (split; [done|lia]).
      + intros [= <-]. cbn. split; [done|lia].
    - destruct (conns _ !! c); [|done]. destruct (_ && _); [|done]. unfold page_message.
      destruct (message_label c turn_id m) as [l0|]; [|destruct m; intros [= <-]; by split].
      destruct (runner_step l0 v) as [v1|] eqn:E; [|by destruct m]. destruct (Hr _ _ _ E) as [E1 E2].
      intros H. assert (v' = v1) as -> by (by destruct m; injection H). split; [congruence|lia].
    - destruct (own_step l'); [|done]. destruct (runner_step l' v) as [v1|] eqn:E; [|done]. intros [= <-].
      destruct (Hr _ _ _ E) as [-> ->]. by split.
    - unfold turn_returns. destruct (worker_ _); try done. destruct (landed _); [|done].
      destruct (ProcessInput _ _ _) as [[r' out]|]; [|done]. cbn [mbind option_bind].
      destruct out as [[result c]|x|]; [| |done];
        match goal with |- context [runner_step ?l0 ?v0] => destruct (runner_step l0 v0) as [v1|] eqn:E end; try done;
        intros [= <-]; destruct (Hr _ _ _ E) as [-> ->]; by split.
    - unfold turn_settles. destruct (worker_ _); try done. destruct (DefaultSession _) as [r' [s|x|]]; try done.
      match goal with |- context [runner_step ?l0 ?v0] => destruct (runner_step l0 v0) as [v1|] eqn:E end; [|done].
      intros [= <-]. destruct (Hr _ _ _ E) as [-> ->]. by split. }
  revert v. induction l as [|e l IH]; intros v Ha; cbn [happen]; [by intros [= <-]|].
  destruct (on_event port e v) as [[v1|x|]|] eqn:E; [|done..|by apply IH]. destruct (Hstep _ _ _ Ha E) as [H1 H2].
  intros H. destruct (IH v1 H1 H) as [H3 H4]. split; [done|lia].
Qed.

Context {turns : Turns}.

Lemma turn_returns_ok v v' :
  turn_returns ProcessInput v = Some (Ok v') -> serving_ok v -> serving_ok v' /\ event_moves ETurn v v'.
Proof.
  unfold turn_returns. destruct (worker_ (sg_server v)) as [|job|job asked res|job frames next] eqn:Ew; try done.
  destruct (landed _); [|done]. destruct (ProcessInput _ _ _) as [[r out]|] eqn:E; [|done]. cbn [mbind option_bind].
  intros H Hv. destruct (turns_keep _ _ _ _ _ E (sok_runtime _ Hv)) as [Hr Hm].
  assert (exists l, runner_step l (set_runtime r v) = Some v' /\ forall s : Runner.server, Runner.says l s = None) as (l & Hl & Hq).
  { destruct out as [[result c]|e|]; [exists (LReturn result)|exists (LThrow (what e))|done].
    all: destruct (runner_step _ _); [|done]; by injection H as ->. }
  destruct (runner_step_ok l (set_runtime r v) v' Hl (set_runtime_ok _ _ Hr Hv)) as [H1 H2]; [intros x; by rewrite Hq|].
  split; [done|]. exists job. by rewrite H2.
Qed.

Lemma turn_settles_ok v v' :
  turn_settles v = Some (Ok v') -> serving_ok v ->
  serving_ok v' /\ conversation_of (sg_runtime v') = conversation_of (sg_runtime v).
Proof.
  unfold turn_settles. destruct (worker_ (sg_server v)) as [|job|job asked res|job frames next] eqn:Ew; try done.
  destruct (DefaultSession_runs (sg_runtime v)) as (s & -> & Hs).
  destruct (runner_step _ _) as [v1|] eqn:E; [|done]. intros [= <-] Hv.
  assert (Hr : runtime_ok ids (set_session (Some s) (sg_runtime v))).
  { unfold runtime_ok. change (conversation_of (set_session (Some s) (sg_runtime v))) with (Session.conversation_ s).
    rewrite Hs. apply (sok_runtime _ Hv). }
  destruct (runner_step_ok _ _ _ E (set_runtime_ok _ _ Hr Hv)) as [H1 H2]; [done|]. split; [done|]. by rewrite H2.
Qed.

Lemma on_event_ok port e v v' :
  on_event port e v = Some (Ok v') -> serving_ok v -> fair e v -> serving_ok v' /\ event_moves e v v'.
Proof.
  intros H Hv Hf. destruct e as [ok|c h|c turn_id m|l| |]; cbn [on_event] in H.
  - destruct (sg_accepting v); [|done]. injection H as <-. split; [by destruct Hv|done].
  - destruct (_ && _); [|done]. set (v0 := mkServing _ _ _ _) in H. assert (Hv0 : serving_ok v0) by (by destruct Hv).
    destruct h as [target|given req|].
    + destruct (runner_step _ v0) as [v1|] eqn:E; [|done]. injection H as <-.
      destruct (runner_step_ok _ _ _ E Hv0) as [H1 H2]; [done|]. split; [done|]. cbn. by rewrite H2.
    + injection H as H. destruct (dispatch_ok _ _ _ _ _ H Hv0 Hf) as (H1 & H2 & H3). split; [done|]. cbn [event_moves].
      case_bool_decide; [done|]. by apply H3.
    + by injection H as <-.
  - destruct (conns _ !! c) as [cn|]; [|done]. destruct (_ && _); [|done].
    destruct (page_message c turn_id m v) as [v1|] eqn:E; [|done]. injection H as <-. by eapply page_message_ok.
  - destruct (own_step l); [|done]. destruct (runner_step l v) as [v1|] eqn:E; [|done]. injection H as <-.
    destruct (runner_step_ok _ _ _ E Hv Hf) as [H1 H2]. split; [done|]. cbn. by rewrite H2.
  - by apply turn_returns_ok.
  - by apply turn_settles_ok.
Qed.

(** *** Any events *)

(** Every event of a list is fair when it happens. *)
Fixpoint fair_all (port : Z) (l : list event) v : Prop :=
  match l with
  | [] => True
  | e :: l => fair e v /\ match on_event port e v with
                         | None => fair_all port l v
                         | Some (Ok v') => fair_all port l v'
                         | Some _ => True
                         end
  end.

Lemma new_serving_ok r : runtime_ok ids r -> serving_ok (new_serving r).
Proof.
  intros Hr. split; [exact Hr|apply new_server_ok|]. exists Board.new_board. split; [done|].
  apply Board.reachable_ok. constructor.
Qed.

Lemma happen_ok port l v v' : happen port l v = Ok v' -> serving_ok v -> fair_all port l v -> serving_ok v'.
Proof.
  revert v. induction l as [|e l IH]; intros v; cbn [happen fair_all]; [by intros [= <-]|].
  destruct (on_event port e v) as [[v1|x|]|] eqn:E; try done; intros H Hv [Hf Hrest]; [|by eapply IH].
  eapply IH; [exact H| |exact Hrest]. by destruct (on_event_ok _ _ _ _ E Hv Hf).
Qed.

(** *** The worker ends *)

Lemma closing_frames_length result session frames : closing_frames result session = Ok frames -> (length frames <= 3)%nat.
Proof.
  unfold closing_frames. destruct (match x_usage result with None => _ | Some _ => _ end) as [usage|e|] eqn:E; [|done..].
  cbn [res_bind]. intros [= <-]. rewrite !length_app. cbn [length].
  assert (length usage <= 1)%nat.
  { destruct (x_usage result); [|by injection E as <-; cbn; lia]. unfold res_map in E. destruct (usage_payload session); [|done..].
    injection E as <-. cbn. lia. }
  destruct (sempty _); cbn [length]; lia.
Qed.

(** What is left of a worker's step. *)
Lemma runner_step_left l v v' :
  runner_step l v = Some v' -> exists s', Runner.step (peer_config_ (sg_runtime v)) l (sg_server v) = Some s' /\ sg_server v' = s'.
Proof. unfold runner_step. destruct (Runner.step _ _ _) as [s'|]; [|done]. intros [= <-]. by exists s'. Qed.

Lemma CloseBoardJob_flight peers i result clk (s : Runner.server) :
  flight (CloseBoardJob peers i result clk s).1 = flight s.
Proof. pose proof (CloseBoardJob_view peers i result clk s) as H. by injection H. Qed.

(** The worker can always go on until it rests, and has less left to do. *)
Lemma worker_goes_on port clk v :
  at_rest (sg_server v) = false ->
  (exists v', on_event port (worker_event clk (sg_server v)) v = Some (Ok v')
     /\ (work_left (sg_server v') < work_left (sg_server v))%nat)
  \/ on_event port (worker_event clk (sg_server v)) v = Some Undef.
Proof.
  destruct v as [r s accepting pending]. unfold at_rest, landed, worker_event. cbn [sg_server].
  destruct (flight s) as [[text [c|]]|] eqn:Ef.
  - intros _. left. cbn [on_event own_step]. unfold runner_step, Runner.step, worker_step. cbn [sockets_step sg_server]. rewrite Ef.
    eexists. split; [reflexivity|]. unfold work_left. cbn. rewrite Ef. lia.
  - intros _. left. cbn [on_event own_step]. unfold runner_step, Runner.step, worker_step. cbn [sockets_step sg_server]. rewrite Ef.
    eexists. split; [reflexivity|]. unfold work_left. cbn. rewrite Ef.
    destruct (attached_ s); [|lia]. destruct (conns s !! _) as [cn|]; [|lia]. destruct (cn_closed cn); lia.
  - destruct (worker_ s) as [|job|job asked res|job [|x frames] next] eqn:Ew; [done|..]; intros _; cbn [on_event own_step].
    + unfold turn_returns. cbn [sg_server sg_runtime]. rewrite Ew. unfold landed. rewrite Ef. cbn [bool_decide].
      rewrite bool_decide_true by done. pose proof (turns_return (j_text job) (j_origin job) r) as Ht.
      destruct (ProcessInput _ _ _) as [[r' [[result c]|e|]]|]; [| | |done]; cbn [mbind option_bind]; [left|left|by right].
      all: unfold runner_step, Runner.step, worker_step, landed; cbn [sockets_step sg_server set_runtime]; rewrite Ew, Ef;
        rewrite bool_decide_true by done; eexists; (split; [reflexivity|]); unfold work_left; cbn; rewrite Ew, Ef; cbn; lia.
    + unfold turn_settles. cbn [sg_server sg_runtime]. rewrite Ew. destruct (DefaultSession_runs r) as (session & -> & _).
      unfold runner_step, Runner.step, worker_step. cbn [sockets_step sg_server set_runtime]. rewrite Ew. cbv zeta.
      destruct (_ && _); [left; eexists; (split; [reflexivity|]); unfold work_left; cbn; rewrite Ew, Ef; lia|].
      destruct (closing_frames res session) as [frames|e|] eqn:Ec; [left|by right..].
      eexists. split; [reflexivity|]. apply closing_frames_length in Ec. unfold work_left. cbn. rewrite Ew, Ef. lia.
    + left. unfold runner_step, Runner.step, worker_step, landed. cbn [sockets_step sg_server sg_runtime]. rewrite Ew, Ef.
      rewrite bool_decide_true by done. destruct next as [result|].
      * pose proof (CloseBoardJob_defined (peer_config_ r) (j_board job) result clk s) as Hd.
        pose proof (CloseBoardJob_flight (peer_config_ r) (j_board job) result clk s) as Hfl.
        destruct (CloseBoardJob _ _ _ _ _) as [s1 [u|e|]]; cbn in Hd, Hfl; [| |done].
        all: eexists; (split; [reflexivity|]); unfold work_left; cbn; rewrite Ew, Ef, Hfl, Ef; cbn; lia.
      * pose proof (CloseBoardJob_defined (peer_config_ r) (j_board job) no_execution clk (FinishTurn s)) as Hd.
        pose proof (CloseBoardJob_flight (peer_config_ r) (j_board job) no_execution clk (FinishTurn s)) as Hfl.
        destruct (CloseBoardJob _ _ _ _ _) as [s1 [u|e|]]; cbn in Hd, Hfl; [| |done].
        all: eexists; (split; [reflexivity|]); unfold work_left; cbn; rewrite Ew, Ef, Hfl, Ef; cbn; lia.
    + left. unfold runner_step, Runner.step, worker_step, landed. cbn [sockets_step sg_server]. rewrite Ew, Ef.
      rewrite bool_decide_true by done. eexists. split; [reflexivity|]. unfold work_left. cbn. rewrite Ew, Ef. cbn [length]. destruct next; lia.
Qed.

Lemma drain_ends port clk n v :
  (work_left (sg_server v) <= n)%nat ->
  drain n port clk v = Some Undef
  \/ exists v', drain n port clk v = Some (Ok v') /\ at_rest (sg_server v') = true.
Proof.
  revert v. induction n as [|n IH]; intros v Hn; cbn [drain]; destruct (at_rest (sg_server v)) eqn:Er.
  1,3: by right; exists v. all: destruct (worker_goes_on port clk v Er) as [(v' & E & Hl)|E]; [|try by rewrite E; left].
  - lia.
  - exfalso. revert Hn Er. unfold work_left, at_rest, landed. destruct (flight _) as [[? [?|]]|]; [lia..|].
    destruct (worker_ _) as [| | |job frames [result|]]; [done|lia..].
  - rewrite E. apply IH. lia.
Qed.

Lemma drain_ok port clk n v v' :
  (forall x, parse (wire_frame x) <> None) -> drain n port clk v = Some (Ok v') -> serving_ok v -> serving_ok v'.
Proof.
  intros Hread. revert v. induction n as [|n IH]; intros v; cbn [drain]; destruct (at_rest (sg_server v)); try by intros [= <-].
  destruct (on_event port (worker_event clk (sg_server v)) v) as [[v1|x|]|] eqn:E; try done. intros H Hv.
  eapply IH; [exact H|]. apply (on_event_ok _ _ _ _ E Hv). unfold worker_event.
  destruct (flight _) as [[? [?|]]|]; [by intros ? _..|]. destruct (worker_ _) as [| | |job [|? ?] next]; cbn; try done; by intros ? _.
Qed.

Lemma join_sockets_ok n (s : Runner.server) :
  server_ok s -> server_ok (join_sockets n s) /\ board_ (join_sockets n s) = board_ s.
Proof.
  revert s. induction n as [|n IH]; intros s Hs; [done|]. cbn [join_sockets].
  assert (forall l s', (l = LSendPending \/ l = LAttached) -> sockets_step l s = Some s' -> server_ok s' /\ board_ s' = board_ s) as H.
  { intros l s' Hl E. split; [by eapply sockets_ok|].
    destruct Hl as [->| ->]; cbn in E; destruct (attaching s) as [[c [|text rest]]|]; try done; [destruct (parse text)|];
      by injection E as <-. }
  destruct (sockets_step LSendPending s) as [s1|] eqn:E1; [|destruct (sockets_step LAttached s) as [s1|] eqn:E2; [|done]].
  - destruct (H _ _ (or_introl eq_refl) E1) as [H1 <-]. by apply IH.
  - destruct (H _ _ (or_intror eq_refl) E2) as [H1 <-]. by apply IH.
Qed.

Lemma Stop_same (s : Runner.server) : view (Runner.Stop s) = view s /\ board_ (Runner.Stop s) = board_ s.
Proof. split; [apply Stop_view|]. unfold Runner.Stop. destruct (stopping_ s); [done|]. cbn. by destruct (cancel_token_ s). Qed.

Abbreviation stop_server := (stop_server tr PU_VERSION regex workspace newest_first ProcessInput).

Lemma stop_server_ends port clk v :
  stop_server port clk v = Some Undef
  \/ exists v', stop_server port clk v = Some (Ok v') /\ at_rest (sg_server v') = true.
Proof. unfold stop_server. by apply drain_ends. Qed.

Lemma stop_server_ok port clk v v' :
  (forall x, parse (wire_frame x) <> None) -> stop_server port clk v = Some (Ok v') -> serving_ok v -> serving_ok v'.
Proof.
  intros Hread H [Hr Hs (b & Hb & Hok)]. eapply drain_ok; [done|exact H|].
  destruct (join_sockets_ok (pending_frames (sg_server v)) _ Hs) as [Hj Ej].
  destruct (Stop_same (join_sockets (pending_frames (sg_server v)) (sg_server v))) as [Hv Ev].
  split; [done|by apply (view_ok _ _ Hv)|]. exists b. cbn [set_server sg_server]. split; [congruence|done].
Qed.

(** ** The properties *)


(** C8: only a rewind takes turns back and only a line changes the conversation
    otherwise: a command takes it back, a turn goes on from it, and no other
    request, page or step of the worker touches it. *)
Theorem Conversation_moves port e v v' :
  serving_ok v -> fair e v -> on_event port e v = Some (Ok v') -> event_moves e v v'.
Proof. intros Hv Hf H. by destruct (on_event_ok _ _ _ _ H Hv Hf). Qed.

Context (pid : Z) (clk : nat -> Z).
Context (listening : string -> Z -> N -> Listening) (events : Z -> runtime -> list event) (log_error : string -> string).

Abbreviation RunServe := (RunServe tr PU_VERSION regex workspace fuel newest_first ProcessInput pid clk listening events log_error).

Local Ltac by_step := match goal with |- context [runner_step ?l ?v] => by destruct (runner_step l v) end.

Lemma happen_defined port l v : (exists v', happen port l v = Ok v') \/ happen port l v = Undef.
Proof.
  revert v. induction l as [|e l IH]; intros v; cbn [happen]; [left; by exists v|].
  destruct (on_event port e v) as [[v1|x|]|] eqn:E; [apply IH| |by right|apply IH].
  exfalso. revert E. destruct e as [ok|c h|c turn_id m|l'| |]; cbn [on_event].
  - by destruct (sg_accepting v).
  - destruct (_ && _); [|done]. destruct h; [by_step| |done].
    unfold Serve.dispatch. by destruct (DispatchHttpRequest _ _ _ _ _ _ _ _ _) as [st []].
  - destruct (conns _ !! c); [|done]. destruct (_ && _); [|done]. by destruct (page_message _ _ _ _).
  - destruct (own_step l'); [|done]. by_step.
  - unfold turn_returns. destruct (worker_ _); try done. destruct (landed _); [|done].
    destruct (ProcessInput _ _ _) as [[r' [[]|?|]]|]; cbn [mbind option_bind]; try done; by_step.
  - unfold turn_settles. destruct (worker_ _); try done. destruct (DefaultSession _) as [r' [|?|]]; try done.
    by_step.
Qed.

Lemma Shutdown_talk : keeps (@same_conversation P N T) (Shutdown tr workspace).
Proof. unfold Shutdown. keep. by apply same_change. Qed.

Lemma serve_ends bind_address port : ends (RunServe bind_address port).
Proof.
  intros r. unfold Serve.RunServe. destruct (Initialize _ _ _ _ _ _ _ r) as [r1 [u|e|]]; [|done..].
  destruct (listen_on _ _ _) as [[message|bound]|e|]; try done.
  set (r2 := set_world _ r1). destruct (happen_defined bound (events bound r2) (new_serving r2)) as [[v ->]| ->]; [|done].
  destruct (stop_server_ends bound clk v) as [->|(v' & -> & _)]; [done|]. cbn [mbind option_bind].
  by destruct (Shutdown _ _ _).
Qed.


End ServeFacts.

(** ** The server of a workspace *)

Section Workspace.
#[local] Set Default Proof Using "Type*".
Context `{codec : JsonCodec} {N T : Type} `{!World N} (tr : Transport (N : Type) T).
Context (PU_VERSION : string) (regex : string -> option (string -> bool)) (workspace : string).
Context (flag : N -> N * bool) (interrupted : N -> bool) (dial : Http.Request -> N -> N * Network) (nibble : N -> N * Z).
Context (ShutdownRequested_ : (providers * Outer N T) -> bool) (ticks seconds : (providers * Outer N T) -> Z)
  (context_digest : (providers * Outer N T) -> string).
Context (ids : nat -> MessageId) (ids_nonempty : forall n, ids n <> "") (ids_inj : forall n m, ids n = ids m -> n = m).
Context (static_env : StaticEnvInfo) (approval : option (string -> bool * string)) (listing_headers : list string).

(** [ProcessInput] as the runner calls it: a turn has a token of its own, and the
    page can be asked for an approval. *)
Definition serve_line (conversation_id input origin : string) (r : @runtime providers N T)
    : option (@runtime providers N T * res (ExecutionResult * bool)) :=
  Line tr PU_VERSION regex workspace flag interrupted dial nibble ShutdownRequested_ ticks seconds context_digest ids
    static_env approval true true listing_headers conversation_id (Z.to_nat (xs_budget (executor_ r)) + 2) input origin r.

Lemma serve_turns id : stays_set flag -> draws_keep_set flag nibble -> Turns (serve_line id) ids.
Proof.
  intros Hs Hd. assert (Hl : latches (cancelled (T := T) flag)) by (by eapply cancelled_latches).
  assert (Hst : forall b p C, CreateProvider (T := T) flag interrupted dial nibble id b = Ok (p, C) ->
    chat_stops C (cancelled flag)) by (intros b p C H; by eapply provider_stops).
  split.
  - intros input origin r. destruct (input_ends tr PU_VERSION regex workspace dial listing_headers
      (CreateProvider flag interrupted dial nibble id) (cancelled flag) ShutdownRequested_ ticks seconds context_digest ids
      static_env approval true true ids_nonempty ids_inj input origin r Hl
      Hst) as (r' & out & E & _).
    unfold serve_line, Line. by rewrite E.
  - intros input origin r r' out E Hr. unfold serve_line, Line in E. unfold line_moves.
    destruct (starts_with "/" input) eqn:Hc.
    + destruct (command_effects tr PU_VERSION regex workspace dial listing_headers
        (CreateProvider flag interrupted dial nibble id) (cancelled flag) ShutdownRequested_ ticks seconds context_digest ids
        static_env approval true true ids_nonempty ids_inj (Z.to_nat (xs_budget (executor_ r)) + 2) input origin r Hc)
        as (r2 & out2 & E2 & _ & _ & Hok & _).
      rewrite E in E2. injection E2 as <- <-. by apply Hok.
    + destruct (input_settles tr PU_VERSION regex workspace dial listing_headers
        (CreateProvider flag interrupted dial nibble id) (cancelled flag) ShutdownRequested_ ticks seconds context_digest ids
        static_env approval true true ids_nonempty ids_inj (Z.to_nat (xs_budget (executor_ r)) + 2) input origin r r' out
        Hl Hr Hc E) as (H1 & H2 & _). by split.
Qed.

End Workspace.

(** ** A server on a disk *)

Definition disk_line : string -> string -> @runtime providers disk unit ->
    option (@runtime providers disk unit * res (ExecutionResult * bool)) :=
  serve_line (codec := bit_codec) no_servers "1" prefix_regex "/w" file_flag (fun _ => false) silent same_side
    (fun _ => false) (fun _ => 7) (fun _ => 0) (fun _ => "") demo_ids (mkStaticEnv "Linux" "6.1") None [] "c".

#[export] Instance disk_turns : Turns disk_line demo_ids.
Proof. apply serve_turns; [apply demo_ids_nonempty|apply demo_ids_inj|apply file_flag_stays|apply same_side_keeps]. Qed.

(** A page comes, asks for a command and for an answer, and a request rewinds. *)
Definition page_asks (turn_id text : string) : list event :=
  [EPage 0 turn_id (WsRun text); ERunner LTake; ETurn; ESettle].
Definition worker_says : list event := [ERunner LNext; ERunner LLook; ERunner LPost].
Definition closes_turn : list event := [ERunner (LClose (fun _ => 0))].

Definition busy_day : list event :=
  [EAccept true; EHead 0 (HUpgrade (Runner.at_ "tab")); ERunner (LAttach 0); ERunner LAttached]
  ++ page_asks "t1" "/agents" ++ worker_says ++ closes_turn ++ page_asks "t2" "and now?" ++ worker_says ++ closes_turn.

Definition rewinds (turn : Z) : HttpRequest :=
  Routes.mkRequest "POST" "/api/rewind" None (serialize (JsonCodec := bit_codec) (JObject [("turn", JInt64 turn)])) "127.0.0.1".

Definition demo_happen (l : list event) (r : @runtime providers disk unit) : res (@serving providers disk unit) :=
  happen (codec := bit_codec) no_servers "1" prefix_regex "/w" (fun l => l) disk_line 9000 l (new_serving r).

(** Events without a request are fair where every frame can be read back. *)
Definition no_request (e : event) : bool := match e with EHead _ (HRequest _ _) => false | _ => true end.

Lemma demo_fair port l : forall v, forallb no_request l = true ->
  fair_all (codec := bit_codec) no_servers "1" prefix_regex "/w" (fun l => l) disk_line port l v.
Proof.
  induction l as [|e l IH]; intros v H; [done|]. cbn [forallb] in H. apply andb_true_iff in H as [He H]. cbn [fair_all]. split.
  - destruct e as [|c [|given req|]| |l0| |]; try done. intros x _. apply bit_codec_reads.
  - destruct (on_event _ _ _ _ _ _ _ _ _) as [[v1|x|]|]; [by apply IH|done..|by apply IH].
Qed.


(** One connection whose head is still to be read. *)
Definition one_pending : @serving providers disk unit :=
  mkServing workspace_runtime (new_server (Some Board.new_board)) true 1.

Lemma Conversation_moves_witness :
  exists v', on_event (codec := bit_codec) no_servers "1" prefix_regex "/w" (fun l => l) disk_line 9000
      (EHead 0 (HRequest no_ids (rewinds 1))) one_pending = Some (Ok v')
    /\ chain_ids (sg_runtime v') `prefix_of` chain_ids workspace_runtime /\ chain_ids (sg_runtime v') = [].
Proof.
  destruct (on_event (codec := bit_codec) no_servers "1" prefix_regex "/w" (fun l => l) disk_line 9000
      (EHead 0 (HRequest no_ids (rewinds 1))) one_pending) as [[v'|x|]|] eqn:E; [|vm_compute in E; discriminate E..].
  exists v'. split; [reflexivity|]. split.
  - assert (Hv : serving_ok (codec := bit_codec) demo_ids one_pending).
    { pose proof (new_serving_ok (codec := bit_codec) no_servers disk_line demo_ids workspace_runtime workspace_runtime_ok) as [H1 H2 H3].
      split; [exact H1|exact H2|exact H3]. }
    assert (Hf : fair (codec := bit_codec) (EHead 0 (HRequest no_ids (rewinds 1))) one_pending).
    { intros b [= <-]. apply not_elem_of_nil. }
    exact (Conversation_moves (codec := bit_codec) no_servers "1" prefix_regex "/w" (fun l => l) disk_line demo_ids
      9000 (EHead 0 (HRequest no_ids (rewinds 1))) one_pending v' Hv Hf E).
  - vm_compute in E. injection E as <-. reflexivity.
Defined.

(** The whole command: a port that is free, a busy day, and the signal. *)
Definition free_port (bind_address : string) (port : Z) (d : disk) : Listening := mkListening None None None None (Some 9000).
Definition taken_port (bind_address : string) (port : Z) (d : disk) : Listening :=
  mkListening None None (Some "Address already in use") None None.

Definition demo_serve (listening : string -> Z -> disk -> Listening) : @cmd providers disk unit ExitCode :=
  RunServe (codec := bit_codec) no_servers "1" prefix_regex "/w" 9 (fun l => l) disk_line 7 (fun _ => 0) listening
    (fun _ _ => busy_day) (fun text => "[error] " +:+ text +:+ NL) "127.0.0.1" 9000.


(** A port that is taken ends it at once, with what went wrong. *)
Example Port_taken :
  match demo_serve taken_port (cli_runtime cli_disk) with
  | Some (_, ws, out) =>
      ws = [Stderr ("[error] Cannot bind 127.0.0.1:9000: Address already in use" +:+ NL)] /\ out = Ok kUsage
  | None => False
  end.
Proof. vm_compute. done. Qed.

(** One accept that fails, and the pages that come after wait for ever. *)
Lemma Never_accepts_again_witness :
  exists v, demo_happen [EAccept true; EAccept false; EAccept true; EAccept true] workspace_runtime = Ok v
    /\ sg_accepting v = false /\ (sg_pending v <= 1)%nat.
Proof.
  destruct (demo_happen [EAccept true; EAccept false; EAccept true; EAccept true] workspace_runtime) as [v|x|] eqn:E;
    [|vm_compute in E; discriminate E..].
  exists v. split; [reflexivity|]. set (v1 := mkServing workspace_runtime (new_server (Some Board.new_board)) false 1).
  exact (Never_accepts_again (codec := bit_codec) no_servers "1" prefix_regex "/w" (fun l => l) disk_line
    9000 [EAccept true; EAccept true] v1 v eq_refl E).
Defined.

(** What is said of where the server is. *)
Example Every_interface :
  announcement "0.0.0.0" 9000 "/w" = ["pu serve listening on port 9000 on every interface";
    "Open http://<this machine's address>:9000/ in a browser";
    "The page names this server by the address you reached it on, not by 0.0.0.0"; "Workspace: /w"].
Proof. reflexivity. Qed.
