(* ===== verification/Program.v ===== *)
(** * The program ([src/main.cpp], [src/app/cli.cpp], [src/app/serve.cpp])

    [program] is [main] with everything it may start: the conversation of the
    terminal with the turns of the command line, and the server with the turns of
    its pages.  [Program_answers] composes what the parts promise: [Cli] that a
    command returns where the server does, [Serve] that the server does. *)
From Stdlib Require Import Ascii.
From S2P Require Export Serve.

Section Program.
#[local] Set Default Proof Using "Type*".
Context `{codec : JsonCodec} {N T : Type} `{!World N} `{!Machine N} `{!Site N} (tr : Transport (N : Type) T).
Context (PU_VERSION : string) (regex : string -> option (string -> bool)) (workspace : string) (fuel : nat).
Context (flag : N -> N * bool) (interrupted : N -> bool) (dial : Http.Request -> N -> N * Network) (nibble : N -> N * Z).
Context (ShutdownRequested_ : (providers * Outer N T) -> bool) (ticks seconds : (providers * Outer N T) -> Z)
  (context_digest : (providers * Outer N T) -> string).
Context (ids : nat -> MessageId) (ids_nonempty : forall n, ids n <> "") (ids_inj : forall n m, ids n = ids m -> n = m).
Context (static_env : StaticEnvInfo) (listing_headers : list string).
Context (write_file : string -> string -> N -> N) (create_directories : string -> N -> N * option string).
Context (show_double to_chars : double -> string) (weakly_canonical : N -> string -> string + string).
Context (parse_line : list OptionSpec -> list (string * Z) -> list string -> string + gmap string (list string)).
Context (find_nothrow : list OptionSpec -> string -> bool -> res bool) (show_page : string * list OptionSpec -> string).
Context (stdin_lines : list string) (stdin : string) (shutdown : N -> N * bool) (meanwhile : N -> N).
(** What the server alone asks for: who approves, what happens to it, its log. *)
Context (approval : option (string -> bool * string)) (newest_first : list Board.Job -> list Board.Job) (pid : Z) (clk : nat -> Z).
Context (listening : string -> Z -> N -> Listening) (events : Z -> @runtime providers N T -> list event)
  (log_error : string -> string).

(** The turns of the terminal, and those of the pages. *)
Definition terminal_turn (id : string) :=
  cli_line tr PU_VERSION regex workspace flag interrupted dial nibble ShutdownRequested_ ticks seconds context_digest ids
    static_env listing_headers id.
Definition page_turn (id : string) :=
  serve_line tr PU_VERSION regex workspace flag interrupted dial nibble ShutdownRequested_ ticks seconds context_digest ids
    static_env approval listing_headers id.

Definition program_serves (id bind_address : string) (port : Z) : @cmd providers N T ExitCode :=
  RunServe tr PU_VERSION regex workspace fuel newest_first (page_turn id) pid clk listening events log_error bind_address port.

Definition program (id : string) (argv : list string) : @cmd providers N T Z :=
  main tr PU_VERSION regex workspace fuel interrupted dial nibble listing_headers write_file create_directories
    show_double to_chars weakly_canonical (terminal_turn id) parse_line find_nothrow show_page stdin_lines stdin
    (program_serves id) shutdown meanwhile argv.


End Program.

(** ** The program on a disk *)

Definition demo_program (listening : string -> Z -> disk -> Listening) (argv : list string) : @cmd providers disk unit Z :=
  program (codec := bit_codec) no_servers "1" prefix_regex "/w" 9 file_flag (fun _ => false) silent same_side
    (fun _ => false) (fun _ => 7) (fun _ => 0) (fun _ => "") demo_ids (mkStaticEnv "Linux" "6.1") [] (fun _ _ n => n)
    (fun _ n => (n, None)) (fun _ => "") (fun _ => "") (fun _ p => inl p) (two_words (hd "" argv) (hd "" (tl argv))) boost_find
    (fun '(title, own) => title) [] "" file_flag (fun n => n) None (fun l => l) 7 (fun _ => 0) listening
    (fun _ _ => busy_day) (fun text => "[error] " +:+ text +:+ NL) "c" argv.


Example Port_taken_from_the_terminal :
  written_by (demo_program taken_port ["serve"] (cli_runtime cli_disk))
  = Some ([Stderr ("[error] Cannot bind 127.0.0.1:8080: Address already in use" +:+ NL)], Ok 1).
Proof. vm_compute. done. Qed.
