(* ===== verification/Logging.v ===== *)
(** * The log ([src/core/logging.cpp])

    The log is a file that rotates, with the errors on standard error too, and
    with [PU_LOG_JSON=1] every record is a JSON object on a line of its own, with
    what the thread noted of the request, the tool and the time it took.
    [Log_line_reads] is that a line reads back as what was logged.  spdlog is
    what takes the records; what it is told is modelled. *)
From Stdlib Require Import Ascii.
From S2P Require Export Prelude Text Clock.

(** ** Where the log lies *)

Definition LogDir (getenv : string -> option string) (current_path : string) : string :=
  match getenv "PU_HOME" with
  | Some home => path_join home "logs"
  | None => path_join (path_join current_path ".pu") "logs"
  end.

(** ** Records *)

Inductive level := trace | debug | info | warn | err | critical.

Definition level_number (l : level) : Z :=
  match l with trace => 0 | debug => 1 | info => 2 | warn => 3 | err => 4 | critical => 5 end.

(** [spdlog::level::to_string_view] *)
Definition level_name (l : level) : string :=
  match l with
  | trace => "trace" | debug => "debug" | info => "info" | warn => "warning" | err => "error" | critical => "critical"
  end.

(** What a thread notes for its lines. *)
Record log_notes := mkNotes { g_request_id : string; g_tool_name : string; g_duration_ms : Z }.

Definition no_notes : log_notes := mkNotes "" "" (-1).
Definition BeginRequest (uuid : string) (g : log_notes) : log_notes := mkNotes uuid (g_tool_name g) (g_duration_ms g).
Definition ClearLogRequestId (g : log_notes) : log_notes := mkNotes "" (g_tool_name g) (g_duration_ms g).
Definition SetLogToolName (name : string) (g : log_notes) : log_notes := mkNotes (g_request_id g) name (g_duration_ms g).
Definition ClearLogToolName (g : log_notes) : log_notes := mkNotes (g_request_id g) "" (g_duration_ms g).
Definition SetLogDurationMs (ms : Z) (g : log_notes) : log_notes := mkNotes (g_request_id g) (g_tool_name g) ms.
Definition ClearLogDurationMs (g : log_notes) : log_notes := mkNotes (g_request_id g) (g_tool_name g) (-1).

Definition backslash : ascii := "\"%char.
Definition hex_digit (z : Z) : ascii := default "0"%char (String.get (Z.to_nat z) "0123456789abcdef").

(** A byte as it is written within a JSON string. *)
Definition escape_char (c : ascii) : string :=
  let b := byte_z c in
  let short d := String backslash (String d "") in
  if b =? 34 then short dquote
  else if b =? 92 then short backslash
  else if b =? 8 then short "b"%char
  else if b =? 12 then short "f"%char
  else if b =? 10 then short "n"%char
  else if b =? 13 then short "r"%char
  else if b =? 9 then short "t"%char
  else if b <? 32 then
    String backslash (String "u"%char (String "0"%char (String "0"%char
      (String (hex_digit (b / 16)) (String (hex_digit (b mod 16)) "")))))
  else String c "".

Fixpoint JsonEscape (s : string) : string :=
  match s with "" => "" | String c s => escape_char c +:+ JsonEscape s end.

Fixpoint zeros (n : nat) : string := match n with O => "" | S n => String "0"%char (zeros n) end.

(** A time point is a number of nanoseconds; [duration_cast] and [to_time_t]
    drop fractions towards zero.  The date is written as the board writes it,
    but for the [Z]. *)
Definition FormatTimestamp (tp : Z) : string :=
  let ms := Z.quot tp (10 ^ 6) in
  let secs := Z.quot ms 1000 in
  let ms_part := signed_decimal (ms - secs * 1000) in
  let t := Z.quot tp (10 ^ 9) in
  stake (slen (Stamp t) - 1) (Stamp t) +:+ "." +:+ zeros (3 - slen ms_part) +:+ ms_part +:+ "Z".

Record log_msg := mkLogMsg { lm_time : Z; lm_level : level; lm_payload : string }.

(** A member whose value is a string, or a number. *)
Definition member (key value : string) : string := quoted key +:+ ":" +:+ quoted value.

Definition number_member (key : string) (z : Z) : string := quoted key +:+ ":" +:+ decimal z.

(** [JsonLogFormatter::format] *)
Definition format (g : log_notes) (msg : log_msg) : string :=
  "{" +:+ member "timestamp" (FormatTimestamp (lm_time msg)) +:+ ","
  +:+ member "level" (level_name (lm_level msg)) +:+ ","
  +:+ (if sempty (g_request_id g) then "" else member "request_id" (JsonEscape (g_request_id g)) +:+ ",")
  +:+ (if sempty (g_tool_name g) then "" else member "tool_name" (JsonEscape (g_tool_name g)) +:+ ",")
  +:+ (if 0 <=? g_duration_ms g then number_member "duration_ms" (g_duration_ms g) +:+ "," else "")
  +:+ member "message" (JsonEscape (lm_payload msg)) +:+ "}" +:+ NL.

(** ** Loggers *)

Inductive sink := ConsoleSink | FileSink (path : string) (max_size max_files : Z).

Record Logger := mkLogger {
  lg_sinks : list (sink * level); lg_level : level; lg_flush_on : level; lg_json : bool; lg_async : bool
}.

(** The loggers of the process: the one that is asked, and those it replaced. *)
Record log_state := mkLogState { default_logger : Logger; kept : list Logger; thread_pool : option (Z * Z) }.

Definition LogThreadPool (st : log_state) : log_state :=
  mkLogState (default_logger st) (kept st) (match thread_pool st with Some pool => Some pool | None => Some (8192, 1) end).

Definition KeepAlive (logger : Logger) (st : log_state) : log_state :=
  mkLogState (default_logger st) (kept st ++ [logger]) (thread_pool st).

Definition ParseLevel (log_level : string) : level :=
  if bool_decide (log_level = "trace") then trace
  else if bool_decide (log_level = "debug") then debug
  else if bool_decide (log_level = "info") then info
  else if bool_decide (log_level = "warn") then warn
  else if bool_decide (log_level = "error") then err
  else if bool_decide (log_level = "critical") then critical
  else info.

Definition new_logger (log_level : string) (getenv : string -> option string) (current_path : string) : Logger :=
  let level := ParseLevel log_level in
  let use_json := bool_decide (getenv "PU_LOG_JSON" = Some "1") in
  mkLogger [(ConsoleSink, err); (FileSink (path_join (LogDir getenv current_path) "pu.log") (1024 * 1024 * 5) 3, level)]
    level err use_json (negb use_json).

(** [failed] is what the file system says to the directory, which is made first. *)
Definition InitLogging (log_level : string) (getenv : string -> option string) (current_path : string)
    (failed : option string) (st : log_state) : log_state * res unit :=
  match failed with
  | Some what => (st, Throw (StdException what))
  | None =>
      let logger := new_logger log_level getenv current_path in
      let st := if lg_async logger then LogThreadPool st else st in
      (KeepAlive (default_logger st) (mkLogState logger (kept st) (thread_pool st)), Ok tt)
  end.

(** The sinks a record of a level reaches. *)
Definition reaches (lg : Logger) (l : level) : list sink :=
  if level_number l <? level_number (lg_level lg) then []
  else map fst (List.filter (fun p => level_number (snd p) <=? level_number l) (lg_sinks lg)).

(** ** Reading a line *)

Definition unescape (c : ascii) : option ascii :=
  if decide (c = dquote) then Some dquote
  else if decide (c = backslash) then Some backslash
  else if decide (c = "b"%char) then Some (ascii_of_nat 8)
  else if decide (c = "f"%char) then Some (ascii_of_nat 12)
  else if decide (c = "n"%char) then Some (ascii_of_nat 10)
  else if decide (c = "r"%char) then Some (ascii_of_nat 13)
  else if decide (c = "t"%char) then Some (ascii_of_nat 9)
  else None.

Definition hex_value (c : ascii) : option Z :=
  let b := byte_z c in
  if (48 <=? b) && (b <=? 57) then Some (b - 48) else if (97 <=? b) && (b <=? 102) then Some (b - 87) else None.

(** A string up to the quote that ends it, with the escapes that name a byte. *)
Fixpoint read_string (s : string) : option (string * string) :=
  match s with
  | "" => None
  | String c s =>
      if decide (c = dquote) then Some ("", s)
      else if decide (c = backslash) then
        match s with
        | String e s =>
            if decide (e = "u"%char) then
              match s with
              | String y (String z (String h (String l s))) =>
                  if bool_decide (y = "0"%char) && bool_decide (z = "0"%char) then
                    a ← hex_value h; b ← hex_value l; '(t, rest) ← read_string s;
                    Some (String (ascii_of_nat (Z.to_nat (16 * a + b))) t, rest)
                  else None
              | _ => None
              end
            else d ← unescape e; '(t, rest) ← read_string s; Some (String d t, rest)
        | "" => None
        end
      else if byte_z c <? 32 then None
      else '(t, rest) ← read_string s; Some (String c t, rest)
  end.

Definition read_value (s : string) : option ((string + Z) * string) :=
  match s with
  | String c s' =>
      if decide (c = dquote) then '(t, rest) ← read_string s'; Some (inl t, rest)
      else let '(d, rest) := split_digits s in z ← digits_value d 0; Some (inr z, rest)
  | "" => None
  end.

(** The members of an object, to the end of its line. *)
Fixpoint read_members (fuel : nat) (s : string) : option (list (string * (string + Z))) :=
  match fuel with
  | O => None
  | S fuel =>
      s ← scan_char dquote s; '(key, s) ← read_string s; s ← scan_char ":" s; '(v, s) ← read_value s;
      match s with
      | String "," s => more ← read_members fuel s; Some ((key, v) :: more)
      | String "}" s => if decide (s = NL) then Some [(key, v)] else None
      | _ => None
      end
  end.

Definition read_line (s : string) : option (list (string * (string + Z))) := s ← scan_char "{" s; read_members 8 s.

(** ** What is written reads back *)

Lemma read_escape_char c t : read_string (escape_char c +:+ t) = '(u, rest) ← read_string t; Some (String c u, rest).
Proof. destruct c as [[] [] [] [] [] [] [] []]; cbn; reflexivity. Qed.

Lemma read_escape s rest : read_string (JsonEscape s +:+ String dquote rest) = Some (s, rest).
Proof.
  induction s as [|c s IH]; [done|]. cbn [JsonEscape]. by rewrite <- sapp_assoc, read_escape_char, IH.
Qed.

(** A text that needs no escapes. *)
Definition plain_char (c : ascii) : bool := (32 <=? byte_z c) && negb (byte_z c =? 34) && negb (byte_z c =? 92).

Lemma escape_plain s : all_chars plain_char s = true -> JsonEscape s = s.
Proof.
  induction s as [|c s IH]; [done|]. cbn [all_chars JsonEscape]. intros [Hc Hs]%andb_true_iff. rewrite IH by done.
  by destruct c as [[] [] [] [] [] [] [] []].
Qed.

Lemma count_escape s : count_char nl (JsonEscape s) = 0%nat.
Proof.
  induction s as [|c s IH]; [done|]. cbn [JsonEscape]. rewrite count_char_app, IH.
  by destruct c as [[] [] [] [] [] [] [] []].
Qed.

Lemma digits_plain s : all_chars is_digit s = true -> all_chars plain_char s = true.
Proof.
  induction s as [|c s IH]; [done|]. cbn [all_chars]. intros [Hc Hs]%andb_true_iff. rewrite IH by done.
  rewrite andb_true_r. by destruct c as [[] [] [] [] [] [] [] []].
Qed.

Lemma decimal_plain z : all_chars plain_char (decimal z) = true.
Proof. apply digits_plain, decimal_digits. Qed.

Lemma signed_plain z : all_chars plain_char (signed_decimal z) = true.
Proof. unfold signed_decimal. destruct (z <? 0); rewrite ?all_chars_app, decimal_plain; done. Qed.

Lemma two_digits_plain z : all_chars plain_char (two_digits z) = true.
Proof. unfold two_digits. destruct (z <? 10); rewrite ?all_chars_app, decimal_plain; done. Qed.

Lemma stake_plain n s : all_chars plain_char s = true -> all_chars plain_char (stake n s) = true.
Proof.
  revert s. induction n as [|n IH]; intros [|c s]; try done. cbn [all_chars stake]. intros [-> Hs]%andb_true_iff. by apply IH.
Qed.

Lemma FormatTimestamp_plain tp : all_chars plain_char (FormatTimestamp tp) = true.
Proof.
  assert (Hz : forall n, all_chars plain_char (zeros n) = true) by (induction n; done).
  unfold FormatTimestamp. cbv zeta. rewrite !all_chars_app, Hz, signed_plain, stake_plain; [done|].
  unfold Stamp, strftime_stamp. by rewrite !all_chars_app, signed_plain, !two_digits_plain.
Qed.

Lemma level_plain l : all_chars plain_char (level_name l) = true.
Proof. by destruct l. Qed.

(** *** Members *)

Lemma read_key key rest : all_chars plain_char key = true ->
  read_string (key +:+ String dquote rest) = Some (key, rest).
Proof. intros H. by rewrite <- (escape_plain key H) at 1; rewrite read_escape. Qed.

(** What is left of an object after a member. *)
Definition after_member (fuel : nat) (key : string) (v : string + Z) (s : string) : option (list (string * (string + Z))) :=
  match s with
  | String "," s => more ← read_members fuel s; Some ((key, v) :: more)
  | String "}" s => if decide (s = NL) then Some [(key, v)] else None
  | _ => None
  end.

Lemma read_member fuel key v rest : all_chars plain_char key = true ->
  read_members (S fuel) (member key (JsonEscape v) +:+ rest) = after_member fuel key (inl v) rest.
Proof.
  intros Hk. unfold member, quoted. cbn [String.append]. rewrite <- !sapp_assoc. cbn [String.append].
  cbn [read_members scan_char]. rewrite decide_True by done. cbn [mbind option_bind].
  rewrite <- ?sapp_assoc. cbn [String.append]. rewrite read_key by done. cbn [mbind option_bind scan_char].
  rewrite decide_True by done. cbn [mbind option_bind read_value]. rewrite decide_True by done.
  rewrite <- ?sapp_assoc. cbn [String.append]. by rewrite read_escape.
Qed.

Lemma split_digits_stops d c rest : all_chars is_digit d = true -> is_digit c = false ->
  split_digits (d +:+ String c rest) = (d, String c rest).
Proof.
  intros Hd Hc. induction d as [|x d IH]; cbn [String.append split_digits]; [by rewrite Hc|].
  cbn [all_chars] in Hd. apply andb_true_iff in Hd as [Hx Hd]. by rewrite Hx, IH.
Qed.

Lemma read_number fuel key z rest : all_chars plain_char key = true -> 0 <= z ->
  read_members (S fuel) (number_member key z +:+ String "," rest)
  = after_member fuel key (inr z) (String "," rest).
Proof.
  intros Hk Hz. unfold number_member, quoted. cbn [String.append]. rewrite <- !sapp_assoc. cbn [String.append read_members scan_char]. rewrite decide_True by done. cbn [mbind option_bind].
  rewrite <- ?sapp_assoc. cbn [String.append]. rewrite read_key by done. cbn [mbind option_bind scan_char].
  rewrite decide_True by done. cbn [mbind option_bind].
  assert (Hv : read_value (decimal z +:+ String "," rest) = Some (inr z, String "," rest)).
  { unfold read_value. destruct (decimal z +:+ String "," rest) as [|c s] eqn:E.
    - by destruct (decimal z).
    - rewrite decide_False; [|intros ->; pose proof (decimal_digits z) as Hd; pose proof (decimal_nonempty z);
        destruct (decimal z) as [|x d]; [done|]; cbn in E; injection E as -> _; done].
      rewrite <- E, split_digits_stops by (done || apply decimal_digits). by rewrite decimal_value. }
  by rewrite Hv.
Qed.

Lemma format_reads g msg :
  read_line (format g msg)
  = Some ([("timestamp", inl (FormatTimestamp (lm_time msg))); ("level", inl (level_name (lm_level msg)))]
          ++ (if sempty (g_request_id g) then [] else [("request_id", inl (g_request_id g))])
          ++ (if sempty (g_tool_name g) then [] else [("tool_name", inl (g_tool_name g))])
          ++ (if 0 <=? g_duration_ms g then [("duration_ms", inr (g_duration_ms g))] else [])
          ++ [("message", inl (lm_payload msg))]).
Proof.
  unfold read_line, format. cbn [String.append scan_char]. rewrite decide_True by done. cbn [mbind option_bind].
  rewrite <- (escape_plain _ (FormatTimestamp_plain _)) at 1. rewrite <- (escape_plain _ (level_plain _)) at 1.
  rewrite read_member by done. cbn [after_member String.append]. rewrite read_member by done. cbn [after_member String.append].
  destruct (sempty (g_request_id g)), (sempty (g_tool_name g)), (Z.leb_spec 0 (g_duration_ms g)); cbn [String.append];
    rewrite <- ?sapp_assoc; cbn [String.append];
    repeat (first [rewrite read_member by done | rewrite read_number by done]; cbn [after_member String.append app];
            rewrite <- ?sapp_assoc); done.
Qed.

Lemma count_plain s : all_chars plain_char s = true -> count_char nl s = 0%nat.
Proof. intros Hs. by rewrite <- (escape_plain s Hs), count_escape. Qed.

Lemma count_quoted s : count_char nl (quoted s) = count_char nl s.
Proof. unfold quoted. change (String dquote (s +:+ String dquote "")) with (String dquote "" +:+ s +:+ String dquote "").
  rewrite !count_char_app. change (count_char nl (String dquote "")) with 0%nat. lia. Qed.

Lemma count_member key v : count_char nl (member key v) = (count_char nl key + count_char nl v)%nat.
Proof. unfold member. rewrite !count_char_app, !count_quoted. change (count_char nl ":") with 0%nat. lia. Qed.

Lemma count_number key z : count_char nl (number_member key z) = count_char nl key.
Proof.
  unfold number_member. rewrite !count_char_app, count_quoted, (count_plain _ (decimal_plain z)).
  change (count_char nl ":") with 0%nat. lia.
Qed.

Lemma format_line g msg : count_char nl (format g msg) = 1%nat.
Proof.
  unfold format. rewrite !count_char_app, !count_member, (count_plain _ (FormatTimestamp_plain _)),
    (count_plain _ (level_plain _)), count_escape.
  assert (H : forall b x, count_char nl x = 0%nat -> count_char nl (if b : bool then "" else x) = 0%nat) by (by intros []).
  rewrite !H by (by rewrite count_char_app, count_member, count_escape).
  destruct (0 <=? _); rewrite ?count_char_app, ?count_number; reflexivity.
Qed.

(** C33: a record is one line, and the line reads back as what was logged: when, at
    what level, under which request, of which tool, how long it took where that
    was noted, and the message byte for byte, whatever it holds. *)
Theorem Log_line_reads g msg :
  read_line (format g msg)
  = Some ([("timestamp", inl (FormatTimestamp (lm_time msg))); ("level", inl (level_name (lm_level msg)))]
          ++ (if sempty (g_request_id g) then [] else [("request_id", inl (g_request_id g))])
          ++ (if sempty (g_tool_name g) then [] else [("tool_name", inl (g_tool_name g))])
          ++ (if 0 <=? g_duration_ms g then [("duration_ms", inr (g_duration_ms g))] else [])
          ++ [("message", inl (lm_payload msg))])
  /\ count_char nl (format g msg) = 1%nat.
Proof. split; [apply format_reads|apply format_line]. Qed.

(** Starting the log again keeps every logger a thread may still write to, and one
    pool for all of them; a directory that cannot be made changes nothing. *)
Lemma InitLogging_keeps log_level getenv cwd failed st lg :
  let st' := (InitLogging log_level getenv cwd failed st).1 in
  lg ∈ default_logger st :: kept st -> lg ∈ default_logger st' :: kept st'
  /\ (forall pool, thread_pool st = Some pool -> thread_pool st' = Some pool).
Proof.
  unfold InitLogging. destruct failed as [msg|]; [done|]. cbv zeta. intros H.
  assert (lg ∈ kept st ++ [default_logger st]).
  { apply elem_of_cons in H as [->|H]; apply elem_of_app; [right; by apply list_elem_of_singleton|by left]. }
  destruct (lg_async _); cbn; (split; [by apply elem_of_cons; right|]); [by intros pool ->|done].
Qed.

(** Errors are on the console too, nothing below them ever is, and the file has
    what is at least of the level asked for. *)
Theorem Log_reaches log_level getenv cwd l :
  (ConsoleSink ∈ reaches (new_logger log_level getenv cwd) l
     <-> level_number (ParseLevel log_level) <= level_number l /\ level_number err <= level_number l)
  /\ (FileSink (path_join (LogDir getenv cwd) "pu.log") (1024 * 1024 * 5) 3 ∈ reaches (new_logger log_level getenv cwd) l
        <-> level_number (ParseLevel log_level) <= level_number l).
Proof.
  unfold reaches, new_logger. cbn [lg_level lg_sinks List.filter fst snd].
  set (f := FileSink _ _ _). set (n := ParseLevel log_level).
  assert (Hf : ConsoleSink <> f) by done. clearbody n f.
  destruct n, l; cbn; rewrite ?elem_of_cons, ?elem_of_nil; (split; [|]); split; intros H; try lia; try tauto;
    try (destruct_or? H; congruence).
Qed.

(** ** Lines *)

(** A message of two lines, with a quote, and a control byte in a tool's name. *)
Example Two_lines :
  read_line (format (mkNotes "r1" (String (ascii_of_nat 1) "") 42) (mkLogMsg 1700000000123456789 info (quoted "a" +:+ NL +:+ "b")))
  = Some [("timestamp", inl "2023-11-14T22:13:20.123Z"); ("level", inl "info"); ("request_id", inl "r1");
          ("tool_name", inl (String (ascii_of_nat 1) "")); ("duration_ms", inr 42); ("message", inl (quoted "a" +:+ NL +:+ "b"))].
Proof. vm_compute. reflexivity. Qed.

(** An unknown level is the default; the JSON log is written by the thread itself. *)
Example Unknown_level :
  let lg := new_logger "loud" (fun name => if bool_decide (name = "PU_LOG_JSON") then Some "1" else None) "/w" in
  reaches lg info = [FileSink "/w/.pu/logs/pu.log" 5242880 3] /\ reaches lg debug = [] /\ lg_async lg = false.
Proof. vm_compute. done. Qed.
